(* ===== verification/_CoqProject ===== *)
-Q . S2P
Prelude.v
Metadata.v
Replication.v
Backend.v
MetadataSpec.v
ReplicationSpec.v
Names.v
Lifecycle.v
Hash.v
Objects.v
Staging.v
Coordinator.v
CoordinatorSpec.v
Repair.v
Service.v
ServiceSpec.v
ServiceProps.v
WorkerProps.v
Manager.v
Paths.v
Store.v
StoreSpec.v
StoreReliable.v
Metrics.v
Aes.v
Crypto.v
Utf8.v
Json.v
Times.v
Codec.v
Records.v
Bolt.v
DiskStore.v
DiskMetadata.v
DiskTable.v
DiskMetadataSpec.v
DiskQueue.v
DiskQueueSpec.v
DiskProps.v
Float64.v
JsonAny.v
Url.v
Http.v
HttpNet.v
HttpObjects.v
HttpObjectsSpec.v
ManagerApi.v
Cli.v
ApiSpec.v
StatProps.v
HttpProps.v
Threads.v
ServiceThreads.v
Interleave.v
Progress.v
Scenarios.v
ThreadScenarios.v
Sequential.v
HttpScenarios.v
Process.v
ProcessScenarios.v
Md5.v
Gob.v
Transport.v
FileServer.v
FileServerSpec.v
P2PRuns.v
P2PInv.v
P2PProps.v
P2PScenarios.v
