(* ===== verification/Prelude.v ===== *)
(** * distributed-fs: a verification development

    The program (Go, [src/distributed-fs]) is a small distributed file system.
    A manager process keeps metadata about files and storage nodes, places
    every new file version on a primary node and a few replicas, writes the
    content to the primary in chunks, and copies it to the other replicas
    later, from a queue of tasks with retries and leases; a background loop
    marks silent nodes, recovers abandoned tasks and plans repairs.  Storage
    nodes keep objects in a content-addressed directory tree.  An older
    peer-to-peer demo sends encrypted files between nodes.

    ** Parts, files and correspondence

    A Go method on a receiver of type [S] is a [GoM S A] of this file: a
    function from the state to a result ([Ok], [Err] with a Go error, or
    [Panic]) and the new state, which is kept when the method fails, as in Go.
    Definitions carry the names of the source (with a prefix such as [Service]
    or [Store] where two types share a method name, and a field prefix such as
    [fm_] for records); loop bodies are definitions of their own.

    - [Prelude]: errors, [GoM] and its reasoning principles ([respects],
      [panic_free], inversion of binds), wrap-around of 64-bit integers, clocks,
      sorting and the iteration of maps.
    - [Metadata]: metadata.go and the in-memory backend of metadata_backend.go,
      all operations.  [MetadataSpec]: histories of metadata calls.
    - [Replication]: replication.go, all operations (planner, task builder, task
      life cycle, in-memory queue).  [ReplicationSpec], [Lifecycle]: placement,
      back-off, ordering; the task table as a transition system.
    - [Backend]: the interfaces [MetadataBackend] and [ReplicationTaskQueue] as
      classes, each with laws that relate every operation to a pure
      specification ([Catalog], [TaskTable]) and allow I/O failures; the
      in-memory implementations are instances.
    - [Names]: the object and task names of object.go and replication.go.
    - [Hash]: SHA-256, SHA-1 and hexadecimal of the Go library, executable.
    - [Objects]: object.go: the interface [ObjectStore] with its laws, and the
      replicator.
    - [Staging]: stageReader of managed_file_service.go, which cuts a stream
      into chunks, with the reference definition of the manifest.
    - [Coordinator], [CoordinatorSpec], [Repair]: coordinator.go, all methods,
      written and verified against the two backend interfaces.
    - [Service], [ServiceSpec], [ServiceProps], [WorkerProps], [Metrics]:
      worker.go and managed_file_service.go, all methods.
    - [Manager]: one round of managerLoop of main.go.
    - [Threads]: programs of atomic calls, pools of threads, and reasoning by what
      a thread relies on and guarantees.  [ServiceThreads]: the methods of the
      coordinator, the worker and the service, and managerLoop, as programs of
      their calls on the shared stores and of [writeLock]; the process of the
      manager as a pool of them.  [Sequential]: a thread that runs
      alone is the method.  [Interleave], [Progress]: what holds of all schedules.
      [ThreadScenarios]: schedules.
    - [Paths], [Store], [StoreSpec], [StoreReliable]: store.go over a model of
      the file system, and LocalObjectStore of object.go as an instance of
      [ObjectStore].
    - [Aes], [Crypto]: AES-CTR of the Go library and crypto.go.
    - [Utf8], [Json], [Times], [Codec], [Records]: encoding/json with RFC 3339
      times, as far as the program's records need it: the text written, the
      parser, the codec of each Go type, and that records survive both.
    - [Bolt], [DiskStore], [DiskTable]: the interface of bbolt with its documented
      laws (a class, with a map as instance), transactions of the two disk
      stores, and buckets that hold a table of records.
    - [DiskMetadata], [DiskMetadataSpec]: metadata_disk.go, all methods.
      [DiskQueue], [DiskQueueSpec]: replication_disk.go, all methods.
      [DiskProps]: the refinement of the pure specifications of [Backend].
    - [Float64], [JsonAny]: numbers as float64, with the shortest decimal that
      strconv prints, and JSON values decoded into any.
    - [Url]: the functions of strings and net/url under the HTTP layer.
    - [Http]: requests, responses, queries, and the storage node's handler of
      http_api.go.  [HttpNet]: http.Client over a network of servers whose
      exchanges can fail half way.
    - [HttpObjects], [HttpObjectsSpec]: http_object_store.go, all methods, and its
      instances of [ObjectStoreLaws] and [ReliableObjectStore] on a fixed set of
      nodes.
    - [ManagerApi], [ApiSpec]: the manager's handler of http_api.go, all routes.
      [Cli]: the client commands, flags and heartbeats of main.go.  [HttpProps],
      [StatProps]: the properties of the HTTP layer and of stat and nodes.
    - [Process]: runManager, runStorage and main of main.go up to the state a
      process serves, and a round of the heartbeat loop.  [ProcessScenarios]: runs.
    - [Md5]: hashKey of crypto.go.  [Gob]: the messages of server.go in the wire
      format of encoding/gob.
    - [Transport]: package p2p: peers, the frame decoder, the read loop of a
      connection.  [FileServer]: server.go, all methods, the listener of
      tcp_transport.go and makeServer of main.go.
    - [FileServerSpec], [P2PRuns]: what the handlers do on streams that arrive cut
      in any way, and the schedules in which a file goes from one server to
      another.  [P2PInv]: the goroutines, callers and connections of a server as a
      step relation, with its invariant.  [P2PProps], [P2PScenarios]: the
      properties of the file server, and runs of two servers.
    - [Scenarios], [HttpScenarios]: concrete runs, on the in-memory backends with
      the local store and on a cluster with two storage nodes behind HTTP;
      instances of the theorems, and runs that show defects.

    The service calls the coordinator and the object store; the coordinator
    calls the metadata backend, the planner and the queue; the worker shares
    the coordinator and the objects of the service.  The theorems of the
    coordinator and the service hold for every backend, queue and object store
    that satisfies the laws of its interface.  The remote object store satisfies
    them like the local one, so they hold with the chunks behind HTTP.  The disk
    stores refine the same specifications call by call on arguments that JSON
    can carry, not on all arguments, so they are compared with the specifications
    over histories of calls; runManager builds its service on them, and the theorem
    about it is about its start.  The peer-to-peer server shares the local store
    and the encryption with the rest and nothing else.

    ** What the theorems show

    - End to end: a [Put] and the [Get] after it ([Put_Get_roundtrip]); what
      [Get] returns is verified content whatever the stores answer
      ([Get_integrity]); what [Put] publishes and what a failed [Put] leaves
      ([Put_publishes], [Put_failure_atomic]); deletion, on a working system and on
      an object store that fails ([Delete_then_Get], [Delete_tombstones]);
      replication completes ([Put_replicates]) and the manager's round ends
      ([manager_tick_terminates]); the invariant of the control plane over all
      histories of calls ([service_history_ok]).
    - Concurrency: any number of requests of every kind beside the manager loop,
      in any order of their calls, keep the metadata well formed and the tasks in
      the shape of their states ([interleaving_keeps_invariant]); a version is
      published only after its chunks were written under it
      ([interleaved_publication]); replies match the catalog and the uploads
      ([interleaved_replies]); and no request can be shut out
      ([requests_are_answered]).  The whole invariant of tasks needs the manager
      loop to be the only worker: requests to /replication/run start others, which
      break the bound on attempts ([workers_exceed_attempts],
      [done_task_runs_again]).  A thread that runs alone is the method
      ([threads_sequential]).
    - Worker and replicator: [WorkOnce_copies], [WorkOnce_fails],
      [replicateChunks_copies].
    - Chunking: [stageReader_correct] (the loop computes the reference manifest
      however the stream is cut), [manifest_tiles].
    - Coordinator: [BeginWrite_publishes], [ReadCandidates_exact],
      [PlanRepair_exact], [repairMissingReplicas_fills].
    - Metadata and tasks: versions only move forward ([version_history],
      [next_version_reserved]), well-formedness, the life cycle of tasks, the
      retry schedule, placement, the queue's order, names.
    - Disk: every history of calls on a disk store gives the results and the
      contents of the pure specification ([disk_metadata_refines],
      [disk_queue_refines]), as long as no call has to write inside a ForEach;
      opening an existing database without interrupted tasks finds the files and
      tasks again ([manager_starts], by way of [manager_restart]); records survive
      JSON ([record_roundtrip]) unless a key is not UTF-8 ([byte_key_lost]).
    - HTTP, for keys that the API can name (not empty, without percent signs and
      without two dots in a row): a file sent through it comes back ([api_put_get]); the
      remote store is safe whatever the network does ([remote_store_safe]); URLs
      reach what they name ([url_roundtrip]); rejected requests change nothing
      ([api_rejections_clean]); heartbeats ([heartbeat_registers]); what stat and
      nodes print is the record ([stat_prints], [nodes_prints]).
    - Local store: round trip, absence of collisions up to SHA-1, the layout of
      paths.  Encryption: [crypt_roundtrip], [WriteDecrypt_roundtrip].
    - File server: what one server stores its peer keeps encrypted
      ([Store_replicates]), and what a peer keeps [Get] returns ([Get_restores]),
      when the read loop takes the marker of a stream before the event loop handles
      its message or [Get] reads, which nothing but a sleep provides; the invariant of every reachable state ([reachable_server_wf]);
      messages fit a frame ([messages_fit]);
      what happens otherwise: [early_handler_panics], [dead_peer_fails_Store],
      [failed_Get_leaves_empty], [missing_file_blocks_Get],
      [truncated_stream_stored], [failed_store_stops_reading].
    - Defects: [stale_copy_marks_healthy], [lost_replica_not_repaired],
      [dotted_key_unwritable] and the examples of [Scenarios], [ThreadScenarios],
      [HttpScenarios], [ProcessScenarios] and [P2PScenarios].

    ** Modelling choices

    Readers are scripts of the results of their [Read] calls; clocks are
    sequences of readings; temporary files and the file system have scripted
    failures, so every theorem that does not ask for a working system holds for
    all of them.  Integers that the program increments or multiplies without a
    bound (versions, attempts, back-off) wrap at 64 bits; file sizes and counts
    are mathematical integers.  The iteration order of a Go map is the order of
    [map_to_list]; where the source sorts the result the order does not matter
    (proved), and the theorems on the loops that do not sort (repair of existing
    replicas, deletion, metrics) do not mention it.  Fuel: the loops of
    [stageReader] and [removeEmptyParents] are given the length of their input,
    and are shown to need no more; [run_tasks] is shown to stop for every fuel
    above the number of pending tasks; reading a connection is given the number of
    bytes that are there.  JSON: the decoder takes the record states the program
    declares, and time texts as RFC 3339 has them; a nil slice and an empty one are the same value.  Three
    passes of the disk stores (MarkExpiredNodes, RequeueExpiredRunning and the
    restoration of tasks at the start) put records into a bucket from inside its
    ForEach, where the documentation of bbolt leaves the result undefined.  They
    are modelled as they are written, the laws of bbolt say nothing of such a
    ForEach, and the theorems on the disk stores cover the passes that find
    nothing to write.
    URLs: authorities are host names or IPv4 addresses with a port; texts of
    errors of library calls are abbreviated.  The remote store is verified between
    two registrations of nodes, on the states with one topology.  The theorems on
    the service take a method for one step; [Interleave] and [Progress] take a call
    on the metadata store, the queue or the object store for one step.  The mutex
    of the metadata store and the transactions of the disk stores make the calls
    atomic; the in-memory queue has no mutex and is safe only without concurrent
    requests, which runManager, on the disk queue, does not need.  There the
    endless loop of the manager is a thread that makes any number of rounds with
    any number of copies each; the theorems hold for all these numbers, so of every
    state that the loop reaches, and none of them says that it ends.
    In the file server a call that has to wait ([WaitM])
    is taken when it can run to its end; [Store] and [Get] are two steps, before
    and after their sleep, and the order in which Go visits the map of peers is an
    argument.  Both ends of a connection run this program: the gob decoder reads
    over the type descriptors, whose numbers are fixed.  Random bytes, and what
    dialling, listening and accepting return, are arguments.

    ** Not modelled

    The sockets of the HTTP servers, tickers, signals and the shutdown of main.go;
    the sleeps of the peer-to-peer demo, whose rounds are runs of [P2PScenarios];
    closing and removing temporary files, whose results nothing uses; GOBDecoder of
    p2p/encoding.go, which nothing uses; lines that are only logged.  None of them
    computes anything that the parts above depend on. *)

From Stdlib Require Import ZArith Strings.Byte.
From stdpp Require Export sorting gmap strings fin_maps pretty numbers.
From stdpp Require Export list.
From stdpp Require Import options.

(** ** Go errors *)

(** The error numbers of the system calls the package makes. *)
Inductive Errno :=
  | ENOENT
  | ENOTDIR
  | EISDIR
  | ENOTEMPTY
  | OtherErrno (msg : string).

#[export] Instance Errno_eq_dec : EqDecision Errno.
Proof. solve_decision. Defined.

Definition errno_string (e : Errno) : string :=
  match e with
  | ENOENT => "no such file or directory"
  | ENOTDIR => "not a directory"
  | EISDIR => "is a directory"
  | ENOTEMPTY => "directory not empty"
  | OtherErrno msg => msg
  end.

(** The sentinel errors of the package, the ones of [io] and [os] it returns,
    and [ErrOther] for any other error value, identified by its message. *)
Inductive GoError :=
  | ErrMetadataNotFound
  | ErrReplicaNotFound
  | ErrNoHealthyNodes
  | ErrPrimaryUnavailable
  | ErrTaskNotFound
  | ErrFileDeleted
  | ErrNoReadableReplicas
  | ErrNoPendingTasks
  | ErrChecksumMismatch
  | ErrShortWrite
  | PathError (op path : string) (errno : Errno)
  | ErrOther (msg : string).

#[export] Instance GoError_eq_dec : EqDecision GoError.
Proof. solve_decision. Defined.

(** [err.Error()]. *)
Definition error_string (e : GoError) : string :=
  match e with
  | ErrMetadataNotFound => "metadata not found"
  | ErrReplicaNotFound => "replica not found"
  | ErrNoHealthyNodes => "no healthy nodes available"
  | ErrPrimaryUnavailable => "primary replica is not available"
  | ErrTaskNotFound => "replication task not found"
  | ErrFileDeleted => "file is deleted"
  | ErrNoReadableReplicas => "no readable replicas available"
  | ErrNoPendingTasks => "no pending replication tasks"
  | ErrChecksumMismatch => "object checksum mismatch"
  | ErrShortWrite => "short write"
  | PathError op path errno => op +:+ " " +:+ path +:+ ": " +:+ errno_string errno
  | ErrOther msg => msg
  end.

(** ** Go functions: results and effects *)

(** The outcome of a Go call: a value, a non-nil error, or a panic. *)
Inductive Res (A : Type) :=
  | Ok (a : A)
  | Err (e : GoError)
  | Panic.
Arguments Ok {A} a.
Arguments Err {A} e.
Arguments Panic {A}.

(** A method on a receiver of type [S]: state passing, with the state kept
    when the method fails (Go has no rollback). *)
Definition GoM (S A : Type) : Type := S → Res A * S.

#[export] Instance gom_ret S : MRet (GoM S) := λ A a s, (Ok a, s).
#[export] Instance gom_bind S : MBind (GoM S) := λ A B k c s,
  match c s with
  | (Ok a, s1) => k a s1
  | (Err e, s1) => (Err e, s1)
  | (Panic, s1) => (Panic, s1)
  end.

(** [return ..., err] *)
Definition fail {S A} (e : GoError) : GoM S A := λ s, (Err e, s).
Definition panic {S A} : GoM S A := λ s, (Panic, s).
Definition get_state {S} : GoM S S := λ s, (Ok s, s).
Definition put_state {S} (s' : S) : GoM S unit := λ _, (Ok tt, s').
Definition gets {S A} (f : S → A) : GoM S A := λ s, (Ok (f s), s).
Definition modify {S} (f : S → S) : GoM S unit := λ s, (Ok tt, f s).

(** A call to a function that has no receiver. *)
Definition lift_res {S A} (r : Res A) : GoM S A := λ s, (r, s).

(** [x, err := call()] where the caller looks at [err] itself. *)
Definition try {S A} (c : GoM S A) : GoM S (Res A) := λ s,
  match c s with
  | (Ok a, s1) => (Ok (Ok a), s1)
  | (Err e, s1) => (Ok (Err e), s1)
  | (Panic, s1) => (Panic, s1)
  end.

(** A call whose results, error included, are discarded. *)
Definition ignore {S A} (c : GoM S A) : GoM S unit := λ s,
  match c s with
  | (Panic, s1) => (Panic, s1)
  | (_, s1) => (Ok tt, s1)
  end.

(** A method of a field of the receiver. *)
Definition zoom {S T A} (get : S → T) (set : T → S → S) (c : GoM T A) : GoM S A :=
  λ s, let '(r, t) := c (get s) in (r, set t s).

(** [for _, x := range xs { body }], stopping at the first error. *)
Fixpoint for_each {S A} (xs : list A) (body : A → GoM S unit) : GoM S unit :=
  match xs with
  | [] => mret tt
  | x :: xs => body x ;; for_each xs body
  end.

(** The same loop with an accumulator. *)
Fixpoint for_fold {S A B} (xs : list A) (acc : B) (body : B → A → GoM S B) : GoM S B :=
  match xs with
  | [] => mret acc
  | x :: xs => acc ← body acc x; for_fold xs acc body
  end.

(** ** Machine integers *)

(** Go's [uint64] and [int64]/[int] wrap around. *)
Definition wrap_u64 (z : Z) : Z := (z `mod` 2 ^ 64)%Z.
Definition wrap_s64 (z : Z) : Z := ((z + 2 ^ 63) `mod` 2 ^ 64 - 2 ^ 63)%Z.

Definition in_u64 (z : Z) : Prop := (0 ≤ z < 2 ^ 64)%Z.
Definition in_s64 (z : Z) : Prop := (- 2 ^ 63 ≤ z < 2 ^ 63)%Z.

(** [len(x)] *)
Definition zlen {A} (l : list A) : Z := Z.of_nat (length l).

(** ** Time *)

(** A [time.Time] is an instant: nanoseconds since the zero [time.Time{}].
    [UTC()] changes the location, not the instant. *)
Abbreviation Time := Z (only parsing).
(** A [time.Duration] is an [int64] of nanoseconds. *)
Abbreviation Duration := Z (only parsing).

Definition zero_time : Time := 0%Z.
Definition IsZero (t : Time) : bool := (t =? 0)%Z.
Definition Before (t u : Time) : bool := (t <? u)%Z.
Definition After (t u : Time) : bool := (u <? t)%Z.
Definition TimeAdd (t : Time) (d : Duration) : Time := (t + d)%Z.

Definition Second : Duration := 1000000000%Z.
Definition Minute : Duration := (60 * Second)%Z.

(** The [now func() time.Time] field of the stores: successive readings. *)
Record Clock := { readings : nat → Time; taken : nat }.

Definition now (c : Clock) : Time * Clock :=
  (readings c (taken c), {| readings := readings c; taken := S (taken c) |}).

(** A clock stopped at [t], as the Go tests install one. *)
Definition stopped (t : Time) : Clock := {| readings := λ _, t; taken := 0 |}.

(** ** Lists *)

(** In a list whose keys are distinct, equal keys mean equal elements. *)
Lemma NoDup_fmap_elem {A B} (f : A → B) (l : list A) x y :
  NoDup (f <$> l) → x ∈ l → y ∈ l → f x = f y → x = y.
Proof.
  intros Hnd Hx Hy Hf.
  apply list_elem_of_lookup in Hx as [i Hi]. apply list_elem_of_lookup in Hy as [j Hj].
  assert (i = j) as ->; [|congruence].
  eapply (NoDup_lookup _ i j (f x)); [done|..]; rewrite list_lookup_fmap, ?Hi, ?Hj;
    simpl; congruence.
Qed.

Lemma elem_of_take_sub {A} k (l : list A) x : x ∈ take k l → x ∈ l.
Proof. rewrite <-(take_drop k l) at 2. set_solver. Qed.

Lemma StronglySorted_take {A} (R : relation A) k l x y :
  StronglySorted R l → x ∈ take k l → y ∈ drop k l → R x y.
Proof.
  intros Hs Hx Hy. rewrite <-(take_drop k l) in Hs.
  by eapply StronglySorted_app_1_elem_of.
Qed.

Lemma StronglySorted_sublist {A} (R : relation A) l k :
  sublist l k → StronglySorted R k → StronglySorted R l.
Proof.
  induction 1 as [|x l k Hlk IH|x l k Hlk IH]; intros Hs; [done|..];
    apply StronglySorted_cons in Hs as [Hx Hs]; [|by auto].
  apply StronglySorted_cons. split; [|by auto].
  rewrite Forall_forall in *. intros y Hy. apply Hx. by eapply sublist_subseteq.
Qed.

(** ** Sorting and map iteration *)

(** [sort.Slice] on a string field. *)
Definition by_key {A} (key : A → string) (x y : A) : Prop := String.le (key x) (key y).
#[export] Instance by_key_dec {A} (key : A → string) : RelDecision (by_key key).
Proof. intros x y. unfold by_key. apply _. Defined.
#[export] Instance by_key_trans {A} (key : A → string) : Transitive (by_key key).
Proof. intros x y z Hxy Hyz. unfold by_key in *. by trans (key y). Qed.
#[export] Instance by_key_total {A} (key : A → string) : Total (by_key key).
Proof. intros x y. unfold by_key. apply (total String.le). Qed.

Definition sort_by {A} (key : A → string) (l : list A) : list A :=
  merge_sort (by_key key) l.

(** [for _, v := range m]: the values of a map in its iteration order. *)
Definition range_values {V} (m : gmap string V) : list V := (map_to_list m).*2.
Definition range_keys {V} (m : gmap string V) : list string := (map_to_list m).*1.

Create HintDb go.
Create Rewrite HintDb go.

Lemma sort_by_Permutation {A} (key : A → string) l : sort_by key l ≡ₚ l.
Proof. apply merge_sort_Permutation. Qed.

Lemma elem_of_sort_by {A} (key : A → string) l x : x ∈ sort_by key l ↔ x ∈ l.
Proof. by rewrite sort_by_Permutation. Qed.

Lemma length_sort_by {A} (key : A → string) l : length (sort_by key l) = length l.
Proof. by rewrite sort_by_Permutation. Qed.

Lemma Sorted_sort_by {A} (key : A → string) l : StronglySorted (by_key key) (sort_by key l).
Proof. apply StronglySorted_merge_sort; apply _. Qed.

(** Sorting by a key that has no duplicates hides the order of the input, and
    so the iteration order of the map the input came from. *)
Lemma sort_by_unique {A} (key : A → string) l1 l2 :
  NoDup (key <$> l1) → l1 ≡ₚ l2 → sort_by key l1 = sort_by key l2.
Proof.
  intros Hnd Hp.
  apply (StronglySorted_unique_strong (by_key key)); [|apply Sorted_sort_by..|].
  - intros x y Hx%elem_of_sort_by Hy%elem_of_sort_by Hxy Hyx.
    rewrite <-Hp in Hy. eapply NoDup_fmap_elem; eauto. by apply (anti_symm String.le).
  - by rewrite !sort_by_Permutation.
Qed.

Lemma list_filter_all {A} (P : A → Prop) `{∀ x, Decision (P x)} (l : list A) :
  (∀ x, x ∈ l → P x) → filter P l = l.
Proof.
  induction l as [|x l IH]; intros Hl; [done|].
  rewrite filter_cons_True by (apply Hl; by left). f_equal. apply IH. intros. apply Hl. by right.
Qed.

Lemma list_filter_none {A} (P : A → Prop) `{∀ x, Decision (P x)} (l : list A) :
  (∀ x, x ∈ l → ¬ P x) → filter P l = [].
Proof.
  induction l as [|x l IH]; intros Hl; [done|].
  rewrite filter_cons_False by (apply Hl; by left). apply IH. intros. apply Hl. by right.
Qed.

Lemma sort_by_NoDup {A} (key : A → string) l : NoDup (key <$> l) → NoDup (key <$> sort_by key l).
Proof. intros Hl. by rewrite sort_by_Permutation. Qed.

Lemma elem_of_range_values {V} (m : gmap string V) v :
  v ∈ range_values m ↔ ∃ k, m !! k = Some v.
Proof.
  unfold range_values. rewrite list_elem_of_fmap. split.
  - intros ([k v'] & -> & H). exists k. by apply elem_of_map_to_list.
  - intros [k H]. exists (k, v). split; [done|]. by apply elem_of_map_to_list.
Qed.

Lemma elem_of_range_keys {V} (m : gmap string V) k :
  k ∈ range_keys m ↔ is_Some (m !! k).
Proof.
  unfold range_keys. rewrite list_elem_of_fmap. split.
  - intros ([k' v'] & -> & H%elem_of_map_to_list). eauto.
  - intros [v H]. exists (k, v). split; [done|]. by apply elem_of_map_to_list.
Qed.

Lemma NoDup_range_keys {V} (m : gmap string V) : NoDup (range_keys m).
Proof. apply NoDup_fst_map_to_list. Qed.

(** When every value carries its key, the values of a map have distinct keys. *)
Lemma NoDup_range_values {V} (key : V → string) (m : gmap string V) :
  map_Forall (λ k v, key v = k) m → NoDup (key <$> range_values m).
Proof.
  intros Hm. unfold range_values. rewrite <-list_fmap_compose.
  rewrite (list_fmap_ext _ fst); [apply NoDup_fst_map_to_list|].
  intros i [k v] Hi%list_elem_of_lookup_2%elem_of_map_to_list. simpl. by apply Hm.
Qed.

Lemma zlen_app {A} (l k : list A) : zlen (l ++ k) = (zlen l + zlen k)%Z.
Proof. unfold zlen. rewrite length_app. lia. Qed.

(** ** Reasoning about [GoM] *)

Section gom.
Context {S : Type}.

Lemma gom_bind_inv {A B} (c : GoM S A) (k : A → GoM S B) s r s' :
  (c ≫= k) s = (r, s') →
  (∃ a s1, c s = (Ok a, s1) ∧ k a s1 = (r, s')) ∨
  (∃ e, c s = (Err e, s') ∧ r = Err e) ∨
  (c s = (Panic, s') ∧ r = Panic).
Proof.
  unfold mbind, gom_bind. destruct (c s) as [[a|e|] s1]; intros H; simplify_eq; naive_solver.
Qed.

Lemma gom_bind_ok {A B} (c : GoM S A) (k : A → GoM S B) s a s1 :
  c s = (Ok a, s1) → (c ≫= k) s = k a s1.
Proof. intros H. unfold mbind, gom_bind. by rewrite H. Qed.

Lemma gom_bind_err {A B} (c : GoM S A) (k : A → GoM S B) s e s1 :
  c s = (Err e, s1) → (c ≫= k) s = (Err e, s1).
Proof. intros H. unfold mbind, gom_bind. by rewrite H. Qed.

Lemma try_inv {A} (c : GoM S A) s r s' :
  try c s = (r, s') →
  (∃ r0, c s = (r0, s') ∧ r = Ok r0 ∧ r0 ≠ Panic) ∨ (c s = (Panic, s') ∧ r = Panic).
Proof.
  unfold try. destruct (c s) as [[a|e|] s1]; intros H; simplify_eq; naive_solver.
Qed.

Lemma try_run {A} (c : GoM S A) s r s' :
  c s = (r, s') → r ≠ Panic → try c s = (Ok r, s').
Proof. intros H Hr. unfold try. rewrite H. by destruct r. Qed.

Lemma ignore_inv {A} (c : GoM S A) s r s' :
  ignore c s = (r, s') →
  ∃ r0, c s = (r0, s') ∧ ((r = Ok tt ∧ r0 ≠ Panic) ∨ (r = Panic ∧ r0 = Panic)).
Proof.
  unfold ignore. destruct (c s) as [[a|e|] s1]; intros H; simplify_eq; naive_solver.
Qed.

Lemma zoom_inv {T A} (get : S → T) set (c : GoM T A) s r s' :
  zoom get set c s = (r, s') → ∃ t, c (get s) = (r, t) ∧ s' = set t s.
Proof. unfold zoom. destruct (c (get s)) as [r0 t]. intros; simplify_eq; eauto. Qed.

Lemma zoom_run {T A} (get : S → T) set (c : GoM T A) s r t :
  c (get s) = (r, t) → zoom get set c s = (r, set t s).
Proof. unfold zoom. by intros ->. Qed.

(** A computation whose final state is related to its initial one by [R],
    whatever its outcome. *)
Definition respects (R : relation S) {A} (c : GoM S A) : Prop :=
  ∀ s r s', c s = (r, s') → R s s'.

Section respects.
Context (R : relation S) `{!PreOrder R}.

Lemma respects_bind {A B} (c : GoM S A) (k : A → GoM S B) :
  respects R c → (∀ a, respects R (k a)) → respects R (c ≫= k).
Proof using Type*.
  intros Hc Hk s r s' Hrun.
  apply gom_bind_inv in Hrun as [(a & s1 & H1 & H2)|[(e & H1 & _)|[H1 _]]]; eauto.
  trans s1; eauto. by eapply Hk.
Qed.
Lemma respects_ret {A} (a : A) : respects R (mret a : GoM S A).
Proof using Type*. intros s r s' Hrun. by inv Hrun. Qed.
Lemma respects_fail {A} e : respects R (fail e : GoM S A).
Proof using Type*. intros s r s' Hrun. by inv Hrun. Qed.
Lemma respects_panic {A} : respects R (panic : GoM S A).
Proof using Type*. intros s r s' Hrun. by inv Hrun. Qed.
Lemma respects_gets {A} (f : S → A) : respects R (gets f).
Proof using Type*. intros s r s' Hrun. by inv Hrun. Qed.
Lemma respects_try {A} (c : GoM S A) : respects R c → respects R (try c).
Proof. intros Hc s r s' [(r0 & Hrun & _)|[Hrun _]]%try_inv; eauto. Qed.
Lemma respects_ignore {A} (c : GoM S A) : respects R c → respects R (ignore c).
Proof. intros Hc s r s' (r0 & Hrun & _)%ignore_inv. eauto. Qed.
Lemma respects_for_each {A} (xs : list A) body :
  (∀ x, x ∈ xs → respects R (body x)) → respects R (for_each xs body).
Proof using Type*.
  induction xs as [|x xs IH]; intros Hb; simpl; [apply respects_ret|].
  apply respects_bind; [apply Hb; left|]. intros _. apply IH. intros y Hy. apply Hb. by right.
Qed.
Lemma respects_for_fold {A B} (xs : list A) (acc : B) body :
  (∀ b x, x ∈ xs → respects R (body b x)) → respects R (for_fold xs acc body).
Proof using Type*.
  revert acc. induction xs as [|x xs IH]; intros acc Hb; simpl; [apply respects_ret|].
  apply respects_bind; [apply Hb; left|]. intros b. apply IH. intros c y Hy. apply Hb. by right.
Qed.
Lemma respects_zoom {T A} (get : S → T) set (RT : relation T) (c : GoM T A) :
  (∀ t r t', c t = (r, t') → RT t t') → (∀ s t, RT (get s) t → R s (set t s)) →
  respects R (zoom get set c).
Proof. intros Hc HR s r s' (t & Hrun & ->)%zoom_inv. eauto. Qed.
End respects.

(** A computation that never panics. *)
Definition panic_free {A} (c : GoM S A) : Prop := ∀ s r s', c s = (r, s') → r ≠ Panic.

Lemma panic_free_bind {A B} (c : GoM S A) (k : A → GoM S B) :
  panic_free c → (∀ a, panic_free (k a)) → panic_free (c ≫= k).
Proof.
  intros Hc Hk s r s' Hrun.
  apply gom_bind_inv in Hrun as [(a & s1 & H1 & H2)|[(e & H1 & ->)|[H1 _]]]; [|done|].
  - by eapply Hk.
  - by apply Hc in H1.
Qed.
Lemma panic_free_ret {A} (a : A) : panic_free (mret a : GoM S A).
Proof. intros s r s' Hrun. by inv Hrun. Qed.
Lemma panic_free_fail {A} e : panic_free (fail e : GoM S A).
Proof. intros s r s' Hrun. by inv Hrun. Qed.
Lemma panic_free_gets {A} (f : S → A) : panic_free (gets f).
Proof. intros s r s' Hrun. by inv Hrun. Qed.
(** [try] delivers the error of a call, never its panic. *)
Lemma panic_free_try {A B} (c : GoM S A) (k : Res A → GoM S B) :
  panic_free c → (∀ a, panic_free (k (Ok a))) → (∀ e, panic_free (k (Err e))) →
  panic_free (try c ≫= k).
Proof.
  intros Hc Ho He s r s' Hrun.
  apply gom_bind_inv in Hrun as [(a & s1 & H1 & H2)|[(e & H1 & ->)|[H1 _]]]; [|done|].
  - apply try_inv in H1 as [(r0 & H1 & [= ->] & Hp)|[_ ?]]; [|done].
    destruct r0; [by eapply Ho|by eapply He|done].
  - apply try_inv in H1 as [(r0 & _ & ? & _)|[H1 _]]; [done|]. by apply Hc in H1.
Qed.
Lemma panic_free_ignore {A} (c : GoM S A) : panic_free c → panic_free (ignore c).
Proof. intros Hc s r s' (r0 & Hrun & [[-> _]|[_ ->]])%ignore_inv; [done|by apply Hc in Hrun]. Qed.
Lemma panic_free_for_each {A} (xs : list A) body :
  (∀ x, panic_free (body x)) → panic_free (for_each xs body).
Proof.
  intros Hb. induction xs as [|x xs IH]; cbn; [apply panic_free_ret|]. by apply panic_free_bind.
Qed.
Lemma panic_free_for_fold {A B} (xs : list A) (acc : B) body :
  (∀ b x, panic_free (body b x)) → panic_free (for_fold xs acc body).
Proof.
  intros Hb. revert acc. induction xs as [|x xs IH]; intros acc; cbn; [apply panic_free_ret|].
  by apply panic_free_bind.
Qed.
Lemma panic_free_zoom {T A} (get : S → T) set (c : GoM T A) :
  (∀ t r t', c t = (r, t') → r ≠ Panic) → panic_free (zoom get set c).
Proof. intros Hc s r s' (t & Hrun & ->)%zoom_inv. eauto. Qed.

(** The loop rule: [I] holds of the accumulator and the state before every
    iteration, [E] of the state when an iteration fails. *)
Lemma for_fold_inv {A B} (I : B → S → Prop) (E : S → Prop) (xs : list A) (acc : B) body s r s' :
  (∀ b x s r s', x ∈ xs → I b s → body b x s = (r, s') →
     match r with Ok b' => I b' s' | _ => E s' end) →
  I acc s → for_fold xs acc body s = (r, s') →
  match r with Ok b => I b s' | _ => E s' end.
Proof.
  revert acc s. induction xs as [|x xs IH]; intros acc s Hb Hi Hrun; simpl in Hrun.
  { by inv Hrun. }
  apply gom_bind_inv in Hrun as [(b & s1 & H1 & H2)|[(e & H1 & ->)|[H1 ->]]].
  - eapply IH; [|by eapply (Hb _ _ _ _ _ (list_elem_of_here _ _) Hi H1)|done].
    intros. eapply Hb; eauto. by right.
  - by eapply (Hb _ _ _ _ _ (list_elem_of_here _ _) Hi H1).
  - by eapply (Hb _ _ _ _ _ (list_elem_of_here _ _) Hi H1).
Qed.
End gom.

(** Discharge the structural part of a [respects] goal, leaving the primitive
    operations to [tac]. *)
Ltac respects_step tac :=
  repeat first
    [ tac | progress (intros; simpl) | apply respects_bind; [apply _| |] | apply respects_try
    | apply respects_ignore | apply respects_ret; apply _ | apply respects_fail; apply _
    | apply respects_panic; apply _ | apply respects_gets; apply _
    | apply respects_for_each; [apply _|] | apply respects_for_fold; [apply _|]
    | case_match ].

(** The same for [panic_free]. *)
Ltac panic_free_step tac :=
  repeat first
    [ tac | progress (intros; simpl) | apply panic_free_try | apply panic_free_bind
    | apply panic_free_ignore | apply panic_free_ret | apply panic_free_fail
    | apply panic_free_gets | apply panic_free_for_each | apply panic_free_for_fold | case_match ].

(** Run a straight-line [GoM] program. *)
#[export] Hint Unfold mbind gom_bind mret gom_ret gets modify fail panic get_state put_state : go.

(** Split every [bind], [try], [ignore] and [zoom] a run went through. *)
Ltac go_step H :=
  lazymatch type of H with
  | mbind _ _ _ = _ =>
      let a := fresh "a" in let s := fresh "s" in let e := fresh "e" in
      let H1 := fresh "Hc" in let Hr := fresh "Hr" in
      apply gom_bind_inv in H as [(a & s & H1 & H)|[(e & H1 & Hr)|[H1 Hr]]]
  | try _ _ = _ =>
      let r := fresh "r" in let Hr := fresh "Hr" in let Hp := fresh "Hp" in
      apply try_inv in H as [(r & H & Hr & Hp)|[H Hr]]
  | ignore _ _ = _ =>
      let r := fresh "r" in let Hr := fresh "Hr" in
      apply ignore_inv in H as (r & H & Hr)
  | zoom _ _ _ _ = _ =>
      let t := fresh "t" in let Hs := fresh "Hs" in
      apply zoom_inv in H as (t & H & Hs)
  | mret _ _ = _ => inv H
  | fail _ _ = _ => inv H
  end.
