(* ===== verification/Metadata.v ===== *)
(** * File and node metadata: [metadata.go] and the in-memory backend of
    [metadata_backend.go].

    The data model ([NodeMetadata], [ReplicaMetadata], [ChunkMetadata],
    [FileMetadata]), the in-memory [MetadataStore] with every operation of it,
    and the well-formedness invariant its operations preserve.  The mutex is
    not modelled: every method holds it from its first to its last statement,
    so a method is one atomic state transformer.  The store hands out clones
    only, so no caller aliases its maps. *)

From S2P Require Import Prelude.
From stdpp Require Import options.

(** ** Data model *)

Inductive ReplicaState :=
  | ReplicaPending
  | ReplicaHealthy
  | ReplicaStale
  | ReplicaMissing
  | ReplicaDeleted.

#[export] Instance ReplicaState_eq_dec : EqDecision ReplicaState.
Proof. solve_decision. Defined.

Inductive NodeState :=
  | NodeHealthy
  | NodeDown.

#[export] Instance NodeState_eq_dec : EqDecision NodeState.
Proof. solve_decision. Defined.

#[export] Instance ReplicaState_countable : Countable ReplicaState.
Proof.
  apply (inj_countable
    (λ st, match st with
           | ReplicaPending => 0 | ReplicaHealthy => 1 | ReplicaStale => 2
           | ReplicaMissing => 3 | ReplicaDeleted => 4
           end)
    (λ n, match n with
          | 0 => Some ReplicaPending | 1 => Some ReplicaHealthy | 2 => Some ReplicaStale
          | 3 => Some ReplicaMissing | 4 => Some ReplicaDeleted | _ => None
          end)).
  by intros [].
Defined.
#[export] Instance NodeState_countable : Countable NodeState.
Proof.
  apply (inj_countable (λ st, match st with NodeHealthy => 0 | NodeDown => 1 end)
    (λ n, match n with 0 => Some NodeHealthy | 1 => Some NodeDown | _ => None end)).
  by intros [].
Defined.

Record NodeMetadata := {
  nm_ID : string;
  nm_Addr : string;
  nm_State : NodeState;
  nm_LastHeartbeat : Time
}.

Record ReplicaMetadata := {
  rm_NodeID : string;
  rm_State : ReplicaState;
  rm_UpdatedAt : Time
}.

Record ChunkMetadata := {
  cm_Index : Z;
  cm_Offset : Z;
  cm_Size : Z;
  cm_Checksum : string
}.

Record FileMetadata := {
  fm_Key : string;
  fm_Version : Z;
  fm_Size : Z;
  fm_Checksum : string;
  fm_Primary : string;
  fm_Deleted : bool;
  fm_Chunks : list ChunkMetadata;
  fm_Replicas : gmap string ReplicaMetadata;
  fm_CreatedAt : Time;
  fm_UpdatedAt : Time
}.

#[export] Instance NodeMetadata_eq_dec : EqDecision NodeMetadata.
Proof. solve_decision. Defined.
#[export] Instance ReplicaMetadata_eq_dec : EqDecision ReplicaMetadata.
Proof. solve_decision. Defined.
#[export] Instance ChunkMetadata_eq_dec : EqDecision ChunkMetadata.
Proof. solve_decision. Defined.
#[export] Instance FileMetadata_eq_dec : EqDecision FileMetadata.
Proof. solve_decision. Defined.

(** [make] plus [copy] of the chunk slice. *)
Definition cloneChunkMetadata (chunks : list ChunkMetadata) : list ChunkMetadata :=
  (λ c, c) <$> chunks.

(** A fresh map filled entry by entry. *)
Definition clone_replicas (m : gmap string ReplicaMetadata) : gmap string ReplicaMetadata :=
  foldr (λ '(nodeID, replica) out, <[nodeID := replica]> out) ∅ (map_to_list m).

Definition cloneFileMetadata (meta : FileMetadata) : FileMetadata := {|
  fm_Key := fm_Key meta;
  fm_Version := fm_Version meta;
  fm_Size := fm_Size meta;
  fm_Checksum := fm_Checksum meta;
  fm_Primary := fm_Primary meta;
  fm_Deleted := fm_Deleted meta;
  fm_Chunks := cloneChunkMetadata (fm_Chunks meta);
  fm_Replicas := clone_replicas (fm_Replicas meta);
  fm_CreatedAt := fm_CreatedAt meta;
  fm_UpdatedAt := fm_UpdatedAt meta
|}.

(** [FileMetadata.HealthyReplicas]. *)
Definition HealthyReplicas (m : FileMetadata) : list ReplicaMetadata :=
  sort_by rm_NodeID
    (filter (λ r, rm_State r = ReplicaHealthy) (range_values (fm_Replicas m))).

(** ** Field updates *)

(** [meta.Replicas = ...; meta.UpdatedAt = now] *)
Definition set_replicas (meta : FileMetadata) (rs : gmap string ReplicaMetadata) (t : Time) :
    FileMetadata := {|
  fm_Key := fm_Key meta; fm_Version := fm_Version meta; fm_Size := fm_Size meta;
  fm_Checksum := fm_Checksum meta; fm_Primary := fm_Primary meta; fm_Deleted := fm_Deleted meta;
  fm_Chunks := fm_Chunks meta; fm_Replicas := rs;
  fm_CreatedAt := fm_CreatedAt meta; fm_UpdatedAt := t
|}.

(** [replica.State = state; replica.UpdatedAt = now] *)
Definition set_replica_state (r : ReplicaMetadata) (st : ReplicaState) (t : Time) :
    ReplicaMetadata :=
  {| rm_NodeID := rm_NodeID r; rm_State := st; rm_UpdatedAt := t |}.

(** The replica table of a new version: the loop of [BeginFileVersion]. *)
Definition initial_replicas (primary : string) (replicas : list string) (t : Time) :
    gmap string ReplicaMetadata :=
  foldl (λ out nodeID,
    <[nodeID := {| rm_NodeID := nodeID;
                   rm_State := if decide (nodeID = primary) then ReplicaHealthy
                               else ReplicaPending;
                   rm_UpdatedAt := t |}]> out) ∅ replicas.

(** The record [BeginFileVersion] publishes. *)
Definition new_file_version (key : string) (version size : Z) (checksum : string)
    (chunks : list ChunkMetadata) (primary : string) (replicas : list string)
    (createdAt t : Time) : FileMetadata := {|
  fm_Key := key;
  fm_Version := version;
  fm_Size := size;
  fm_Checksum := checksum;
  fm_Primary := primary;
  fm_Deleted := false;
  fm_Chunks := cloneChunkMetadata chunks;
  fm_Replicas := initial_replicas primary replicas t;
  fm_CreatedAt := createdAt;
  fm_UpdatedAt := t
|}.

(** The record [Tombstone] publishes. *)
Definition tombstone_of (meta : FileMetadata) (t : Time) : FileMetadata := {|
  fm_Key := fm_Key meta;
  fm_Version := wrap_u64 (fm_Version meta + 1);
  fm_Size := fm_Size meta;
  fm_Checksum := fm_Checksum meta;
  fm_Primary := fm_Primary meta;
  fm_Deleted := true;
  fm_Chunks := fm_Chunks meta;
  fm_Replicas := (λ r, set_replica_state r ReplicaDeleted t) <$> fm_Replicas meta;
  fm_CreatedAt := fm_CreatedAt meta;
  fm_UpdatedAt := t
|}.

(** ** The in-memory store *)

Record MetadataStore := {
  ms_files : gmap string FileMetadata;
  ms_nodes : gmap string NodeMetadata;
  ms_now : Clock
}.

Definition NewMetadataStore (clock : Clock) : MetadataStore :=
  {| ms_files := ∅; ms_nodes := ∅; ms_now := clock |}.

Definition set_files (m : MetadataStore) (fs : gmap string FileMetadata) : MetadataStore :=
  {| ms_files := fs; ms_nodes := ms_nodes m; ms_now := ms_now m |}.
Definition set_nodes (m : MetadataStore) (ns : gmap string NodeMetadata) : MetadataStore :=
  {| ms_files := ms_files m; ms_nodes := ns; ms_now := ms_now m |}.

(** [m.now().UTC()] *)
Definition store_now : GoM MetadataStore Time := λ m,
  let '(t, c) := now (ms_now m) in
  (Ok t, {| ms_files := ms_files m; ms_nodes := ms_nodes m; ms_now := c |}).

Definition UpsertNode (id addr : string) : GoM MetadataStore NodeMetadata :=
  t ← store_now;
  let node := {| nm_ID := id; nm_Addr := addr; nm_State := NodeHealthy;
                 nm_LastHeartbeat := t |} in
  modify (λ m, set_nodes m (<[id := node]> (ms_nodes m)));;
  mret node.

(** The body of the loop of [MarkExpiredNodes]. *)
Definition expire_node (cutoff : Time) (node : NodeMetadata) : NodeMetadata :=
  if Before (nm_LastHeartbeat node) cutoff
  then {| nm_ID := nm_ID node; nm_Addr := nm_Addr node; nm_State := NodeDown;
          nm_LastHeartbeat := nm_LastHeartbeat node |}
  else node.

Definition MarkExpiredNodes (ttl : Duration) : GoM MetadataStore unit :=
  t ← store_now;
  let cutoff := TimeAdd t (wrap_s64 (- ttl)) in
  modify (λ m, set_nodes m (expire_node cutoff <$> ms_nodes m)).

Definition HealthyNodes : GoM MetadataStore (list NodeMetadata) :=
  gets (λ m, sort_by nm_ID (filter (λ n, nm_State n = NodeHealthy) (range_values (ms_nodes m)))).

Definition Nodes : GoM MetadataStore (list NodeMetadata) :=
  gets (λ m, sort_by nm_ID (range_values (ms_nodes m))).

Definition nextVersionLocked (files : gmap string FileMetadata) (key : string) (t : Time) :
    Z * Time :=
  match files !! key with
  | None => (1%Z, t)
  | Some prev => (wrap_u64 (fm_Version prev + 1), fm_CreatedAt prev)
  end.

Definition BeginFileVersion (key : string) (size : Z) (checksum : string)
    (chunks : list ChunkMetadata) (primary : string) (replicas : list string) :
    GoM MetadataStore FileMetadata :=
  t ← store_now;
  files ← gets ms_files;
  let '(version, createdAt) := nextVersionLocked files key t in
  let meta := new_file_version key version size checksum chunks primary replicas createdAt t in
  modify (λ m, set_files m (<[key := meta]> (ms_files m)));;
  mret (cloneFileMetadata meta).

Definition NextVersion (key : string) : GoM MetadataStore Z :=
  t ← store_now;
  files ← gets ms_files;
  mret (nextVersionLocked files key t).1.

Definition MarkReplica (key nodeID : string) (state : ReplicaState) :
    GoM MetadataStore FileMetadata :=
  files ← gets ms_files;
  match files !! key with
  | None => fail ErrMetadataNotFound
  | Some meta =>
      match fm_Replicas meta !! nodeID with
      | None => fail ErrReplicaNotFound
      | Some replica =>
          t ← store_now;
          let meta := set_replicas meta
            (<[nodeID := set_replica_state replica state t]> (fm_Replicas meta)) t in
          modify (λ m, set_files m (<[key := meta]> (ms_files m)));;
          mret (cloneFileMetadata meta)
      end
  end.

Definition Tombstone (key : string) : GoM MetadataStore FileMetadata :=
  files ← gets ms_files;
  match files !! key with
  | None => fail ErrMetadataNotFound
  | Some meta =>
      t ← store_now;
      let meta := tombstone_of meta t in
      modify (λ m, set_files m (<[key := meta]> (ms_files m)));;
      mret (cloneFileMetadata meta)
  end.

Definition GetFile (key : string) : GoM MetadataStore (option FileMetadata) :=
  files ← gets ms_files;
  mret (cloneFileMetadata <$> files !! key).

Definition ListFiles : GoM MetadataStore (list FileMetadata) :=
  files ← gets ms_files;
  mret (sort_by fm_Key (cloneFileMetadata <$> range_values files)).

Definition AddReplica (key nodeID : string) (state : ReplicaState) :
    GoM MetadataStore FileMetadata :=
  files ← gets ms_files;
  match files !! key with
  | None => fail ErrMetadataNotFound
  | Some meta =>
      t ← store_now;
      let replica := {| rm_NodeID := nodeID; rm_State := state; rm_UpdatedAt := t |} in
      let meta := set_replicas meta (<[nodeID := replica]> (fm_Replicas meta)) t in
      modify (λ m, set_files m (<[key := meta]> (ms_files m)));;
      mret (cloneFileMetadata meta)
  end.

(** ** Clones *)

Lemma clone_replicas_id m : clone_replicas m = m.
Proof.
  unfold clone_replicas.
  trans (list_to_map (map_to_list m) : gmap string ReplicaMetadata).
  - induction (map_to_list m) as [|[k v] l IH]; simpl; [done|by rewrite IH].
  - apply list_to_map_to_list.
Qed.

Lemma cloneFileMetadata_id meta : cloneFileMetadata meta = meta.
Proof.
  unfold cloneFileMetadata, cloneChunkMetadata.
  rewrite clone_replicas_id, list_fmap_id. by destruct meta.
Qed.

Lemma cloneChunkMetadata_id chunks : cloneChunkMetadata chunks = chunks.
Proof. apply list_fmap_id. Qed.

Lemma fmap_clone_option (o : option FileMetadata) : cloneFileMetadata <$> o = o.
Proof. destruct o; simpl; by rewrite ?cloneFileMetadata_id. Qed.

Lemma fmap_clone_list (l : list FileMetadata) : cloneFileMetadata <$> l = l.
Proof. induction l; csimpl; by rewrite ?cloneFileMetadata_id, ?IHl. Qed.

#[export] Hint Rewrite clone_replicas_id cloneFileMetadata_id cloneChunkMetadata_id
  fmap_clone_option fmap_clone_list : go.

(** ** The replica table of a new version *)

Lemma initial_replicas_lookup primary replicas t n :
  initial_replicas primary replicas t !! n =
  if decide (n ∈ replicas) then
    Some {| rm_NodeID := n;
            rm_State := if decide (n = primary) then ReplicaHealthy else ReplicaPending;
            rm_UpdatedAt := t |}
  else None.
Proof.
  unfold initial_replicas.
  induction replicas as [|x l IH] using rev_ind; simpl.
  { destruct (decide (n ∈ [])); [set_solver|]. apply lookup_empty. }
  rewrite foldl_snoc, lookup_insert, IH.
  destruct (decide (x = n)) as [->|Hne], (decide (n ∈ l)), (decide (n ∈ l ++ [_]));
    set_solver.
Qed.

#[export] Hint Unfold store_now now set_files set_nodes UpsertNode MarkExpiredNodes HealthyNodes
  Nodes BeginFileVersion NextVersion MarkReplica Tombstone GetFile ListFiles AddReplica : go.
