(* ===== verification/Replication.v ===== *)
(** * Replica placement and the replication task queue: [replication.go].

    The planner, the task builder, the task life cycle and the in-memory
    queue.  Task attempts and back-off are [int]/[int64] with wrap-around. *)

From S2P Require Import Prelude Metadata.
From stdpp Require Import options.

(** ** Data *)

Inductive ReplicationTaskState :=
  | ReplicationTaskPending
  | ReplicationTaskRunning
  | ReplicationTaskDone
  | ReplicationTaskFailed
  | ReplicationTaskDead.

#[export] Instance ReplicationTaskState_eq_dec : EqDecision ReplicationTaskState.
Proof. solve_decision. Defined.

Definition ReplicationTaskState_code (st : ReplicationTaskState) : nat :=
  match st with
  | ReplicationTaskPending => 0 | ReplicationTaskRunning => 1 | ReplicationTaskDone => 2
  | ReplicationTaskFailed => 3 | ReplicationTaskDead => 4
  end.
Definition ReplicationTaskState_decode (n : nat) : option ReplicationTaskState :=
  match n with
  | 0 => Some ReplicationTaskPending | 1 => Some ReplicationTaskRunning
  | 2 => Some ReplicationTaskDone | 3 => Some ReplicationTaskFailed
  | 4 => Some ReplicationTaskDead | _ => None
  end.
#[export] Instance ReplicationTaskState_countable : Countable ReplicationTaskState.
Proof.
  apply (inj_countable ReplicationTaskState_code ReplicationTaskState_decode). by intros [].
Defined.

Definition defaultReplicaCount : Z := 3.
Definition defaultReplicationTaskLease : Duration := (30 * Second)%Z.
Definition defaultReplicationTaskMaxAttempts : Z := 5.
Definition defaultReplicationTaskMaxBackoff : Duration := Minute.

Record ReplicaPlan := {
  rp_Primary : NodeMetadata;
  rp_Replicas : list NodeMetadata
}.

Record ReplicationTask := {
  rt_ID : string;
  rt_Key : string;
  rt_Version : Z;
  rt_Checksum : string;
  rt_Chunks : list ChunkMetadata;
  rt_Source : string;
  rt_Target : string;
  rt_State : ReplicationTaskState;
  rt_Attempts : Z;
  rt_LastError : string;
  rt_RunAfter : Time;
  rt_LeaseUntil : Time;
  rt_CreatedAt : Time;
  rt_UpdatedAt : Time
}.

#[export] Instance ReplicationTask_eq_dec : EqDecision ReplicationTask.
Proof. solve_decision. Defined.

Record ReplicationPlanner := { ReplicaCount : Z }.

(** ** Planner *)

Definition NewReplicationPlanner (replicaCount : Z) : ReplicationPlanner :=
  {| ReplicaCount := if (replicaCount =? 0)%Z then defaultReplicaCount else replicaCount |}.

(** [make([]NodeMetadata, count)] panics on a negative [count], and
    [replicas\[0\]] on an empty slice. *)
Definition Plan (p : ReplicationPlanner) (nodes : list NodeMetadata) : Res ReplicaPlan :=
  let healthy := filter (λ n, nm_State n = NodeHealthy) nodes in
  if decide (length healthy = 0) then Err ErrNoHealthyNodes
  else
    let healthy := sort_by nm_ID healthy in
    let count := ReplicaCount p in
    let count := if (zlen healthy <? count)%Z then zlen healthy else count in
    if (count <? 0)%Z then Panic
    else
      match take (Z.to_nat count) healthy with
      | [] => Panic
      | (primary :: _) as replicas =>
          Ok {| rp_Primary := primary; rp_Replicas := replicas |}
      end.

(** ** Tasks of a file *)

(** [fmt.Sprintf("%s:%d:%s:%s", key, version, source, target)] *)
Definition replicationTaskID (key : string) (version : Z) (source target : string) : string :=
  key +:+ ":" +:+ pretty version +:+ ":" +:+ source +:+ ":" +:+ target.

(** The task literal shared by [TasksForFile] and the repair planner: a
    pending copy of one version from [source] to [target]. *)
Definition pending_task (meta : FileMetadata) (source target : string) (created updated : Time) :
    ReplicationTask := {|
  rt_ID := replicationTaskID (fm_Key meta) (fm_Version meta) source target;
  rt_Key := fm_Key meta;
  rt_Version := fm_Version meta;
  rt_Checksum := fm_Checksum meta;
  rt_Chunks := cloneChunkMetadata (fm_Chunks meta);
  rt_Source := source;
  rt_Target := target;
  rt_State := ReplicationTaskPending;
  rt_Attempts := 0;
  rt_LastError := "";
  rt_RunAfter := zero_time;
  rt_LeaseUntil := zero_time;
  rt_CreatedAt := created;
  rt_UpdatedAt := updated
|}.

Definition needs_copy (st : ReplicaState) : bool :=
  match st with
  | ReplicaPending | ReplicaStale | ReplicaMissing => true
  | ReplicaHealthy | ReplicaDeleted => false
  end.

(** The body of the loop of [TasksForFile]. *)
Definition task_for_node (meta : FileMetadata) (t : Time) (nodeID : string) :
    option ReplicationTask :=
  if decide (nodeID = fm_Primary meta) then None
  else
    match fm_Replicas meta !! nodeID with
    | Some replica =>
        if needs_copy (rm_State replica)
        then Some (pending_task meta (fm_Primary meta) nodeID t t)
        else None
    | None => None
    end.

Definition TasksForFile (meta : FileMetadata) (t : Time) : Res (list ReplicationTask) :=
  if decide (fm_Primary meta = "") then Err ErrPrimaryUnavailable
  else
    match fm_Replicas meta !! fm_Primary meta with
    | None => Err ErrPrimaryUnavailable
    | Some _ =>
        let nodeIDs := sort_by (λ x, x) (range_keys (fm_Replicas meta)) in
        Ok (omap (task_for_node meta t) nodeIDs)
    end.

(** ** Task life cycle *)

Definition set_task (task : ReplicationTask) (state : ReplicationTaskState) (attempts : Z)
    (lastError : string) (runAfter leaseUntil updatedAt : Time) : ReplicationTask := {|
  rt_ID := rt_ID task; rt_Key := rt_Key task; rt_Version := rt_Version task;
  rt_Checksum := rt_Checksum task; rt_Chunks := rt_Chunks task;
  rt_Source := rt_Source task; rt_Target := rt_Target task;
  rt_State := state; rt_Attempts := attempts; rt_LastError := lastError;
  rt_RunAfter := runAfter; rt_LeaseUntil := leaseUntil;
  rt_CreatedAt := rt_CreatedAt task; rt_UpdatedAt := updatedAt
|}.

Definition readyToRun (task : ReplicationTask) (t : Time) : bool :=
  IsZero (rt_RunAfter task) || negb (After (rt_RunAfter task) t).

(** [time.Second * time.Duration(1<<attempts)] in [int64]: a shift count of
    64 or more gives 0, and the product wraps. *)
Definition replicationBackoff (attempts : Z) : Duration :=
  let attempts := if (attempts <? 1)%Z then 1%Z else attempts in
  let backoff := wrap_s64 (Second * wrap_s64 (Z.shiftl 1 attempts)) in
  if (defaultReplicationTaskMaxBackoff <? backoff)%Z then defaultReplicationTaskMaxBackoff
  else backoff.

Definition failReplicationTask (task : ReplicationTask) (t : Time) (cause : option GoError) :
    ReplicationTask :=
  let lastError := match cause with Some e => error_string e | None => "" end in
  if (defaultReplicationTaskMaxAttempts <=? rt_Attempts task)%Z
  then set_task task ReplicationTaskDead (rt_Attempts task) lastError zero_time zero_time t
  else set_task task ReplicationTaskPending (rt_Attempts task) lastError
         (TimeAdd t (replicationBackoff (rt_Attempts task))) zero_time t.

Definition expireReplicationTask (task : ReplicationTask) (t : Time) : ReplicationTask :=
  let lastError := "replication task lease expired" in
  if (defaultReplicationTaskMaxAttempts <=? rt_Attempts task)%Z
  then set_task task ReplicationTaskDead (rt_Attempts task) lastError zero_time zero_time t
  else set_task task ReplicationTaskPending (rt_Attempts task) lastError t zero_time t.

(** The update closures of [MarkRunning] and [MarkDone]. *)
Definition runReplicationTask (task : ReplicationTask) (t : Time) : ReplicationTask :=
  set_task task ReplicationTaskRunning (wrap_s64 (rt_Attempts task + 1)) (rt_LastError task)
    (rt_RunAfter task) (TimeAdd t defaultReplicationTaskLease) t.

Definition doneReplicationTask (task : ReplicationTask) (t : Time) : ReplicationTask :=
  set_task task ReplicationTaskDone (rt_Attempts task) "" zero_time zero_time t.

(** A running task whose lease is over: the guard of [RequeueExpiredRunning]. *)
Definition lease_expired (task : ReplicationTask) (t : Time) : bool :=
  negb (negb (bool_decide (rt_State task = ReplicationTaskRunning))
        || IsZero (rt_LeaseUntil task) || After (rt_LeaseUntil task) t).

(** The comparator of [sortReplicationTasks]. *)
Definition task_less (a b : ReplicationTask) : bool :=
  if negb (rt_RunAfter a =? rt_RunAfter b)%Z then
    if IsZero (rt_RunAfter a) then true
    else if IsZero (rt_RunAfter b) then false
    else Before (rt_RunAfter a) (rt_RunAfter b)
  else String.ltb (rt_ID a) (rt_ID b).

(** [sort.Slice] with that comparator: the order it sorts into is "not
    greater". *)
Definition task_le (a b : ReplicationTask) : Prop := task_less b a = false.
#[export] Instance task_le_dec : RelDecision task_le.
Proof. intros a b. unfold task_le. apply _. Defined.

Definition sortReplicationTasks (tasks : list ReplicationTask) : list ReplicationTask :=
  merge_sort task_le tasks.

(** ** The in-memory queue *)

Record MemoryReplicationTaskQueue := {
  mq_tasks : gmap string ReplicationTask;
  mq_now : Clock
}.

Definition NewMemoryReplicationTaskQueue (clock : Clock) : MemoryReplicationTaskQueue :=
  {| mq_tasks := ∅; mq_now := clock |}.

Definition set_tasks (q : MemoryReplicationTaskQueue) (ts : gmap string ReplicationTask) :
    MemoryReplicationTaskQueue := {| mq_tasks := ts; mq_now := mq_now q |}.

(** [q.now().UTC()] *)
Definition queue_now : GoM MemoryReplicationTaskQueue Time := λ q,
  let '(t, c) := now (mq_now q) in (Ok t, {| mq_tasks := mq_tasks q; mq_now := c |}).

(** The loop of [Enqueue]: a task whose ID is known is skipped. *)
Definition enqueue_task (ts : gmap string ReplicationTask) (task : ReplicationTask) :
    gmap string ReplicationTask :=
  match ts !! rt_ID task with
  | Some _ => ts
  | None => <[rt_ID task := task]> ts
  end.
Definition enqueue_all (ts : gmap string ReplicationTask) (tasks : list ReplicationTask) :
    gmap string ReplicationTask := foldl enqueue_task ts tasks.

Definition Enqueue (tasks : list ReplicationTask) : GoM MemoryReplicationTaskQueue unit :=
  modify (λ q, set_tasks q (enqueue_all (mq_tasks q) tasks)).

Definition runnable (t : Time) (task : ReplicationTask) : Prop :=
  rt_State task = ReplicationTaskPending ∧ readyToRun task t = true.
#[export] Instance runnable_dec t task : Decision (runnable t task).
Proof. unfold runnable. apply _. Defined.

Definition pending_tasks (t : Time) (ts : gmap string ReplicationTask) : list ReplicationTask :=
  sortReplicationTasks (filter (runnable t) (range_values ts)).

Definition Pending : GoM MemoryReplicationTaskQueue (list ReplicationTask) :=
  t ← queue_now;
  gets (λ q, pending_tasks t (mq_tasks q)).

(** Look a task up, replace it, return it: the shape of the [Mark] methods. *)
Definition update_task (id : string) (f : ReplicationTask → Time → ReplicationTask) :
    GoM MemoryReplicationTaskQueue ReplicationTask :=
  ts ← gets mq_tasks;
  match ts !! id with
  | None => fail ErrTaskNotFound
  | Some task =>
      t ← queue_now;
      let task := f task t in
      modify (λ q, set_tasks q (<[id := task]> (mq_tasks q)));;
      mret task
  end.

Definition MarkRunning (id : string) : GoM MemoryReplicationTaskQueue ReplicationTask :=
  update_task id runReplicationTask.

Definition MarkDone (id : string) : GoM MemoryReplicationTaskQueue ReplicationTask :=
  update_task id doneReplicationTask.

Definition MarkFailed (id : string) (cause : option GoError) :
    GoM MemoryReplicationTaskQueue ReplicationTask :=
  update_task id (λ task t, failReplicationTask task t cause).

(** One round of [RequeueExpiredRunning] over the whole table. *)
Definition requeue_all (t : Time) (ts : gmap string ReplicationTask) :
    gmap string ReplicationTask :=
  (λ task, if lease_expired task t then expireReplicationTask task t else task) <$> ts.
Definition requeued_tasks (t : Time) (ts : gmap string ReplicationTask) : list ReplicationTask :=
  sortReplicationTasks
    ((λ task, expireReplicationTask task t) <$>
       filter (λ task, lease_expired task t = true) (range_values ts)).

Definition RequeueExpiredRunning : GoM MemoryReplicationTaskQueue (list ReplicationTask) :=
  t ← queue_now;
  ts ← gets mq_tasks;
  modify (λ q, set_tasks q (requeue_all t (mq_tasks q)));;
  mret (requeued_tasks t ts).

(** [stats\[task.State\]++] over all tasks. *)
Definition count_states (ts : list ReplicationTask) : gmap ReplicationTaskState Z :=
  foldl (λ stats task,
    <[rt_State task := (default 0 (stats !! rt_State task) + 1)%Z]> stats) ∅ ts.

Definition Stats : GoM MemoryReplicationTaskQueue (gmap ReplicationTaskState Z) :=
  gets (λ q, count_states (range_values (mq_tasks q))).

#[export] Hint Unfold queue_now set_tasks Enqueue Pending update_task MarkRunning MarkDone
  MarkFailed RequeueExpiredRunning Stats : go.
