(* ===== verification/Backend.v ===== *)
(** * The interfaces [MetadataBackend] and [ReplicationTaskQueue].

    [metadata_backend.go] and [replication.go] declare two Go interfaces that
    the coordinator is written against.  Here they are type classes of
    operations, each with a class of laws: an abstraction function into a pure
    specification state ([Catalog], a table of tasks) and, for every
    operation, a refinement law that relates a call to the specification of
    that operation.  A call either behaves like its specification at some
    clock reading [t], or is an I/O failure that returns an error and leaves
    the abstract state alone; a backend that declares [io_fault] impossible
    has only the first behaviour.

    The in-memory implementations discharge the laws. *)

From S2P Require Import Prelude Metadata Replication.
From stdpp Require Import options.

(** ** The abstract metadata catalog *)

Record Catalog := {
  cat_files : gmap string FileMetadata;
  cat_nodes : gmap string NodeMetadata
}.

Definition cat_set_files (c : Catalog) (fs : gmap string FileMetadata) : Catalog :=
  {| cat_files := fs; cat_nodes := cat_nodes c |}.
Definition cat_set_nodes (c : Catalog) (ns : gmap string NodeMetadata) : Catalog :=
  {| cat_files := cat_files c; cat_nodes := ns |}.

Definition cat_upsert (id addr : string) (t : Time) : GoM Catalog NodeMetadata := λ c,
  let node := {| nm_ID := id; nm_Addr := addr; nm_State := NodeHealthy;
                 nm_LastHeartbeat := t |} in
  (Ok node, cat_set_nodes c (<[id := node]> (cat_nodes c))).

Definition cat_expire (ttl : Duration) (t : Time) : GoM Catalog unit := λ c,
  (Ok tt, cat_set_nodes c (expire_node (TimeAdd t (wrap_s64 (- ttl))) <$> cat_nodes c)).

Definition cat_healthy_nodes (t : Time) : GoM Catalog (list NodeMetadata) := λ c,
  (Ok (sort_by nm_ID (filter (λ n, nm_State n = NodeHealthy) (range_values (cat_nodes c)))), c).

Definition cat_all_nodes (t : Time) : GoM Catalog (list NodeMetadata) := λ c,
  (Ok (sort_by nm_ID (range_values (cat_nodes c))), c).

Definition cat_begin (key : string) (size : Z) (checksum : string)
    (chunks : list ChunkMetadata) (primary : string) (replicas : list string) (t : Time) :
    GoM Catalog FileMetadata := λ c,
  let meta := new_file_version key (nextVersionLocked (cat_files c) key t).1 size checksum chunks
                primary replicas (nextVersionLocked (cat_files c) key t).2 t in
  (Ok meta, cat_set_files c (<[key := meta]> (cat_files c))).

Definition cat_next_version (key : string) (t : Time) : GoM Catalog Z := λ c,
  (Ok (nextVersionLocked (cat_files c) key t).1, c).

Definition cat_mark_replica (key nodeID : string) (state : ReplicaState) (t : Time) :
    GoM Catalog FileMetadata := λ c,
  match cat_files c !! key with
  | None => (Err ErrMetadataNotFound, c)
  | Some meta =>
      match fm_Replicas meta !! nodeID with
      | None => (Err ErrReplicaNotFound, c)
      | Some replica =>
          let meta := set_replicas meta
            (<[nodeID := set_replica_state replica state t]> (fm_Replicas meta)) t in
          (Ok meta, cat_set_files c (<[key := meta]> (cat_files c)))
      end
  end.

Definition cat_tombstone (key : string) (t : Time) : GoM Catalog FileMetadata := λ c,
  match cat_files c !! key with
  | None => (Err ErrMetadataNotFound, c)
  | Some meta =>
      (Ok (tombstone_of meta t), cat_set_files c (<[key := tombstone_of meta t]> (cat_files c)))
  end.

Definition cat_get_file (key : string) (t : Time) : GoM Catalog (option FileMetadata) := λ c,
  (Ok (cat_files c !! key), c).

Definition cat_list_files (t : Time) : GoM Catalog (list FileMetadata) := λ c,
  (Ok (sort_by fm_Key (range_values (cat_files c))), c).

Definition cat_add_replica (key nodeID : string) (state : ReplicaState) (t : Time) :
    GoM Catalog FileMetadata := λ c,
  match cat_files c !! key with
  | None => (Err ErrMetadataNotFound, c)
  | Some meta =>
      let replica := {| rm_NodeID := nodeID; rm_State := state; rm_UpdatedAt := t |} in
      let meta := set_replicas meta (<[nodeID := replica]> (fm_Replicas meta)) t in
      (Ok meta, cat_set_files c (<[key := meta]> (cat_files c)))
  end.

(** ** The abstract task table *)

Abbreviation TaskTable := (gmap string ReplicationTask).

Definition tab_enqueue (tasks : list ReplicationTask) (t : Time) : GoM TaskTable unit := λ ts,
  (Ok tt, enqueue_all ts tasks).

Definition tab_pending (t : Time) : GoM TaskTable (list ReplicationTask) := λ ts,
  (Ok (pending_tasks t ts), ts).

Definition tab_update (id : string) (f : ReplicationTask → Time → ReplicationTask) (t : Time) :
    GoM TaskTable ReplicationTask := λ ts,
  match ts !! id with
  | None => (Err ErrTaskNotFound, ts)
  | Some task => (Ok (f task t), <[id := f task t]> ts)
  end.

Definition tab_requeue (t : Time) : GoM TaskTable (list ReplicationTask) := λ ts,
  (Ok (requeued_tasks t ts), requeue_all t ts).

Definition tab_stats (t : Time) : GoM TaskTable (gmap ReplicationTaskState Z) := λ ts,
  (Ok (count_states (range_values ts)), ts).

(** ** Refinement *)

(** [c] implements [spec] through the abstraction [abs], up to I/O faults. *)
Definition refines {B T A} (abs : B → T) (fault : B → Prop)
    (c : GoM B A) (spec : Time → GoM T A) : Prop :=
  ∀ b r b', c b = (r, b') →
    (∃ t, spec t (abs b) = (r, abs b')) ∨
    (fault b ∧ abs b' = abs b ∧ ∃ e, r = Err e).

(** ** The interfaces *)

Class MetadataBackend (B : Type) := {
  mb_UpsertNode : string → string → GoM B NodeMetadata;
  mb_MarkExpiredNodes : Duration → GoM B unit;
  mb_HealthyNodes : GoM B (list NodeMetadata);
  mb_Nodes : GoM B (list NodeMetadata);
  mb_BeginFileVersion :
    string → Z → string → list ChunkMetadata → string → list string → GoM B FileMetadata;
  mb_NextVersion : string → GoM B Z;
  mb_MarkReplica : string → string → ReplicaState → GoM B FileMetadata;
  mb_Tombstone : string → GoM B FileMetadata;
  mb_GetFile : string → GoM B (option FileMetadata);
  mb_ListFiles : GoM B (list FileMetadata);
  mb_AddReplica : string → string → ReplicaState → GoM B FileMetadata;
  mb_Now : B → Time * B
}.

Class MetadataBackendLaws (B : Type) `{MetadataBackend B} := {
  catalog : B → Catalog;
  mb_fault : B → Prop;
  mb_UpsertNode_ref id addr :
    refines catalog mb_fault (mb_UpsertNode id addr) (cat_upsert id addr);
  mb_MarkExpiredNodes_ref ttl :
    refines catalog mb_fault (mb_MarkExpiredNodes ttl) (cat_expire ttl);
  mb_HealthyNodes_ref : refines catalog mb_fault mb_HealthyNodes cat_healthy_nodes;
  mb_Nodes_ref : refines catalog mb_fault mb_Nodes cat_all_nodes;
  mb_BeginFileVersion_ref key size sum chunks primary replicas :
    refines catalog mb_fault (mb_BeginFileVersion key size sum chunks primary replicas)
      (cat_begin key size sum chunks primary replicas);
  mb_NextVersion_ref key : refines catalog mb_fault (mb_NextVersion key) (cat_next_version key);
  mb_MarkReplica_ref key nodeID st :
    refines catalog mb_fault (mb_MarkReplica key nodeID st) (cat_mark_replica key nodeID st);
  mb_Tombstone_ref key : refines catalog mb_fault (mb_Tombstone key) (cat_tombstone key);
  mb_GetFile_ref key : refines catalog mb_fault (mb_GetFile key) (cat_get_file key);
  mb_ListFiles_ref : refines catalog mb_fault mb_ListFiles cat_list_files;
  mb_AddReplica_ref key nodeID st :
    refines catalog mb_fault (mb_AddReplica key nodeID st) (cat_add_replica key nodeID st);
  mb_Now_law b : catalog (mb_Now b).2 = catalog b
}.

Class ReplicationTaskQueue (Q : Type) := {
  rq_Enqueue : list ReplicationTask → GoM Q unit;
  rq_Pending : GoM Q (list ReplicationTask);
  rq_MarkRunning : string → GoM Q ReplicationTask;
  rq_MarkDone : string → GoM Q ReplicationTask;
  rq_MarkFailed : string → option GoError → GoM Q ReplicationTask;
  rq_RequeueExpiredRunning : GoM Q (list ReplicationTask);
  rq_Stats : GoM Q (gmap ReplicationTaskState Z)
}.

Class ReplicationTaskQueueLaws (Q : Type) `{ReplicationTaskQueue Q} := {
  task_table : Q → TaskTable;
  rq_fault : Q → Prop;
  rq_Enqueue_ref tasks : refines task_table rq_fault (rq_Enqueue tasks) (tab_enqueue tasks);
  rq_Pending_ref : refines task_table rq_fault rq_Pending tab_pending;
  rq_MarkRunning_ref id :
    refines task_table rq_fault (rq_MarkRunning id) (tab_update id runReplicationTask);
  rq_MarkDone_ref id :
    refines task_table rq_fault (rq_MarkDone id) (tab_update id doneReplicationTask);
  rq_MarkFailed_ref id cause :
    refines task_table rq_fault (rq_MarkFailed id cause)
      (tab_update id (λ task t, failReplicationTask task t cause));
  rq_RequeueExpiredRunning_ref :
    refines task_table rq_fault rq_RequeueExpiredRunning tab_requeue;
  rq_Stats_ref : refines task_table rq_fault rq_Stats tab_stats
}.

(** ** The in-memory implementations *)

(** [MemoryMetadataBackend.Now]: the clock of the store, not [UTC()]ed. *)
Definition store_clock (m : MetadataStore) : Time * MetadataStore :=
  let '(t, c) := now (ms_now m) in
  (t, {| ms_files := ms_files m; ms_nodes := ms_nodes m; ms_now := c |}).

(** [MemoryMetadataBackend] forwards every method to its [MetadataStore]. *)
#[export] Instance MemoryMetadataBackend : MetadataBackend MetadataStore := {|
  mb_UpsertNode := UpsertNode;
  mb_MarkExpiredNodes := MarkExpiredNodes;
  mb_HealthyNodes := HealthyNodes;
  mb_Nodes := Nodes;
  mb_BeginFileVersion := BeginFileVersion;
  mb_NextVersion := NextVersion;
  mb_MarkReplica := MarkReplica;
  mb_Tombstone := Tombstone;
  mb_GetFile := GetFile;
  mb_ListFiles := ListFiles;
  mb_AddReplica := AddReplica;
  mb_Now := store_clock
|}.

#[export] Instance MemoryReplicationTaskQueue_queue :
    ReplicationTaskQueue MemoryReplicationTaskQueue := {|
  rq_Enqueue := Enqueue;
  rq_Pending := Pending;
  rq_MarkRunning := MarkRunning;
  rq_MarkDone := MarkDone;
  rq_MarkFailed := MarkFailed;
  rq_RequeueExpiredRunning := RequeueExpiredRunning;
  rq_Stats := Stats
|}.

(** ** The in-memory implementations satisfy the laws *)

Definition store_catalog (m : MetadataStore) : Catalog :=
  {| cat_files := ms_files m; cat_nodes := ms_nodes m |}.

Lemma store_op_ref {A} (c : GoM MetadataStore A) (spec : Time → GoM Catalog A) :
  (∀ b, ∃ t, spec t (store_catalog b) = ((c b).1, store_catalog (c b).2)) →
  refines store_catalog (λ _, False) c spec.
Proof. intros H b r b' Hc. left. destruct (H b) as [t Ht]. exists t. by rewrite Hc in Ht. Qed.

Lemma queue_op_ref {A} (c : GoM MemoryReplicationTaskQueue A) (spec : Time → GoM TaskTable A) :
  (∀ q, ∃ t, spec t (mq_tasks q) = ((c q).1, mq_tasks (c q).2)) →
  refines mq_tasks (λ _, False) c spec.
Proof. intros H b r b' Hc. left. destruct (H b) as [t Ht]. exists t. by rewrite Hc in Ht. Qed.

#[export] Hint Unfold cat_upsert cat_expire cat_healthy_nodes cat_all_nodes cat_begin
  cat_next_version cat_mark_replica cat_tombstone cat_get_file cat_list_files cat_add_replica
  cat_set_files cat_set_nodes store_catalog store_clock
  tab_enqueue tab_pending tab_update tab_requeue tab_stats : go.

(** Unfold an operation and its specification at the next clock reading,
    splitting on the lookups both perform. *)
Ltac solve_ref clock :=
  intros b; exists (readings (clock b) (taken (clock b)));
  cbn; autounfold with go; cbn; autounfold with go; cbn;
  repeat case_match; simplify_eq/=; autorewrite with go; try done.

#[export] Instance MemoryMetadataBackend_laws : MetadataBackendLaws MetadataStore.
Proof.
  refine {| catalog := store_catalog; mb_fault := λ _, False |}; intros; try apply store_op_ref.
  12: done.
  all: solve_ref ms_now.
Defined.

#[export] Instance MemoryReplicationTaskQueue_laws :
  ReplicationTaskQueueLaws MemoryReplicationTaskQueue.
Proof.
  refine {| task_table := mq_tasks; rq_fault := λ _, False |}; intros; apply queue_op_ref.
  all: solve_ref mq_now.
Defined.
