(* ===== verification/MetadataSpec.v ===== *)
(** * Histories of metadata operations.

    Any sequence of calls on a [MetadataBackend], as the service's goroutines
    issue them through the coordinator, written [run_ops].  The theorems are
    proved against the interface laws, so they hold of every implementation
    of it; the witnesses run the in-memory one. *)

From S2P Require Import Prelude Metadata Replication Backend.
From stdpp Require Import options.

(** ** Calls and histories *)

Inductive MetaOp :=
  | OpUpsertNode (id addr : string)
  | OpMarkExpiredNodes (ttl : Duration)
  | OpHealthyNodes
  | OpNodes
  | OpBeginFileVersion (key : string) (size : Z) (checksum : string)
      (chunks : list ChunkMetadata) (primary : string) (replicas : list string)
  | OpNextVersion (key : string)
  | OpMarkReplica (key nodeID : string) (state : ReplicaState)
  | OpTombstone (key : string)
  | OpGetFile (key : string)
  | OpListFiles
  | OpAddReplica (key nodeID : string) (state : ReplicaState)
  | OpNow.

Definition run_op `{MetadataBackend B} (op : MetaOp) : GoM B unit :=
  match op with
  | OpUpsertNode id addr => ignore (mb_UpsertNode id addr)
  | OpMarkExpiredNodes ttl => ignore (mb_MarkExpiredNodes ttl)
  | OpHealthyNodes => ignore mb_HealthyNodes
  | OpNodes => ignore mb_Nodes
  | OpBeginFileVersion key size sum chunks primary replicas =>
      ignore (mb_BeginFileVersion key size sum chunks primary replicas)
  | OpNextVersion key => ignore (mb_NextVersion key)
  | OpMarkReplica key nodeID st => ignore (mb_MarkReplica key nodeID st)
  | OpTombstone key => ignore (mb_Tombstone key)
  | OpGetFile key => ignore (mb_GetFile key)
  | OpListFiles => ignore mb_ListFiles
  | OpAddReplica key nodeID st => ignore (mb_AddReplica key nodeID st)
  | OpNow => λ b, (Ok tt, (mb_Now b).2)
  end.

Definition run_ops `{MetadataBackend B} (ops : list MetaOp) : GoM B unit :=
  for_each ops run_op.

(** The specification transition of a call. *)
Definition spec_op (op : MetaOp) (t : Time) (c : Catalog) : Catalog :=
  match op with
  | OpUpsertNode id addr => (cat_upsert id addr t c).2
  | OpMarkExpiredNodes ttl => (cat_expire ttl t c).2
  | OpBeginFileVersion key size sum chunks primary replicas =>
      (cat_begin key size sum chunks primary replicas t c).2
  | OpMarkReplica key nodeID st => (cat_mark_replica key nodeID st t c).2
  | OpTombstone key => (cat_tombstone key t c).2
  | OpAddReplica key nodeID st => (cat_add_replica key nodeID st t c).2
  | _ => c
  end.

(** The catalogs a history can go through: every call steps by its
    specification, or fails and changes nothing. *)
Inductive catalog_step : Catalog → Catalog → Prop :=
  | step_op op t c : catalog_step c (spec_op op t c)
  | step_fault c : catalog_step c c.

(** ** Invariants *)

Definition file_wf (key : string) (meta : FileMetadata) : Prop :=
  fm_Key meta = key ∧ in_u64 (fm_Version meta) ∧
  map_Forall (λ n r, rm_NodeID r = n) (fm_Replicas meta).

Definition catalog_wf (c : Catalog) : Prop :=
  map_Forall file_wf (cat_files c) ∧ map_Forall (λ id n, nm_ID n = id) (cat_nodes c).

(** The version of a key, 0 when it was never written. *)
Definition version_of (c : Catalog) (key : string) : Z :=
  match cat_files c !! key with Some meta => fm_Version meta | None => 0%Z end.

(** Whether a call publishes a version of [key] in a catalog. *)
Definition publishes (key : string) (c : Catalog) (op : MetaOp) : bool :=
  match op with
  | OpBeginFileVersion k _ _ _ _ _ => bool_decide (k = key)
  | OpTombstone k => bool_decide (k = key) && bool_decide (is_Some (cat_files c !! key))
  | _ => false
  end.

(** A call that may publish a version of [key] in some catalog. *)
Definition may_publish (key : string) (op : MetaOp) : bool :=
  match op with
  | OpBeginFileVersion k _ _ _ _ _ | OpTombstone k => bool_decide (k = key)
  | _ => false
  end.

(** ** Lemmas *)

Lemma wrap_u64_in z : in_u64 (wrap_u64 z).
Proof. unfold in_u64, wrap_u64. by apply Z.mod_pos_bound. Qed.

Lemma wrap_u64_small z : in_u64 z → wrap_u64 z = z.
Proof. unfold in_u64, wrap_u64. intros. by apply Z.mod_small. Qed.
#[export] Hint Resolve wrap_u64_in : go.

Lemma refines_catalog {B A} `{MetadataBackendLaws B} (c : GoM B A) spec b r b' :
  refines catalog mb_fault c spec → c b = (r, b') →
  (∃ t, spec t (catalog b) = (r, catalog b')) ∨ (∃ e, r = Err e ∧ catalog b' = catalog b).
Proof. intros Hr Hc. destruct (Hr _ _ _ Hc) as [?|(_ & ? & ? & ?)]; eauto. Qed.

Lemma refines_snd {B A} `{MetadataBackendLaws B} (c : GoM B A) (spec : Time → GoM Catalog A)
    (f : Time → Catalog → Catalog) b r b' :
  refines catalog mb_fault c spec → (∀ t x, (spec t x).2 = f t x) → ignore c b = (r, b') →
  (∃ t, catalog b' = f t (catalog b)) ∨ catalog b' = catalog b.
Proof.
  intros Hr Hf (r0 & Hc & _)%ignore_inv.
  destruct (refines_catalog _ _ _ _ _ Hr Hc) as [[t Ht]|(_ & _ & ?)]; [left|by right].
  exists t. by rewrite <-Hf, Ht.
Qed.

Lemma run_op_spec `{MetadataBackendLaws B} op (b : B) r b' :
  run_op op b = (r, b') →
  (∃ t, catalog b' = spec_op op t (catalog b)) ∨ catalog b' = catalog b.
Proof.
  destruct op; cbn [run_op]; intros Hrun;
    [(eapply refines_snd; [..|exact Hrun])..|injection Hrun as _ <-; right; apply mb_Now_law];
    eauto using mb_UpsertNode_ref, mb_MarkExpiredNodes_ref, mb_HealthyNodes_ref, mb_Nodes_ref,
      mb_BeginFileVersion_ref, mb_NextVersion_ref, mb_MarkReplica_ref, mb_Tombstone_ref,
      mb_GetFile_ref, mb_ListFiles_ref, mb_AddReplica_ref.
Qed.

Lemma run_ops_steps `{MetadataBackendLaws B} ops (b : B) r b' :
  run_ops ops b = (r, b') → rtc catalog_step (catalog b) (catalog b').
Proof.
  revert b. induction ops as [|op ops IH]; intros b Hrun.
  { by inv Hrun. }
  unfold run_ops in Hrun; cbn in Hrun.
  assert (∀ r1 b1, run_op op b = (r1, b1) → catalog_step (catalog b) (catalog b1)) as Hstep.
  { intros r1 b1 [[t ->]| ->]%run_op_spec; constructor. }
  go_step Hrun.
  - eapply rtc_l; [by eapply Hstep|by eapply IH].
  - apply rtc_once. by eapply Hstep.
  - apply rtc_once. by eapply Hstep.
Qed.

(** *** Well-formedness *)

Lemma file_wf_set_replicas key meta rs t :
  file_wf key meta → map_Forall (λ n r, rm_NodeID r = n) rs → file_wf key (set_replicas meta rs t).
Proof. by intros (? & ? & ?) ?. Qed.

Lemma file_wf_new key version size sum chunks primary replicas created t :
  in_u64 version →
  file_wf key (new_file_version key version size sum chunks primary replicas created t).
Proof.
  intros Hv. split; [done|]. split; [done|]. intros n r Hn. cbn in Hn.
  rewrite initial_replicas_lookup in Hn. case_decide; by simplify_eq/=.
Qed.

Lemma file_wf_tombstone key meta t : file_wf key meta → file_wf key (tombstone_of meta t).
Proof.
  intros (Hk & _ & Hr). split; [done|]. split; [apply wrap_u64_in|].
  intros n r Hn. cbn in Hn. rewrite lookup_fmap in Hn.
  destruct (fm_Replicas meta !! n) as [r0|] eqn:E; simplify_eq/=. by apply (Hr n).
Qed.

Lemma nextVersionLocked_in files key t : in_u64 (nextVersionLocked files key t).1.
Proof. unfold nextVersionLocked. case_match; [apply wrap_u64_in|by unfold in_u64]. Qed.

#[export] Hint Resolve file_wf_set_replicas file_wf_new file_wf_tombstone nextVersionLocked_in : go.

Lemma catalog_wf_set_file c key meta :
  catalog_wf c → file_wf key meta → catalog_wf (cat_set_files c (<[key := meta]> (cat_files c))).
Proof. intros [Hf Hn] Hm. split; [|done]. by apply map_Forall_insert_2. Qed.

Lemma spec_op_wf op t c : catalog_wf c → catalog_wf (spec_op op t c).
Proof.
  intros Hc. pose proof Hc as [Hf Hn]. destruct op; cbn; try done.
  - split; [done|]. by apply map_Forall_insert_2.
  - split; [done|]. intros id n Hid. cbn in Hid. rewrite lookup_fmap in Hid.
    destruct (cat_nodes c !! id) as [n0|] eqn:E; simplify_eq/=.
    unfold expire_node. case_match; apply (Hn _ _ E).
  - apply catalog_wf_set_file; auto with go.
  - unfold cat_mark_replica. repeat case_match; cbn; try done.
    assert (file_wf key f) as Hw by by apply Hf.
    apply catalog_wf_set_file; [done|]. apply file_wf_set_replicas; [done|].
    destruct Hw as (_ & _ & Hr). apply map_Forall_insert_2; [cbn; by apply Hr|done].
  - unfold cat_tombstone. case_match; cbn; [|done].
    apply catalog_wf_set_file; [done|]. apply file_wf_tombstone. by apply Hf.
  - unfold cat_add_replica. case_match; cbn; [|done].
    assert (file_wf key f) as Hw by by apply Hf.
    apply catalog_wf_set_file; [done|]. apply file_wf_set_replicas; [done|].
    by apply map_Forall_insert_2, Hw.
Qed.

Lemma catalog_steps_wf c c' : rtc catalog_step c c' → catalog_wf c → catalog_wf c'.
Proof. induction 1 as [|??? [op t|]]; eauto using spec_op_wf. Qed.

(** *** Versions *)

Lemma version_of_insert c key k meta :
  version_of (cat_set_files c (<[k := meta]> (cat_files c))) key =
  if decide (k = key) then fm_Version meta else version_of c key.
Proof. unfold version_of; cbn. rewrite lookup_insert. by case_decide. Qed.

Lemma version_of_next c key t :
  (nextVersionLocked (cat_files c) key t).1 = wrap_u64 (version_of c key + 1).
Proof. unfold nextVersionLocked, version_of. by case_match. Qed.

(** The version of a key advances by one exactly when a call publishes it. *)
Lemma spec_op_version op t c key :
  version_of (spec_op op t c) key =
  if publishes key c op then wrap_u64 (version_of c key + 1) else version_of c key.
Proof.
  destruct op; cbn; try done.
  - rewrite version_of_insert. cbn. rewrite version_of_next. 
    repeat (case_decide || case_bool_decide); by subst.
  - unfold cat_mark_replica. repeat case_match; try done. cbn. rewrite version_of_insert.
    case_decide; [|done]. subst. unfold version_of. by rewrite H.
  - unfold cat_tombstone. case_match eqn:E.
    + cbn. rewrite version_of_insert. case_decide as Hk.
      * subst. rewrite !bool_decide_eq_true_2 by eauto. unfold version_of. by rewrite E.
      * by rewrite bool_decide_eq_false_2 by done.
    + cbn. case_bool_decide; [subst|done]. rewrite E.
      by rewrite bool_decide_eq_false_2 by apply is_Some_None.
  - unfold cat_add_replica. case_match; try done. cbn. rewrite version_of_insert.
    case_decide; [|done]. subst. unfold version_of. by rewrite H.
Qed.

Lemma publishes_may key c op : publishes key c op = true → may_publish key op = true.
Proof. destruct op; cbn; try done. by intros [? _]%andb_prop. Qed.

Lemma run_op_version `{MetadataBackendLaws B} op (b : B) r b' key :
  run_op op b = (r, b') →
  version_of (catalog b') key = version_of (catalog b) key ∨
  may_publish key op = true ∧
  version_of (catalog b') key = wrap_u64 (version_of (catalog b) key + 1).
Proof.
  intros [[t ->]| ->]%run_op_spec; [|by left].
  rewrite spec_op_version. destruct (publishes key (catalog b) op) eqn:E; [right|by left].
  eauto using publishes_may.
Qed.

Lemma wrap_u64_add_wrap v n : wrap_u64 (wrap_u64 v + n) = wrap_u64 (v + n).
Proof. unfold wrap_u64. by rewrite Zplus_mod_idemp_l. Qed.

Lemma version_of_in c key : catalog_wf c → in_u64 (version_of c key).
Proof.
  intros [Hf _]. unfold version_of. case_match eqn:E; [by apply (Hf key)|by unfold in_u64].
Qed.

Lemma run_op_wf `{MetadataBackendLaws B} op (b : B) r b' :
  catalog_wf (catalog b) → run_op op b = (r, b') → catalog_wf (catalog b').
Proof. intros Hb [[t ->]| ->]%run_op_spec; auto using spec_op_wf. Qed.

Lemma version_of_wrap c key :
  catalog_wf c → version_of c key = wrap_u64 (version_of c key + Z.of_nat 0).
Proof. intros. rewrite Z.add_0_r, wrap_u64_small; [done|]. by apply version_of_in. Qed.

Lemma run_ops_unpublished `{MetadataBackendLaws B} ops (b b' : B) r key :
  Forall (λ op, may_publish key op = false) ops → run_ops ops b = (r, b') →
  version_of (catalog b') key = version_of (catalog b) key.
Proof.
  intros Hops. revert b. induction Hops as [|op ops Hop Hops IH]; intros b Hrun; [by inv Hrun|].
  unfold run_ops in Hrun; cbn in Hrun.
  assert (∀ r' b', run_op op b = (r', b') →
    version_of (catalog b') key = version_of (catalog b) key) as Hsame.
  { intros r' b1 Hr. destruct (run_op_version _ _ _ _ key Hr) as [E|[E _]]; congruence. }
  go_step Hrun; eauto. rewrite <-(Hsame _ _ Hc). eauto.
Qed.

(** *** Properties *)

(** in every history of calls on a metadata backend, whatever the calls
    and wherever they fail, the catalog stays well formed: a file is stored
    under its own key, a replica under its own node ID, a node under its own
    ID, and every version is a [uint64]. *)
Theorem metadata_history_wf `{MetadataBackendLaws B} (ops : list MetaOp) (b : B) r b' :
  catalog_wf (catalog b) → run_ops ops b = (r, b') → catalog_wf (catalog b').
Proof. intros Hb Hrun. eauto using catalog_steps_wf, run_ops_steps. Qed.

(** C38: the version of a key only moves forward, one step per publication:
    after a history it is the old version plus at most one for each
    [BeginFileVersion] or [Tombstone] of that key in the history (modulo
    2^64), and no other call changes it. *)
Theorem version_history `{MetadataBackendLaws B} (ops : list MetaOp) (b : B) r b' key :
  catalog_wf (catalog b) → run_ops ops b = (r, b') →
  ∃ n : nat, n ≤ length (filter (λ op, may_publish key op = true) ops) ∧
    version_of (catalog b') key = wrap_u64 (version_of (catalog b) key + Z.of_nat n).
Proof.
  revert b. induction ops as [|op ops IH]; intros b Hb Hrun.
  { inv Hrun. exists 0. eauto using version_of_wrap. }
  unfold run_ops in Hrun; cbn in Hrun.
  destruct (run_op op b) as [r1 b1] eqn:Hop.
  pose proof (run_op_wf _ _ _ _ Hb Hop) as Hb1.
  assert (∃ m : nat, m ≤ length (filter (λ op, may_publish key op = true) ops) ∧
    version_of (catalog b') key = wrap_u64 (version_of (catalog b1) key + Z.of_nat m)) as (m & Hm & Hv).
  { unfold mbind, gom_bind in Hrun. rewrite Hop in Hrun. destruct r1 as [[]| |];
      [by eapply IH|simplify_eq; exists 0; split; [lia|by apply version_of_wrap]..]. }
  rewrite filter_cons.
  destruct (run_op_version _ _ _ _ key Hop) as [E|[Hp E]]; rewrite E in Hv.
  - exists m. split; [|done]. case_decide; cbn; lia.
  - exists (S m). rewrite decide_True by done. split; [cbn; lia|].
    rewrite Hv, wrap_u64_add_wrap. f_equal. lia.
Qed.

(** The version number [NextVersion] announces is the one
    [BeginFileVersion] assigns, as long as no call in between publishes that
    key: what [Put] relies on when it names the objects of a version before
    publishing it, under the lock that excludes other writers. *)
Theorem next_version_reserved `{MetadataBackendLaws B} (ops : list MetaOp) (b b1 b2 b3 : B) r
    key v size sum chunks primary replicas meta :
  Forall (λ op, may_publish key op = false) ops →
  mb_NextVersion key b = (Ok v, b1) →
  run_ops ops b1 = (r, b2) →
  mb_BeginFileVersion key size sum chunks primary replicas b2 = (Ok meta, b3) →
  fm_Version meta = v.
Proof.
  intros Hops Hnext Hrun Hbegin.
  apply (refines_catalog _ _ _ _ _ (mb_NextVersion_ref key)) in Hnext as [[t Ht]|(? & ? & _)];
    [|done].
  apply (refines_catalog _ _ _ _ _ (mb_BeginFileVersion_ref _ _ _ _ _ _)) in Hbegin
    as [[t' Ht']|(? & ? & _)]; [|done].
  cbn in Ht, Ht'. injection Ht as Hv Hb1. injection Ht' as Hm _. subst v meta. cbn.
  rewrite !version_of_next, Hb1. do 2 f_equal. by eapply run_ops_unpublished.
Qed.

(** ** Witnesses *)

Definition demo_store : MetadataStore := NewMetadataStore (stopped 1000).

Definition demo_ops : list MetaOp := [
  OpUpsertNode "node1" ":3000"; OpUpsertNode "node2" ":5000";
  OpBeginFileVersion "foo.txt" 12 "sum" [] "node1" ["node1"; "node2"];
  OpMarkReplica "foo.txt" "node2" ReplicaHealthy;
  OpTombstone "foo.txt"; OpMarkReplica "bar.txt" "node1" ReplicaStale;
  OpBeginFileVersion "foo.txt" 3 "sum'" [] "node2" ["node2"]
].

Lemma demo_store_wf : catalog_wf (catalog demo_store).
Proof. split; apply map_Forall_empty. Qed.

Lemma metadata_history_wf_witness :
  catalog_wf (catalog (run_ops demo_ops demo_store).2).
Proof.
  apply (metadata_history_wf demo_ops demo_store (run_ops demo_ops demo_store).1).
  - apply demo_store_wf.
  - apply surjective_pairing.
Defined.

Lemma version_history_witness :
  version_of (catalog (run_ops demo_ops demo_store).2) "foo.txt" = 3%Z ∧
  ∃ n : nat, n ≤ length (filter (λ op, may_publish "foo.txt" op = true) demo_ops) ∧
    version_of (catalog (run_ops demo_ops demo_store).2) "foo.txt" =
      wrap_u64 (version_of (catalog demo_store) "foo.txt" + Z.of_nat n).
Proof.
  split; [by vm_compute|].
  apply (version_history demo_ops demo_store (run_ops demo_ops demo_store).1).
  - apply demo_store_wf.
  - apply surjective_pairing.
Defined.

Definition demo_between : list MetaOp := [OpUpsertNode "node1" ":3000"; OpTombstone "bar.txt"].

Lemma next_version_reserved_witness :
  fm_Version (new_file_version "foo.txt" 1 5 "sum" [] "node1" ["node1"] 1000 1000) = 1%Z.
Proof.
  apply (next_version_reserved demo_between
    demo_store (NextVersion "foo.txt" demo_store).2
    (run_ops demo_between (NextVersion "foo.txt" demo_store).2).2
    (BeginFileVersion "foo.txt" 5 "sum" [] "node1" ["node1"]
       (run_ops demo_between (NextVersion "foo.txt" demo_store).2).2).2
    (Ok tt) "foo.txt" 1 5 "sum" [] "node1" ["node1"]).
  - by repeat constructor.
  - by vm_compute.
  - by vm_compute.
  - by vm_compute.
Defined.
