(* ===== verification/ReplicationSpec.v ===== *)
(** * Properties of the planner, the task builder and the task queue. *)

From S2P Require Import Prelude Metadata Replication Backend MetadataSpec.
From stdpp Require Import options.

(** ** Placement *)

(** The nodes a planner chooses from, in ID order. *)
Definition healthy_sorted (nodes : list NodeMetadata) : list NodeMetadata :=
  sort_by nm_ID (filter (λ n, nm_State n = NodeHealthy) nodes).

(** How many of [n] healthy nodes a planner takes. *)
Definition replica_quota (p : ReplicationPlanner) (n : nat) : nat :=
  Z.to_nat (Z.min (ReplicaCount p) (Z.of_nat n)).

Lemma Plan_unfold p nodes :
  Plan p nodes =
  if decide (length (healthy_sorted nodes) = 0) then Err ErrNoHealthyNodes
  else if decide (ReplicaCount p ≤ 0)%Z then Panic
  else
    match take (replica_quota p (length (healthy_sorted nodes))) (healthy_sorted nodes) with
    | [] => Panic
    | (primary :: _) as replicas => Ok {| rp_Primary := primary; rp_Replicas := replicas |}
    end.
Proof.
  unfold Plan, healthy_sorted, replica_quota, zlen. rewrite length_sort_by.
  set (h := filter _ nodes). pose proof (length_sort_by nm_ID h) as Hlen.
  destruct (decide (length h = 0)) as [|Hn]; [done|].
  destruct (Z.ltb_spec (Z.of_nat (length h)) (ReplicaCount p)).
  - destruct (Z.ltb_spec (Z.of_nat (length h)) 0); [lia|].
    rewrite decide_False by lia. by rewrite Z.min_r by lia.
  - destruct (decide (ReplicaCount p ≤ 0)%Z).
    + destruct (Z.ltb_spec (ReplicaCount p) 0); [done|].
      by replace (Z.to_nat (ReplicaCount p)) with 0 by lia.
    + destruct (Z.ltb_spec (ReplicaCount p) 0); [lia|]. by rewrite Z.min_l by lia.
Qed.

Lemma Plan_ok_inv p nodes plan :
  Plan p nodes = Ok plan →
  (0 < ReplicaCount p)%Z ∧
  rp_Replicas plan =
    take (replica_quota p (length (healthy_sorted nodes))) (healthy_sorted nodes) ∧
  head (rp_Replicas plan) = Some (rp_Primary plan).
Proof.
  rewrite Plan_unfold. repeat case_decide; try done. case_match eqn:E; [done|].
  intros. simplify_eq/=. split; [lia|done].
Qed.

Lemma healthy_sorted_elem nodes n :
  n ∈ healthy_sorted nodes ↔ n ∈ nodes ∧ nm_State n = NodeHealthy.
Proof. unfold healthy_sorted. rewrite elem_of_sort_by, list_elem_of_filter. tauto. Qed.

Lemma healthy_sorted_perm nodes nodes' :
  NoDup (nm_ID <$> nodes) → nodes ≡ₚ nodes' → healthy_sorted nodes = healthy_sorted nodes'.
Proof.
  intros Hnd Hp. apply sort_by_unique.
  - eapply sublist_NoDup; [exact Hnd|]. apply fmap_sublist, sublist_filter.
  - by rewrite Hp.
Qed.

(** A plan takes the healthy nodes with the smallest IDs, as many as the
    replica count asks for and there are, the first of them as the primary;
    the order in which the nodes are listed does not matter. *)
Theorem Plan_smallest_ids p nodes nodes' plan :
  NoDup (nm_ID <$> nodes) → nodes ≡ₚ nodes' → Plan p nodes = Ok plan →
  Plan p nodes' = Ok plan ∧
  head (rp_Replicas plan) = Some (rp_Primary plan) ∧
  Z.of_nat (length (rp_Replicas plan)) =
    Z.min (ReplicaCount p) (zlen (filter (λ n, nm_State n = NodeHealthy) nodes)) ∧
  (∀ n, n ∈ rp_Replicas plan → n ∈ nodes ∧ nm_State n = NodeHealthy) ∧
  (∀ n n', n ∈ rp_Replicas plan → n' ∈ nodes → nm_State n' = NodeHealthy →
    n' ∉ rp_Replicas plan → String.le (nm_ID n) (nm_ID n')).
Proof.
  intros Hnd Hp Hplan.
  split. { rewrite Plan_unfold in *. by rewrite <-(healthy_sorted_perm _ _ Hnd Hp). }
  apply Plan_ok_inv in Hplan as (Hc & Hr & Hh). split; [done|]. rewrite Hr.
  split. { unfold replica_quota, zlen. rewrite length_take.
    unfold healthy_sorted. rewrite length_sort_by. lia. }
  split. { intros n Hn. apply healthy_sorted_elem. by eapply elem_of_take_sub. }
  intros n n' Hn Hn' Hst Hout.
  eapply (StronglySorted_take (by_key nm_ID)); [apply Sorted_sort_by|exact Hn|].
  fold (healthy_sorted nodes).
  assert (n' ∈ healthy_sorted nodes) as Hin by by apply healthy_sorted_elem.
  rewrite <-(take_drop (replica_quota p (length (healthy_sorted nodes))) (healthy_sorted nodes)) in Hin.
  set_solver.
Qed.

(** the error behaviour of the planner: no healthy node is an error, and a
    planner with a non-positive replica count panics (a [make] with a negative
    length, or indexing an empty slice) as soon as one node is healthy; it
    succeeds in all other cases. *)
Theorem Plan_outcomes p nodes :
  match Plan p nodes with
  | Err e => e = ErrNoHealthyNodes ∧ ∀ n, n ∈ nodes → nm_State n ≠ NodeHealthy
  | Panic => (ReplicaCount p ≤ 0)%Z ∧ ∃ n, n ∈ nodes ∧ nm_State n = NodeHealthy
  | Ok plan => (0 < ReplicaCount p)%Z ∧ rp_Primary plan ∈ nodes ∧
      nm_State (rp_Primary plan) = NodeHealthy
  end.
Proof.
  rewrite Plan_unfold. case_decide as Hl.
  { split; [done|]. intros n Hn Hst. apply length_zero_iff_nil in Hl.
    apply (not_elem_of_nil n). rewrite <-Hl. by apply healthy_sorted_elem. }
  destruct (healthy_sorted nodes) as [|n0 l] eqn:E; [done|].
  assert (n0 ∈ nodes ∧ nm_State n0 = NodeHealthy) as Hn0.
  { apply healthy_sorted_elem. rewrite E. by left. }
  case_decide as Hc; [by eauto|].
  unfold replica_quota. destruct (Z.to_nat _) as [|k] eqn:Hk; [cbn in Hk; lia|]. cbn.
  split; [lia|done].
Qed.

(** ** Tasks of a file *)

(** The copies a published version still needs: every replica but the primary
    that is pending, stale or missing. *)
Definition needs_task (meta : FileMetadata) (nodeID : string) : Prop :=
  nodeID ≠ fm_Primary meta ∧
  ∃ r, fm_Replicas meta !! nodeID = Some r ∧
    (rm_State r = ReplicaPending ∨ rm_State r = ReplicaStale ∨ rm_State r = ReplicaMissing).

Lemma needs_copy_spec st :
  needs_copy st = true ↔ st = ReplicaPending ∨ st = ReplicaStale ∨ st = ReplicaMissing.
Proof. destruct st; cbn; naive_solver. Qed.

Lemma task_for_node_Some meta t n task :
  task_for_node meta t n = Some task ↔
  needs_task meta n ∧ task = pending_task meta (fm_Primary meta) n t t.
Proof.
  unfold task_for_node, needs_task. case_decide; [naive_solver|].
  destruct (fm_Replicas meta !! n) as [r|] eqn:E; [|naive_solver].
  pose proof (needs_copy_spec (rm_State r)). case_match; naive_solver.
Qed.

Lemma task_for_node_target meta t n task : task_for_node meta t n = Some task → rt_Target task = n.
Proof. intros [_ ->]%task_for_node_Some. done. Qed.

Lemma omap_targets meta t (l : list string) :
  rt_Target <$> omap (task_for_node meta t) l =
  filter (λ n, is_Some (task_for_node meta t n)) l.
Proof.
  induction l as [|n l IH]; [done|]. rewrite filter_cons. cbn.
  destruct (task_for_node meta t n) as [task|] eqn:E.
  - rewrite decide_True by eauto. cbn. by rewrite IH, (task_for_node_target _ _ _ _ E).
  - rewrite decide_False by apply is_Some_None. done.
Qed.

Lemma TasksForFile_ok meta t tasks task :
  TasksForFile meta t = Ok tasks →
  task ∈ tasks ↔ ∃ n, needs_task meta n ∧ task = pending_task meta (fm_Primary meta) n t t.
Proof.
  unfold TasksForFile. case_decide; [done|]. case_match; [|done]. intros [= <-].
  rewrite list_elem_of_omap. setoid_rewrite task_for_node_Some.
  split; [naive_solver|]. intros (n & Hn & ->). exists n. split; [|done].
  rewrite elem_of_sort_by, elem_of_range_keys. destruct Hn as (_ & r' & -> & _). eauto.
Qed.

(** [TasksForFile] returns one pending task for each replica that needs a
    copy and no other, in target order and without duplicates, each carrying
    the version, checksum and chunk manifest of the file and copying from the
    primary; it fails exactly when the primary is unset or not a replica. *)
Theorem TasksForFile_exact meta t :
  match TasksForFile meta t with
  | Ok tasks =>
      fm_Primary meta ≠ "" ∧ is_Some (fm_Replicas meta !! fm_Primary meta) ∧
      (∀ task, task ∈ tasks ↔ ∃ n, needs_task meta n ∧
         task = pending_task meta (fm_Primary meta) n t t) ∧
      NoDup (rt_Target <$> tasks) ∧
      StronglySorted String.le (rt_Target <$> tasks)
  | Err e => e = ErrPrimaryUnavailable ∧
      (fm_Primary meta = "" ∨ fm_Replicas meta !! fm_Primary meta = None)
  | Panic => False
  end.
Proof.
  destruct (TasksForFile meta t) as [tasks| |] eqn:E.
  - pose proof (λ task, TasksForFile_ok _ _ _ task E) as Hin. unfold TasksForFile in E.
    case_decide; [done|]. case_match; [|done]. injection E as <-.
    split; [done|]. split; [by eauto|]. split; [done|]. rewrite omap_targets. split.
    + apply NoDup_filter. rewrite sort_by_Permutation. apply NoDup_range_keys.
    + eapply StronglySorted_sublist; [apply sublist_filter|]. apply (Sorted_sort_by (λ x, x)).
  - unfold TasksForFile in E. case_decide; [naive_solver|]. by case_match; simplify_eq; eauto.
  - unfold TasksForFile in E. case_decide; [done|]. by case_match.
Qed.

(** ** Back-off *)

Lemma replicationBackoff_small a :
  (a < 5)%Z → replicationBackoff a = (2 ^ Z.max 1 a * Second)%Z.
Proof.
  intros Ha. destruct (Z_lt_le_dec a 1) as [Hlt|Hge].
  - unfold replicationBackoff. rewrite (proj2 (Z.ltb_lt a 1)) by done.
    by rewrite Z.max_l by lia.
  - assert (a = 1 ∨ a = 2 ∨ a = 3 ∨ a = 4)%Z as [->|[->|[->| ->]]] by lia; done.
Qed.

Lemma backoff_range a : (a < 5)%Z → (2 * Second ≤ replicationBackoff a ≤ 16 * Second)%Z.
Proof.
  intros Ha. rewrite replicationBackoff_small by done. unfold Second.
  assert (2 ^ 1 ≤ 2 ^ Z.max 1 a ≤ 2 ^ 4)%Z; [|lia].
  split; apply Z.pow_le_mono_r; lia.
Qed.

(** A failed task with attempts left goes back to pending and becomes
    runnable again exactly 2, 4, 8 or 16 seconds later (so the one-minute cap
    of [replicationBackoff] is never the delay of a retry); after the fifth
    attempt it is dead, with no lease and no retry time.  Nothing else of the
    task changes, and the error is recorded. *)
Theorem failReplicationTask_schedule task t cause :
  (0 ≤ t)%Z →
  let task' := failReplicationTask task t cause in
  let delay := replicationBackoff (rt_Attempts task) in
  rt_ID task' = rt_ID task ∧ rt_Attempts task' = rt_Attempts task ∧
  rt_LastError task' = match cause with Some e => error_string e | None => "" end ∧
  rt_LeaseUntil task' = zero_time ∧
  if (rt_Attempts task <? defaultReplicationTaskMaxAttempts)%Z then
    rt_State task' = ReplicationTaskPending ∧
    delay = (2 ^ Z.max 1 (rt_Attempts task) * Second)%Z ∧
    (2 * Second ≤ delay < defaultReplicationTaskMaxBackoff)%Z ∧
    (∀ u, (t ≤ u)%Z → readyToRun task' u = true ↔ (t + delay ≤ u)%Z)
  else rt_State task' = ReplicationTaskDead ∧ rt_RunAfter task' = zero_time.
Proof.
  intros Ht task' delay. unfold task', failReplicationTask.
  destruct (Z.ltb_spec (rt_Attempts task) defaultReplicationTaskMaxAttempts) as [Ha|Ha].
  - rewrite (proj2 (Z.leb_gt _ _)) by done. do 4 (split; [done|]). split; [done|].
    pose proof (backoff_range _ Ha). fold delay in H |- *.
    split; [by apply replicationBackoff_small|].
    unfold defaultReplicationTaskMaxBackoff, Minute, Second in *. split; [lia|].
    intros u Hu. unfold readyToRun, IsZero, After, TimeAdd; cbn. fold delay. lia.
  - rewrite (proj2 (Z.leb_le _ _)) by done. done.
Qed.

(** The outcome of a failure at an attempt between the first and the fifth. *)
Lemma failReplicationTask_retry task t cause a :
  rt_Attempts task = a → (1 ≤ a ≤ 5)%Z →
  let task' := failReplicationTask task t cause in
  if (a =? 5)%Z then rt_State task' = ReplicationTaskDead ∧ rt_RunAfter task' = zero_time
  else rt_State task' = ReplicationTaskPending ∧ rt_RunAfter task' = (rt_UpdatedAt task' + 2 ^ a * Second)%Z.
Proof.
  intros <- Ha. unfold failReplicationTask, defaultReplicationTaskMaxAttempts. cbv zeta.
  destruct (Z.eqb_spec (rt_Attempts task) 5) as [->|Hne]; [done|].
  rewrite (proj2 (Z.leb_gt _ _)) by lia. split; [done|]. cbn [rt_RunAfter rt_UpdatedAt set_task]. unfold TimeAdd.
  rewrite replicationBackoff_small by lia. by rewrite Z.max_r by lia.
Qed.

(** [replicationBackoff] itself is not safe for every [int]: from attempt 34
    on the product overflows, and the cap does not catch a negative value. *)
Example replicationBackoff_overflow : (replicationBackoff 34 < 0)%Z.
Proof. by vm_compute. Qed.

(** ** The retry budget *)

(** [n] rounds of "run, then fail" of one task, at clock readings [t]. *)
Fixpoint retry (t : nat → Time) (cause : option GoError) (n : nat) (task : ReplicationTask) :
    ReplicationTask :=
  match n with
  | 0 => task
  | S n => failReplicationTask (runReplicationTask (retry t cause n task) (t (2 * n)))
             (t (2 * n + 1)) cause
  end.

Lemma wrap_s64_small z : in_s64 z → wrap_s64 z = z.
Proof. unfold in_s64, wrap_s64. intros. rewrite Z.mod_small; lia. Qed.

Lemma failReplicationTask_attempts task t cause :
  rt_Attempts (failReplicationTask task t cause) = rt_Attempts task.
Proof. unfold failReplicationTask. by case_match. Qed.

Lemma failReplicationTask_state task t cause :
  rt_State (failReplicationTask task t cause) =
  if decide (defaultReplicationTaskMaxAttempts ≤ rt_Attempts task)%Z
  then ReplicationTaskDead else ReplicationTaskPending.
Proof.
  unfold failReplicationTask. destruct (Z.leb_spec defaultReplicationTaskMaxAttempts (rt_Attempts task)).
  - by rewrite decide_True.
  - by rewrite decide_False by lia.
Qed.

Lemma retry_attempts t cause n task :
  (0 ≤ rt_Attempts task)%Z → (rt_Attempts task + Z.of_nat n < 2 ^ 63)%Z →
  rt_Attempts (retry t cause n task) = (rt_Attempts task + Z.of_nat n)%Z.
Proof.
  intros H0. induction n as [|n IH]; intros Hn; cbn [retry]; [lia|].
  rewrite failReplicationTask_attempts. cbn. rewrite IH by lia.
  rewrite wrap_s64_small by (unfold in_s64; lia). lia.
Qed.

(** a new task that keeps failing is retried until it has run five times
    and is then dead: it is pending after each of the first four failures,
    and dead from the fifth on, whatever the clock and the errors. *)
Theorem retry_budget t cause meta source target created updated n :
  (Z.of_nat n < 2 ^ 63)%Z →
  rt_State (retry t cause n (pending_task meta source target created updated)) =
  if decide (n < 5) then ReplicationTaskPending else ReplicationTaskDead.
Proof.
  intros Hn. destruct n as [|n]; [done|]. cbn [retry].
  rewrite failReplicationTask_state. cbn [runReplicationTask set_task rt_Attempts].
  rewrite retry_attempts by (cbn; lia). cbn [pending_task rt_Attempts].
  rewrite wrap_s64_small by (unfold in_s64; lia).
  unfold defaultReplicationTaskMaxAttempts. repeat case_decide; lia || done.
Qed.

(** ** The task order *)

Lemma string_ltb_false x y : String.ltb x y = false ↔ String.le y x.
Proof.
  unfold String.le, String.leb, String.ltb. rewrite (String.compare_antisym x y).
  destruct (y ?= x)%string; naive_solver.
Qed.

(** The order of [sortReplicationTasks]: tasks with no retry time first, then
    by retry time, then by ID. *)
Lemma task_le_spec a b :
  task_le a b ↔
  (rt_RunAfter a = rt_RunAfter b ∧ String.le (rt_ID a) (rt_ID b)) ∨
  (rt_RunAfter a ≠ rt_RunAfter b ∧
     (rt_RunAfter a = 0%Z ∨ rt_RunAfter b ≠ 0%Z ∧ (rt_RunAfter a < rt_RunAfter b)%Z)).
Proof.
  unfold task_le, task_less, IsZero, Before. rewrite <-string_ltb_false.
  destruct (String.ltb (rt_ID b) (rt_ID a));
    destruct (Z.eqb_spec (rt_RunAfter b) (rt_RunAfter a)) as [E|E]; cbn;
    repeat match goal with |- context [Z.eqb ?x 0] => destruct (Z.eqb_spec x 0) end;
    repeat match goal with |- context [Z.ltb ?x ?y] => destruct (Z.ltb_spec x y) end;
    intuition (lia || congruence).
Qed.

#[export] Instance task_le_trans : Transitive task_le.
Proof.
  intros a b c. rewrite !task_le_spec.
  intros [[Hab Sab]|Hab] [[Hbc Sbc]|Hbc]; [left|right; lia..|]; [split; [lia|by etrans]|].
  destruct (decide (rt_RunAfter a = rt_RunAfter c)); [exfalso|right]; lia.
Qed.

#[export] Instance task_le_total : Total task_le.
Proof.
  intros a b. rewrite !task_le_spec. destruct (total String.le (rt_ID a) (rt_ID b));
    destruct (decide (rt_RunAfter a = rt_RunAfter b)); naive_solver lia.
Qed.

Lemma task_le_antisym a b : task_le a b → task_le b a → rt_ID a = rt_ID b.
Proof.
  rewrite !task_le_spec. intros [[? Ha]|Ha] [[? Hb]|Hb]; [|lia..].
  by apply (anti_symm String.le).
Qed.

Lemma sortReplicationTasks_perm l : sortReplicationTasks l ≡ₚ l.
Proof. apply merge_sort_Permutation. Qed.

Lemma sortReplicationTasks_sorted l : StronglySorted task_le (sortReplicationTasks l).
Proof. apply StronglySorted_merge_sort; apply _. Qed.

Lemma sortReplicationTasks_unique l l' :
  NoDup (rt_ID <$> l) → l ≡ₚ l' → sortReplicationTasks l = sortReplicationTasks l'.
Proof.
  intros Hnd Hp.
  apply (StronglySorted_unique_strong task_le); [|apply sortReplicationTasks_sorted..|].
  - intros x y Hx Hy Hxy Hyx. rewrite sortReplicationTasks_perm in Hx, Hy. rewrite <-Hp in Hy.
    eapply NoDup_fmap_elem; eauto using task_le_antisym.
  - by rewrite !sortReplicationTasks_perm.
Qed.

(** Every task is stored under its own ID. *)
Definition ids_ok (ts : TaskTable) : Prop := map_Forall (λ id task, rt_ID task = id) ts.

(** Of two runnable tasks the one that comes first in a list of pending tasks:
    a task that never failed comes before one with a retry time, an earlier retry
    time before a later one, and between equals the smaller ID first. *)
Definition runs_before (a b : ReplicationTask) : Prop :=
  if decide (rt_RunAfter a = rt_RunAfter b) then String.le (rt_ID a) (rt_ID b) ∧ rt_ID a ≠ rt_ID b
  else rt_RunAfter a = zero_time ∨ rt_RunAfter b ≠ zero_time ∧ (rt_RunAfter a < rt_RunAfter b)%Z.

Lemma sorted_runs_before l :
  StronglySorted task_le l → NoDup (rt_ID <$> l) → StronglySorted runs_before l.
Proof.
  induction 1 as [|a l Hl IH Ha]; rewrite ?fmap_cons; [constructor|]. intros [Hin Hnd]%NoDup_cons.
  constructor; [by apply IH|]. apply Forall_forall. intros b Hb. rewrite Forall_forall in Ha.
  specialize (Ha _ Hb). apply task_le_spec in Ha. unfold runs_before, zero_time.
  case_decide as E; [|by destruct Ha as [[? _]|[_ ?]]].
  split; [by destruct Ha as [[_ ?]|[? _]]|]. intros Eid. apply Hin. rewrite Eid. by apply list_elem_of_fmap_2.
Qed.

(** C40: [Pending] returns exactly the pending tasks whose retry time has come,
    each once: tasks that never failed first, then by retry time from the earliest
    to the latest, and by ID where these are the same; the result does not depend
    on the iteration order of the task map. *)
Theorem Pending_exact (q : MemoryReplicationTaskQueue) :
  ids_ok (mq_tasks q) →
  ∃ l q', Pending q = (Ok l, q') ∧ mq_tasks q' = mq_tasks q ∧
  (∀ task, task ∈ l ↔
     ∃ id, mq_tasks q !! id = Some task ∧ rt_State task = ReplicationTaskPending ∧
       (rt_RunAfter task = zero_time ∨ (rt_RunAfter task ≤ (now (mq_now q)).1)%Z)) ∧
  NoDup (rt_ID <$> l) ∧ StronglySorted runs_before l ∧
  (∀ order, order ≡ₚ range_values (mq_tasks q) →
     l = sortReplicationTasks (filter (runnable (now (mq_now q)).1) order)).
Proof.
  intros Hids. eexists _, _. split; [reflexivity|]. split; [done|].
  set (t := (now (mq_now q)).1).
  assert (NoDup (rt_ID <$> filter (runnable t) (range_values (mq_tasks q)))) as Hnd.
  { eapply sublist_NoDup; [by apply (NoDup_range_values rt_ID)|]. apply fmap_sublist, sublist_filter. }
  assert (NoDup (rt_ID <$> pending_tasks t (mq_tasks q))) as Hnd'
    by (unfold pending_tasks; by rewrite sortReplicationTasks_perm).
  split; [|split; [done|split]].
  - intros task. unfold pending_tasks. cbn. fold t.
    rewrite sortReplicationTasks_perm, list_elem_of_filter, elem_of_range_values.
    unfold runnable, readyToRun, IsZero, After, zero_time. split.
    + intros [[Hp Hr] [id Hid]]. exists id. split; [done|]. split; [done|]. lia.
    + intros (id & Hid & Hp & Hr). split; [|by eauto]. split; [done|]. lia.
  - apply sorted_runs_before; [apply sortReplicationTasks_sorted|done].
  - intros order Hp. apply sortReplicationTasks_unique; [done|]. cbn. by rewrite Hp.
Qed.
