(* ===== verification/Names.v ===== *)
(** * Names built with [fmt.Sprintf]: object keys and task IDs.

    [versionedObjectKey] and [chunkObjectKey] of [object.go] name the objects
    of a file version on a storage node; [replicationTaskID] of
    [replication.go] names a copy.  Two different things must not get the
    same name, or they share an object file or a task slot. *)

From Stdlib Require Import Ascii.
From S2P Require Import Prelude Metadata Replication.
From stdpp Require Import options.

(** ** Decimal formatting *)

(** [n] zeros *)
Fixpoint zeros (n : nat) : string :=
  match n with 0 => "" | S n => String "0" (zeros n) end.

(** [%06d]: at least six characters, padded with zeros after the sign. *)
Definition sprintf_06d (z : Z) : string :=
  if (z <? 0)%Z then
    let digits := pretty (- z)%Z in "-" +:+ zeros (5 - String.length digits) +:+ digits
  else
    let digits := pretty z in zeros (6 - String.length digits) +:+ digits.

(** [fmt.Sprintf("%s.v%d", key, version)] *)
Definition versionedObjectKey (key : string) (version : Z) : string :=
  key +:+ ".v" +:+ pretty version.

(** [fmt.Sprintf("%s.chunk.%06d", key, index)] *)
Definition chunkObjectKey (key : string) (index : Z) : string :=
  key +:+ ".chunk." +:+ sprintf_06d index.

(** The value of a decimal string, the inverse of the formatting. *)
Definition digit_value (c : ascii) : N := (N_of_ascii c - 48)%N.
Fixpoint dec_value (acc : N) (s : string) : N :=
  match s with
  | EmptyString => acc
  | String c s => dec_value (acc * 10 + digit_value c) s
  end.

(** Whether a character occurs in a string. *)
Fixpoint has_char (c : ascii) (s : string) : bool :=
  match s with
  | EmptyString => false
  | String a s => bool_decide (a = c) || has_char c s
  end.

(** ** Strings *)

Lemma string_app_assoc s1 s2 s3 : (s1 +:+ s2) +:+ s3 = s1 +:+ s2 +:+ s3.
Proof. induction s1 as [|c s IH]; [done|]. change (String c ((s +:+ s2) +:+ s3) = String c (s +:+ s2 +:+ s3)). by rewrite IH. Qed.

Lemma string_app_cons c s1 s2 : String c s1 +:+ s2 = String c (s1 +:+ s2).
Proof. done. Qed.

Lemma has_char_app c s1 s2 : has_char c (s1 +:+ s2) = has_char c s1 || has_char c s2.
Proof.
  induction s1 as [|a s IH]; [done|]. rewrite string_app_cons. cbn. rewrite IH.
  by rewrite orb_assoc.
Qed.

(** The text before and after the last separator is determined. *)
Lemma split_last c s1 s2 d1 d2 :
  has_char c d1 = false → has_char c d2 = false →
  s1 +:+ String c d1 = s2 +:+ String c d2 → s1 = s2 ∧ d1 = d2.
Proof.
  intros H1 H2. revert s2. induction s1 as [|a s1 IH]; intros [|b s2] E.
  - by injection E.
  - injection E as <- ->. rewrite has_char_app in H1. cbn in H1.
    rewrite bool_decide_eq_true_2, orb_true_r in H1 by done. done.
  - injection E as -> <-. rewrite has_char_app in H2. cbn in H2.
    rewrite bool_decide_eq_true_2, orb_true_r in H2 by done. done.
  - rewrite !string_app_cons in E. injection E as -> E.
    apply IH in E as [-> ->]. done.
Qed.

Lemma string_app_inv_tail s1 s2 t : s1 +:+ t = s2 +:+ t → s1 = s2.
Proof.
  revert s1 s2. induction t as [|c t IH]; intros s1 s2 E.
  - assert (∀ s, s +:+ "" = s) as Hnil.
    { induction s as [|a s IHs]; [done|]. rewrite string_app_cons. by rewrite IHs. }
    by rewrite !Hnil in E.
  - assert (∀ s, s +:+ String c t = (s +:+ String c "") +:+ t) as Hc.
    { intros s. by rewrite string_app_assoc. }
    rewrite !Hc in E. apply IH in E. by apply (split_last c _ _ "" "") in E as [-> _].
Qed.

(** ** Digits *)

Lemma digit_value_char x : (x < 10)%N → digit_value (pretty_N_char x) = x.
Proof.
  intros Hx. assert (x = 0 ∨ x = 1 ∨ x = 2 ∨ x = 3 ∨ x = 4 ∨ x = 5 ∨ x = 6 ∨ x = 7
    ∨ x = 8 ∨ x = 9)%N by lia. naive_solver.
Qed.

Lemma dec_value_go x s : dec_value 0 (pretty_N_go x s) = dec_value x s.
Proof.
  revert s. induction (N.lt_wf_0 x) as [x _ IH]; intros s.
  destruct (decide (x = 0)%N) as [->|Hx]; [by rewrite pretty_N_go_0|].
  rewrite pretty_N_go_step by lia. rewrite IH by (apply N.div_lt; lia). cbn.
  rewrite digit_value_char by (apply N.mod_lt; lia). f_equal.
  rewrite (N.div_mod x 10) at 3 by lia. lia.
Qed.

Lemma dec_value_pretty (x : N) : dec_value 0 (pretty x) = x.
Proof.
  unfold pretty, pretty_N. case_decide as E; [by subst|]. by rewrite dec_value_go.
Qed.

Lemma dec_value_zeros n s : dec_value 0 (zeros n +:+ s) = dec_value 0 s.
Proof. induction n as [|n IH]; [done|]. cbn [zeros]. rewrite string_app_cons. exact IH. Qed.

Lemma pretty_nonneg (z : Z) : (0 ≤ z)%Z → pretty z = pretty (Z.to_N z).
Proof. intros Hz. destruct z; [done|done|lia]. Qed.

(** Formatting with leading zeros is still injective on non-negative numbers. *)
Lemma sprintf_06d_inj i j :
  (0 ≤ i)%Z → (0 ≤ j)%Z → sprintf_06d i = sprintf_06d j → i = j.
Proof.
  intros Hi Hj E. unfold sprintf_06d in E.
  rewrite (proj2 (Z.ltb_ge i 0)), (proj2 (Z.ltb_ge j 0)) in E by done.
  apply (f_equal (dec_value 0)) in E. rewrite !dec_value_zeros in E.
  rewrite !pretty_nonneg, !dec_value_pretty in E by done. lia.
Qed.

(** A character that is neither a digit nor a sign. *)
Definition not_numeric (c : ascii) : Prop :=
  c ≠ "-"%char ∧ ∀ x, pretty_N_char x ≠ c.

Lemma not_numeric_colon : not_numeric ":"%char.
Proof. split; [done|]. intros x. unfold pretty_N_char. by repeat case_match. Qed.
Lemma not_numeric_dot : not_numeric "."%char.
Proof. split; [done|]. intros x. unfold pretty_N_char. by repeat case_match. Qed.
Lemma not_numeric_v : not_numeric "v"%char.
Proof. split; [done|]. intros x. unfold pretty_N_char. by repeat case_match. Qed.
Lemma not_numeric_percent : not_numeric "%"%char.
Proof. split; [done|]. intros x. unfold pretty_N_char. by repeat case_match. Qed.
#[export] Hint Resolve not_numeric_colon not_numeric_dot not_numeric_v not_numeric_percent : go.

Lemma has_char_go c x s :
  not_numeric c → has_char c s = false → has_char c (pretty_N_go x s) = false.
Proof.
  intros [_ Hc]. revert s. induction (N.lt_wf_0 x) as [x _ IH]; intros s Hs.
  destruct (decide (x = 0)%N) as [->|Hx]; [by rewrite pretty_N_go_0|].
  rewrite pretty_N_go_step by lia. apply IH; [apply N.div_lt; lia|]. cbn.
  by rewrite bool_decide_eq_false_2 by apply Hc.
Qed.

Lemma has_char_pretty_N c (x : N) : not_numeric c → has_char c (pretty x) = false.
Proof.
  intros Hc. unfold pretty, pretty_N. case_decide.
  - cbn. rewrite bool_decide_eq_false_2; [done|]. apply (proj2 Hc 0%N).
  - by apply has_char_go.
Qed.

Lemma has_char_pretty c (z : Z) : not_numeric c → has_char c (pretty z) = false.
Proof.
  intros Hc. destruct z as [|p|p].
  - by apply (has_char_pretty_N c 0).
  - by apply (has_char_pretty_N c (Npos p)).
  - change (pretty (Zneg p)) with (String "-" (pretty (Npos p))). cbn.
    rewrite bool_decide_eq_false_2 by (intros E; by apply (proj1 Hc)).
    by apply (has_char_pretty_N c (Npos p)).
Qed.

Lemma has_char_zeros c n : not_numeric c → has_char c (zeros n) = false.
Proof.
  intros Hc. induction n as [|n IH]; [done|]. cbn. rewrite IH.
  rewrite bool_decide_eq_false_2; [done|]. apply (proj2 Hc 0%N).
Qed.

Lemma has_char_06d c z : not_numeric c → has_char c (sprintf_06d z) = false.
Proof.
  intros Hc. unfold sprintf_06d.
  case_match; rewrite !has_char_app, has_char_zeros, has_char_pretty by done; [|done].
  cbn. rewrite bool_decide_eq_false_2 by (intros E; by apply (proj1 Hc)). done.
Qed.
#[export] Hint Resolve has_char_pretty has_char_06d : go.

(** ** Injectivity *)

Lemma versionedObjectKey_inj k v k' v' :
  versionedObjectKey k v = versionedObjectKey k' v' → k = k' ∧ v = v'.
Proof.
  unfold versionedObjectKey. intros E.
  assert (∀ s w, s +:+ ".v" +:+ pretty w = (s +:+ ".") +:+ String "v" (pretty (w : Z))) as Hv.
  { intros s w. by rewrite string_app_assoc. }
  rewrite !Hv in E. apply split_last in E as [E1 E2]; [|auto with go..].
  apply string_app_inv_tail in E1. by apply (inj pretty) in E2.
Qed.

Lemma chunkObjectKey_inj k i k' i' :
  (0 ≤ i)%Z → (0 ≤ i')%Z → chunkObjectKey k i = chunkObjectKey k' i' → k = k' ∧ i = i'.
Proof.
  unfold chunkObjectKey. intros Hi Hi' E.
  assert (∀ s w, s +:+ ".chunk." +:+ sprintf_06d w =
    (s +:+ ".chunk") +:+ String "." (sprintf_06d w)) as Hc.
  { intros s w. by rewrite string_app_assoc. }
  rewrite !Hc in E. apply split_last in E as [E1 E2]; [|auto with go..].
  apply string_app_inv_tail in E1. by apply sprintf_06d_inj in E2.
Qed.

(** Two chunks of file versions share an object name on a node only if
    they are the same chunk of the same version of the same key: the name
    determines key, index and version, for any key, even one that contains
    dots, digits or looks like a chunk name itself. *)
Theorem chunk_object_name_inj k i v k' i' v' :
  (0 ≤ i)%Z → (0 ≤ i')%Z →
  versionedObjectKey (chunkObjectKey k i) v = versionedObjectKey (chunkObjectKey k' i') v' →
  k = k' ∧ i = i' ∧ v = v'.
Proof.
  intros Hi Hi' [E ->]%versionedObjectKey_inj. by apply chunkObjectKey_inj in E as [-> ->].
Qed.

Lemma replicationTaskID_split key v source target :
  replicationTaskID key v source target =
  ((key +:+ String ":" (pretty v)) +:+ String ":" source) +:+ String ":" target.
Proof. unfold replicationTaskID. by rewrite !string_app_assoc. Qed.

(** When node IDs contain no colon, a task ID determines the key, the
    version, the source and the target of the copy, whatever the key. *)
Theorem replicationTaskID_inj k v s t k' v' s' t' :
  has_char ":" s = false → has_char ":" t = false →
  has_char ":" s' = false → has_char ":" t' = false →
  replicationTaskID k v s t = replicationTaskID k' v' s' t' →
  k = k' ∧ v = v' ∧ s = s' ∧ t = t'.
Proof.
  intros Hs Ht Hs' Ht' E. rewrite !replicationTaskID_split in E.
  apply split_last in E as [E ->]; [|done..]. apply split_last in E as [E ->]; [|done..].
  apply split_last in E as [-> E]; [|auto with go..]. by apply (inj pretty) in E.
Qed.

(** Node IDs are free text (a flag or a heartbeat path), and with a colon in
    one of them two different copies get one task ID. *)
Example replicationTaskID_collision :
  replicationTaskID "a" 1 "2:n1" "n2" = replicationTaskID "a:1" 2 "n1" "n2".
Proof. by vm_compute. Qed.

(** ** Witnesses *)

Lemma chunk_object_name_inj_witness :
  versionedObjectKey (chunkObjectKey "a.chunk.000001" 12) 3 =
    "a.chunk.000001.chunk.000012.v3" ∧
  "a.chunk.000001" = "a.chunk.000001" ∧ 12%Z = 12%Z ∧ 3%Z = 3%Z.
Proof.
  split; [by vm_compute|].
  apply (chunk_object_name_inj "a.chunk.000001" 12 3 "a.chunk.000001" 12 3); [lia|lia|done].
Defined.

Lemma replicationTaskID_inj_witness :
  replicationTaskID "dir:1:x" 7 "node1" "node2" = "dir:1:x:7:node1:node2" ∧
  "dir:1:x" = "dir:1:x" ∧ 7%Z = 7%Z ∧ "node1" = "node1" ∧ "node2" = "node2".
Proof.
  split; [by vm_compute|].
  by apply (replicationTaskID_inj "dir:1:x" 7 "node1" "node2" "dir:1:x" 7 "node1" "node2").
Defined.
