(* ===== verification/Lifecycle.v ===== *)
(** * The life cycle of replication tasks.

    The task table as a transition system: one rule per queue operation, with
    [MarkRunning] applied to a pending task only, as a worker does that picks
    from [Pending].  Invariants by induction on the steps, and what
    [Enqueue] and [RequeueExpiredRunning] do to the table. *)

From S2P Require Import Prelude Metadata Replication Backend MetadataSpec ReplicationSpec.
From stdpp Require Import options.

(** ** Steps *)

(** A task as [TasksForFile] and the repair planner build it. *)
Definition new_task (task : ReplicationTask) : Prop :=
  ∃ meta source target created updated, task = pending_task meta source target created updated.

Inductive table_step : TaskTable → TaskTable → Prop :=
  | step_enqueue ts tasks : Forall new_task tasks → table_step ts (enqueue_all ts tasks)
  | step_run ts id task t :
      ts !! id = Some task → rt_State task = ReplicationTaskPending →
      table_step ts (<[id := runReplicationTask task t]> ts)
  | step_done ts id task t :
      ts !! id = Some task → table_step ts (<[id := doneReplicationTask task t]> ts)
  | step_fail ts id task t cause :
      ts !! id = Some task → table_step ts (<[id := failReplicationTask task t cause]> ts)
  | step_requeue ts t : table_step ts (requeue_all t ts).

(** ** The invariant *)

Definition task_ok (id : string) (task : ReplicationTask) : Prop :=
  rt_ID task = id ∧ (0 ≤ rt_Attempts task ≤ defaultReplicationTaskMaxAttempts)%Z ∧
  match rt_State task with
  | ReplicationTaskPending =>
      (rt_Attempts task < defaultReplicationTaskMaxAttempts)%Z ∧ rt_LeaseUntil task = zero_time
  | ReplicationTaskRunning =>
      (1 ≤ rt_Attempts task)%Z ∧
      rt_LeaseUntil task = TimeAdd (rt_UpdatedAt task) defaultReplicationTaskLease
  | ReplicationTaskDone => rt_LeaseUntil task = zero_time ∧ rt_RunAfter task = zero_time
  | ReplicationTaskDead =>
      rt_Attempts task = defaultReplicationTaskMaxAttempts ∧
      rt_LeaseUntil task = zero_time ∧ rt_RunAfter task = zero_time
  | ReplicationTaskFailed => False
  end.

Definition table_ok (ts : TaskTable) : Prop := map_Forall task_ok ts.

(** ** Lemmas *)

Lemma new_task_ok task : new_task task → task_ok (rt_ID task) task.
Proof. intros (meta & s & t & c & u & ->). by repeat split. Qed.

Lemma run_ok id task t :
  task_ok id task → rt_State task = ReplicationTaskPending → task_ok id (runReplicationTask task t).
Proof.
  intros (Hid & Ha & Hst) Hp. rewrite Hp in Hst. destruct Hst as [Hlt _].
  unfold defaultReplicationTaskMaxAttempts in *.
  split; [done|]. cbn. rewrite wrap_s64_small by (unfold in_s64; lia).
  unfold defaultReplicationTaskMaxAttempts. repeat split; lia.
Qed.

Lemma done_ok id task t : task_ok id task → task_ok id (doneReplicationTask task t).
Proof. by intros (? & ? & _). Qed.

Lemma fail_ok id task t cause : task_ok id task → task_ok id (failReplicationTask task t cause).
Proof.
  intros (Hid & Ha & _). unfold failReplicationTask.
  destruct (Z.leb_spec defaultReplicationTaskMaxAttempts (rt_Attempts task)) as [Hl|Hl];
    (split; [done|]); (split; [done|]); cbn; repeat split; lia.
Qed.

Lemma expire_ok id task t : task_ok id task → task_ok id (expireReplicationTask task t).
Proof.
  intros (Hid & Ha & _). unfold expireReplicationTask.
  destruct (Z.leb_spec defaultReplicationTaskMaxAttempts (rt_Attempts task)) as [Hl|Hl];
    (split; [done|]); (split; [done|]); cbn; repeat split; lia.
Qed.
#[export] Hint Resolve new_task_ok run_ok done_ok fail_ok expire_ok : go.

Lemma lookup_enqueue_task ts task id :
  enqueue_task ts task !! id =
  if decide (is_Some (ts !! id)) then ts !! id
  else if decide (rt_ID task = id) then Some task else None.
Proof.
  unfold enqueue_task. destruct (ts !! rt_ID task) as [old|] eqn:E.
  - destruct (ts !! id) eqn:Hid; cbn; repeat case_decide; naive_solver.
  - rewrite lookup_insert. destruct (decide (rt_ID task = id)) as [<-|].
    + rewrite E. by rewrite decide_False by apply is_Some_None.
    + destruct (ts !! id); [by rewrite decide_True by eauto|].
      by rewrite decide_False by apply is_Some_None.
Qed.

(** The first task of a list with a given ID. *)
Definition first_with_id (id : string) (tasks : list ReplicationTask) : option ReplicationTask :=
  head (filter (λ task, rt_ID task = id) tasks).

Lemma lookup_enqueue_all ts tasks id :
  enqueue_all ts tasks !! id =
  match ts !! id with Some old => Some old | None => first_with_id id tasks end.
Proof.
  revert ts. induction tasks as [|task tasks IH]; intros ts.
  { cbn. by destruct (ts !! id). }
  change (enqueue_all ts (task :: tasks)) with (enqueue_all (enqueue_task ts task) tasks).
  rewrite IH, lookup_enqueue_task. unfold first_with_id. rewrite filter_cons.
  destruct (ts !! id) as [old|]; cbn; repeat case_decide; naive_solver.
Qed.

Lemma enqueue_all_ok ts tasks : Forall new_task tasks → table_ok ts → table_ok (enqueue_all ts tasks).
Proof.
  intros Hn Hts id task Hid. rewrite lookup_enqueue_all in Hid.
  destruct (ts !! id) as [old|] eqn:E; [simplify_eq; by apply Hts|].
  unfold first_with_id in Hid. apply head_Some_elem_of, list_elem_of_filter in Hid as [<- Hin].
  rewrite Forall_forall in Hn. by apply new_task_ok, Hn.
Qed.

Lemma requeue_all_ok t ts : table_ok ts → table_ok (requeue_all t ts).
Proof.
  intros Hts id task Hid. unfold requeue_all in Hid. rewrite lookup_fmap in Hid.
  destruct (ts !! id) as [task0|] eqn:E; simplify_eq/=. case_match; auto with go.
Qed.

Lemma table_step_ok ts ts' : table_step ts ts' → table_ok ts → table_ok ts'.
Proof.
  intros Hstep Hts. destruct Hstep; auto using enqueue_all_ok, requeue_all_ok;
    apply map_Forall_insert_2; auto with go.
Qed.

Lemma table_steps_ok ts ts' : rtc table_step ts ts' → table_ok ts → table_ok ts'.
Proof. induction 1; eauto using table_step_ok. Qed.

Lemma table_ok_ids ts : table_ok ts → ids_ok ts.
Proof. intros Hts id task Hid. by apply (Hts id). Qed.
#[export] Hint Resolve table_ok_ids : go.

(** ** Properties *)

(** Starting from an empty table, whatever tasks are enqueued, run,
    finished, failed or requeued and in whatever order, every task stays
    within its budget of five attempts, a pending task has attempts left and
    no lease, a running task has a lease of thirty seconds from its last
    update, a dead task has used all five attempts, and the state [failed] is
    never reached. *)
Theorem task_lifecycle_invariant ts id task :
  rtc table_step ∅ ts → ts !! id = Some task → task_ok id task.
Proof. intros Hs. apply (table_steps_ok _ _ Hs). apply map_Forall_empty. Qed.

(** [Enqueue] adds the tasks whose ID is new, the first one for each ID,
    and leaves every task that is already in the table alone, so enqueueing
    again changes nothing. *)
Theorem Enqueue_first_wins (q : MemoryReplicationTaskQueue) tasks :
  ∃ q', Enqueue tasks q = (Ok tt, q') ∧
  (∀ id, mq_tasks q' !! id =
     match mq_tasks q !! id with
     | Some old => Some old
     | None => first_with_id id tasks
     end) ∧
  Enqueue tasks q' = (Ok tt, q').
Proof.
  eexists. split; [reflexivity|]. cbn. split; [apply lookup_enqueue_all|].
  unfold Enqueue, modify. f_equal. unfold set_tasks; cbn. f_equal.
  apply map_eq. intros id. rewrite !lookup_enqueue_all.
  destruct (mq_tasks q !! id); [done|]. by destruct (first_with_id id tasks).
Qed.

Lemma lease_expired_spec task t :
  lease_expired task t = true ↔
  rt_State task = ReplicationTaskRunning ∧ rt_LeaseUntil task ≠ 0%Z ∧ (rt_LeaseUntil task ≤ t)%Z.
Proof.
  unfold lease_expired, IsZero, After. rewrite negb_true_iff, !orb_false_iff, negb_false_iff.
  rewrite bool_decide_eq_true, Z.eqb_neq, Z.ltb_ge. tauto.
Qed.

Lemma expire_not_expired task t u : lease_expired (expireReplicationTask task t) u = false.
Proof. unfold expireReplicationTask. by case_match. Qed.

(** C39: [RequeueExpiredRunning] turns every running task whose lease is over
    into a pending task that may run at once, or a dead one when its attempts
    are used up; it returns exactly those tasks, touches no other, and
    afterwards no running task has an expired lease: no task stays stuck in
    [running]. *)
Theorem RequeueExpiredRunning_exact (q : MemoryReplicationTaskQueue) :
  let t := (now (mq_now q)).1 in
  ∃ requeued q', RequeueExpiredRunning q = (Ok requeued, q') ∧
  (∀ id, mq_tasks q' !! id =
     (λ task, if lease_expired task t then expireReplicationTask task t else task) <$>
       mq_tasks q !! id) ∧
  (∀ task', task' ∈ requeued ↔ ∃ id task, mq_tasks q !! id = Some task ∧
     rt_State task = ReplicationTaskRunning ∧ rt_LeaseUntil task ≠ 0%Z ∧
     (rt_LeaseUntil task ≤ t)%Z ∧ task' = expireReplicationTask task t) ∧
  (∀ task, task ∈ requeued →
     rt_State task = ReplicationTaskDead ∨
     rt_State task = ReplicationTaskPending ∧ readyToRun task t = true) ∧
  (∀ id task, mq_tasks q' !! id = Some task → lease_expired task t = false).
Proof.
  intros t. exists (requeued_tasks t (mq_tasks q)),
    {| mq_tasks := requeue_all t (mq_tasks q); mq_now := (now (mq_now q)).2 |}.
  split; [done|]. clearbody t.
  assert (∀ task', task' ∈ requeued_tasks t (mq_tasks q) ↔ ∃ id task,
    mq_tasks q !! id = Some task ∧ lease_expired task t = true ∧
    task' = expireReplicationTask task t) as Hreq.
  { intros task'. unfold requeued_tasks. rewrite sortReplicationTasks_perm, list_elem_of_fmap.
    setoid_rewrite list_elem_of_filter. setoid_rewrite elem_of_range_values. naive_solver. }
  split; [intros id; apply lookup_fmap|]. split; [|split].
  - intros task'. rewrite Hreq. setoid_rewrite lease_expired_spec. naive_solver.
  - intros task' (id & task & _ & _ & ->)%Hreq. unfold expireReplicationTask.
    case_match; [by left|right]. unfold readyToRun, After; cbn. split; [done|]. lia.
  - intros id task. cbn. unfold requeue_all. rewrite lookup_fmap.
    destruct (mq_tasks q !! id) as [task0|]; [|done]. intros [= <-].
    destruct (lease_expired task0 t) eqn:E; [apply expire_not_expired|done].
Qed.
