(* ===== verification/Hash.v ===== *)
(** * [crypto/sha256], [crypto/sha1] and [encoding/hex] of the Go standard library.

    The hash functions as FIPS 180-4 defines them, on byte lists, executable,
    so that checksums and storage paths in the development are the real ones.
    A Go [hash.Hash] is modelled by the bytes written to it so far; [Sum] is
    the hash of them. *)

From Stdlib Require Import ZArith Ascii Strings.Byte.
From S2P Require Import Prelude.
From stdpp Require Import options.

Local Open Scope Z_scope.

Abbreviation bytes := (list Byte.byte).

(** ** Bytes and 32-bit words *)

Definition byte_z (b : Byte.byte) : Z := Z.of_N (Byte.to_N b).
Definition z_byte (z : Z) : Byte.byte :=
  match Byte.of_N (Z.to_N (Z.land z 255)) with Some b => b | None => "000"%byte end.

Definition mask32 : Z := 4294967295.
Definition add32 (a b : Z) : Z := Z.land (a + b) mask32.
Definition not32 (a : Z) : Z := Z.lxor a mask32.
Definition shl32 (a n : Z) : Z := Z.land (Z.shiftl a n) mask32.
Definition rotr32 (a n : Z) : Z := Z.lor (Z.shiftr a n) (shl32 a (32 - n)).
Definition rotl32 (a n : Z) : Z := rotr32 a (32 - n).

(** Big-endian words. *)
Definition be_bytes (k : nat) (z : Z) : bytes :=
  (λ i, z_byte (Z.shiftr z (8 * Z.of_nat (k - 1 - i)))) <$> seq 0 k.
Definition be_word (l : bytes) : Z :=
  foldl (λ acc b, Z.lor (Z.shiftl acc 8) (byte_z b)) 0 l.

Fixpoint words_of (n : nat) (l : bytes) : list Z :=
  match n with
  | O => []
  | S n => be_word (take 4 l) :: words_of n (drop 4 l)
  end.

(** ** Padding *)

(** A one bit, zeros, and the length in bits as a 64-bit big-endian word. *)
Definition pad (m : bytes) : bytes :=
  m ++ ["128"%byte] ++ replicate (Z.to_nat ((55 - zlen m) `mod` 64)) "000"%byte
    ++ be_bytes 8 (8 * zlen m).

Fixpoint blocks (n : nat) (l : bytes) : list bytes :=
  match n with
  | O => []
  | S n => take 64 l :: blocks n (drop 64 l)
  end.

Definition message_blocks (m : bytes) : list (list Z) :=
  words_of 16 <$> blocks (Z.to_nat (zlen (pad m) / 64)) (pad m).

(** ** SHA-256 *)

(** The constants are the ones FIPS 180-4 describes: the first 32 bits of the
    fractional parts of the cube roots (round constants) and of the square
    roots (initial value) of the first primes. They are computed here from
    that description, and the examples at the end of the file check the
    resulting functions against the standard's digests. *)
Definition is_prime (n : nat) : bool :=
  (2 <=? n)%nat && forallb (λ d, negb (n mod d =? 0)%nat) (seq 2 (n - 2)).

(** The primes below 312 are the first 64. *)
Definition first_primes : list Z :=
  Eval vm_compute in (Z.of_nat <$> filter (λ n, Is_true (is_prime n)) (seq 2 310)).

(** The largest [r] below [2^35] with [r^3 <= n], one bit at a time. *)
Definition cube_root (n : Z) : Z :=
  foldl (λ r i, let r' := r + 2 ^ Z.of_nat i in if r' * r' * r' <=? n then r' else r)
    0 (reverse (seq 0 35)).

Definition sha256_k : list Z :=
  Eval vm_compute in ((λ p, cube_root (p * 2 ^ 96) `mod` 2 ^ 32) <$> first_primes).

Definition sha256_h : list Z :=
  Eval vm_compute in ((λ p, Z.sqrt (p * 2 ^ 64) `mod` 2 ^ 32) <$> take 8 first_primes).

Record Hash8 := { h_a : Z; h_b : Z; h_c : Z; h_d : Z; h_e : Z; h_f : Z; h_g : Z; h_h : Z }.

Definition sha256_init : Hash8 :=
  let h i := default 0 (sha256_h !! i) in
  {| h_a := h 0%nat; h_b := h 1%nat; h_c := h 2%nat; h_d := h 3%nat;
     h_e := h 4%nat; h_f := h 5%nat; h_g := h 6%nat; h_h := h 7%nat |}.

Definition sha256_schedule_step (rev_w : list Z) : list Z :=
  let w2 := default 0 (rev_w !! 1%nat) in let w7 := default 0 (rev_w !! 6%nat) in
  let w15 := default 0 (rev_w !! 14%nat) in let w16 := default 0 (rev_w !! 15%nat) in
  let s0 := Z.lxor (Z.lxor (rotr32 w15 7) (rotr32 w15 18)) (Z.shiftr w15 3) in
  let s1 := Z.lxor (Z.lxor (rotr32 w2 17) (rotr32 w2 19)) (Z.shiftr w2 10) in
  add32 (add32 w16 s0) (add32 w7 s1) :: rev_w.

Definition sha256_schedule (block : list Z) : list Z :=
  reverse (Nat.iter 48 sha256_schedule_step (reverse block)).

Definition sha256_round (s : Hash8) (kw : Z * Z) : Hash8 :=
  let '(k, w) := kw in
  let S1 := Z.lxor (Z.lxor (rotr32 (h_e s) 6) (rotr32 (h_e s) 11)) (rotr32 (h_e s) 25) in
  let ch := Z.lxor (Z.land (h_e s) (h_f s)) (Z.land (not32 (h_e s)) (h_g s)) in
  let t1 := add32 (add32 (h_h s) S1) (add32 ch (add32 k w)) in
  let S0 := Z.lxor (Z.lxor (rotr32 (h_a s) 2) (rotr32 (h_a s) 13)) (rotr32 (h_a s) 22) in
  let maj := Z.lxor (Z.lxor (Z.land (h_a s) (h_b s)) (Z.land (h_a s) (h_c s)))
               (Z.land (h_b s) (h_c s)) in
  let t2 := add32 S0 maj in
  {| h_a := add32 t1 t2; h_b := h_a s; h_c := h_b s; h_d := h_c s;
     h_e := add32 (h_d s) t1; h_f := h_e s; h_g := h_f s; h_h := h_g s |}.

Definition sha256_block (s : Hash8) (block : list Z) : Hash8 :=
  let s' := foldl sha256_round s (zip sha256_k (sha256_schedule block)) in
  {| h_a := add32 (h_a s) (h_a s'); h_b := add32 (h_b s) (h_b s');
     h_c := add32 (h_c s) (h_c s'); h_d := add32 (h_d s) (h_d s');
     h_e := add32 (h_e s) (h_e s'); h_f := add32 (h_f s) (h_f s');
     h_g := add32 (h_g s) (h_g s'); h_h := add32 (h_h s) (h_h s') |}.

Definition sha256 (m : bytes) : bytes :=
  let s := foldl sha256_block sha256_init (message_blocks m) in
  be_bytes 4 (h_a s) ++ be_bytes 4 (h_b s) ++ be_bytes 4 (h_c s) ++ be_bytes 4 (h_d s) ++
  be_bytes 4 (h_e s) ++ be_bytes 4 (h_f s) ++ be_bytes 4 (h_g s) ++ be_bytes 4 (h_h s).

(** ** SHA-1 *)

Record Hash5 := { g_a : Z; g_b : Z; g_c : Z; g_d : Z; g_e : Z }.

Definition sha1_init : Hash5 :=
  {| g_a := 0x67452301; g_b := 0xefcdab89; g_c := 0x98badcfe; g_d := 0x10325476;
     g_e := 0xc3d2e1f0 |}.

Definition sha1_schedule_step (rev_w : list Z) : list Z :=
  let w3 := default 0 (rev_w !! 2%nat) in let w8 := default 0 (rev_w !! 7%nat) in
  let w14 := default 0 (rev_w !! 13%nat) in let w16 := default 0 (rev_w !! 15%nat) in
  rotl32 (Z.lxor (Z.lxor w3 w8) (Z.lxor w14 w16)) 1 :: rev_w.

Definition sha1_schedule (block : list Z) : list Z :=
  reverse (Nat.iter 64 sha1_schedule_step (reverse block)).

Definition sha1_f (t : nat) (b c d : Z) : Z * Z :=
  if (t <? 20)%nat then (Z.lxor (Z.land b c) (Z.land (not32 b) d), 0x5a827999)
  else if (t <? 40)%nat then (Z.lxor (Z.lxor b c) d, 0x6ed9eba1)
  else if (t <? 60)%nat then
    (Z.lxor (Z.lxor (Z.land b c) (Z.land b d)) (Z.land c d), 0x8f1bbcdc)
  else (Z.lxor (Z.lxor b c) d, 0xca62c1d6).

Definition sha1_round (s : Hash5) (tw : nat * Z) : Hash5 :=
  let '(t, w) := tw in
  let '(f, k) := sha1_f t (g_b s) (g_c s) (g_d s) in
  {| g_a := add32 (add32 (rotl32 (g_a s) 5) f) (add32 (g_e s) (add32 k w));
     g_b := g_a s; g_c := rotl32 (g_b s) 30; g_d := g_c s; g_e := g_d s |}.

Definition sha1_block (s : Hash5) (block : list Z) : Hash5 :=
  let s' := foldl sha1_round s (zip (seq 0 80) (sha1_schedule block)) in
  {| g_a := add32 (g_a s) (g_a s'); g_b := add32 (g_b s) (g_b s');
     g_c := add32 (g_c s) (g_c s'); g_d := add32 (g_d s) (g_d s');
     g_e := add32 (g_e s) (g_e s') |}.

Definition sha1 (m : bytes) : bytes :=
  let s := foldl sha1_block sha1_init (message_blocks m) in
  be_bytes 4 (g_a s) ++ be_bytes 4 (g_b s) ++ be_bytes 4 (g_c s) ++ be_bytes 4 (g_d s) ++
  be_bytes 4 (g_e s).

(** ** Hexadecimal *)

Definition hex_digit (n : Z) : ascii :=
  ascii_of_N (Z.to_N (if n <? 10 then 48 + n else 87 + n)).

(** [hex.EncodeToString] *)
Fixpoint hex_encode (l : bytes) : string :=
  match l with
  | [] => EmptyString
  | b :: l =>
      String (hex_digit (byte_z b / 16)) (String (hex_digit (byte_z b `mod` 16)) (hex_encode l))
  end.

(** [\[\]byte(s)] *)
Definition bytes_of_string (s : string) : bytes := String.list_byte_of_string s.

(** [checksumBytes] of [object.go]; also [hex.EncodeToString(h.Sum(nil))] for
    a hash [h] that was fed [b]. *)
Definition checksumBytes (b : bytes) : string := hex_encode (sha256 b).

#[global] Arguments sha256 : simpl never.
#[global] Arguments sha1 : simpl never.
#[global] Arguments checksumBytes : simpl never.

(** ** Facts *)

Lemma length_be_bytes k z : length (be_bytes k z) = k.
Proof. unfold be_bytes. by rewrite length_fmap, length_seq. Qed.

Lemma length_sha256 m : length (sha256 m) = 32%nat.
Proof. unfold sha256. rewrite !length_app, !length_be_bytes. done. Qed.

Lemma length_sha1 m : length (sha1 m) = 20%nat.
Proof. unfold sha1. rewrite !length_app, !length_be_bytes. done. Qed.

Lemma length_hex_encode l : String.length (hex_encode l) = (2 * length l)%nat.
Proof. induction l as [|b l IH]; cbn; lia. Qed.

(** The examples of FIPS 180-4. *)
Example sha256_abc : checksumBytes (bytes_of_string "abc") =
  "ba7816bf8f01cfea414140de5dae2223b00361a396177a9cb410ff61f20015ad".
Proof. by vm_compute. Qed.

Example sha256_empty : checksumBytes [] =
  "e3b0c44298fc1c149afbf4c8996fb92427ae41e4649b934ca495991b7852b855".
Proof. by vm_compute. Qed.

Example sha256_two_blocks :
  checksumBytes (bytes_of_string "abcdbcdecdefdefgefghfghighijhijkijkljklmklmnlmnomnopnopq") =
  "248d6a61d20638b8e5c026930c3e6039a33ce45964ff2167f6ecedd419db06c1".
Proof. by vm_compute. Qed.

Example sha1_abc : hex_encode (sha1 (bytes_of_string "abc")) =
  "a9993e364706816aba3e25717850c26c9cd0d89d".
Proof. by vm_compute. Qed.
