(* ===== verification/Objects.v ===== *)
(** * Objects on storage nodes: the [ObjectStore] interface and the
    replicator of [object.go].

    A reader is the script of results its [Read] calls will return.  The
    interface [ObjectStore] is a class of operations; its laws say what a
    successful call means for the objects the store holds, and that no call
    touches an object at another address, and allow every call to fail.  A
    store may map different names to one address (a content-addressed layout
    hashes them), so the laws and the theorems speak of addresses. *)

From S2P Require Import Prelude Metadata Replication Names Hash.
From stdpp Require Import options.

(** ** Readers *)

(** The error of a [Read] call that ends the stream. *)
Inductive ReadEnd :=
  | EOF
  | ReadErr (e : GoError).

(** [n, err := r.Read(buf)]: the bytes of [buf\[:n\]] and the error. *)
Abbreviation ReadResult := (bytes * option ReadEnd)%type.

(** An [io.ReadCloser]: what its [Read] calls return, in order (then
    [0, io.EOF]), and what [Close] returns. *)
Record Reader := {
  r_reads : list ReadResult;
  r_close : option GoError
}.

(** [bytes.NewReader(b)] *)
Definition reader_of (b : bytes) : Reader := {| r_reads := [(b, None)]; r_close := None |}.

(** Everything a reader delivers before its end, and the error it ends with. *)
Fixpoint drain (reads : list ReadResult) : bytes * option GoError :=
  match reads with
  | [] => ([], None)
  | (b, None) :: reads => let '(rest, e) := drain reads in (b ++ rest, e)
  | (b, Some EOF) :: _ => (b, None)
  | (b, Some (ReadErr e)) :: _ => (b, Some e)
  end.

(** ** The interface *)

Class ObjectStore (OS : Type) := {
  WriteObject : string → string → Z → Reader → GoM OS Z;
  ReadObject : string → string → Z → GoM OS (Z * Reader);
  DeleteObject : string → string → Z → GoM OS unit;
  HasObject : string → string → Z → GoM OS bool
}.

Class ObjectStoreLaws (OS : Type) `{ObjectStore OS} := {
  Address : Type;
  Address_eq_dec :: EqDecision Address;
  addr : string → string → Z → Address;
  object_at : OS → Address → option bytes;
  write_law n k v r s res s' : WriteObject n k v r s = (res, s') →
    res ≠ Panic ∧
    (∀ a, a ≠ addr n k v → object_at s' a = object_at s a) ∧
    (∀ cnt, res = Ok cnt → ∃ data, drain (r_reads r) = (data, None) ∧ cnt = zlen data ∧
       object_at s' (addr n k v) = Some data);
  read_law n k v s res s' : ReadObject n k v s = (res, s') →
    res ≠ Panic ∧
    (∀ a, object_at s' a = object_at s a) ∧
    (∀ size r data, res = Ok (size, r) → drain (r_reads r) = (data, None) →
       object_at s (addr n k v) = Some data);
  delete_law n k v s res s' : DeleteObject n k v s = (res, s') →
    res ≠ Panic ∧
    (∀ a, a ≠ addr n k v → object_at s' a = object_at s a);
  has_law n k v s res s' : HasObject n k v s = (res, s') →
    res ≠ Panic ∧ (∀ a, object_at s' a = object_at s a)
}.

(** The size [ReadObject] returns is the number of bytes the reader delivers if
    nothing goes wrong; a reader that delivers that many delivers the object. *)
Class SizedReads (OS : Type) `{ObjectStoreLaws OS} := {
  sized_nonneg n k v s size r s' : ReadObject n k v s = (Ok (size, r), s') → (0 ≤ size)%Z;
  sized_whole n k v s size r s' data : ReadObject n k v s = (Ok (size, r), s') →
    drain (r_reads r) = (data, None) → size = zlen data;
  sized_prefix n k v s size r s' : ReadObject n k v s = (Ok (size, r), s') →
    (size ≤ zlen (drain (r_reads r)).1)%Z →
    object_at s (addr n k v) = Some (take (Z.to_nat size) (drain (r_reads r)).1)
}.

(** A store that serves every request for the nodes and objects [os_serves], in
    the states [os_ready], which its operations preserve. *)
Class ReliableObjectStore (OS : Type) `{ObjectStoreLaws OS} := {
  os_ready : OS → Prop;
  os_serves : string → string → Z → Prop;
  reliable_write n k v r s data : os_serves n k v → os_ready s → drain (r_reads r) = (data, None) →
    ∃ s', WriteObject n k v r s = (Ok (zlen data), s') ∧ os_ready s';
  reliable_read n k v s data : os_serves n k v → os_ready s → object_at s (addr n k v) = Some data →
    ∃ size r s', ReadObject n k v s = (Ok (size, r), s') ∧
      drain (r_reads r) = (data, None) ∧ r_close r = None ∧ os_ready s';
  reliable_delete n k v s : os_serves n k v → os_ready s →
    ∃ s', DeleteObject n k v s = (Ok tt, s') ∧ os_ready s' ∧ object_at s' (addr n k v) = None
}.

(** The store serves every object of a version of a file on a node. *)
Definition serves_file `{ReliableObjectStore OS} (node key : string) (v : Z) : Prop :=
  os_serves node key v ∧ ∀ i, os_serves node (chunkObjectKey key i) v.

(** ** [LocalObjectReplicator] *)

Section replicator.
Context {OS : Type} `{ObjectStore OS}.

Definition deleteChunkObjects (nodeID key : string) (version : Z) (objectKeys : list string) :
    GoM OS unit :=
  for_each objectKeys (λ objectKey, ignore (DeleteObject nodeID objectKey version)).

(** The body of the loop of [replicateChunks].  The accumulator holds
    [written] and the bytes fed to [fullHash]. *)
Definition replicate_chunk (task : ReplicationTask) (acc : list string * bytes)
    (chunk : ChunkMetadata) : GoM OS (list string * bytes) :=
  let '(written, fullHash) := acc in
  let objectKey := chunkObjectKey (rt_Key task) (cm_Index chunk) in
  '(_, src) ← ReadObject (rt_Source task) objectKey (rt_Version task);
  res ← try (WriteObject (rt_Target task) objectKey (rt_Version task) src);
  match res with
  | Err writeErr =>
      deleteChunkObjects (rt_Target task) (rt_Key task) (rt_Version task) written;;
      fail writeErr
  | Panic => panic
  | Ok n =>
      match r_close src with
      | Some closeErr =>
          deleteChunkObjects (rt_Target task) (rt_Key task) (rt_Version task) written;;
          fail closeErr
      | None =>
          let data := (drain (r_reads src)).1 in
          if bool_decide (n ≠ cm_Size chunk) || bool_decide (checksumBytes data ≠ cm_Checksum chunk)
          then
            ignore (DeleteObject (rt_Target task) objectKey (rt_Version task));;
            deleteChunkObjects (rt_Target task) (rt_Key task) (rt_Version task) written;;
            fail ErrChecksumMismatch
          else mret (written ++ [objectKey], fullHash ++ data)
      end
  end.

Definition replicateChunks (task : ReplicationTask) : GoM OS unit :=
  '(written, fullHash) ← for_fold (rt_Chunks task) ([], []) (replicate_chunk task);
  if bool_decide (rt_Checksum task ≠ "") &&
     bool_decide (checksumBytes fullHash ≠ rt_Checksum task)
  then
    deleteChunkObjects (rt_Target task) (rt_Key task) (rt_Version task) written;;
    fail ErrChecksumMismatch
  else mret tt.

Definition Replicate (task : ReplicationTask) : GoM OS unit :=
  if decide (0 < length (rt_Chunks task)) then replicateChunks task
  else
    '(_, src) ← ReadObject (rt_Source task) (rt_Key task) (rt_Version task);
    WriteObject (rt_Target task) (rt_Key task) (rt_Version task) src;;
    let checksum := checksumBytes (drain (r_reads src)).1 in
    if bool_decide (rt_Checksum task ≠ "") && bool_decide (checksum ≠ rt_Checksum task)
    then
      ignore (DeleteObject (rt_Target task) (rt_Key task) (rt_Version task));;
      fail ErrChecksumMismatch
    else mret tt.
End replicator.

(** [ObjectReplicator] of [worker.go]. *)
Class ObjectReplicator (R : Type) := {
  or_Replicate : ReplicationTask → GoM R unit
}.

#[export] Instance LocalObjectReplicator `{ObjectStore OS} : ObjectReplicator OS :=
  {| or_Replicate := Replicate |}.

(** ** What a node stores *)

Section stored.
Context {OS : Type} `{ObjectStoreLaws OS}.
Implicit Types (s : OS) (chunk : ChunkMetadata) (d : bytes).

(** Where a chunk of a version lives on a node. *)
Definition chunk_addr (node key : string) (v : Z) (chunk : ChunkMetadata) : Address :=
  addr node (chunkObjectKey key (cm_Index chunk)) v.

(** The chunk is stored there, and matches the manifest. *)
Definition chunk_stored s (node key : string) (v : Z) (chunk : ChunkMetadata) (d : bytes) : Prop :=
  object_at s (chunk_addr node key v chunk) = Some d ∧
  zlen d = cm_Size chunk ∧ checksumBytes d = cm_Checksum chunk.

Definition version_stored s (node key : string) (v : Z) (chunks : list ChunkMetadata)
    (ds : list bytes) : Prop := Forall2 (chunk_stored s node key v) chunks ds.

(** Two store states that agree outside a set of addresses. *)
Definition agree_outside (A : list Address) (s s' : OS) : Prop :=
  ∀ a, a ∉ A → object_at s' a = object_at s a.

Lemma agree_refl A s : agree_outside A s s.
Proof. by intros a _. Qed.
Lemma agree_trans A s1 s2 s3 :
  agree_outside A s1 s2 → agree_outside A s2 s3 → agree_outside A s1 s3.
Proof. intros H12 H23 a Ha. by rewrite H23, H12. Qed.
Lemma agree_mono A A' s s' : agree_outside A s s' → A ⊆ A' → agree_outside A' s s'.
Proof. intros Hs HA a Ha. apply Hs. set_solver. Qed.

Lemma write_agree n k v r s res s' :
  WriteObject n k v r s = (res, s') → agree_outside [addr n k v] s s'.
Proof. intros (_ & Hf & _)%write_law a Ha. apply Hf. set_solver. Qed.
Lemma delete_agree n k v s res s' :
  DeleteObject n k v s = (res, s') → agree_outside [addr n k v] s s'.
Proof. intros (_ & Hf)%delete_law a Ha. apply Hf. set_solver. Qed.
Lemma read_agree n k v s res s' : ReadObject n k v s = (res, s') → agree_outside [] s s'.
Proof. intros (_ & Hf & _)%read_law a Ha. apply Hf. Qed.

Lemma version_stored_agree A s s' node key v chunks ds :
  agree_outside A s s' → (∀ c, c ∈ chunks → chunk_addr node key v c ∉ A) →
  version_stored s node key v chunks ds → version_stored s' node key v chunks ds.
Proof.
  intros Hs Hd Hv. induction Hv as [|c d cs ds [Hc1 Hc2] Hv IH]; constructor.
  - split; [|done]. rewrite <-Hc1. apply Hs, Hd. by left.
  - apply IH. intros c' Hc'. apply Hd. by right.
Qed.

#[export] Instance agree_preorder A : PreOrder (agree_outside A).
Proof. split; [intros s; apply agree_refl|intros s1 s2 s3; apply agree_trans]. Qed.

(** A computation that changes objects at the addresses [A] only, whatever
    its outcome. *)
Definition only_touches (A : list Address) {T} (c : GoM OS T) : Prop :=
  respects (agree_outside A) c.

Lemma touches_write A n k v r : addr n k v ∈ A → only_touches A (WriteObject n k v r).
Proof. intros HA s res s' Hrun. eapply agree_mono; [by eapply write_agree|set_solver]. Qed.
Lemma touches_delete A n k v : addr n k v ∈ A → only_touches A (DeleteObject n k v).
Proof. intros HA s res s' Hrun. eapply agree_mono; [by eapply delete_agree|set_solver]. Qed.
Lemma touches_read A n k v : only_touches A (ReadObject n k v).
Proof. intros s res s' Hrun. eapply agree_mono; [by eapply read_agree|set_solver]. Qed.

Lemma touches_delete_chunks A n key v keys :
  (∀ k, k ∈ keys → addr n k v ∈ A) → only_touches A (deleteChunkObjects n key v keys).
Proof.
  intros HA. apply respects_for_each; [apply _|]. intros k Hk.
  apply respects_ignore, touches_delete. auto.
Qed.

Lemma ignore_delete_total n k v s : ∃ s', ignore (DeleteObject n k v) s = (Ok tt, s').
Proof using Type*.
  destruct (DeleteObject n k v s) as [r s'] eqn:E. exists s'. unfold ignore. rewrite E.
  apply delete_law in E as [Hp _]. by destruct r.
Qed.

Lemma deleteChunkObjects_total n key v keys s :
  ∃ s', deleteChunkObjects n key v keys s = (Ok tt, s').
Proof using Type*.
  revert s. induction keys as [|k keys IH]; intros s; [by eexists|].
  destruct (ignore_delete_total n k v s) as [s1 H1]. destruct (IH s1) as [s2 H2]. exists s2.
  unfold deleteChunkObjects; cbn. by rewrite (gom_bind_ok _ _ _ _ _ H1).
Qed.
End stored.

(** ** The replicator copies *)

Section copies.
Context {OS : Type} `{ObjectStoreLaws OS}.
Implicit Types (s : OS) (task : ReplicationTask).

Abbreviation source_addr task := (chunk_addr (rt_Source task) (rt_Key task) (rt_Version task)).
Abbreviation target_addr task := (chunk_addr (rt_Target task) (rt_Key task) (rt_Version task)).
Abbreviation source_stored s task :=
  (chunk_stored s (rt_Source task) (rt_Key task) (rt_Version task)).
Abbreviation target_stored s task :=
  (chunk_stored s (rt_Target task) (rt_Key task) (rt_Version task)).
Abbreviation key_addrs task keys := ((λ k, addr (rt_Target task) k (rt_Version task)) <$> keys).

Lemma replicate_chunk_ok task written h chunk s acc s' :
  replicate_chunk task (written, h) chunk s = (Ok acc, s') →
  ∃ d, acc = (written ++ [chunkObjectKey (rt_Key task) (cm_Index chunk)], h ++ d) ∧
    source_stored s task chunk d ∧ target_stored s' task chunk d ∧
    agree_outside [target_addr task chunk] s s'.
Proof.
  intros Hrun. unfold replicate_chunk in Hrun.
  go_step Hrun; [|done..]. destruct a as [size src].
  apply read_law in Hc as (_ & Hread & Hsrc).
  go_step Hrun; [|done..]. apply try_inv in Hc as [(res & Hw & [= ->] & _)|[_ ?]]; [|done].
  destruct res as [n|e|]; [|by go_step Hrun|by inv Hrun].
  destruct (r_close src); [by go_step Hrun|].
  pose proof (write_agree _ _ _ _ _ _ _ Hw) as Hagree.
  apply write_law in Hw as (_ & _ & Hok). destruct (Hok n eq_refl) as (d & Hd & -> & Hat).
  rewrite Hd in Hrun; cbn in Hrun.
  destruct (bool_decide_reflect (zlen d ≠ cm_Size chunk)) as [|Hsz]; cbn in Hrun.
  { go_step Hrun; [by go_step Hrun|done..]. }
  destruct (bool_decide_reflect (checksumBytes d ≠ cm_Checksum chunk)) as [|Hck]; cbn in Hrun.
  { go_step Hrun; [by go_step Hrun|done..]. }
  apply dec_stable in Hsz, Hck. inv Hrun. exists d. split; [done|].
  specialize (Hsrc _ _ d eq_refl Hd). repeat split; try done.
  intros a Ha. rewrite Hagree by done. apply Hread.
Qed.

Lemma replicate_chunk_touches task written h chunk A :
  target_addr task chunk ∈ A → (∀ k, k ∈ written → addr (rt_Target task) k (rt_Version task) ∈ A) →
  only_touches A (replicate_chunk task (written, h) chunk).
Proof.
  intros Hc Hw. unfold only_touches, replicate_chunk.
  respects_step ltac:(first [ apply touches_read | by apply touches_write
    | by apply touches_delete; auto | by apply touches_delete_chunks ]).
Qed.

Lemma replicateChunks_touches task A :
  (∀ c, c ∈ rt_Chunks task → target_addr task c ∈ A) → only_touches A (replicateChunks task).
Proof.
  intros HA s r s' Hrun. unfold replicateChunks in Hrun.
  assert (∀ r s1, for_fold (rt_Chunks task) ([], []) (replicate_chunk task) s = (r, s1) →
    match r with
    | Ok acc => agree_outside A s s1 ∧
        (∀ k, k ∈ acc.1 → addr (rt_Target task) k (rt_Version task) ∈ A)
    | _ => agree_outside A s s1
    end) as Hloop.
  { intros r1 s1. eapply (for_fold_inv (λ acc s1, agree_outside A s s1 ∧
      ∀ k, k ∈ acc.1 → addr (rt_Target task) k (rt_Version task) ∈ A)).
    - intros [written h] c s2 r2 s3 Hc [Hs2 Hw] Hstep. cbn in Hw.
      pose proof (replicate_chunk_touches task written h c A (HA _ Hc) Hw _ _ _ Hstep) as Ht.
      assert (agree_outside A s s3) by by eapply agree_trans.
      destruct r2 as [acc| |]; [|done..].
      apply replicate_chunk_ok in Hstep as (d & -> & _). split; [done|]. cbn.
      intros k [?|Hk]%elem_of_app; [by auto|]. apply list_elem_of_singleton in Hk as ->.
      by apply HA.
    - split; [apply agree_refl|]. cbn. set_solver. }
  go_step Hrun; apply Hloop in Hc; [|done..]. destruct a as [written h], Hc as [Hs1 Hw].
  eapply agree_trans; [exact Hs1|]. revert Hrun.
  case_match; intros Hrun; [|inv Hrun; apply agree_refl].
  revert Hrun. apply (respects_bind (agree_outside A)); [by apply touches_delete_chunks|].
  intros. apply respects_fail, _.
Qed.

Lemma replicate_loop_ok task chunks written h s acc s' :
  NoDup (target_addr task <$> chunks) →
  (∀ c c', c ∈ chunks → c' ∈ chunks → source_addr task c ≠ target_addr task c') →
  for_fold chunks (written, h) (replicate_chunk task) s = (Ok acc, s') →
  ∃ ds, acc.2 = h ++ concat ds ∧
    Forall2 (source_stored s task) chunks ds ∧ Forall2 (target_stored s' task) chunks ds ∧
    agree_outside (target_addr task <$> chunks) s s'.
Proof.
  revert written h s. induction chunks as [|c chunks IH]; intros written h s Hnd Hdis Hrun.
  { inv Hrun. exists []. cbn. rewrite app_nil_r. repeat split; try constructor. }
  cbn in Hrun. go_step Hrun; [|done..].
  apply replicate_chunk_ok in Hc as (d & -> & Hsrc & Htgt & Hagree).
  rewrite fmap_cons in Hnd. apply NoDup_cons in Hnd as [Hout Hnd].
  assert (∀ c', c' ∈ chunks → target_addr task c' ≠ target_addr task c) as Hne.
  { intros c' Hc' E. apply Hout. rewrite <-E. by apply list_elem_of_fmap_2. }
  apply IH in Hrun as (ds & -> & Hs & Ht & Ha); [|done|].
  2: { intros c1 c2 ? ?. apply Hdis; by right. }
  exists (d :: ds). cbn. rewrite app_assoc. split; [done|]. split; [|split].
  - constructor; [done|]. eapply version_stored_agree; [|..|exact Hs].
    + intros a Ha'. symmetry. by apply Hagree.
    + intros c' Hc' E%list_elem_of_singleton. by apply (Hdis c' c); [right|left|].
  - constructor; [|done]. destruct Htgt as [Hat Hman]. split; [|done]. rewrite <-Hat. apply Ha.
    intros (c' & E & Hc')%list_elem_of_fmap. by apply (Hne c').
  - eapply agree_trans; [eapply agree_mono; [exact Hagree|]|eapply agree_mono; [exact Ha|]];
      csimpl; set_solver.
Qed.

Lemma replicateChunks_ok task s s' :
  NoDup (target_addr task <$> rt_Chunks task) →
  (∀ c c', c ∈ rt_Chunks task → c' ∈ rt_Chunks task → source_addr task c ≠ target_addr task c') →
  replicateChunks task s = (Ok tt, s') →
  ∃ ds,
    version_stored s (rt_Source task) (rt_Key task) (rt_Version task) (rt_Chunks task) ds ∧
    version_stored s' (rt_Target task) (rt_Key task) (rt_Version task) (rt_Chunks task) ds ∧
    (rt_Checksum task = "" ∨ checksumBytes (concat ds) = rt_Checksum task).
Proof.
  intros Hnd Hdis Hrun. unfold replicateChunks in Hrun. go_step Hrun; [|done..].
  destruct a as [written h].
  apply replicate_loop_ok in Hc as (ds & E & Hs & Ht & _); [|done..]. cbn in E. subst h.
  exists ds. revert Hrun. case_match eqn:Hb; intros Hrun; [by go_step Hrun|]. inv Hrun.
  split; [done|]. split; [done|].
  apply andb_false_iff in Hb as [Hb|Hb]; apply bool_decide_eq_false, dec_stable in Hb; auto.
Qed.
End copies.

(** ** The replicator succeeds on a reliable store *)

Section succeeds.
Context {OS : Type} `{HR : ReliableObjectStore OS}.
Implicit Types (s : OS) (task : ReplicationTask).

(** Both ends of a copy are served. *)
Definition serves_task task : Prop :=
  serves_file (rt_Source task) (rt_Key task) (rt_Version task) ∧
  serves_file (rt_Target task) (rt_Key task) (rt_Version task).

Lemma replicate_chunk_reliable task written h chunk d s :
  serves_task task → os_ready s →
  chunk_stored s (rt_Source task) (rt_Key task) (rt_Version task) chunk d →
  ∃ acc s', replicate_chunk task (written, h) chunk s = (Ok acc, s') ∧ os_ready s' ∧
    acc.2 = h ++ d.
Proof using Type*.
  intros [Hns Hnt] Hs (Hat & Hsz & Hck). unfold replicate_chunk.
  destruct (reliable_read _ _ _ _ _ (proj2 Hns _) Hs Hat) as (size & src & s1 & Hr & Hd & Hcl & Hs1).
  rewrite (gom_bind_ok _ _ _ _ _ Hr).
  destruct (reliable_write (rt_Target task) (chunkObjectKey (rt_Key task) (cm_Index chunk))
    (rt_Version task) src _ _ (proj2 Hnt _) Hs1 Hd) as (s2 & Hw & Hs2).
  rewrite (gom_bind_ok _ _ _ _ _ (try_run _ _ _ _ Hw ltac:(done))).
  rewrite Hcl, Hd. cbn. rewrite !bool_decide_eq_false_2 by tauto. cbn. by eexists _, _.
Qed.

Lemma replicate_loop_reliable task chunks ds written h s :
  serves_task task → os_ready s →
  version_stored s (rt_Source task) (rt_Key task) (rt_Version task) chunks ds →
  (∀ c c', c ∈ chunks → c' ∈ chunks →
     chunk_addr (rt_Source task) (rt_Key task) (rt_Version task) c ≠
     chunk_addr (rt_Target task) (rt_Key task) (rt_Version task) c') →
  ∃ acc s', for_fold chunks (written, h) (replicate_chunk task) s = (Ok acc, s') ∧ os_ready s' ∧
    acc.2 = h ++ concat ds.
Proof using Type*.
  intros Hn Hs Hv. revert ds written h s Hs Hv.
  induction chunks as [|c chunks IH]; intros ds written h s Hs Hv Hdis.
  { apply Forall2_nil_inv_l in Hv as ->. eexists _, _. split; [done|]. split; [done|].
    cbn. by rewrite app_nil_r. }
  apply Forall2_cons_inv_l in Hv as (d & ds' & Hd & Hv & ->).
  destruct (replicate_chunk_reliable task written h c d s Hn Hs Hd) as ([w1 h1] & s1 & Hc & Hs1 & E).
  pose proof (replicate_chunk_ok _ _ _ _ _ _ _ Hc) as (_ & _ & _ & _ & Hagree).
  destruct (IH ds' w1 h1 s1) as (acc & s2 & Hl & Hs2 & E2); [done|..].
  - eapply version_stored_agree; [exact Hagree| |exact Hv].
    intros c' Hc' Ein%list_elem_of_singleton. by apply (Hdis c' c); [right|left|].
  - intros c1 c2 ? ?. apply Hdis; by right.
  - eexists acc, s2. cbn. rewrite (gom_bind_ok _ _ _ _ _ Hc). split; [done|]. split; [done|].
    rewrite E2. cbn in E. by rewrite E, <-app_assoc.
Qed.

Lemma replicateChunks_reliable task ds s :
  serves_task task → os_ready s →
  version_stored s (rt_Source task) (rt_Key task) (rt_Version task) (rt_Chunks task) ds →
  (∀ c c', c ∈ rt_Chunks task → c' ∈ rt_Chunks task →
     chunk_addr (rt_Source task) (rt_Key task) (rt_Version task) c ≠
     chunk_addr (rt_Target task) (rt_Key task) (rt_Version task) c') →
  rt_Checksum task = "" ∨ checksumBytes (concat ds) = rt_Checksum task →
  ∃ s', replicateChunks task s = (Ok tt, s') ∧ os_ready s'.
Proof using Type*.
  intros Hn Hs Hv Hdis Hck. unfold replicateChunks.
  destruct (replicate_loop_reliable task (rt_Chunks task) ds [] [] s Hn Hs Hv Hdis)
    as ([w h] & s1 & Hl & Hs1 & E). cbn in E. subst h.
  exists s1. rewrite (gom_bind_ok _ _ _ _ _ Hl).
  rewrite (proj2 (andb_false_iff _ _)); [done|].
  rewrite !bool_decide_eq_false. destruct Hck; [left|right]; tauto.
Qed.
End succeeds.

(** ** Property *)

(** C15: when the replicator reports success, the target node holds, chunk by
    chunk, the bytes the source node held, each of the size and SHA-256 sum
    the manifest gives, and the whole file has the recorded checksum; whether
    it succeeds or fails, it changes no object but the chunks of this version
    on the target. *)
Theorem replicateChunks_copies `{ObjectStoreLaws OS} (task : ReplicationTask) (s : OS) r s' :
  let target := chunk_addr (rt_Target task) (rt_Key task) (rt_Version task) in
  let source := chunk_addr (rt_Source task) (rt_Key task) (rt_Version task) in
  NoDup (target <$> rt_Chunks task) →
  (∀ c c', c ∈ rt_Chunks task → c' ∈ rt_Chunks task → source c ≠ target c') →
  replicateChunks task s = (r, s') →
  agree_outside (target <$> rt_Chunks task) s s' ∧
  (r = Ok tt → ∃ ds,
    version_stored s (rt_Source task) (rt_Key task) (rt_Version task) (rt_Chunks task) ds ∧
    version_stored s' (rt_Target task) (rt_Key task) (rt_Version task) (rt_Chunks task) ds ∧
    (rt_Checksum task = "" ∨ checksumBytes (concat ds) = rt_Checksum task)).
Proof.
  intros target source Hnd Hdis Hrun. split.
  - eapply replicateChunks_touches, Hrun. intros c Hc. by apply list_elem_of_fmap_2.
  - intros ->. by apply replicateChunks_ok.
Qed.
