(* ===== verification/Staging.v ===== *)
(** * Staging an upload: [stageReader] of [managed_file_service.go].

    [stageReader] copies a stream to a temporary file while it hashes the
    whole and cuts it into chunks of [defaultChunkSize].  The chunk limit is a
    parameter of the model ([stage]), and [stageReader] is its instance at
    4 MiB, so that small inputs exercise more than one chunk.

    Every system call on the temporary file may fail: [TempDir] scripts their
    outcomes.  [hash.Hash.Write] never returns an error, as its documentation
    says.  A [Read] that returns neither data nor an error is a script entry
    like any other; scripts are finite, so a reader that does that forever is
    not modelled. *)

From S2P Require Import Prelude Metadata Replication Names Hash Objects.
From stdpp Require Import options.

(** ** Temporary files *)

(** The outcomes of the successive calls on temporary files. *)
Record TempDir := { outcomes : nat → option GoError; used : nat }.

Definition temp_call : GoM TempDir unit := λ td,
  (match outcomes td (used td) with None => Ok tt | Some e => Err e end,
   {| outcomes := outcomes td; used := S (used td) |}).

(** A temporary directory on which no call fails. *)
Definition temp_ok (td : TempDir) : Prop := ∀ n, outcomes td n = None.

Definition good_temp : TempDir := {| outcomes := λ _, None; used := 0 |}.

(** ** The staging loop *)

Definition defaultChunkSize : Z := (4 * 1024 * 1024)%Z.

(** The local variables of [stageReader]. *)
Record StageState := {
  sg_h : bytes;
  sg_chunkHash : bytes;
  sg_chunks : list ChunkMetadata;
  sg_total : Z;
  sg_chunkSize : Z;
  sg_chunkIndex : Z;
  sg_chunkOffset : Z;
  sg_file : bytes
}.

Definition stage_init : StageState := {|
  sg_h := []; sg_chunkHash := []; sg_chunks := []; sg_total := 0; sg_chunkSize := 0;
  sg_chunkIndex := 0; sg_chunkOffset := 0; sg_file := []
|}.

(** The results of [stageReader]: the temporary file, the size, the checksum
    and the chunk manifest. *)
Record Staged := {
  st_file : bytes;
  st_size : Z;
  st_checksum : string;
  st_chunks : list ChunkMetadata
}.

(** [f.Write(data); h.Write(data)] *)
Definition stage_write (st : StageState) (data : bytes) : StageState := {|
  sg_h := sg_h st ++ data; sg_chunkHash := sg_chunkHash st; sg_chunks := sg_chunks st;
  sg_total := sg_total st; sg_chunkSize := sg_chunkSize st; sg_chunkIndex := sg_chunkIndex st;
  sg_chunkOffset := sg_chunkOffset st; sg_file := sg_file st ++ data
|}.

(** [chunkHash.Write(part)], and [part] counted into [chunkSize] and [total]. *)
Definition stage_part (st : StageState) (part : bytes) : StageState := {|
  sg_h := sg_h st; sg_chunkHash := sg_chunkHash st ++ part; sg_chunks := sg_chunks st;
  sg_total := (sg_total st + zlen part)%Z; sg_chunkSize := (sg_chunkSize st + zlen part)%Z;
  sg_chunkIndex := sg_chunkIndex st; sg_chunkOffset := sg_chunkOffset st; sg_file := sg_file st
|}.

(** The [ChunkMetadata] literal of the open chunk. *)
Definition open_chunk (st : StageState) : ChunkMetadata := {|
  cm_Index := sg_chunkIndex st; cm_Offset := sg_chunkOffset st; cm_Size := sg_chunkSize st;
  cm_Checksum := checksumBytes (sg_chunkHash st)
|}.

(** The chunk is full: append it and start the next one. *)
Definition stage_flush (st : StageState) : StageState := {|
  sg_h := sg_h st; sg_chunkHash := []; sg_chunks := sg_chunks st ++ [open_chunk st];
  sg_total := sg_total st; sg_chunkSize := 0; sg_chunkIndex := (sg_chunkIndex st + 1)%Z;
  sg_chunkOffset := sg_total st; sg_file := sg_file st
|}.

Section stage.
Context (limit : Z).

(** The bytes of [remaining] that still fit into the open chunk. *)
Definition stage_space (st : StageState) (remaining : bytes) : Z :=
  let space := (limit - sg_chunkSize st)%Z in
  if (zlen remaining <? space)%Z then zlen remaining else space.

(** The inner loop, [for len(remaining) > 0]; the fuel bounds its iterations. *)
Fixpoint stage_fill (fuel : nat) (st : StageState) (remaining : bytes) : StageState :=
  match fuel with
  | 0 => st
  | S fuel =>
      if decide (length remaining = 0) then st
      else
        let space := stage_space st remaining in
        let part := take (Z.to_nat space) remaining in
        let st := stage_part st part in
        let remaining := drop (Z.to_nat space) remaining in
        let st := if (sg_chunkSize st =? limit)%Z then stage_flush st else st in
        stage_fill fuel st remaining
  end.

(** The outer loop over [r.Read]. *)
Fixpoint stage_loop (reads : list ReadResult) (st : StageState) : GoM TempDir StageState :=
  match reads with
  | [] => mret st
  | (data, readErr) :: reads =>
      st ← (if decide (0 < length data) then
              temp_call;;
              mret (stage_fill (length data) (stage_write st data) data)
            else mret st);
      match readErr with
      | Some EOF => mret st
      | Some (ReadErr e) => fail e
      | None => stage_loop reads st
      end
  end.

Definition stage (reads : list ReadResult) : GoM TempDir Staged :=
  temp_call;;
  st ← stage_loop reads stage_init;
  let chunks :=
    if bool_decide (0 < sg_chunkSize st)%Z || bool_decide (sg_total st = 0%Z)
    then sg_chunks st ++ [open_chunk st] else sg_chunks st in
  mret {| st_file := sg_file st; st_size := sg_total st;
          st_checksum := checksumBytes (sg_h st); st_chunks := chunks |}.
End stage.

Definition stageReader (reads : list ReadResult) : GoM TempDir Staged :=
  stage defaultChunkSize reads.

(** ** Reference: cutting a byte string *)

Fixpoint cut (fuel limit : nat) (data : bytes) : list bytes :=
  match fuel with
  | 0 => []
  | S fuel =>
      match data with
      | [] => []
      | _ => take limit data :: cut fuel limit (drop limit data)
      end
  end.

(** The pieces of [data]: all of length [limit] but the last, and one empty
    piece for the empty file. *)
Definition pieces (limit : Z) (data : bytes) : list bytes :=
  match data with
  | [] => [[]]
  | _ => cut (length data) (Z.to_nat limit) data
  end.

Definition chunk_of (limit : Z) (i : nat) (piece : bytes) : ChunkMetadata := {|
  cm_Index := Z.of_nat i; cm_Offset := (Z.of_nat i * limit)%Z; cm_Size := zlen piece;
  cm_Checksum := checksumBytes piece
|}.

Definition manifest (limit : Z) (data : bytes) : list ChunkMetadata :=
  imap (chunk_of limit) (pieces limit data).

(** The bytes of [data] a chunk stands for. *)
Definition chunk_slice (data : bytes) (c : ChunkMetadata) : bytes :=
  take (Z.to_nat (cm_Size c)) (drop (Z.to_nat (cm_Offset c)) data).

(** ** Cutting *)

Lemma cut_full limit fuel full tail :
  0 < limit → Forall (λ p, length p = limit) full → length tail ≤ limit →
  length (concat full ++ tail) ≤ fuel →
  cut fuel limit (concat full ++ tail) = full ++ match tail with [] => [] | _ => [tail] end.
Proof.
  intros Hl Hf. revert fuel. induction Hf as [|p full Hp Hf IH]; intros fuel Ht Hfuel; cbn.
  - cbn in Hfuel. destruct fuel as [|fuel], tail as [|b tail]; cbn in *; try done; try lia.
    rewrite take_ge, drop_ge by (cbn; lia). by destruct fuel.
  - cbn in Hfuel. rewrite <-app_assoc in *.
    rewrite length_app in Hfuel. destruct fuel as [|fuel]; [lia|]. cbn.
    destruct (p ++ concat full ++ tail) as [|b rest] eqn:E.
    { apply app_nil in E as [-> _]. cbn in Hp. lia. }
    rewrite <-E. rewrite take_app_length', drop_app_length' by done. rewrite IH; [done|done|lia].
Qed.

Lemma pieces_full limit full tail :
  (0 < limit)%Z → Forall (λ p, zlen p = limit) full → (zlen tail < limit)%Z →
  pieces limit (concat full ++ tail) =
  if bool_decide (0 < zlen tail)%Z || bool_decide (zlen (concat full ++ tail) = 0%Z)
  then full ++ [tail] else full.
Proof.
  intros Hl Hf Ht. assert (Forall (λ p, length p = Z.to_nat limit) full) as Hf'.
  { eapply Forall_impl; [exact Hf|]. unfold zlen. lia. }
  unfold pieces, zlen in *. destruct (concat full ++ tail) as [|b rest] eqn:E.
  - apply app_nil in E as [E ->]. destruct full as [|p full]; [done|].
    cbn in E. apply app_nil in E as [-> _]. apply Forall_cons in Hf as [Hp _]. cbn in Hp. lia.
  - rewrite <-E. rewrite cut_full; [|lia|done|lia|done].
    rewrite (bool_decide_eq_false_2 (Z.of_nat (length (_ ++ _)) = 0%Z)).
    2: { rewrite E. cbn. lia. }
    rewrite orb_false_r. destruct tail; cbn; [by rewrite app_nil_r|done].
Qed.

Lemma zlen_concat limit (full : list bytes) :
  Forall (λ p, zlen p = limit) full → zlen (concat full) = (Z.of_nat (length full) * limit)%Z.
Proof.
  induction 1 as [|p full Hp Hf IH]; [done|]. cbn [concat length].
  rewrite zlen_app, IH, Hp. lia.
Qed.

Section stage_proofs.
Context (limit : Z) (limit_pos : (0 < limit)%Z).

(** The chunk variables after the bytes [data] were staged: [full] complete
    chunks, and the rest in the open one. *)
Definition stage_inv (st : StageState) (data : bytes) : Prop :=
  ∃ full : list bytes,
    Forall (λ p, zlen p = limit) full ∧ data = concat full ++ sg_chunkHash st ∧
    sg_chunkSize st = zlen (sg_chunkHash st) ∧ (sg_chunkSize st < limit)%Z ∧
    sg_chunkIndex st = Z.of_nat (length full) ∧
    sg_chunkOffset st = (Z.of_nat (length full) * limit)%Z ∧
    sg_total st = zlen data ∧ sg_chunks st = imap (chunk_of limit) full.

Lemma stage_inv_init : stage_inv stage_init [].
Proof using limit_pos. exists []. repeat split; constructor || done. Qed.

Lemma stage_inv_part st data part :
  stage_inv st data → (sg_chunkSize st + zlen part < limit)%Z →
  stage_inv (stage_part st part) (data ++ part).
Proof.
  intros (full & Hf & -> & Hsz & _ & Hi & Ho & Ht & Hc) Hlt. exists full. cbn.
  rewrite !zlen_app in *. repeat split; try done; try lia. by rewrite app_assoc.
Qed.

Lemma stage_inv_flush st data part :
  stage_inv st data → (sg_chunkSize st + zlen part = limit)%Z →
  stage_inv (stage_flush (stage_part st part)) (data ++ part).
Proof using limit_pos.
  intros (full & Hf & -> & Hsz & _ & Hi & Ho & Ht & Hc) Heq.
  exists (full ++ [sg_chunkHash st ++ part]). cbn.
  rewrite !zlen_app, (zlen_concat limit full) in * by done. rewrite length_app. cbn.
  repeat split; try lia; try done.
  - apply Forall_app; split; [done|]. apply Forall_singleton. rewrite zlen_app. lia.
  - rewrite concat_app. cbn. by rewrite !app_nil_r, !app_assoc.
  - rewrite imap_app, Hc. cbn. unfold open_chunk, chunk_of; cbn.
    rewrite Nat.add_0_r, zlen_app, Hi, Ho, Hsz. done.
Qed.

(** The inner loop consumes all it is given. *)
Lemma stage_fill_inv fuel st data rem :
  length rem ≤ fuel → stage_inv st data → stage_inv (stage_fill limit fuel st rem) (data ++ rem).
Proof using limit_pos.
  revert st data rem. induction fuel as [|fuel IH]; intros st data rem Hfuel Hinv; cbn [stage_fill].
  { destruct rem; [|cbn in Hfuel; lia]. by rewrite app_nil_r. }
  destruct (decide (length rem = 0)) as [Hz|Hz].
  { apply length_zero_iff_nil in Hz as ->. by rewrite app_nil_r. }
  pose proof Hinv as (full & _ & _ & Hsz & Hlt & _).
  set (space := stage_space limit st rem).
  assert (0 < space ≤ zlen rem ∧ space ≤ limit - sg_chunkSize st ∧
    (space = zlen rem ∨ space = limit - sg_chunkSize st))%Z as (Hsp & Hsp' & Hor).
  { unfold space, stage_space, zlen in *. destruct (Z.ltb_spec (Z.of_nat (length rem)) (limit - sg_chunkSize st)); lia. }
  assert (zlen (take (Z.to_nat space) rem) = space) as Hpart.
  { unfold zlen in *. rewrite length_take. lia. }
  replace (data ++ rem) with
    ((data ++ take (Z.to_nat space) rem) ++ drop (Z.to_nat space) rem)
    by by rewrite <-app_assoc, take_drop.
  apply IH.
  { rewrite length_drop. unfold zlen in *. lia. }
  cbn [stage_part sg_chunkSize]. rewrite Hpart. case_match eqn:E.
  - apply stage_inv_flush; [done|]. lia.
  - apply stage_inv_part; [done|]. lia.
Qed.

Lemma stage_fill_file fuel st rem :
  sg_file (stage_fill limit fuel st rem) = sg_file st ∧ sg_h (stage_fill limit fuel st rem) = sg_h st.
Proof.
  revert st rem. induction fuel as [|fuel IH]; intros st rem; cbn [stage_fill]; [done|].
  case_decide; [done|]. rewrite !(proj1 (IH _ _)), !(proj2 (IH _ _)). by case_match.
Qed.
End stage_proofs.

(** ** The manifest describes the data *)

Section manifest_proofs.
Context (limit : Z) (limit_pos : (0 < limit)%Z).

Lemma full_decomposition (data : bytes) :
  ∃ full tail, data = concat full ++ tail ∧ Forall (λ p, zlen p = limit) full ∧
    (zlen tail < limit)%Z.
Proof using limit_pos.
  induction data as [data IH] using (induction_ltof1 _ length). unfold ltof in IH.
  destruct (decide (zlen data < limit)%Z) as [Hlt|Hge].
  { exists [], data. by repeat constructor. }
  destruct (IH (drop (Z.to_nat limit) data)) as (full & tail & E & Hf & Ht).
  { rewrite length_drop. unfold zlen in *. lia. }
  exists (take (Z.to_nat limit) data :: full), tail. cbn. rewrite <-app_assoc, <-E, take_drop.
  split; [done|]. split; [|done]. constructor; [|done].
  unfold zlen in *. rewrite length_take. lia.
Qed.

Lemma pieces_shape data :
  ∃ full last, pieces limit data = full ++ last ∧ concat (pieces limit data) = data ∧
    Forall (λ p, zlen p = limit) full ∧
    (last = [] ∧ full ≠ [] ∨ ∃ p, last = [p] ∧ (zlen p < limit)%Z ∧ (p = [] → full = [])).
Proof using limit_pos.
  destruct (full_decomposition data) as (full & tail & -> & Hf & Ht).
  rewrite pieces_full by done. case_match eqn:E.
  - exists full, [tail]. split; [done|]. split; [|split; [done|]].
    { rewrite concat_app. cbn. by rewrite app_nil_r. }
    right. exists tail. split; [done|]. split; [done|]. intros ->. cbn in E.
    apply bool_decide_eq_true in E. rewrite zlen_app, (zlen_concat limit) in E by done.
    destruct full; [done|]. unfold zlen in E. cbn [length] in E. nia.
  - apply orb_false_iff in E as [E1 E2].
    apply bool_decide_eq_false in E1. apply bool_decide_eq_false in E2.
    assert (tail = []) as -> by (destruct tail; [done|]; unfold zlen in E1; cbn [length] in E1; lia).
    exists full, []. rewrite !app_nil_r in *. split; [done|]. split; [done|]. split; [done|].
    left. split; [done|]. by intros ->.
Qed.

Lemma concat_pieces data : concat (pieces limit data) = data.
Proof using limit_pos. by destruct (pieces_shape data) as (? & ? & _ & ? & _). Qed.

Lemma pieces_small data p : p ∈ pieces limit data → (zlen p ≤ limit)%Z.
Proof using limit_pos.
  destruct (pieces_shape data) as (full & last & -> & _ & Hf & Hl).
  rewrite Forall_forall in Hf. intros [Hp|Hp]%elem_of_app; [by rewrite (Hf p Hp)|].
  destruct Hl as [[-> _]|(q & -> & Hq & _)]; [set_solver|].
  apply list_elem_of_singleton in Hp as ->. lia.
Qed.

Lemma concat_slice (ps : list bytes) rest i p :
  Forall (λ p, zlen p = limit) (take i ps) → ps !! i = Some p →
  take (length p) (drop (Z.to_nat (Z.of_nat i * limit)) (concat ps ++ rest)) = p.
Proof using limit_pos.
  revert i. induction ps as [|q ps IH]; intros i Hf Hi; [done|].
  destruct i as [|i]; cbn in Hi.
  - simplify_eq. cbn. rewrite <-app_assoc. by apply take_app_length'.
  - cbn in Hf. apply Forall_cons in Hf as [Hq Hf]. cbn [concat].
    rewrite <-app_assoc, drop_app_ge by (unfold zlen in Hq; lia).
    rewrite <-(IH i Hf Hi) at 2. do 2 f_equal. unfold zlen in Hq. lia.
Qed.

Lemma pieces_prefix data i p :
  pieces limit data !! i = Some p → Forall (λ p, zlen p = limit) (take i (pieces limit data)).
Proof using limit_pos.
  destruct (pieces_shape data) as (full & last & -> & _ & Hf & Hl). intros Hi.
  assert (i ≤ length full) as Hle.
  { apply lookup_lt_Some in Hi. rewrite length_app in Hi.
    destruct Hl as [[-> _]|(q & -> & _)]; cbn in Hi; lia. }
  rewrite take_app_le by done. by apply Forall_take.
Qed.

Lemma manifest_lookup data i c :
  manifest limit data !! i = Some c →
  ∃ p, pieces limit data !! i = Some p ∧ c = chunk_of limit i p.
Proof.
  unfold manifest. rewrite list_lookup_imap.
  destruct (pieces limit data !! i) as [p|]; intros; simplify_eq/=. eauto.
Qed.

Lemma manifest_slice data i c :
  manifest limit data !! i = Some c → pieces limit data !! i = Some (chunk_slice data c).
Proof using limit_pos.
  intros (p & Hp & ->)%manifest_lookup. rewrite Hp. f_equal.
  unfold chunk_slice, chunk_of, zlen; cbn. rewrite Nat2Z.id.
  rewrite <-(concat_pieces data) at 1. rewrite <-(app_nil_r (concat _)). symmetry.
  apply concat_slice; [by eapply pieces_prefix|done].
Qed.

Lemma manifest_slices data : chunk_slice data <$> manifest limit data = pieces limit data.
Proof using limit_pos.
  apply list_eq. intros i. rewrite list_lookup_fmap.
  destruct (manifest limit data !! i) as [c|] eqn:E; cbn.
  - symmetry. by apply manifest_slice.
  - unfold manifest in E. rewrite list_lookup_imap in E.
    by destruct (pieces limit data !! i).
Qed.

Lemma pieces_nonempty data : pieces limit data ≠ [].
Proof using limit_pos.
  destruct (pieces_shape data) as (full & last & -> & _ & _ & [[-> Hf]|(p & -> & _)]).
  - by rewrite app_nil_r.
  - by destruct full.
Qed.

Lemma manifest_nonempty data : manifest limit data ≠ [].
Proof using limit_pos.
  unfold manifest. pose proof (pieces_nonempty data). by destruct (pieces limit data).
Qed.

Lemma manifest_index data i c : manifest limit data !! i = Some c → cm_Index c = Z.of_nat i.
Proof. by intros (p & _ & ->)%manifest_lookup. Qed.
End manifest_proofs.

(** ** The staging loop builds the manifest *)

Section stage_correct.
Context (limit : Z) (limit_pos : (0 < limit)%Z).

Lemma temp_call_inv td r td' :
  temp_call td = (r, td') →
  outcomes td' = outcomes td ∧
  (r = Ok tt ∨ ∃ e n, r = Err e ∧ outcomes td n = Some e).
Proof.
  unfold temp_call. intros [= <- <-]. split; [done|].
  destruct (outcomes td (used td)) eqn:E; eauto.
Qed.

(** Staging fails only with the reader's error or one of a system call. *)
Definition stage_error (reads : list ReadResult) (td : TempDir) (e : GoError) : Prop :=
  (drain reads).2 = Some e ∨ ∃ n, outcomes td n = Some e.

Definition staged_as (st : StageState) (data : bytes) : Prop :=
  stage_inv limit st data ∧ sg_file st = data ∧ sg_h st = data.

Lemma stage_loop_spec reads st data td r td' :
  staged_as st data → stage_loop limit reads st td = (r, td') →
  outcomes td' = outcomes td ∧
  match r with
  | Ok st' => ∃ rest, drain reads = (rest, None) ∧ staged_as st' (data ++ rest)
  | Err e => stage_error reads td e
  | Panic => False
  end.
Proof using limit_pos.
  revert st data td. induction reads as [|[b e] reads IH]; intros st data td Hst Hrun.
  { inv Hrun. split; [done|]. exists []. by rewrite app_nil_r. }
  cbn [stage_loop] in Hrun.
  assert (∀ r1 td1, (if decide (0 < length b) then
      temp_call;; mret (stage_fill limit (length b) (stage_write st b) b) else mret st) td
      = (r1, td1) →
    outcomes td1 = outcomes td ∧
    match r1 with
    | Ok st' => staged_as st' (data ++ b)
    | Err e => ∃ n, outcomes td n = Some e
    | Panic => False
    end) as Hbody.
  { intros r1 td1 H1. case_decide as Hb.
    - go_step H1.
      + apply temp_call_inv in Hc as [Ho _]. inv H1. split; [done|].
        destruct Hst as (Hi & Hf & Hh). split; [by apply stage_fill_inv|].
        rewrite !(proj1 (stage_fill_file _ _ _ _)), !(proj2 (stage_fill_file _ _ _ _)). cbn.
        by rewrite Hf, Hh.
      + apply temp_call_inv in Hc as [Ho [?|(e' & n & ? & ?)]]; [done|]. simplify_eq. eauto.
      + apply temp_call_inv in Hc as [Ho [?|(e' & n & ? & ?)]]; done.
    - inv H1. split; [done|]. destruct b; [|cbn in Hb; lia]. by rewrite app_nil_r. }
  go_step Hrun; apply Hbody in Hc as [Ho Hc]; [|simplify_eq; split; [done|by right]|done].
  destruct e as [[|e]|].
  - inv Hrun. split; [done|]. exists b. done.
  - inv Hrun. split; [done|]. by left.
  - apply (IH _ _ _ Hc) in Hrun as [Ho' Hr]. split; [congruence|]. cbn [drain].
    unfold stage_error in *. cbn [drain]. rewrite Ho in Hr.
    destruct (drain reads) as [rest e']; destruct r as [st'|e''|]; [|done..].
    destruct Hr as (rest' & [= <- ->] & Hs). exists (b ++ rest). by rewrite app_assoc.
Qed.

Lemma stage_spec reads td r td' :
  stage limit reads td = (r, td') →
  outcomes td' = outcomes td ∧
  match r with
  | Ok st => ∃ data, drain reads = (data, None) ∧
      st = {| st_file := data; st_size := zlen data; st_checksum := checksumBytes data;
              st_chunks := manifest limit data |}
  | Err e => stage_error reads td e
  | Panic => False
  end.
Proof using limit_pos.
  intros Hrun. unfold stage in Hrun. go_step Hrun.
  - apply temp_call_inv in Hc as [Ho _].
    assert (staged_as stage_init []) as H0 by (split; [by apply stage_inv_init|done]).
    go_step Hrun; apply (stage_loop_spec _ _ _ _ _ _ H0) in Hc as [Ho' Hc].
    + inv Hrun. split; [congruence|]. destruct Hc as (data & Hd & Hinv & Hf & Hh).
      exists data. split; [done|]. cbn in Hinv, Hf, Hh. rewrite Hf, Hh.
      destruct Hinv as (full & Hfull & -> & Hsz & Hlt & Hi & Hof & Ht & Hck). rewrite Ht. f_equal.
      unfold manifest. rewrite pieces_full by (try done; lia). rewrite <-Hsz. case_match; [|done].
      rewrite imap_app, Hck. cbn. unfold open_chunk, chunk_of.
      by rewrite Nat.add_0_r, Hi, Hof, Hsz.
    + simplify_eq. split; [congruence|]. unfold stage_error in *. by rewrite Ho in Hc.
    + done.
  - apply temp_call_inv in Hc as [Ho [?|(e' & n & ? & ?)]]; [done|]. simplify_eq.
    split; [done|]. right. eauto.
  - apply temp_call_inv in Hc as [Ho [?|(e' & n & ? & ?)]]; done.
Qed.

Lemma stage_total reads td data :
  temp_ok td → drain reads = (data, None) →
  ∃ td', temp_ok td' ∧ stage limit reads td =
    (Ok {| st_file := data; st_size := zlen data; st_checksum := checksumBytes data;
           st_chunks := manifest limit data |}, td').
Proof using limit_pos.
  intros Htd Hd. destruct (stage limit reads td) as [r td'] eqn:E.
  apply stage_spec in E as [Ho Hr]. exists td'. split; [intros n; by rewrite Ho|].
  destruct r as [st|e|]; [|exfalso|done].
  - destruct Hr as (data' & Hd' & ->). rewrite Hd in Hd'. by simplify_eq.
  - destruct Hr as [Hr|[n Hr]]; [by rewrite Hd in Hr|by rewrite (Htd n) in Hr].
Qed.
End stage_correct.

(** ** Properties *)

Lemma defaultChunkSize_pos : (0 < defaultChunkSize)%Z.
Proof. done. Qed.
#[export] Hint Resolve defaultChunkSize_pos : go.

(** C14: what [stageReader] returns depends only on the bytes the reader
    delivers, not on how its [Read] calls cut them up: the staged file is
    those bytes, with their length and SHA-256 sum, and the manifest is the
    reference cut of them into 4 MiB pieces.  It succeeds whenever the reader
    ends cleanly and no system call fails, and otherwise returns the error of
    the reader or of the call. *)
Theorem stageReader_correct reads td :
  match stageReader reads td with
  | (Ok st, _) => ∃ data, drain reads = (data, None) ∧
      st = {| st_file := data; st_size := zlen data; st_checksum := checksumBytes data;
              st_chunks := manifest defaultChunkSize data |}
  | (Err e, _) => (drain reads).2 = Some e ∨ ∃ n, outcomes td n = Some e
  | (Panic, _) => False
  end ∧
  (temp_ok td → (drain reads).2 = None →
     ∃ td', stageReader reads td =
       (Ok {| st_file := (drain reads).1; st_size := zlen (drain reads).1;
              st_checksum := checksumBytes (drain reads).1;
              st_chunks := manifest defaultChunkSize (drain reads).1 |}, td')).
Proof.
  unfold stageReader. split.
  - destruct (stage defaultChunkSize reads td) as [r td'] eqn:E.
    apply stage_spec in E as [_ Hr]; [|done]. by destruct r.
  - intros Htd Hd. destruct (drain reads) as [data e] eqn:E. cbn in Hd. subst e.
    destruct (stage_total defaultChunkSize defaultChunkSize_pos reads td data Htd E) as (td' & _ & ?).
    eauto.
Qed.

(** The manifest tiles the file: chunk [i] has index [i] and offset
    [i * 4 MiB], at most 4 MiB, exactly 4 MiB unless it is the last, and the
    checksum of its slice; the slices in order make up the file; there is at
    least one chunk, and an empty chunk only in the empty file. *)
Theorem manifest_tiles data :
  manifest defaultChunkSize data ≠ [] ∧
  concat (chunk_slice data <$> manifest defaultChunkSize data) = data ∧
  ∀ i c, manifest defaultChunkSize data !! i = Some c →
    cm_Index c = Z.of_nat i ∧ cm_Offset c = (Z.of_nat i * defaultChunkSize)%Z ∧
    cm_Size c = zlen (chunk_slice data c) ∧ (0 ≤ cm_Size c ≤ defaultChunkSize)%Z ∧
    cm_Checksum c = checksumBytes (chunk_slice data c) ∧
    (S i < length (manifest defaultChunkSize data) → cm_Size c = defaultChunkSize) ∧
    (cm_Size c = 0%Z → data = []).
Proof.
  split; [by apply manifest_nonempty|]. split.
  { rewrite manifest_slices by done. by apply concat_pieces. }
  intros i c Hi. pose proof (manifest_slice _ defaultChunkSize_pos _ _ _ Hi) as Hs.
  apply manifest_lookup in Hi as (p & Hp & ->). rewrite Hp in Hs. injection Hs as Hs.
  rewrite <-Hs. repeat (split; [done|]).
  assert (0 ≤ zlen p ≤ defaultChunkSize)%Z as Hb.
  { split; [unfold zlen; lia|]. eapply (pieces_small _ defaultChunkSize_pos data).
    by eapply list_elem_of_lookup_2. }
  split; [done|]. split; [done|]. cbn [chunk_of cm_Size].
  unfold manifest. rewrite length_imap.
  destruct (pieces_shape _ defaultChunkSize_pos data) as (full & last & Hpc & Hcat & Hf & Hl).
  rewrite Forall_forall in Hf. rewrite Hpc in *. rewrite length_app.
  destruct (decide (i < length full)) as [Hlt|Hge].
  - rewrite lookup_app_l in Hp by done. apply list_elem_of_lookup_2, Hf in Hp. by rewrite Hp.
  - destruct Hl as [[-> _]|(q & -> & Hq & Hnil)].
    { rewrite app_nil_r in Hp. apply lookup_lt_Some in Hp. lia. }
    cbn. split; [lia|]. rewrite lookup_app_r in Hp by lia.
    apply list_lookup_singleton_Some in Hp as [_ <-]. intros Hz.
    assert (q = []) as -> by (destruct q; [done|]; unfold zlen in Hz; cbn in Hz; lia).
    rewrite (Hnil eq_refl) in Hcat. by cbn in Hcat.
Qed.

(** A stream cut differently by its reader, over a small chunk limit. *)
Example stage_small :
  let reads1 := [(bytes_of_string "hel", None); (bytes_of_string "lo world", Some EOF)] in
  let reads2 := [(bytes_of_string "hello w", None); ([], None); (bytes_of_string "orld", None)] in
  (stage 4 reads1 good_temp).1 = (stage 4 reads2 good_temp).1 ∧
  match (stage 4 reads1 good_temp).1 with
  | Ok st => cm_Size <$> st_chunks st = [4; 4; 3]%Z
  | _ => False
  end.
Proof. by vm_compute. Qed.
