(* ===== verification/Coordinator.v ===== *)
(** * The metadata coordinator: [coordinator.go].

    The control plane that joins a metadata backend, the placement planner and
    the task queue.  It is written against the two interfaces of [Backend];
    a method of the coordinator runs the methods of its fields in the order of
    the source and keeps what they changed when a later one fails. *)

From S2P Require Import Prelude Metadata Replication Backend MetadataSpec ReplicationSpec Lifecycle.
From stdpp Require Import options.

(** ** Data *)

Record WritePlan := {
  wp_Metadata : FileMetadata;
  wp_Primary : NodeMetadata;
  wp_Replicas : list NodeMetadata;
  wp_Tasks : list ReplicationTask
}.

Record PreparedWrite := {
  pw_Key : string;
  pw_Version : Z;
  pw_Size : Z;
  pw_Checksum : string;
  pw_Chunks : list ChunkMetadata;
  pw_Primary : NodeMetadata;
  pw_Replicas : list NodeMetadata
}.

Record ReadPlan := {
  rd_Metadata : FileMetadata;
  rd_Replicas : list ReplicaMetadata
}.

Record MetadataCoordinator (B Q : Type) := {
  mc_metadata : B;
  mc_planner : ReplicationPlanner;
  mc_tasks : Q
}.
Arguments mc_metadata {B Q} _.
Arguments mc_planner {B Q} _.
Arguments mc_tasks {B Q} _.

(** ** Read planning *)

Definition is_primary (meta : FileMetadata) (r : ReplicaMetadata) : Prop :=
  rm_NodeID r = fm_Primary meta.
#[export] Instance is_primary_dec meta r : Decision (is_primary meta r).
Proof. unfold is_primary. apply _. Defined.

(** The first loop appends the first replica on the primary, the second one
    all the others. *)
Definition prioritizePrimary (meta : FileMetadata) (replicas : list ReplicaMetadata) :
    list ReplicaMetadata :=
  if decide (length replicas = 0 ∨ fm_Primary meta = "") then replicas
  else take 1 (filter (is_primary meta) replicas) ++ filter (λ r, ¬ is_primary meta r) replicas.

Definition firstHealthyReplica (meta : FileMetadata) : string :=
  match HealthyReplicas meta with
  | [] => ""
  | r :: _ => rm_NodeID r
  end.

(** ** The coordinator *)

Section coordinator.
Context {B Q : Type} `{MetadataBackend B} `{ReplicationTaskQueue Q}.
Abbreviation Coord := (MetadataCoordinator B Q).

Definition NewMetadataCoordinatorWithBackendAndQueue (replicaCount : Z) (metadata : B) (tasks : Q) :
    Coord :=
  {| mc_metadata := metadata; mc_planner := NewReplicationPlanner replicaCount;
     mc_tasks := tasks |}.

(** [c.metadata.M(...)] and [c.tasks.M(...)] *)
Definition set_metadata (b : B) (c : Coord) : Coord :=
  {| mc_metadata := b; mc_planner := mc_planner c; mc_tasks := mc_tasks c |}.
Definition set_queue (q : Q) (c : Coord) : Coord :=
  {| mc_metadata := mc_metadata c; mc_planner := mc_planner c; mc_tasks := q |}.
Definition on_metadata {A} (m : GoM B A) : GoM Coord A := zoom mc_metadata set_metadata m.
Definition on_tasks {A} (m : GoM Q A) : GoM Coord A := zoom mc_tasks set_queue m.

(** [c.metadata.Now()] *)
Definition coord_now : GoM Coord Time := λ c,
  let '(t, b) := mb_Now (mc_metadata c) in (Ok t, set_metadata b c).

Definition RegisterNode (id address : string) : GoM Coord NodeMetadata :=
  on_metadata (mb_UpsertNode id address).

Definition PrepareWrite (key : string) (size : Z) (checksum : string)
    (chunks : list ChunkMetadata) : GoM Coord PreparedWrite :=
  nodes ← on_metadata mb_HealthyNodes;
  planner ← gets mc_planner;
  plan ← lift_res (Plan planner nodes);
  version ← on_metadata (mb_NextVersion key);
  mret {| pw_Key := key; pw_Version := version; pw_Size := size; pw_Checksum := checksum;
          pw_Chunks := cloneChunkMetadata chunks; pw_Primary := rp_Primary plan;
          pw_Replicas := rp_Replicas plan |}.

Definition CommitWrite (prepared : PreparedWrite) : GoM Coord WritePlan :=
  let replicaIDs := nm_ID <$> pw_Replicas prepared in
  meta ← on_metadata (mb_BeginFileVersion (pw_Key prepared) (pw_Size prepared)
    (pw_Checksum prepared) (pw_Chunks prepared) (nm_ID (pw_Primary prepared)) replicaIDs);
  t ← coord_now;
  tasks ← lift_res (TasksForFile meta t);
  on_tasks (rq_Enqueue tasks);;
  mret {| wp_Metadata := meta; wp_Primary := pw_Primary prepared;
          wp_Replicas := pw_Replicas prepared; wp_Tasks := tasks |}.

Definition BeginWrite (key : string) (size : Z) (checksum : string) : GoM Coord WritePlan :=
  prepared ← PrepareWrite key size checksum [];
  CommitWrite prepared.

Definition FinishReplication (taskID : string) : GoM Coord (FileMetadata * ReplicationTask) :=
  task ← on_tasks (rq_MarkDone taskID);
  meta ← on_metadata (mb_MarkReplica (rt_Key task) (rt_Target task) ReplicaHealthy);
  mret (meta, task).

Definition StartReplication (taskID : string) : GoM Coord ReplicationTask :=
  on_tasks (rq_MarkRunning taskID).

Definition FailReplication (taskID : string) (cause : option GoError) :
    GoM Coord (FileMetadata * ReplicationTask) :=
  task ← on_tasks (rq_MarkFailed taskID cause);
  meta ← on_metadata (mb_MarkReplica (rt_Key task) (rt_Target task) ReplicaMissing);
  mret (meta, task).

Definition ReadCandidates (key : string) : GoM Coord ReadPlan :=
  found ← on_metadata (mb_GetFile key);
  match found with
  | None => fail ErrMetadataNotFound
  | Some meta =>
      if fm_Deleted meta then fail ErrFileDeleted
      else
        let replicas := prioritizePrimary meta (HealthyReplicas meta) in
        if decide (length replicas = 0) then fail ErrNoReadableReplicas
        else mret {| rd_Metadata := meta; rd_Replicas := replicas |}
  end.

Definition DeleteFile (key : string) : GoM Coord FileMetadata := on_metadata (mb_Tombstone key).

Definition PendingTasks : GoM Coord (list ReplicationTask) := on_tasks rq_Pending.

Definition RequeueExpiredReplicationTasks : GoM Coord (list ReplicationTask) :=
  on_tasks rq_RequeueExpiredRunning.

Definition ReplicationTaskStats : GoM Coord (gmap ReplicationTaskState Z) := on_tasks rq_Stats.

(** The [continue] guard of [repairExistingReplicas]. *)
Definition skip_repair (source nodeID : string) (replica : ReplicaMetadata) : bool :=
  bool_decide (nodeID = source) || bool_decide (rm_State replica = ReplicaHealthy)
  || bool_decide (rm_State replica = ReplicaDeleted).

Definition repairExistingReplicas (meta : FileMetadata) (source : string) :
    GoM Coord (list ReplicationTask) :=
  for_fold (map_to_list (fm_Replicas meta)) [] (λ tasks '(nodeID, replica),
    if skip_repair source nodeID replica then mret tasks
    else
      created ← coord_now;
      updated ← coord_now;
      mret (tasks ++ [pending_task meta source nodeID created updated])).

(** The loop of [repairMissingReplicas]; [meta] is a clone, so the replicas
    added here are counted through [tasks]. *)
Fixpoint repair_missing_loop (meta : FileMetadata) (source : string) (replicaCount : Z)
    (nodes : list NodeMetadata) (tasks : list ReplicationTask) : GoM Coord (list ReplicationTask) :=
  match nodes with
  | [] => mret tasks
  | node :: nodes =>
      if (replicaCount <=? Z.of_nat (size (fm_Replicas meta)) + zlen tasks)%Z then mret tasks
      else
        match fm_Replicas meta !! nm_ID node with
        | Some _ => repair_missing_loop meta source replicaCount nodes tasks
        | None =>
            added ← try (on_metadata (mb_AddReplica (fm_Key meta) (nm_ID node) ReplicaPending));
            match added with
            | Ok _ =>
                created ← coord_now;
                updated ← coord_now;
                repair_missing_loop meta source replicaCount nodes
                  (tasks ++ [pending_task meta source (nm_ID node) created updated])
            | _ => repair_missing_loop meta source replicaCount nodes tasks
            end
        end
  end.

Definition repairMissingReplicas (meta : FileMetadata) (source : string)
    (nodes : list NodeMetadata) : GoM Coord (list ReplicationTask) :=
  planner ← gets mc_planner;
  if (ReplicaCount planner <=? Z.of_nat (size (fm_Replicas meta)))%Z then mret []
  else repair_missing_loop meta source (ReplicaCount planner) nodes [].

(** The body of the loop of [PlanRepair]. *)
Definition repair_file (nodes : list NodeMetadata) (tasks : list ReplicationTask)
    (meta : FileMetadata) : GoM Coord (list ReplicationTask) :=
  if fm_Deleted meta then mret tasks
  else
    let source := firstHealthyReplica meta in
    if decide (source = "") then mret tasks
    else
      existing ← repairExistingReplicas meta source;
      missing ← repairMissingReplicas meta source nodes;
      mret (tasks ++ existing ++ missing).

Definition PlanRepair : GoM Coord (list ReplicationTask) :=
  nodes ← on_metadata mb_HealthyNodes;
  if decide (length nodes = 0) then mret []
  else
    files ← on_metadata mb_ListFiles;
    tasks ← for_fold files [] (repair_file nodes);
    on_tasks (rq_Enqueue tasks);;
    mret tasks.
End coordinator.

(** ** The other constructors *)

Definition NewMetadataCoordinatorWithBackend `{MetadataBackend B} (replicaCount : Z) (metadata : B)
    (clock : Clock) : MetadataCoordinator B MemoryReplicationTaskQueue :=
  NewMetadataCoordinatorWithBackendAndQueue replicaCount metadata
    (NewMemoryReplicationTaskQueue clock).

Definition NewMetadataCoordinator (replicaCount : Z) (clock : Clock) :
    MetadataCoordinator MetadataStore MemoryReplicationTaskQueue :=
  NewMetadataCoordinatorWithBackend replicaCount (NewMetadataStore clock) clock.
