(* ===== verification/CoordinatorSpec.v ===== *)
(** * Properties of the coordinator, against the interface laws. *)

From S2P Require Import Prelude Metadata Replication Backend MetadataSpec ReplicationSpec Lifecycle Coordinator.
From stdpp Require Import options.

Section coordinator_spec.
Context {B Q : Type} `{HB : MetadataBackendLaws B} `{HQ : ReplicationTaskQueueLaws Q}.
Abbreviation Coord := (MetadataCoordinator B Q).
Implicit Types (c : Coord).

(** ** The abstract state of a coordinator *)

Definition coord_catalog (c : Coord) : Catalog := catalog (mc_metadata c).
Definition coord_table (c : Coord) : TaskTable := task_table (mc_tasks c).

(** [c'] is reached from [c] by metadata calls and task steps. *)
Definition coord_steps (c c' : Coord) : Prop :=
  rtc catalog_step (coord_catalog c) (coord_catalog c') ∧
  rtc table_step (coord_table c) (coord_table c') ∧ mc_planner c' = mc_planner c.

#[export] Instance coord_steps_preorder : PreOrder coord_steps.
Proof.
  split.
  - intros c. by repeat split.
  - intros c1 c2 c3 (H1 & H2 & H3) (H4 & H5 & H6). repeat split; [by etrans..|congruence].
Qed.

(** The invariant of the control plane. *)
Definition coord_ok (c : Coord) : Prop := catalog_wf (coord_catalog c) ∧ table_ok (coord_table c).

Lemma coord_steps_ok c c' : coord_steps c c' → coord_ok c → coord_ok c'.
Proof. intros (Hc & Ht & _) [Hw Hk]. split; eauto using catalog_steps_wf, table_steps_ok. Qed.

(** *** Metadata calls *)

Lemma metadata_call_step op {A} (m : GoM B A) b r b' :
  (∀ b, run_op op b = ignore m b) → m b = (r, b') → catalog_step (catalog b) (catalog b').
Proof using Type*.
  intros Hop Hrun. assert ((ignore m b).2 = b') as E by by (unfold ignore; rewrite Hrun; destruct r).
  destruct (run_op op b) as [r1 b1] eqn:Hr. pose proof Hr as Hr'. rewrite Hop in Hr'.
  rewrite Hr' in E. cbn in E. subst b1.
  apply run_op_spec in Hr as [[t ->]| ->]; constructor.
Qed.

Lemma on_metadata_steps op {A} (m : GoM B A) :
  (∀ b, run_op op b = ignore m b) → respects coord_steps (on_metadata m : GoM Coord A).
Proof using Type*.
  intros Hop c r c' (b & Hrun & ->)%zoom_inv. repeat split; cbn; [|done].
  apply rtc_once. by eapply metadata_call_step.
Qed.

Lemma coord_now_steps : respects coord_steps (coord_now : GoM Coord Time).
Proof using Type*.
  intros c r c'. unfold coord_now. pose proof (mb_Now_law (mc_metadata c)) as Hl.
  destruct (mb_Now (mc_metadata c)) as [t b]. intros [= <- <-].
  split; [|done]. unfold coord_catalog. cbn in *. by rewrite Hl.
Qed.

Lemma lift_res_steps {A} (r : Res A) : respects coord_steps (lift_res r : GoM Coord A).
Proof. intros c r' c' [= <- <-]. done. Qed.

(** A metadata call leaves the task table alone, and behaves like its
    specification or fails without effect. *)
Lemma on_metadata_inv {A} (m : GoM B A) spec c r c' :
  refines catalog mb_fault m spec → on_metadata m c = (r, c') →
  coord_table c' = coord_table c ∧ mc_planner c' = mc_planner c ∧ mc_tasks c' = mc_tasks c ∧
  ((∃ t, spec t (coord_catalog c) = (r, coord_catalog c')) ∨
   (mb_fault (mc_metadata c) ∧ coord_catalog c' = coord_catalog c ∧ ∃ e, r = Err e)).
Proof. intros Hr (b & Hrun & ->)%zoom_inv. split; [done|]. split; [done|]. split; [done|]. by apply Hr. Qed.

Lemma on_tasks_inv {A} (m : GoM Q A) spec c r c' :
  refines task_table rq_fault m spec → on_tasks m c = (r, c') →
  coord_catalog c' = coord_catalog c ∧ mc_planner c' = mc_planner c ∧
  mc_metadata c' = mc_metadata c ∧
  ((∃ t, spec t (coord_table c) = (r, coord_table c')) ∨
   (rq_fault (mc_tasks c) ∧ coord_table c' = coord_table c ∧ ∃ e, r = Err e)).
Proof. intros Hr (b & Hrun & ->)%zoom_inv. split; [done|]. split; [done|]. split; [done|]. by apply Hr. Qed.

(** *** Task calls *)

Lemma on_tasks_steps {A} (m : GoM Q A) spec c r c' :
  refines task_table rq_fault m spec →
  (∀ t ts r ts', ts = coord_table c → spec t ts = (r, ts') → rtc table_step ts ts') →
  on_tasks m c = (r, c') → coord_steps c c'.
Proof.
  intros Href Hspec Hrun. apply (on_tasks_inv _ _ _ _ _ Href) in Hrun as (Hc & Hp & _ & Ht).
  split; [by rewrite Hc|]. split; [|done].
  destruct Ht as [[t Ht]|(_ & -> & _)]; [|done]. by eapply Hspec.
Qed.

Lemma update_steps (ts ts' : TaskTable) id f (t : Time) r :
  (∀ task, ts !! id = Some task → table_step ts (<[id := f task t]> ts)) →
  tab_update id f t ts = (r, ts') → rtc table_step ts ts'.
Proof.
  intros Hf. unfold tab_update. destruct (ts !! id) as [task|] eqn:E; intros [= <- <-]; [|done].
  apply rtc_once. by apply Hf.
Qed.

Lemma enqueue_steps tasks c r c' :
  Forall new_task tasks → on_tasks (rq_Enqueue tasks) c = (r, c') → coord_steps c c'.
Proof using HQ.
  intros Hn. eapply on_tasks_steps; [apply rq_Enqueue_ref|].
  intros t ts r1 ts' _ [= _ <-]. by apply rtc_once, step_enqueue.
Qed.

Lemma mark_done_steps id : respects coord_steps (on_tasks (rq_MarkDone id) : GoM Coord _).
Proof using HQ.
  intros c r c'. eapply on_tasks_steps; [apply rq_MarkDone_ref|].
  intros t ts r1 ts' _. apply update_steps. intros. by eapply step_done.
Qed.

Lemma mark_failed_steps id cause :
  respects coord_steps (on_tasks (rq_MarkFailed id cause) : GoM Coord _).
Proof using HQ.
  intros c r c'. eapply on_tasks_steps; [apply rq_MarkFailed_ref|].
  intros t ts r1 ts' _. apply update_steps. intros. by eapply step_fail.
Qed.

Lemma pending_steps : respects coord_steps (PendingTasks : GoM Coord _).
Proof using HQ.
  intros c r c'. eapply on_tasks_steps; [apply rq_Pending_ref|]. by intros t ts r1 ts' _ [= _ <-].
Qed.

Lemma requeue_steps : respects coord_steps (RequeueExpiredReplicationTasks : GoM Coord _).
Proof using HQ.
  intros c r c'. eapply on_tasks_steps; [apply rq_RequeueExpiredRunning_ref|].
  intros t ts r1 ts' _ [= _ <-]. apply rtc_once, step_requeue.
Qed.

Lemma stats_steps : respects coord_steps (ReplicationTaskStats : GoM Coord _).
Proof using HQ.
  intros c r c'. eapply on_tasks_steps; [apply rq_Stats_ref|]. by intros t ts r1 ts' _ [= _ <-].
Qed.

(** [StartReplication] of a task that is pending. *)
Lemma start_steps id c r c' :
  (∀ task, coord_table c !! id = Some task → rt_State task = ReplicationTaskPending) →
  StartReplication id c = (r, c') → coord_steps c c'.
Proof using HQ.
  intros Hp. eapply on_tasks_steps; [apply rq_MarkRunning_ref|].
  intros t ts r1 ts' ->. apply update_steps. intros task E. eapply step_run; eauto.
Qed.
End coordinator_spec.

Ltac coord_respects :=
  respects_step ltac:(first
    [ apply coord_now_steps | apply lift_res_steps | apply mark_done_steps
    | apply mark_failed_steps | apply pending_steps | apply requeue_steps | apply stats_steps
    | by eapply (on_metadata_steps (OpUpsertNode _ _)); intros
    | by eapply (on_metadata_steps (OpMarkExpiredNodes _)); intros
    | by eapply (on_metadata_steps OpHealthyNodes); intros
    | by eapply (on_metadata_steps OpNodes); intros
    | by eapply (on_metadata_steps (OpBeginFileVersion _ _ _ _ _ _)); intros
    | by eapply (on_metadata_steps (OpNextVersion _)); intros
    | by eapply (on_metadata_steps (OpMarkReplica _ _ _)); intros
    | by eapply (on_metadata_steps (OpTombstone _)); intros
    | by eapply (on_metadata_steps (OpGetFile _)); intros
    | by eapply (on_metadata_steps OpListFiles); intros
    | by eapply (on_metadata_steps (OpAddReplica _ _ _)); intros ]).

(** ** Every coordinator method is made of such steps *)

Section coordinator_steps.
Context {B Q : Type} `{HB : MetadataBackendLaws B} `{HQ : ReplicationTaskQueueLaws Q}.
Abbreviation Coord := (MetadataCoordinator B Q).
Implicit Types (c : Coord).

Lemma RegisterNode_steps id address : respects coord_steps (RegisterNode id address : GoM Coord _).
Proof using Type*. unfold RegisterNode. coord_respects. Qed.

Lemma PrepareWrite_steps key size sum chunks :
  respects coord_steps (PrepareWrite key size sum chunks : GoM Coord _).
Proof using Type*. unfold PrepareWrite. coord_respects. Qed.

Lemma FinishReplication_steps id : respects coord_steps (FinishReplication id : GoM Coord _).
Proof using Type*. unfold FinishReplication. coord_respects. Qed.

Lemma FailReplication_steps id cause :
  respects coord_steps (FailReplication id cause : GoM Coord _).
Proof using Type*. unfold FailReplication. coord_respects. Qed.

Lemma ReadCandidates_steps key : respects coord_steps (ReadCandidates key : GoM Coord _).
Proof using Type*. unfold ReadCandidates. coord_respects. Qed.

Lemma DeleteFile_steps key : respects coord_steps (DeleteFile key : GoM Coord _).
Proof using Type*. unfold DeleteFile. coord_respects. Qed.

Lemma TasksForFile_new meta t tasks : TasksForFile meta t = Ok tasks → Forall new_task tasks.
Proof.
  unfold TasksForFile. case_decide; [done|]. case_match; [|done]. intros [= <-].
  rewrite Forall_forall. intros task (n & _ & [_ ->]%task_for_node_Some)%list_elem_of_omap.
  by eexists _, _, _, _, _.
Qed.

Lemma CommitWrite_steps prepared : respects coord_steps (CommitWrite prepared : GoM Coord _).
Proof using Type*.
  unfold CommitWrite. apply respects_bind; [apply _|coord_respects|]. intros meta.
  apply respects_bind; [apply _|apply coord_now_steps|]. intros t c r c' Hrun.
  go_step Hrun.
  - injection Hc as Ht <-. apply TasksForFile_new in Ht.
    go_step Hrun; [inv Hrun|..]; by eapply enqueue_steps.
  - by injection Hc as _ <-.
  - by injection Hc as _ <-.
Qed.

Lemma BeginWrite_steps key size sum : respects coord_steps (BeginWrite key size sum : GoM Coord _).
Proof using Type*.
  unfold BeginWrite. apply respects_bind; [apply _|apply PrepareWrite_steps|].
  intros. apply CommitWrite_steps.
Qed.

(** *** Repair *)

(** A loop over the coordinator that only steps and only builds new tasks. *)
Definition builds (m : GoM Coord (list ReplicationTask)) : Prop :=
  ∀ c r c', m c = (r, c') → coord_steps c c' ∧ ∀ tasks, r = Ok tasks → Forall new_task tasks.

Lemma builds_ret tasks : Forall new_task tasks → builds (mret tasks).
Proof. intros Ht c r c' Hrun. inv Hrun. split; [done|]. by intros ? [= <-]. Qed.

Lemma builds_bind {A} (m : GoM Coord A) k :
  respects coord_steps m → (∀ a, builds (k a)) → builds (m ≫= k).
Proof.
  intros Hm Hk c r c' Hrun. go_step Hrun.
  - apply Hk in Hrun as [Hs Ht]. split; [|done]. trans s; [by eapply Hm|done].
  - subst. split; [by eapply Hm|done].
  - subst. split; [by eapply Hm|done].
Qed.

Lemma builds_bind_tasks m k :
  builds m → (∀ tasks, Forall new_task tasks → builds (k tasks)) → builds (m ≫= k).
Proof.
  intros Hm Hk c r c' Hrun. go_step Hrun.
  - apply Hm in Hc as [Hs0 Ht0]. apply Hk in Hrun as [Hs Ht]; [|by apply Ht0].
    split; [by trans s|done].
  - subst. apply Hm in Hc as [Hs0 _]. done.
  - subst. apply Hm in Hc as [Hs0 _]. done.
Qed.

Lemma builds_for_fold {A} (xs : list A) body acc :
  (∀ tasks x, Forall new_task tasks → builds (body tasks x)) → Forall new_task acc →
  builds (for_fold xs acc body).
Proof.
  intros Hb. revert acc. induction xs as [|x xs IH]; intros acc Hacc; cbn; [by apply builds_ret|].
  apply builds_bind_tasks; auto.
Qed.

Lemma new_task_snoc tasks meta source target created updated :
  Forall new_task tasks →
  Forall new_task (tasks ++ [pending_task meta source target created updated]).
Proof. intros Ht. apply Forall_app; split; [done|]. apply Forall_singleton. by eexists _, _, _, _, _. Qed.

Lemma repairExistingReplicas_builds meta source :
  builds (repairExistingReplicas meta source).
Proof using Type*.
  unfold repairExistingReplicas. apply builds_for_fold; [|done]. intros tasks [nodeID r] Ht.
  case_match; [by apply builds_ret|].
  apply builds_bind; [apply coord_now_steps|]. intros created.
  apply builds_bind; [apply coord_now_steps|]. intros updated.
  by apply builds_ret, new_task_snoc.
Qed.

Lemma repair_missing_loop_builds meta source n nodes tasks :
  Forall new_task tasks → builds (repair_missing_loop meta source n nodes tasks).
Proof using Type*.
  revert tasks. induction nodes as [|node nodes IH]; intros tasks Ht; cbn; [by apply builds_ret|].
  case_match; [by apply builds_ret|]. case_match; [by apply IH|].
  apply builds_bind; [coord_respects|]. intros [a| |]; [|by apply IH..].
  apply builds_bind; [apply coord_now_steps|]. intros created.
  apply builds_bind; [apply coord_now_steps|]. intros updated. by apply IH, new_task_snoc.
Qed.

Lemma repair_file_builds nodes tasks meta :
  Forall new_task tasks → builds (repair_file nodes tasks meta).
Proof using Type*.
  intros Ht. unfold repair_file. case_match; [by apply builds_ret|].
  case_decide; [by apply builds_ret|].
  apply builds_bind_tasks; [apply repairExistingReplicas_builds|]. intros ex Hex.
  apply builds_bind_tasks; [|intros ms Hms; apply builds_ret; by rewrite !Forall_app].
  unfold repairMissingReplicas. apply builds_bind; [coord_respects|]. intros planner.
  case_match; [by apply builds_ret|]. by apply repair_missing_loop_builds.
Qed.

Lemma PlanRepair_steps : respects coord_steps (PlanRepair : GoM Coord _).
Proof using Type*.
  unfold PlanRepair. apply respects_bind; [apply _|coord_respects|]. intros nodes.
  case_decide; [coord_respects|].
  apply respects_bind; [apply _|coord_respects|]. intros files c r c' Hrun.
  assert (builds (for_fold files [] (repair_file nodes))) as Hb
    by auto using builds_for_fold, repair_file_builds.
  go_step Hrun; [|by apply Hb in Hc as [? _]..]. apply Hb in Hc as [Hs Ht].
  specialize (Ht _ eq_refl). trans s; [done|].
  go_step Hrun; [inv Hrun|..]; by eapply enqueue_steps.
Qed.
End coordinator_steps.

(** ** Read planning *)

Lemma HealthyReplicas_elem meta r :
  r ∈ HealthyReplicas meta ↔
  (∃ n, fm_Replicas meta !! n = Some r) ∧ rm_State r = ReplicaHealthy.
Proof.
  unfold HealthyReplicas. rewrite elem_of_sort_by, list_elem_of_filter, elem_of_range_values. tauto.
Qed.

Lemma HealthyReplicas_NoDup key meta :
  file_wf key meta → NoDup (rm_NodeID <$> HealthyReplicas meta).
Proof.
  intros (_ & _ & Hr). apply sort_by_NoDup.
  eapply sublist_NoDup; [by apply (NoDup_range_values rm_NodeID)|].
  apply fmap_sublist, sublist_filter.
Qed.

Lemma filter_primary_length meta l :
  NoDup (rm_NodeID <$> l) → length (filter (is_primary meta) l) ≤ 1.
Proof.
  intros Hnd. destruct (filter (is_primary meta) l) as [|x [|y k]] eqn:E; cbn; [lia..|].
  exfalso. assert (x ∈ l ∧ y ∈ l ∧ is_primary meta x ∧ is_primary meta y) as (Hx & Hy & Px & Py).
  { repeat split; (eapply (list_elem_of_filter (is_primary meta)); rewrite E; set_solver). }
  assert (x = y) as -> by (eapply NoDup_fmap_elem; eauto; by rewrite Px, Py).
  assert (NoDup (filter (is_primary meta) l)) as Hf by by eapply NoDup_filter, NoDup_fmap_1.
  rewrite E in Hf. apply NoDup_cons in Hf as [Hn _]. set_solver.
Qed.

Lemma filter_split_perm {A} (P : A → Prop) `{∀ x, Decision (P x)} (l : list A) :
  filter P l ++ filter (λ x, ¬ P x) l ≡ₚ l.
Proof.
  induction l as [|x l IH]; [done|]. rewrite !filter_cons.
  destruct (decide (P x)), (decide (¬ P x)); try tauto; cbn.
  - by rewrite IH.
  - by rewrite <-Permutation_middle, IH.
Qed.

Lemma prioritizePrimary_perm meta l :
  NoDup (rm_NodeID <$> l) → prioritizePrimary meta l ≡ₚ l.
Proof.
  intros Hnd. unfold prioritizePrimary. case_decide; [done|].
  rewrite take_ge by by apply filter_primary_length. apply filter_split_perm.
Qed.

(** A healthy primary is the first candidate; the others follow in the order
    they had. *)
Lemma prioritizePrimary_shape meta l :
  NoDup (rm_NodeID <$> l) → fm_Primary meta ≠ "" → ∀ r, r ∈ l → is_primary meta r →
  prioritizePrimary meta l = r :: filter (λ r, ¬ is_primary meta r) l.
Proof.
  intros Hnd Hp r Hr Hpr. unfold prioritizePrimary.
  rewrite decide_False.
  2: { intros [E|?]; [|done]. apply length_zero_iff_nil in E as ->. set_solver. }
  pose proof (filter_primary_length meta l Hnd) as Hlen.
  assert (r ∈ filter (is_primary meta) l) as Hin by by apply list_elem_of_filter.
  destruct (filter (is_primary meta) l) as [|x [|y k]]; [set_solver| |cbn in Hlen; lia].
  apply list_elem_of_singleton in Hin as ->. done.
Qed.

Lemma prioritizePrimary_none meta l :
  NoDup (rm_NodeID <$> l) → (∀ r, r ∈ l → ¬ is_primary meta r) → prioritizePrimary meta l = l.
Proof.
  intros Hnd Hno. unfold prioritizePrimary. case_decide; [done|].
  rewrite (list_filter_none (is_primary meta) l) by done. cbn. by apply list_filter_all.
Qed.

Section coordinator_props.
Context {B Q : Type} `{HB : MetadataBackendLaws B} `{HQ : ReplicationTaskQueueLaws Q}.
Abbreviation Coord := (MetadataCoordinator B Q).
Implicit Types (c : Coord).

Lemma on_metadata_ok {A} (m : GoM B A) spec c a c' :
  refines catalog mb_fault m spec → on_metadata m c = (Ok a, c') →
  coord_table c' = coord_table c ∧ mc_planner c' = mc_planner c ∧ mc_tasks c' = mc_tasks c ∧
  ∃ t, spec t (coord_catalog c) = (Ok a, coord_catalog c').
Proof.
  intros Hr Hrun. apply (on_metadata_inv _ _ _ _ _ Hr) in Hrun as (? & ? & ? & [?|(_ & _ & e & ?)]);
    [|done]. done.
Qed.

Lemma on_tasks_ok {A} (m : GoM Q A) spec c a c' :
  refines task_table rq_fault m spec → on_tasks m c = (Ok a, c') →
  coord_catalog c' = coord_catalog c ∧ mc_planner c' = mc_planner c ∧
  mc_metadata c' = mc_metadata c ∧
  ∃ t, spec t (coord_table c) = (Ok a, coord_table c').
Proof.
  intros Hr Hrun. apply (on_tasks_inv _ _ _ _ _ Hr) in Hrun as (? & ? & ? & [?|(_ & _ & e & ?)]);
    [|done]. done.
Qed.

(** What [ReadCandidates] answers in a catalog. *)
Definition read_plan_of (cat : Catalog) (key : string) : Res ReadPlan :=
  match cat_files cat !! key with
  | None => Err ErrMetadataNotFound
  | Some meta =>
      if fm_Deleted meta then Err ErrFileDeleted
      else
        match prioritizePrimary meta (HealthyReplicas meta) with
        | [] => Err ErrNoReadableReplicas
        | replicas => Ok {| rd_Metadata := meta; rd_Replicas := replicas |}
        end
  end.

Lemma ReadCandidates_inv key c r c' :
  ReadCandidates key c = (r, c') →
  coord_catalog c' = coord_catalog c ∧ coord_table c' = coord_table c ∧
  mc_planner c' = mc_planner c ∧ mc_tasks c' = mc_tasks c ∧
  (r = read_plan_of (coord_catalog c) key ∨ mb_fault (mc_metadata c) ∧ ∃ e, r = Err e).
Proof using Type*.
  intros Hrun. unfold ReadCandidates in Hrun. go_step Hrun.
  - apply (on_metadata_ok _ _ _ _ _ (mb_GetFile_ref key)) in Hc as (Ht & Hp & Hq & t & [= <- Hcat]).
    unfold read_plan_of.
    destruct (cat_files (coord_catalog c) !! key) as [meta|]; [|inv Hrun; by eauto 10].
    destruct (fm_Deleted meta); [inv Hrun; by eauto 10|].
    destruct (prioritizePrimary meta (HealthyReplicas meta)) as [|r0 l]; cbn in Hrun;
      inv Hrun; by eauto 10.
  - apply (on_metadata_inv _ _ _ _ _ (mb_GetFile_ref key)) in Hc
      as (Ht & Hp & Hq & [[t ?]|(Hf & Hcat & _)]); [done|]. subst. eauto 10.
  - apply (on_metadata_inv _ _ _ _ _ (mb_GetFile_ref key)) in Hc
      as (Ht & Hp & Hq & [[t ?]|(Hf & Hcat & e & ?)]); done.
Qed.

(** ** Writes *)

(** What a run of a coordinator method leaves alone. *)
Definition coord_same (c c' : Coord) : Prop :=
  coord_catalog c' = coord_catalog c ∧ coord_table c' = coord_table c ∧
  mc_planner c' = mc_planner c.

#[export] Instance coord_same_preorder : PreOrder coord_same.
Proof.
  split; [by intros c|]. intros c1 c2 c3 (H1 & H2 & H3) (H4 & H5 & H6).
  repeat split; congruence.
Qed.

Lemma on_metadata_query {A} (m : GoM B A) spec :
  refines catalog mb_fault m spec → (∀ t cat, (spec t cat).2 = cat) →
  respects coord_same (on_metadata m : GoM Coord A).
Proof.
  intros Hr Hq c r c' Hrun.
  apply (on_metadata_inv _ _ _ _ _ Hr) in Hrun as (Ht & Hp & _ & [[t Hs]|(_ & Hc & _)]);
    (split; [|done]); [|done].
  specialize (Hq t (coord_catalog c)). by rewrite Hs in Hq.
Qed.

Lemma coord_now_same : respects coord_same (coord_now : GoM Coord Time).
Proof using Type*.
  intros c r c'. unfold coord_now. pose proof (mb_Now_law (mc_metadata c)) as Hl.
  destruct (mb_Now (mc_metadata c)) as [t b]. by intros [= <- <-].
Qed.

(** The version a catalog gives the next write of a key. *)
Definition next_version (cat : Catalog) (key : string) : Z := wrap_u64 (version_of cat key + 1).

(** The healthy nodes of a catalog, as the planner sees them. *)
Definition healthy_nodes (cat : Catalog) : list NodeMetadata :=
  sort_by nm_ID (filter (λ n, nm_State n = NodeHealthy) (range_values (cat_nodes cat))).

(** [PrepareWrite] publishes nothing, whatever its outcome. *)
Lemma PrepareWrite_same key size sum chunks :
  respects coord_same (PrepareWrite key size sum chunks : GoM Coord _).
Proof using Type*.
  unfold PrepareWrite. apply respects_bind; [apply _|eapply on_metadata_query|];
    [apply mb_HealthyNodes_ref|done|]. intros nodes.
  apply respects_bind; [apply _|apply respects_gets; apply _|]. intros planner.
  apply respects_bind; [apply _|by intros c r c' [= <- <-]|]. intros plan.
  apply respects_bind; [apply _|eapply on_metadata_query|intros; apply respects_ret; apply _];
    [apply mb_NextVersion_ref|done].
Qed.

Lemma PrepareWrite_ok key size sum chunks c p c' :
  PrepareWrite key size sum chunks c = (Ok p, c') →
  ∃ plan, Plan (mc_planner c) (healthy_nodes (coord_catalog c)) = Ok plan ∧
  p = {| pw_Key := key; pw_Version := next_version (coord_catalog c) key; pw_Size := size;
         pw_Checksum := sum; pw_Chunks := chunks; pw_Primary := rp_Primary plan;
         pw_Replicas := rp_Replicas plan |}.
Proof using Type*.
  unfold PrepareWrite. intros Hrun. go_step Hrun; [|done..].
  apply (on_metadata_ok _ _ _ _ _ mb_HealthyNodes_ref) in Hc as (_ & Hp & _ & t & [= <- Hcat]).
  go_step Hrun; [|done..]. inv Hc. go_step Hrun; [|done..]. injection Hc as Hplan <-.
  go_step Hrun; [|done..].
  apply (on_metadata_ok _ _ _ _ _ (mb_NextVersion_ref key)) in Hc as (_ & _ & _ & t' & [= <- _]).
  inv Hrun. exists a. rewrite Hp in Hplan. split; [done|].
  unfold next_version. rewrite version_of_next, Hcat. by rewrite cloneChunkMetadata_id.
Qed.

(** The record [CommitWrite] publishes for a prepared write, at a reading of
    the metadata clock. *)
Definition committed (cat : Catalog) (p : PreparedWrite) (t : Time) : FileMetadata :=
  new_file_version (pw_Key p) (next_version cat (pw_Key p)) (pw_Size p) (pw_Checksum p)
    (pw_Chunks p) (nm_ID (pw_Primary p)) (nm_ID <$> pw_Replicas p)
    (nextVersionLocked (cat_files cat) (pw_Key p) t).2 t.

(** [CommitWrite] either fails before the metadata is published, or publishes
    the record; then it fails with the table unchanged, or enqueues the tasks
    of the record. *)
Definition commit_outcome (p : PreparedWrite) c (r : Res WritePlan) c' : Prop :=
  ∃ t u, let meta := committed (coord_catalog c) p t in
  coord_catalog c' =
    cat_set_files (coord_catalog c) (<[pw_Key p := meta]> (cat_files (coord_catalog c))) ∧
  match r with
  | Ok wp => ∃ tasks, TasksForFile meta u = Ok tasks ∧
      coord_table c' = enqueue_all (coord_table c) tasks ∧
      wp = {| wp_Metadata := meta; wp_Primary := pw_Primary p; wp_Replicas := pw_Replicas p;
              wp_Tasks := tasks |}
  | Err e => coord_table c' = coord_table c ∧
      (TasksForFile meta u = Err e ∨ rq_fault (mc_tasks c))
  | Panic => False
  end.

Lemma CommitWrite_inv p c r c' :
  CommitWrite p c = (r, c') →
  mc_planner c' = mc_planner c ∧
  ((mb_fault (mc_metadata c) ∧ coord_same c c' ∧ ∃ e, r = Err e) ∨ commit_outcome p c r c').
Proof using Type*.
  unfold CommitWrite. intros Hrun. go_step Hrun.
  3: by apply (on_metadata_inv _ _ _ _ _ (mb_BeginFileVersion_ref _ _ _ _ _ _)) in Hc
       as (_ & _ & _ & [[t Hs]|(_ & _ & e' & ?)]).
  2: { apply (on_metadata_inv _ _ _ _ _ (mb_BeginFileVersion_ref _ _ _ _ _ _)) in Hc
         as (? & ? & _ & [[t Hs]|(? & ? & e' & ?)]); [done|]. subst.
       split; [done|]. left. split; [done|]. split; [done|eauto]. }
  apply (on_metadata_ok _ _ _ _ _ (mb_BeginFileVersion_ref _ _ _ _ _ _)) in Hc
    as (Ht & Hp & Hq & t & [= Hmeta Hcat]).
  assert (a = committed (coord_catalog c) p t) as Ha.
  { rewrite <-Hmeta. unfold committed, next_version. by rewrite version_of_next. }
  rewrite Hmeta, Ha in Hcat. clear Hmeta. subst a. symmetry in Hcat.
  go_step Hrun; [|by unfold coord_now in Hc; destruct (mb_Now _)..].
  assert (mc_tasks s0 = mc_tasks c) as Hq0.
  { unfold coord_now in Hc. destruct (mb_Now _). by inv Hc. }
  apply coord_now_same in Hc as (Hc1 & Hc2 & Hc3). rename a into u.
  go_step Hrun; injection Hc as Htask <-.
  - go_step Hrun.
    + apply (on_tasks_ok _ _ _ _ _ (rq_Enqueue_ref a)) in Hc as (Hd1 & Hd2 & _ & v & [= <- Htab]).
      inv Hrun. split; [congruence|]. right. exists t, u. cbn. split; [congruence|].
      exists a. split; [done|]. split; [congruence|done].
    + subst r. apply (on_tasks_inv _ _ _ _ _ (rq_Enqueue_ref a)) in Hc
        as (Hd1 & Hd2 & _ & [[v ?]|(Hf & Htab & _)]); [done|].
      split; [congruence|]. right. exists t, u. cbn. split; [congruence|].
      split; [congruence|]. right. by rewrite <-Hq0.
    + apply (on_tasks_inv _ _ _ _ _ (rq_Enqueue_ref a)) in Hc
        as (_ & _ & _ & [[v ?]|(_ & _ & e & ?)]); done.
  - subst r. split; [congruence|]. right. exists t, u. cbn. split; [congruence|].
    split; [congruence|]. by left.
  - exfalso. revert Htask. unfold TasksForFile. case_decide; [done|]. by case_match.
Qed.
End coordinator_props.

(** ** Properties *)

Lemma committed_replicas cat p t n :
  head (pw_Replicas p) = Some (pw_Primary p) →
  rm_State <$> fm_Replicas (committed cat p t) !! n =
  if decide (n = nm_ID (pw_Primary p)) then Some ReplicaHealthy
  else if decide (n ∈ nm_ID <$> pw_Replicas p) then Some ReplicaPending else None.
Proof.
  intros Hh. cbn. rewrite initial_replicas_lookup.
  destruct (decide (n = nm_ID (pw_Primary p))) as [->|Hne]; [|by case_decide].
  rewrite decide_True; [done|]. apply list_elem_of_fmap_2. by apply head_Some_elem_of.
Qed.

(** Every replica of a write but the primary ends up with a task. *)
Lemma committed_tasks cat p t u tasks (ts : TaskTable) n :
  TasksForFile (committed cat p t) u = Ok tasks →
  n ∈ nm_ID <$> pw_Replicas p → n ≠ nm_ID (pw_Primary p) →
  is_Some (enqueue_all ts tasks !!
    replicationTaskID (pw_Key p) (next_version cat (pw_Key p)) (nm_ID (pw_Primary p)) n).
Proof.
  intros Ht Hn Hne. rewrite lookup_enqueue_all. destruct (ts !! _); [by eauto|].
  set (meta := committed cat p t) in *.
  assert (pending_task meta (fm_Primary meta) n u u ∈ tasks) as Hin.
  { apply (TasksForFile_ok _ _ _ _ Ht). exists n. split; [|done]. split; [done|].
    eexists. cbn. rewrite initial_replicas_lookup, decide_True by done. split; [done|].
    cbn. rewrite decide_False by done. by left. }
  unfold first_with_id.
  destruct (filter _ tasks) as [|task l] eqn:E; [|by eexists].
  exfalso. eapply (filter_nil_not_elem_of _ _ _ E); [|exact Hin]. done.
Qed.

(** A successful write publishes exactly one record, for its key: the next
    version, live, with the size and checksum of the caller; its replicas are
    the nodes the planner chose among the healthy ones, the primary healthy
    and the others pending, and each of the others has a task in the queue
    that copies it from the primary; tasks already in the queue stay. *)
Theorem BeginWrite_publishes `{HB : MetadataBackendLaws B} `{HQ : ReplicationTaskQueueLaws Q}
    (c c' : MetadataCoordinator B Q) key size sum wp :
  BeginWrite key size sum c = (Ok wp, c') →
  let cat := coord_catalog c in let meta := wp_Metadata wp in
  cat_files (coord_catalog c') = <[key := meta]> (cat_files cat) ∧
  cat_nodes (coord_catalog c') = cat_nodes cat ∧
  fm_Version meta = wrap_u64 (version_of cat key + 1) ∧ fm_Deleted meta = false ∧
  fm_Size meta = size ∧ fm_Checksum meta = sum ∧ fm_Primary meta = nm_ID (wp_Primary wp) ∧
  Plan (mc_planner c) (healthy_nodes cat) =
    Ok {| rp_Primary := wp_Primary wp; rp_Replicas := wp_Replicas wp |} ∧
  (∀ n, rm_State <$> fm_Replicas meta !! n =
     if decide (n = fm_Primary meta) then Some ReplicaHealthy
     else if decide (n ∈ nm_ID <$> wp_Replicas wp) then Some ReplicaPending else None) ∧
  (∀ n, n ∈ nm_ID <$> wp_Replicas wp → n ≠ fm_Primary meta →
     is_Some (coord_table c' !!
       replicationTaskID key (fm_Version meta) (fm_Primary meta) n)) ∧
  (∀ id task, coord_table c !! id = Some task → coord_table c' !! id = Some task).
Proof.
  intros Hrun. unfold BeginWrite in Hrun. go_step Hrun; [|done..].
  pose proof Hc as (Hcat & Htab & _)%PrepareWrite_same.
  apply PrepareWrite_ok in Hc as ([primary replicas] & Hplan & ->).
  apply CommitWrite_inv in Hrun as [_ [(_ & _ & e & ?)|(t & u & Hpub & tasks & Ht & Htab' & ->)]];
    [done|]. rewrite Hcat in Hpub, Ht. cbn [pw_Key] in *.
  cbn [wp_Metadata wp_Primary wp_Replicas]. rewrite Hpub, Hcat, Htab', Htab.
  pose proof (Plan_ok_inv _ _ _ Hplan) as (_ & _ & Hh). cbn in Hh.
  do 8 (split; [done|]). split; [|split].
  - intros n. by rewrite committed_replicas.
  - intros n Hn Hne. by eapply (committed_tasks (coord_catalog c)) in Ht.
  - intros id task Hid. by rewrite lookup_enqueue_all, Hid.
Qed.

(** C16: the replicas offered to a reader are exactly the healthy ones of the
    current version, each once, the primary first when it is healthy; a read
    changes nothing, and it is refused exactly when the key was never
    written, is deleted, or has no healthy replica, each with its own error
    (or when the metadata backend itself fails). *)
Theorem ReadCandidates_exact `{HB : MetadataBackendLaws B} `{HQ : ReplicationTaskQueueLaws Q}
    (c c' : MetadataCoordinator B Q) key r :
  coord_ok c → ReadCandidates key c = (r, c') →
  coord_catalog c' = coord_catalog c ∧ coord_table c' = coord_table c ∧
  match r with
  | Ok plan =>
      let meta := rd_Metadata plan in
      cat_files (coord_catalog c) !! key = Some meta ∧ fm_Deleted meta = false ∧
      rd_Replicas plan ≠ [] ∧ NoDup (rm_NodeID <$> rd_Replicas plan) ∧
      (∀ rep, rep ∈ rd_Replicas plan ↔
         fm_Replicas meta !! rm_NodeID rep = Some rep ∧ rm_State rep = ReplicaHealthy) ∧
      (∀ rep, fm_Primary meta ≠ "" → fm_Replicas meta !! fm_Primary meta = Some rep →
         rm_State rep = ReplicaHealthy → head (rd_Replicas plan) = Some rep)
  | Err e =>
      mb_fault (mc_metadata c) ∨
      match cat_files (coord_catalog c) !! key with
      | None => e = ErrMetadataNotFound
      | Some meta =>
          if fm_Deleted meta then e = ErrFileDeleted
          else e = ErrNoReadableReplicas ∧ ∀ n rep,
            fm_Replicas meta !! n = Some rep → rm_State rep ≠ ReplicaHealthy
      end
  | Panic => False
  end.
Proof.
  intros [[Hwf _] _] (Hcat & Htab & _ & _ & Hr)%ReadCandidates_inv. do 2 (split; [done|]).
  destruct Hr as [->|(Hf & e & ->)]; [|by left]. unfold read_plan_of.
  destruct (cat_files (coord_catalog c) !! key) as [meta|] eqn:E; [|by right].
  destruct (fm_Deleted meta) eqn:Hd; [by right|].
  specialize (Hwf _ _ E). pose proof (HealthyReplicas_NoDup _ _ Hwf) as Hnd.
  destruct Hwf as (_ & _ & Hrep).
  pose proof (prioritizePrimary_perm meta _ Hnd) as Hperm.
  destruct (prioritizePrimary meta (HealthyReplicas meta)) as [|r0 l] eqn:Hp.
  - right. split; [done|]. intros n rep Hn Hh.
    apply Permutation_nil in Hperm.
    assert (rep ∈ HealthyReplicas meta) as Hin by (apply HealthyReplicas_elem; eauto).
    rewrite Hperm in Hin. set_solver.
  - cbn [rd_Metadata rd_Replicas]. split; [done|]. split; [done|]. split; [done|]. split; [by rewrite Hperm|]. split.
    + intros rep. rewrite Hperm, HealthyReplicas_elem. split; [|naive_solver].
      intros [[n Hn] ?]. split; [|done]. by rewrite (Hrep _ _ Hn).
    + intros rep Hne Hl Hh. rewrite (prioritizePrimary_shape meta _ Hnd Hne rep) in Hp.
      * by inv Hp.
      * apply HealthyReplicas_elem; eauto.
      * by apply Hrep in Hl.
Qed.
