(* ===== verification/Repair.v ===== *)
(** * The repair planner: [PlanRepair] of [coordinator.go].

    Which copies one round of repair plans, and that it plans no more
    replicas than the planner asks for. *)

From S2P Require Import Prelude Metadata Replication Backend MetadataSpec ReplicationSpec Lifecycle Coordinator CoordinatorSpec.
From stdpp Require Import options.

(** The task a repair creates, whatever the two clock readings are. *)
Definition repair_task (meta : FileMetadata) (source target : string) (task : ReplicationTask) : Prop :=
  ∃ created updated, task = pending_task meta source target created updated.

(** A replica of a file that repair copies to. *)
Definition needs_repair (meta : FileMetadata) (source n : string) : Prop :=
  n ≠ source ∧ ∃ r, fm_Replicas meta !! n = Some r ∧
    (rm_State r = ReplicaPending ∨ rm_State r = ReplicaStale ∨ rm_State r = ReplicaMissing).

Lemma skip_repair_spec source n r :
  skip_repair source n r = false ↔
  n ≠ source ∧ (rm_State r = ReplicaPending ∨ rm_State r = ReplicaStale ∨ rm_State r = ReplicaMissing).
Proof.
  unfold skip_repair. rewrite !orb_false_iff, !bool_decide_eq_false.
  destruct (rm_State r); naive_solver.
Qed.

(** The catalog got pending replicas of [key] on the nodes [ns], and nothing
    else happened to it. *)
Definition replicas_added (key : string) (ns : list string) (cat cat' : Catalog) : Prop :=
  cat_nodes cat' = cat_nodes cat ∧
  (∀ k, k ≠ key → cat_files cat' !! k = cat_files cat !! k) ∧
  match cat_files cat !! key with
  | None => cat_files cat' !! key = None
  | Some m => ∃ m', cat_files cat' !! key = Some m' ∧
      fm_Version m' = fm_Version m ∧ fm_Deleted m' = fm_Deleted m ∧ fm_Chunks m' = fm_Chunks m ∧
      fm_Checksum m' = fm_Checksum m ∧ fm_Size m' = fm_Size m ∧ fm_Primary m' = fm_Primary m ∧
      ∀ n, rm_State <$> fm_Replicas m' !! n =
        if decide (n ∈ ns) then Some ReplicaPending else rm_State <$> fm_Replicas m !! n
  end.

Lemma replicas_added_nil key cat : replicas_added key [] cat cat.
Proof.
  split; [done|]. split; [done|]. destruct (cat_files cat !! key) as [m|]; [|done].
  exists m. repeat (split; [done|]). intros n. by rewrite decide_False by set_solver.
Qed.

Lemma replicas_added_cons key n ns cat cat1 cat2 :
  replicas_added key [n] cat cat1 → replicas_added key ns cat1 cat2 →
  replicas_added key (n :: ns) cat cat2.
Proof.
  intros (N1 & O1 & F1) (N2 & O2 & F2). split; [congruence|].
  split; [intros k Hk; by rewrite O2, O1|].
  destruct (cat_files cat !! key) as [m|]; [|by rewrite F1 in F2].
  destruct F1 as (m1 & E1 & ? & ? & ? & ? & ? & ? & R1). rewrite E1 in F2.
  destruct F2 as (m2 & E2 & ? & ? & ? & ? & ? & ? & R2). exists m2.
  split; [done|]. do 6 (split; [congruence|]).
  intros k. rewrite R2, R1. repeat case_decide; (done || set_solver).
Qed.

Lemma add_replica_added key n t cat :
  replicas_added key [n] cat (cat_add_replica key n ReplicaPending t cat).2.
Proof.
  unfold cat_add_replica. destruct (cat_files cat !! key) as [m|] eqn:E; cbn.
  - split; [done|]. split; [intros k Hk; cbn; by rewrite lookup_insert_ne|].
    rewrite E; cbn. rewrite lookup_insert_eq. eexists. split; [done|].
    do 6 (split; [done|]). intros k. cbn. destruct (decide (k = n)) as [->|Hk].
    + rewrite lookup_insert_eq, decide_True by by left. done.
    + rewrite lookup_insert_ne, decide_False by set_solver. done.
  - split; [done|]. split; [done|]. by rewrite E.
Qed.

Section repair.
Context {B Q : Type} `{HB : MetadataBackendLaws B} `{HQ : ReplicationTaskQueueLaws Q}.
Abbreviation Coord := (MetadataCoordinator B Q).
Implicit Types (c : Coord).

Lemma coord_now_run c : ∃ t c', coord_now c = (Ok t, c') ∧ coord_same c c'.
Proof using Type*.
  destruct (coord_now c) as [r c'] eqn:E. pose proof E as Hs%coord_now_same.
  unfold coord_now in E. destruct (mb_Now (mc_metadata c)) as [t b]. injection E as <- <-. eauto.
Qed.

(** Two clock readings and a new task at the end of the list. *)
Lemma snoc_task_run meta source n tasks c :
  ∃ task c', (created ← coord_now; updated ← coord_now;
      mret (tasks ++ [pending_task meta source n created updated])) c = (Ok (tasks ++ [task]), c') ∧
    repair_task meta source n task ∧ coord_same c c'.
Proof using Type*.
  destruct (coord_now_run c) as (t & c1 & R1 & S1). destruct (coord_now_run c1) as (u & c2 & R2 & S2).
  exists (pending_task meta source n t u), c2.
  rewrite (gom_bind_ok _ _ _ _ _ R1), (gom_bind_ok _ _ _ _ _ R2).
  split; [done|]. split; [by eexists _, _|by etrans].
Qed.

(** *** Existing replicas *)

Lemma existing_loop meta source (l : list (string * ReplicaMetadata)) tasks c :
  ∃ new c', for_fold l tasks (λ tasks '(nodeID, replica),
      if skip_repair source nodeID replica then mret tasks
      else
        created ← coord_now;
        updated ← coord_now;
        mret (tasks ++ [pending_task meta source nodeID created updated])) c
      = (Ok (tasks ++ new), c') ∧ coord_same c c' ∧
    (∀ task, task ∈ new → ∃ n r, (n, r) ∈ l ∧ skip_repair source n r = false ∧
       repair_task meta source n task) ∧
    (∀ n r, (n, r) ∈ l → skip_repair source n r = false →
       ∃ task, task ∈ new ∧ repair_task meta source n task).
Proof using Type*.
  revert tasks c. induction l as [|[n r] l IH]; intros tasks c; cbn [for_fold].
  { exists [], c. rewrite app_nil_r. split; [done|]. split; [done|]. split; set_solver. }
  destruct (skip_repair source n r) eqn:Hskip.
  - destruct (IH tasks c) as (new & c' & Hrun & Hs & Hin & Hall).
    exists new, c'. split; [exact Hrun|]. split; [done|]. split.
    + intros task (n' & r' & ? & ? & ?)%Hin. exists n', r'. split; [by right|done].
    + intros n' r' [[= -> ->]|Hl]%elem_of_cons Hf; [by rewrite Hskip in Hf|]. by eapply Hall.
  - destruct (snoc_task_run meta source n tasks c) as (task & c1 & R1 & Ht & S1).
    rewrite (gom_bind_ok _ _ _ _ _ R1).
    destruct (IH (tasks ++ [task]) c1) as (new & c' & Hrun & Hs & Hin & Hall).
    exists (task :: new), c'. rewrite Hrun, <-app_assoc. split; [done|]. split; [by etrans|]. split.
    + intros task' [->|(n' & r' & ? & ? & ?)%Hin]%elem_of_cons.
      * exists n, r. split; [by left|done].
      * exists n', r'. split; [by right|done].
    + intros n' r' [[= -> ->]|Hl]%elem_of_cons Hf.
      * exists task. split; [by left|done].
      * destruct (Hall n' r' Hl Hf) as (t' & ? & ?). exists t'. split; [by right|done].
Qed.

Lemma repairExistingReplicas_run meta source c :
  ∃ tasks c', repairExistingReplicas meta source c = (Ok tasks, c') ∧ coord_same c c' ∧
    (∀ task, task ∈ tasks → ∃ n, needs_repair meta source n ∧ repair_task meta source n task) ∧
    (∀ n, needs_repair meta source n → ∃ task, task ∈ tasks ∧ repair_task meta source n task).
Proof using Type*.
  destruct (existing_loop meta source (map_to_list (fm_Replicas meta)) [] c)
    as (new & c' & Hrun & Hs & Hin & Hall). exists new, c'. split; [exact Hrun|]. split; [done|]. split.
  - intros task (n & r & Hl%elem_of_map_to_list & [Hne Hst]%skip_repair_spec & Ht)%Hin.
    exists n. split; [|done]. split; [done|eauto].
  - intros n (Hne & r & Hr & Hst). apply (Hall n r); [by apply elem_of_map_to_list|].
    by apply skip_repair_spec.
Qed.

(** *** Missing replicas *)

(** What the loop over the healthy nodes adds to [tasks]. *)
Definition missing_planned (meta : FileMetadata) (source : string) (count : Z)
    (nodes : list NodeMetadata) (tasks new : list ReplicationTask) c c' : Prop :=
  coord_table c' = coord_table c ∧ mc_planner c' = mc_planner c ∧
  sublist (rt_Target <$> new) (nm_ID <$> nodes) ∧
  (∀ task, task ∈ new → fm_Replicas meta !! rt_Target task = None ∧
     repair_task meta source (rt_Target task) task) ∧
  (Z.of_nat (size (fm_Replicas meta)) + zlen (tasks ++ new) ≤
     Z.max (Z.of_nat (size (fm_Replicas meta)) + zlen tasks) count)%Z ∧
  replicas_added (fm_Key meta) (rt_Target <$> new) (coord_catalog c) (coord_catalog c') ∧
  ((∀ b : B, mb_fault b → False) → is_Some (cat_files (coord_catalog c) !! fm_Key meta) →
     (count ≤ Z.of_nat (size (fm_Replicas meta)) + zlen (tasks ++ new))%Z ∨
     ∀ node, node ∈ nodes →
       is_Some (fm_Replicas meta !! nm_ID node) ∨ nm_ID node ∈ rt_Target <$> new).

Lemma missing_done meta source count nodes tasks c :
  (count ≤ Z.of_nat (size (fm_Replicas meta)) + zlen tasks)%Z ∨ nodes = [] →
  missing_planned meta source count nodes tasks [] c c.
Proof.
  intros Hdone. split; [done|]. split; [done|]. split; [apply sublist_nil_l|].
  split; [set_solver|]. rewrite app_nil_r. split; [lia|]. split; [apply replicas_added_nil|].
  intros _ _. destruct Hdone as [?| ->]; [by left|]. right. set_solver.
Qed.

Lemma missing_skip meta source count node nodes tasks new c c' :
  is_Some (fm_Replicas meta !! nm_ID node) ∨ (∃ b : B, mb_fault b) ∨
    cat_files (coord_catalog c) !! fm_Key meta = None →
  missing_planned meta source count nodes tasks new c c' →
  missing_planned meta source count (node :: nodes) tasks new c c'.
Proof.
  intros Hskip (Ht & Hp & Hsub & Hnew & Hcap & Hadd & Hfull).
  split; [done|]. split; [done|]. split; [by apply sublist_cons|].
  split; [done|]. split; [done|]. split; [done|]. intros Hf Hk.
  destruct (Hfull Hf Hk) as [?|Hall]; [by left|]. right.
  intros n [->|Hn]%elem_of_cons; [|by apply Hall].
  destruct Hskip as [?|[[b Hb]|Hnone]]; [by left|by apply Hf in Hb|]. by rewrite Hnone in Hk; destruct Hk.
Qed.

Lemma missing_take meta source count node nodes tasks task new c c1 c' :
  fm_Replicas meta !! nm_ID node = None → repair_task meta source (nm_ID node) task →
  (Z.of_nat (size (fm_Replicas meta)) + zlen tasks < count)%Z →
  coord_table c1 = coord_table c → mc_planner c1 = mc_planner c →
  replicas_added (fm_Key meta) [nm_ID node] (coord_catalog c) (coord_catalog c1) →
  missing_planned meta source count nodes (tasks ++ [task]) new c1 c' →
  missing_planned meta source count (node :: nodes) tasks (task :: new) c c'.
Proof.
  intros Hnone Htask Hlt Ht1 Hp1 Hadd1 (Ht & Hp & Hsub & Hnew & Hcap & Hadd & Hfull).
  assert (rt_Target task = nm_ID node) as Htgt by by destruct Htask as (? & ? & ->).
  replace ((tasks ++ [task]) ++ new) with (tasks ++ task :: new) in Hcap, Hfull by by rewrite <-app_assoc.
  split; [congruence|]. split; [congruence|].
  split; [rewrite !fmap_cons, Htgt; by apply sublist_skip|].
  split; [intros t' [->|Hin]%elem_of_cons; [by rewrite Htgt|by apply Hnew]|].
  split; [unfold zlen in *; rewrite !length_app in *; cbn in *; lia|].
  split; [rewrite fmap_cons, Htgt; by eapply replicas_added_cons|].
  intros Hf Hk. destruct Hfull as [?|Hall]; [done| |by left|right].
  - destruct Hadd1 as (_ & _ & Hm). destruct Hk as [m Hm0]. rewrite Hm0 in Hm.
    destruct Hm as (m' & -> & _). eauto.
  - intros n [->|Hn]%elem_of_cons; [right; rewrite fmap_cons, Htgt; by left|].
    destruct (Hall n Hn) as [?|?]; [by left|]. right. rewrite fmap_cons. by right.
Qed.

Lemma missing_loop meta source count nodes tasks c :
  ∃ new c', repair_missing_loop meta source count nodes tasks c = (Ok (tasks ++ new), c') ∧
    missing_planned meta source count nodes tasks new c c'.
Proof using Type*.
  revert tasks c. induction nodes as [|node nodes IH]; intros tasks c; cbn [repair_missing_loop].
  { exists [], c. rewrite app_nil_r. split; [done|]. apply missing_done. by right. }
  destruct (Z.leb_spec count (Z.of_nat (size (fm_Replicas meta)) + zlen tasks)) as [Hle|Hlt].
  { exists [], c. rewrite app_nil_r. split; [done|]. apply missing_done. by left. }
  destruct (fm_Replicas meta !! nm_ID node) as [r|] eqn:Er.
  { destruct (IH tasks c) as (new & c' & Hrun & Hm). exists new, c'. split; [done|].
    apply missing_skip; [left; by rewrite Er|done]. }
  destruct (on_metadata (mb_AddReplica (fm_Key meta) (nm_ID node) ReplicaPending) c)
    as [ra c1] eqn:Hadd.
  pose proof Hadd as (Ht1 & Hp1 & _ & Hspec)%(on_metadata_inv _ _ _ _ _ (mb_AddReplica_ref _ _ _)).
  destruct ra as [m|e|].
  - rewrite (gom_bind_ok _ _ _ _ _ (try_run _ _ _ _ Hadd ltac:(done))).
    destruct Hspec as [[t Hs]|(_ & _ & e & ?)]; [|done].
    pose proof (add_replica_added (fm_Key meta) (nm_ID node) t (coord_catalog c)) as Ha.
    rewrite Hs in Ha. cbn in Ha.
    destruct (coord_now_run c1) as (t1 & c2 & R1 & S1).
    destruct (coord_now_run c2) as (t2 & c3 & R2 & S2).
    rewrite (gom_bind_ok _ _ _ _ _ R1), (gom_bind_ok _ _ _ _ _ R2).
    set (task := pending_task meta source (nm_ID node) t1 t2).
    destruct (IH (tasks ++ [task]) c3) as (new & c' & Hrun & Hm). exists (task :: new), c'.
    rewrite Hrun, <-app_assoc. split; [done|].
    assert (coord_same c1 c3) as (Ec & Et & Ep) by by etrans.
    eapply (missing_take _ _ _ _ _ _ _ _ _ c3); [done|by eexists _, _|done|congruence|congruence|by rewrite Ec|done].
  - rewrite (gom_bind_ok _ _ _ _ _ (try_run _ _ _ _ Hadd ltac:(done))).
    destruct (IH tasks c1) as (new & c' & Hrun & Hm). exists new, c'. split; [done|].
    assert (coord_catalog c1 = coord_catalog c ∧ ((∃ b : B, mb_fault b) ∨
      cat_files (coord_catalog c) !! fm_Key meta = None)) as [Ec Hwhy].
    { destruct Hspec as [[t Hs]|(Hf & -> & _)]; [|by eauto]. unfold cat_add_replica in Hs.
      destruct (cat_files (coord_catalog c) !! fm_Key meta); [done|]. injection Hs as _ <-. by auto. }
    apply missing_skip; [right; exact Hwhy|].
    destruct Hm as (? & ? & ? & ? & ? & Hra & Hfull). rewrite Ec in Hra, Hfull.
    split; [congruence|]. split; [congruence|]. done.
  - exfalso. destruct Hspec as [[t Hs]|(_ & _ & e & ?)]; [|done].
    unfold cat_add_replica in Hs. by destruct (cat_files _ !! _).
Qed.

Lemma repairMissingReplicas_run meta source nodes c :
  ∃ tasks c', repairMissingReplicas meta source nodes c = (Ok tasks, c') ∧
    missing_planned meta source (ReplicaCount (mc_planner c)) nodes [] tasks c c'.
Proof using Type*.
  unfold repairMissingReplicas. rewrite (gom_bind_ok (gets mc_planner) _ _ _ c eq_refl).
  destruct (Z.leb_spec (ReplicaCount (mc_planner c)) (Z.of_nat (size (fm_Replicas meta)))) as [Hle|Hlt].
  - exists [], c. split; [done|]. apply missing_done. left. unfold zlen; cbn. lia.
  - destruct (missing_loop meta source (ReplicaCount (mc_planner c)) nodes [] c)
      as (new & c' & Hrun & Hm). by exists new, c'.
Qed.

(** *** The round over all files *)

(** The file is live and has a replica to copy from. *)
Definition repairable (meta : FileMetadata) : Prop :=
  fm_Deleted meta = false ∧ firstHealthyReplica meta ≠ "".

(** A task repair may plan for a file. *)
Definition planned_for (nodes : list NodeMetadata) (meta : FileMetadata) (task : ReplicationTask) :
    Prop :=
  let source := firstHealthyReplica meta in
  repairable meta ∧ ∃ n, repair_task meta source n task ∧
    (needs_repair meta source n ∨
     fm_Replicas meta !! n = None ∧ n ∈ nm_ID <$> nodes).

Lemma repair_file_run nodes tasks meta c :
  ∃ new c', repair_file nodes tasks meta c = (Ok (tasks ++ new), c') ∧
    coord_table c' = coord_table c ∧ mc_planner c' = mc_planner c ∧
    (∀ task, task ∈ new → planned_for nodes meta task) ∧
    (∀ n, repairable meta → needs_repair meta (firstHealthyReplica meta) n →
       ∃ task, task ∈ new ∧ repair_task meta (firstHealthyReplica meta) n task).
Proof using Type*.
  unfold repair_file.
  assert (¬ repairable meta → ∃ new c', (mret tasks : GoM Coord _) c = (Ok (tasks ++ new), c') ∧
    coord_table c' = coord_table c ∧ mc_planner c' = mc_planner c ∧
    (∀ task, task ∈ new → planned_for nodes meta task) ∧
    (∀ n, repairable meta → needs_repair meta (firstHealthyReplica meta) n →
       ∃ task, task ∈ new ∧ repair_task meta (firstHealthyReplica meta) n task)) as Hskip.
  { intros Hn. exists [], c. rewrite app_nil_r. repeat (split; [done|]). split; [set_solver|done]. }
  destruct (fm_Deleted meta) eqn:Hd; [apply Hskip; intros [? _]; congruence|].
  case_decide as Hsrc; [apply Hskip; by intros [_ ?]|]. clear Hskip.
  assert (repairable meta) as Hrep by done.
  set (source := firstHealthyReplica meta) in *.
  destruct (repairExistingReplicas_run meta source c) as (ex & c1 & R1 & S1 & Hex & Hall).
  destruct (repairMissingReplicas_run meta source nodes c1) as (ms & c2 & R2 & Hm).
  rewrite (gom_bind_ok _ _ _ _ _ R1), (gom_bind_ok _ _ _ _ _ R2).
  exists (ex ++ ms), c2. split; [done|].
  destruct S1 as (_ & Et & Ep), Hm as (Et2 & Ep2 & Hsub & Hnew & _).
  split; [congruence|]. split; [congruence|]. split.
  - intros task [(n & Hn & Ht)%Hex|Hin]%elem_of_app; (split; [done|]).
    + exists n. split; [done|]. by left.
    + destruct (Hnew _ Hin) as [Hnone Ht]. exists (rt_Target task). split; [done|]. right.
      split; [done|]. eapply sublist_subseteq; [exact Hsub|]. by apply list_elem_of_fmap_2.
  - intros n _ Hn. destruct (Hall n Hn) as (task & ? & ?). exists task.
    split; [|done]. apply elem_of_app. by left.
Qed.

Lemma repair_files_run nodes files tasks c :
  ∃ new c', for_fold files tasks (repair_file nodes) c = (Ok (tasks ++ new), c') ∧
    coord_table c' = coord_table c ∧
    (∀ task, task ∈ new → ∃ meta, meta ∈ files ∧ planned_for nodes meta task) ∧
    (∀ meta n, meta ∈ files → repairable meta → needs_repair meta (firstHealthyReplica meta) n →
       ∃ task, task ∈ new ∧ repair_task meta (firstHealthyReplica meta) n task).
Proof using Type*.
  revert tasks c. induction files as [|meta files IH]; intros tasks c; cbn [for_fold].
  { exists [], c. rewrite app_nil_r. split; [done|]. split; [done|]. split; set_solver. }
  destruct (repair_file_run nodes tasks meta c) as (n1 & c1 & R1 & T1 & _ & S1 & A1).
  rewrite (gom_bind_ok _ _ _ _ _ R1).
  destruct (IH (tasks ++ n1) c1) as (n2 & c2 & R2 & T2 & S2 & A2).
  exists (n1 ++ n2), c2. rewrite R2, app_assoc. split; [done|]. split; [congruence|]. split.
  - intros task [Hin|(m & Hm & Hp)%S2]%elem_of_app.
    + exists meta. split; [by left|by apply S1].
    + exists m. split; [by right|done].
  - intros m n [->|Hm]%elem_of_cons Hr Hn.
    + destruct (A1 n Hr Hn) as (task & ? & ?). exists task. split; [|done]. apply elem_of_app. by left.
    + destruct (A2 m n Hm Hr Hn) as (task & ? & ?). exists task. split; [|done].
      apply elem_of_app. by right.
Qed.
End repair.

(** ** Properties *)

Lemma PlanRepair_run `{HB : MetadataBackendLaws B} `{HQ : ReplicationTaskQueueLaws Q}
    (c c' : MetadataCoordinator B Q) tasks :
  healthy_nodes (coord_catalog c) ≠ [] →
  PlanRepair c = (Ok tasks, c') →
  (∀ task, task ∈ tasks → ∃ key meta, cat_files (coord_catalog c) !! key = Some meta ∧
     planned_for (healthy_nodes (coord_catalog c)) meta task) ∧
  (∀ key meta n, cat_files (coord_catalog c) !! key = Some meta → repairable meta →
     needs_repair meta (firstHealthyReplica meta) n →
     ∃ task, task ∈ tasks ∧ repair_task meta (firstHealthyReplica meta) n task) ∧
  coord_table c' = enqueue_all (coord_table c) tasks.
Proof.
  intros Hne Hrun. unfold PlanRepair in Hrun. go_step Hrun; [|done..].
  apply (on_metadata_ok _ _ _ _ _ mb_HealthyNodes_ref) in Hc as (Ht1 & _ & _ & t & [= <- Hc1]).
  fold (healthy_nodes (coord_catalog c)) in *.
  case_decide as Hl; [by apply length_zero_iff_nil in Hl|].
  go_step Hrun; [|done..].
  apply (on_metadata_ok _ _ _ _ _ mb_ListFiles_ref) in Hc as (Ht2 & _ & _ & t2 & [= <- Hc2]).
  destruct (repair_files_run (healthy_nodes (coord_catalog c))
    (sort_by fm_Key (range_values (cat_files (coord_catalog s)))) [] s0)
    as (new & c3 & R3 & T3 & Hs & Ha).
  rewrite (gom_bind_ok _ _ _ _ _ R3) in Hrun. cbn [app] in Hrun. go_step Hrun; [|done..].
  apply (on_tasks_ok _ _ _ _ _ (rq_Enqueue_ref new)) in Hc as (_ & _ & _ & t3 & [= <- Ht4]).
  injection Hrun as <- <-. rewrite <-Hc1 in Hs, Ha.
  split; [|split].
  - intros task (meta & Hm & Hp)%Hs. rewrite elem_of_sort_by, elem_of_range_values in Hm.
    destruct Hm as [key Hk]. eauto.
  - intros key meta n Hk. apply Ha. rewrite elem_of_sort_by, elem_of_range_values. eauto.
  - by rewrite <-Ht4, T3, Ht2, Ht1.
Qed.

(** The node that repair copies a file from: of the nodes with a healthy replica
    the one with the smallest ID, which must not be empty. *)
Definition copy_source (meta : FileMetadata) (source : string) : Prop :=
  source ≠ "" ∧ (∃ r, fm_Replicas meta !! source = Some r ∧ rm_State r = ReplicaHealthy) ∧
  ∀ n r, fm_Replicas meta !! n = Some r → rm_State r = ReplicaHealthy → String.le source n.

Lemma firstHealthyReplica_source key meta source :
  file_wf key meta → source ≠ "" → firstHealthyReplica meta = source ↔ copy_source meta source.
Proof.
  intros (_ & _ & Hids) Hne. unfold firstHealthyReplica, copy_source.
  assert (∀ n r, fm_Replicas meta !! n = Some r → rm_State r = ReplicaHealthy → r ∈ HealthyReplicas meta) as Hin.
  { intros n r Hn Hr. apply HealthyReplicas_elem. eauto. }
  pose proof (Sorted_sort_by rm_NodeID
    (filter (λ r, rm_State r = ReplicaHealthy) (range_values (fm_Replicas meta)))) as Hsort.
  fold (HealthyReplicas meta) in Hsort.
  destruct (HealthyReplicas meta) as [|r0 l] eqn:E.
  - split; [by intros <-|]. intros (_ & (r & Hn & Hr) & _). exfalso. specialize (Hin _ _ Hn Hr). set_solver.
  - assert (r0 ∈ HealthyReplicas meta) as [[n0 Hn0] Hr0]%HealthyReplicas_elem by (rewrite E; left).
    pose proof (Hids _ _ Hn0) as Eid. cbn in Eid.
    assert (∀ n r, fm_Replicas meta !! n = Some r → rm_State r = ReplicaHealthy → String.le n0 n) as Hmin.
    { intros n r Hn Hr. pose proof (Hids _ _ Hn) as En. cbn in En. specialize (Hin _ _ Hn Hr).
      apply elem_of_cons in Hin as [->|Hl]; [rewrite <-Eid, <-En; reflexivity|]. apply StronglySorted_inv in Hsort as [_ Hall].
      rewrite Forall_forall in Hall. specialize (Hall _ Hl). unfold by_key in Hall. congruence. }
    rewrite Eid. split; [intros <-; eauto|]. intros (_ & (r & Hn & Hr) & Hle).
    apply (anti_symm String.le); eauto.
Qed.

(** C17: one round of repair on well-formed metadata, when at least one node is
    healthy: every task it plans is for a live file, copies from the node with
    the smallest ID among those with a healthy replica of it, and goes to a
    replica that is pending, stale or missing, or to a healthy node that has
    none; for every live file with such a source there is a task for each of its
    replicas that is pending, stale or missing; and the tasks are handed to the
    queue, where a task whose ID is already known is dropped. *)
Theorem PlanRepair_exact `{HB : MetadataBackendLaws B} `{HQ : ReplicationTaskQueueLaws Q}
    (c c' : MetadataCoordinator B Q) tasks :
  catalog_wf (coord_catalog c) → healthy_nodes (coord_catalog c) ≠ [] →
  PlanRepair c = (Ok tasks, c') →
  (∀ task, task ∈ tasks → ∃ key meta source n,
     cat_files (coord_catalog c) !! key = Some meta ∧ fm_Deleted meta = false ∧
     copy_source meta source ∧ repair_task meta source n task ∧
     (needs_repair meta source n ∨
      fm_Replicas meta !! n = None ∧ n ∈ nm_ID <$> healthy_nodes (coord_catalog c))) ∧
  (∀ key meta source n, cat_files (coord_catalog c) !! key = Some meta → fm_Deleted meta = false →
     copy_source meta source → needs_repair meta source n →
     ∃ task, task ∈ tasks ∧ repair_task meta source n task) ∧
  coord_table c' = enqueue_all (coord_table c) tasks.
Proof.
  intros [Hwf _] Hne Hrun. destruct (PlanRepair_run _ _ _ Hne Hrun) as (Hs & Ha & Ht). split; [|split; [|done]].
  - intros task (key & meta & Hk & [Hd Hsrc] & n & Hn)%Hs.
    exists key, meta, (firstHealthyReplica meta), n. split; [done|]. split; [done|]. split; [|done].
    by apply (firstHealthyReplica_source _ _ _ (Hwf _ _ Hk) Hsrc).
  - intros key meta source n Hk Hd Hsrc Hn. pose proof Hsrc as [Hne' _].
    apply (firstHealthyReplica_source _ _ _ (Hwf _ _ Hk) Hne') in Hsrc as <-. by eapply Ha.
Qed.

(** C18: for a file with too few replicas, repair adds pending replicas on
    healthy nodes that have none, one copy task each and each node once, never
    more than the planner's replica count asks for; if the metadata calls
    succeed it stops only when the count is reached or every healthy node has
    a replica; nothing else in the catalog changes. *)
Theorem repairMissingReplicas_fills `{HB : MetadataBackendLaws B} `{HQ : ReplicationTaskQueueLaws Q}
    (c : MetadataCoordinator B Q) meta source nodes :
  NoDup (nm_ID <$> nodes) →
  ∃ tasks c', repairMissingReplicas meta source nodes c = (Ok tasks, c') ∧
  let replicas := Z.of_nat (size (fm_Replicas meta)) in
  let wanted := ReplicaCount (mc_planner c) in
  NoDup (rt_Target <$> tasks) ∧
  (∀ task, task ∈ tasks → rt_Target task ∈ nm_ID <$> nodes ∧
     fm_Replicas meta !! rt_Target task = None ∧ repair_task meta source (rt_Target task) task) ∧
  (replicas + zlen tasks ≤ Z.max replicas wanted)%Z ∧
  replicas_added (fm_Key meta) (rt_Target <$> tasks) (coord_catalog c) (coord_catalog c') ∧
  ((∀ b : B, mb_fault b → False) → is_Some (cat_files (coord_catalog c) !! fm_Key meta) →
   (wanted ≤ replicas + zlen tasks)%Z ∨
   ∀ node, node ∈ nodes →
     is_Some (fm_Replicas meta !! nm_ID node) ∨ nm_ID node ∈ rt_Target <$> tasks).
Proof.
  intros Hnd. destruct (repairMissingReplicas_run meta source nodes c)
    as (tasks & c' & Hrun & _ & _ & Hsub & Hnew & Hcap & Hadd & Hfull).
  exists tasks, c'. split; [done|]. cbn [app] in Hcap, Hfull. cbv zeta.
  split; [by eapply sublist_NoDup|]. split; [|split; [|by split]].
  - intros task Hin. split; [|by apply Hnew]. eapply sublist_subseteq; [exact Hsub|].
    by apply list_elem_of_fmap_2.
  - change (zlen (@nil ReplicationTask)) with 0%Z in Hcap. lia.
Qed.
