(* ===== verification/Service.v ===== *)
(** * The replication worker and the managed file service: [worker.go] and
    [managed_file_service.go].

    The service owns the coordinator and the object store; its worker holds
    pointers to the same two objects, so the state of the worker is a view of
    the state of the service, not a copy.  Temporary files are scripted by the
    [TempDir] of [Staging]; [Close] and [Remove] of a temporary file, whose
    results the code discards, are left out.  [writeLock] makes [Put] and
    [Delete] atomic with respect to each other; here a method is one transition, and
    [ServiceThreads] splits it into its calls. *)

From S2P Require Import Prelude Metadata Replication Backend MetadataSpec Names Hash Objects Staging Coordinator.
From stdpp Require Import options.

(** ** The worker *)

Record ReplicationWorker (B Q R : Type) := {
  rw_coordinator : MetadataCoordinator B Q;
  rw_replicator : R
}.
Arguments rw_coordinator {B Q R} _.
Arguments rw_replicator {B Q R} _.

Section worker.
Context {B Q R : Type} `{MetadataBackend B} `{ReplicationTaskQueue Q} `{ObjectReplicator R}.
Abbreviation Worker := (ReplicationWorker B Q R).

Definition NewReplicationWorker (coordinator : MetadataCoordinator B Q) (replicator : R) : Worker :=
  {| rw_coordinator := coordinator; rw_replicator := replicator |}.

Definition on_coordinator {A} (m : GoM (MetadataCoordinator B Q) A) : GoM Worker A :=
  zoom rw_coordinator (λ c w, {| rw_coordinator := c; rw_replicator := rw_replicator w |}) m.
Definition on_replicator {A} (m : GoM R A) : GoM Worker A :=
  zoom rw_replicator (λ r w, {| rw_coordinator := rw_coordinator w; rw_replicator := r |}) m.

(** [WorkOnce] returns the failed task together with the copy error: its
    result is the task and an optional error; [Err e] stands for
    [ReplicationTask{}, e]. *)
Definition WorkOnce : GoM Worker (ReplicationTask * option GoError) :=
  pending ← on_coordinator PendingTasks;
  match pending with
  | [] => fail ErrNoPendingTasks
  | first :: _ =>
      task ← on_coordinator (StartReplication (rt_ID first));
      copied ← try (on_replicator (or_Replicate task));
      match copied with
      | Ok _ =>
          '(_, doneTask) ← on_coordinator (FinishReplication (rt_ID task));
          mret (doneTask, None)
      | Err err =>
          '(_, failedTask) ← on_coordinator (FailReplication (rt_ID task) (Some err));
          mret (failedTask, Some err)
      | Panic => panic
      end
  end.
End worker.

(** ** The service *)

Record ManagedFileService (B Q OS : Type) := {
  sv_coordinator : MetadataCoordinator B Q;
  sv_objects : OS;
  sv_temp : TempDir
}.
Arguments sv_coordinator {B Q OS} _.
Arguments sv_objects {B Q OS} _.
Arguments sv_temp {B Q OS} _.

Record ServiceMetrics := {
  me_Files : Z;
  me_DeletedFiles : Z;
  me_PendingTasks : Z;
  me_ReplicationTasks : gmap ReplicationTaskState Z;
  me_Nodes : gmap NodeState Z;
  me_Replicas : gmap ReplicaState Z
}.

(** [m\[k\]++] on a map of counters. *)
Definition incr `{Countable K} (m : gmap K Z) (k : K) : gmap K Z :=
  <[k := (default 0 (m !! k) + 1)%Z]> m.

(** ** Temporary files, continued *)

(** [io.Copy] from a reader to a temporary file (and to hashes, which do not
    fail): the bytes copied. *)
Fixpoint copy_temp (reads : list ReadResult) (copied : bytes) : GoM TempDir bytes :=
  match reads with
  | [] => mret copied
  | (data, readErr) :: reads =>
      (if decide (0 < length data) then temp_call else mret tt);;
      match readErr with
      | Some EOF => mret (copied ++ data)
      | Some (ReadErr e) => fail e
      | None => copy_temp reads (copied ++ data)
      end
  end.

(** [staged.Seek(offset, io.SeekStart)] *)
Definition temp_seek (offset : Z) : GoM TempDir unit :=
  temp_call;;
  if (offset <? 0)%Z then fail (ErrOther "seek: invalid argument") else mret tt.

(** What a reader that starts at [offset] and stops after [n] bytes delivers:
    a failing read of the temporary file delivers its error. *)
Definition temp_section (file : bytes) (offset n : Z) : GoM TempDir Reader :=
  ok ← try temp_call;
  match ok with
  | Err e => mret {| r_reads := [([], Some (ReadErr e))]; r_close := None |}
  | _ => mret (reader_of (take (Z.to_nat n) (drop (Z.to_nat offset) file)))
  end.

Section service.
Context {B Q OS : Type} `{MetadataBackend B} `{ReplicationTaskQueue Q} `{ObjectStore OS}.
Abbreviation Service := (ManagedFileService B Q OS).

Definition NewManagedFileServiceWithMetadataAndQueue (replicaCount : Z) (objects : OS)
    (metadata : B) (tasks : Q) (temp : TempDir) : Service := {|
  sv_coordinator := NewMetadataCoordinatorWithBackendAndQueue replicaCount metadata tasks;
  sv_objects := objects;
  sv_temp := temp
|}.

Definition set_coordinator (c : MetadataCoordinator B Q) (s : Service) : Service :=
  {| sv_coordinator := c; sv_objects := sv_objects s; sv_temp := sv_temp s |}.
Definition set_objects (o : OS) (s : Service) : Service :=
  {| sv_coordinator := sv_coordinator s; sv_objects := o; sv_temp := sv_temp s |}.
Definition set_temp (t : TempDir) (s : Service) : Service :=
  {| sv_coordinator := sv_coordinator s; sv_objects := sv_objects s; sv_temp := t |}.

(** [s.coordinator.M()], [s.coordinator.metadata.M()], [s.objects.M()] and
    calls on temporary files. *)
Definition coord {A} (m : GoM (MetadataCoordinator B Q) A) : GoM Service A :=
  zoom sv_coordinator set_coordinator m.
Definition meta_call {A} (m : GoM B A) : GoM Service A := coord (on_metadata m).
Definition objs {A} (m : GoM OS A) : GoM Service A := zoom sv_objects set_objects m.
Definition temp {A} (m : GoM TempDir A) : GoM Service A := zoom sv_temp set_temp m.

(** The worker of the service shares its coordinator and its objects. *)
Definition worker_of (s : Service) : ReplicationWorker B Q OS :=
  {| rw_coordinator := sv_coordinator s; rw_replicator := sv_objects s |}.
Definition set_worker (w : ReplicationWorker B Q OS) (s : Service) : Service :=
  {| sv_coordinator := rw_coordinator w; sv_objects := rw_replicator w; sv_temp := sv_temp s |}.

(** *** Chunk objects *)

Definition deleteObjects (nodeID key : string) (version : Z) (chunks : list ChunkMetadata) :
    GoM Service unit :=
  if decide (length chunks = 0) then ignore (objs (DeleteObject nodeID key version))
  else for_each chunks (λ chunk,
    ignore (objs (DeleteObject nodeID (chunkObjectKey key (cm_Index chunk)) version))).

(** The body of the loop of [writeChunks]. *)
Definition write_chunk (nodeID key : string) (version : Z) (staged : bytes)
    (chunks : list ChunkMetadata) (chunk : ChunkMetadata) : GoM Service unit :=
  sought ← try (temp (temp_seek (cm_Offset chunk)));
  match sought with
  | Err err => deleteObjects nodeID key version chunks;; fail err
  | Panic => panic
  | Ok _ =>
      let objectKey := chunkObjectKey key (cm_Index chunk) in
      r ← temp (temp_section staged (cm_Offset chunk) (cm_Size chunk));
      written ← try (objs (WriteObject nodeID objectKey version r));
      match written with
      | Err err => deleteObjects nodeID key version chunks;; fail err
      | Panic => panic
      | Ok n =>
          if decide (n = cm_Size chunk) then mret tt
          else deleteObjects nodeID key version chunks;; fail ErrShortWrite
      end
  end.

Definition writeChunks (nodeID key : string) (version : Z) (staged : bytes)
    (chunks : list ChunkMetadata) : GoM Service unit :=
  if decide (length chunks = 0) then
    temp (temp_seek 0);;
    r ← temp (temp_section staged 0 (zlen staged));
    objs (WriteObject nodeID key version r);;
    mret tt
  else for_each chunks (write_chunk nodeID key version staged chunks).

(** The body of the loop of [stageReplica]; the accumulator holds the bytes of
    [staged], which are also those of [fullHash], and [total]. *)
Definition stage_chunk (nodeID : string) (meta : FileMetadata) (acc : bytes * Z)
    (chunk : ChunkMetadata) : GoM Service (bytes * Z) :=
  let '(staged, total) := acc in
  '(_, r) ← objs (ReadObject nodeID (chunkObjectKey (fm_Key meta) (cm_Index chunk))
                    (fm_Version meta));
  data ← temp (copy_temp (r_reads r) []);
  match r_close r with
  | Some closeErr => fail closeErr
  | None =>
      if bool_decide (zlen data ≠ cm_Size chunk) ||
         bool_decide (checksumBytes data ≠ cm_Checksum chunk)
      then fail ErrChecksumMismatch
      else mret (staged ++ data, (total + zlen data)%Z)
  end.

(** The result is the content of the temporary file. *)
Definition stageReplica (nodeID : string) (meta : FileMetadata) : GoM Service bytes :=
  if decide (length (fm_Chunks meta) = 0) then
    '(_, r) ← objs (ReadObject nodeID (fm_Key meta) (fm_Version meta));
    staged ← temp (stageReader (r_reads r));
    match r_close r with
    | Some closeErr => fail closeErr
    | None =>
        if bool_decide (st_size staged ≠ fm_Size meta) ||
           bool_decide (st_checksum staged ≠ fm_Checksum meta)
        then fail ErrChecksumMismatch
        else mret (st_file staged)
    end
  else
    temp temp_call;;
    '(staged, total) ← for_fold (fm_Chunks meta) ([], 0%Z) (stage_chunk nodeID meta);
    if bool_decide (total ≠ fm_Size meta) || bool_decide (checksumBytes staged ≠ fm_Checksum meta)
    then fail ErrChecksumMismatch
    else mret staged.
End service.

(** ** The operations of the service *)

Section operations.
Context {B Q OS : Type} `{MetadataBackend B} `{ReplicationTaskQueue Q} `{ObjectStore OS}.
Abbreviation Service := (ManagedFileService B Q OS).

Definition ServiceRegisterNode (id address : string) : GoM Service NodeMetadata :=
  coord (RegisterNode id address).

(** [Put(key, r)], with the reader given by what its [Read] calls return. *)
Definition Put (key : string) (reads : list ReadResult) : GoM Service FileMetadata :=
  staged ← temp (stageReader reads);
  let chunks := st_chunks staged in
  prepared ← coord (PrepareWrite key (st_size staged) (st_checksum staged) chunks);
  writeChunks (nm_ID (pw_Primary prepared)) key (pw_Version prepared) (st_file staged) chunks;;
  committed ← try (coord (CommitWrite prepared));
  match committed with
  | Ok plan => mret (wp_Metadata plan)
  | Err err =>
      deleteObjects (nm_ID (pw_Primary prepared)) key (pw_Version prepared) chunks;;
      fail err
  | Panic => panic
  end.

(** The state [Get] gives a replica it could not read. *)
Definition unreadable_state (err : GoError) : ReplicaState :=
  if decide (err = ErrChecksumMismatch) then ReplicaStale else ReplicaMissing.

(** The loop of [Get] over the candidates. *)
Fixpoint get_loop (key : string) (meta : FileMetadata) (replicas : list ReplicaMetadata) :
    GoM Service (bytes * FileMetadata) :=
  match replicas with
  | [] => fail ErrNoReadableReplicas
  | replica :: replicas =>
      staged ← try (stageReplica (rm_NodeID replica) meta);
      match staged with
      | Err err =>
          ignore (meta_call (mb_MarkReplica key (rm_NodeID replica) (unreadable_state err)));;
          get_loop key meta replicas
      | Panic => panic
      | Ok data =>
          temp (temp_seek 0);;
          mret (data, meta)
      end
  end.

(** The reader [Get] returns delivers the staged file from its start. *)
Definition Get (key : string) : GoM Service (bytes * FileMetadata) :=
  plan ← coord (ReadCandidates key);
  get_loop key (rd_Metadata plan) (rd_Replicas plan).

Definition Delete (key : string) : GoM Service FileMetadata :=
  found ← meta_call (mb_GetFile key);
  match found with
  | None => fail ErrMetadataNotFound
  | Some meta =>
      deleted ← coord (DeleteFile key);
      for_each (range_keys (fm_Replicas meta)) (λ nodeID,
        deleteObjects nodeID key (fm_Version meta) (fm_Chunks meta));;
      mret deleted
  end.

Definition RunReplicationOnce : GoM Service (ReplicationTask * option GoError) :=
  zoom worker_of set_worker WorkOnce.

Definition ServiceMetadata (key : string) : GoM Service (option FileMetadata) :=
  meta_call (mb_GetFile key).

Definition ServicePendingTasks : GoM Service (list ReplicationTask) :=
  tasks ← try (coord PendingTasks);
  match tasks with
  | Ok tasks => mret tasks
  | Err _ => mret []
  | Panic => panic
  end.

Definition ServicePlanRepair : GoM Service (list ReplicationTask) := coord PlanRepair.

Definition ServiceRequeueExpired : GoM Service (list ReplicationTask) :=
  coord RequeueExpiredReplicationTasks.

Definition ServiceMarkExpiredNodes (ttl : Duration) : GoM Service unit :=
  meta_call (mb_MarkExpiredNodes ttl).

Definition ServiceNodes : GoM Service (list NodeMetadata) := meta_call mb_Nodes.

(** The body of the loop of [Metrics] over the files. *)
Definition count_file (m : ServiceMetrics) (file : FileMetadata) : ServiceMetrics := {|
  me_Files := (me_Files m + 1)%Z;
  me_DeletedFiles := if fm_Deleted file then (me_DeletedFiles m + 1)%Z else me_DeletedFiles m;
  me_PendingTasks := me_PendingTasks m;
  me_ReplicationTasks := me_ReplicationTasks m;
  me_Nodes := me_Nodes m;
  me_Replicas := foldl incr (me_Replicas m) (rm_State <$> range_values (fm_Replicas file))
|}.

Definition Metrics : GoM Service ServiceMetrics :=
  nodes ← meta_call mb_Nodes;
  files ← meta_call mb_ListFiles;
  taskStats ← coord ReplicationTaskStats;
  pending ← ServicePendingTasks;
  let metrics := {|
    me_Files := 0; me_DeletedFiles := 0; me_PendingTasks := zlen pending;
    me_ReplicationTasks := taskStats;
    me_Nodes := foldl incr ∅ (nm_State <$> nodes); me_Replicas := ∅ |} in
  mret (foldl count_file metrics files).
End operations.

(** ** The other constructors *)

Definition NewManagedFileServiceWithMetadata `{MetadataBackend B} `{ObjectStore OS}
    (replicaCount : Z) (objects : OS) (metadata : B) (clock : Clock) (temp : TempDir) :
    ManagedFileService B MemoryReplicationTaskQueue OS :=
  NewManagedFileServiceWithMetadataAndQueue replicaCount objects metadata
    (NewMemoryReplicationTaskQueue clock) temp.

Definition NewManagedFileService `{ObjectStore OS} (replicaCount : Z) (objects : OS)
    (clock : Clock) (temp : TempDir) :
    ManagedFileService MetadataStore MemoryReplicationTaskQueue OS :=
  NewManagedFileServiceWithMetadata replicaCount objects (NewMetadataStore clock) clock temp.
