(* ===== verification/ServiceSpec.v ===== *)
(** * Properties of the managed file service.

    Proved against the interface laws: any metadata backend, task queue and
    object store that satisfy them. *)

From S2P Require Import Prelude Metadata Replication Backend MetadataSpec ReplicationSpec Names Hash Lifecycle Objects Staging Coordinator CoordinatorSpec Service.
From stdpp Require Import options.

(** ** Temporary files *)

Lemma temp_call_result td r td' :
  temp_call td = (r, td') → outcomes td' = outcomes td ∧ r ≠ Panic ∧ (temp_ok td → r = Ok tt).
Proof.
  unfold temp_call, temp_ok. intros [= <- <-]. split; [done|].
  destruct (outcomes td (used td)) eqn:E; split; try done. intros Hok. by rewrite Hok in E.
Qed.

Lemma temp_call_ok td : temp_ok td → ∃ td', temp_call td = (Ok tt, td') ∧ temp_ok td'.
Proof.
  intros Hok. unfold temp_call. rewrite Hok. eexists. split; [done|]. done.
Qed.

Lemma copy_temp_inv reads copied td r td' :
  copy_temp reads copied td = (r, td') →
  r ≠ Panic ∧ ∀ b, r = Ok b → ∃ d, drain reads = (d, None) ∧ b = copied ++ d.
Proof.
  revert copied td. induction reads as [|[data e] reads IH]; intros copied td Hrun; cbn in Hrun.
  { inv Hrun. split; [done|]. intros b [= <-]. exists []. by rewrite app_nil_r. }
  assert (∀ (r0 : Res ()) td0, (if decide (0 < length data) then temp_call else mret tt) td = (r0, td0) →
    r0 ≠ Panic) as Hcall.
  { intros r0 td0. case_decide; [by intros (_ & ? & _)%temp_call_result|by intros [= <- _]]. }
  go_step Hrun; [|by subst|by apply Hcall in Hc].
  destruct e as [[|e]|]; [|by inv Hrun|].
  - inv Hrun. split; [done|]. intros b [= <-]. by eexists.
  - apply IH in Hrun as [Hp Hok]. split; [done|]. intros b (d & Hd & ->)%Hok.
    exists (data ++ d). cbn. rewrite Hd. by rewrite app_assoc.
Qed.

Lemma copy_temp_ok reads copied d td :
  temp_ok td → drain reads = (d, None) →
  ∃ td', copy_temp reads copied td = (Ok (copied ++ d), td') ∧ temp_ok td'.
Proof.
  revert copied d td. induction reads as [|[data e] reads IH]; intros copied d td Htd Hd; cbn in Hd.
  { injection Hd as <-. exists td. by rewrite app_nil_r. }
  assert (∃ td1, (if decide (0 < length data) then temp_call else mret tt) td = (Ok tt, td1) ∧
    temp_ok td1) as (td1 & H1 & Htd1).
  { case_decide; [by apply temp_call_ok|by eexists]. }
  cbn [copy_temp]. rewrite (gom_bind_ok _ _ _ _ _ H1).
  destruct e as [[|e]|]; [|done|].
  - injection Hd as <-. by eexists.
  - destruct (drain reads) as [rest e] eqn:E. injection Hd as <- ->.
    destruct (IH (copied ++ data) rest td1 Htd1 eq_refl) as (td2 & -> & ?).
    rewrite <-app_assoc. by eexists.
Qed.

Lemma temp_section_inv file offset n td r td' :
  temp_section file offset n td = (r, td') →
  ∃ rd, r = Ok rd ∧ ∀ d, drain (r_reads rd) = (d, None) →
    d = take (Z.to_nat n) (drop (Z.to_nat offset) file).
Proof.
  intros Hrun. unfold temp_section in Hrun. go_step Hrun.
  - go_step Hc; [|done]. injection Hr as ->.
    destruct r0 as [[]|e|]; [..|done]; injection Hrun as <- _; eexists; (split; [done|]); cbn.
    + intros d [= <-]. by rewrite app_nil_r.
    + done.
  - go_step Hc; done.
  - go_step Hc; [done|]. by apply temp_call_result in Hc as (_ & ? & _).
Qed.

Lemma temp_section_ok file offset n td :
  temp_ok td → ∃ td', temp_section file offset n td =
    (Ok (reader_of (take (Z.to_nat n) (drop (Z.to_nat offset) file))), td') ∧ temp_ok td'.
Proof.
  intros Htd. unfold temp_section. destruct (temp_call_ok td Htd) as (td' & Hc & ?).
  rewrite (gom_bind_ok _ _ _ _ _ (try_run _ _ _ _ Hc ltac:(done))). by eexists.
Qed.

Lemma temp_seek_ok offset td :
  temp_ok td → (0 ≤ offset)%Z → ∃ td', temp_seek offset td = (Ok tt, td') ∧ temp_ok td'.
Proof.
  intros Htd Ho. unfold temp_seek. destruct (temp_call_ok td Htd) as (td' & Hc & ?).
  rewrite (gom_bind_ok _ _ _ _ _ Hc). rewrite (proj2 (Z.ltb_ge _ _)) by done. by eexists.
Qed.

(** ** What a node holds of a file *)

Section holds.
Context {OS : Type} `{ObjectStoreLaws OS}.

(** The addresses of the objects of a version on a node. *)
Definition version_addrs (node key : string) (v : Z) (chunks : list ChunkMetadata) : list Address :=
  if decide (length chunks = 0) then [addr node key v] else chunk_addr node key v <$> chunks.

(** The node holds the content [data] of the version: the object itself for a
    file without a manifest, or every chunk, each matching the manifest. *)
Definition holds (s : OS) (node key : string) (v : Z) (chunks : list ChunkMetadata) (data : bytes) :
    Prop :=
  if decide (length chunks = 0) then object_at s (addr node key v) = Some data
  else ∃ ds, version_stored s node key v chunks ds ∧ data = concat ds.

(** Whether a node holds a version depends on the objects of the version. *)
Lemma holds_local s s' node key v chunks data :
  (∀ a, a ∈ version_addrs node key v chunks → object_at s' a = object_at s a) →
  holds s node key v chunks data → holds s' node key v chunks data.
Proof.
  unfold holds, version_addrs. case_decide as Hl; [intros Hs <-; apply Hs; by left|]. clear Hl.
  intros Hs (ds & Hv & ->). exists ds. split; [|done].
  induction Hv as [|c d cs ds [Hc1 Hc2] Hv IH]; constructor.
  - split; [|done]. rewrite <-Hc1. apply Hs. by left.
  - apply IH. intros a Ha. apply Hs. by right.
Qed.

Lemma holds_agree A s s' node key v chunks data :
  agree_outside A s s' → (∀ a, a ∈ version_addrs node key v chunks → a ∉ A) →
  holds s node key v chunks data → holds s' node key v chunks data.
Proof. intros Hs HA. apply holds_local. intros a Ha. apply Hs. by apply HA. Qed.
End holds.

(** ** The data plane *)

Section data_plane.
Context {B Q OS : Type} `{HB : MetadataBackend B} `{HQ : ReplicationTaskQueue Q}
  `{HO : ObjectStoreLaws OS}.
Abbreviation Service := (ManagedFileService B Q OS).
Implicit Types (s : Service).

(** A step that leaves the control plane alone, touches no object outside [A]
    and keeps the temporary directory's script. *)
Definition data_step (A : list Address) (s s' : Service) : Prop :=
  sv_coordinator s' = sv_coordinator s ∧ agree_outside A (sv_objects s) (sv_objects s').

#[export] Instance data_step_preorder A : PreOrder (data_step A).
Proof.
  split; [by intros s; split|]. intros s1 s2 s3 [H1 H2] [H3 H4].
  split; [congruence|by eapply agree_trans].
Qed.

Lemma data_step_mono A A' s s' : data_step A s s' → A ⊆ A' → data_step A' s s'.
Proof. intros [? ?] ?. split; [done|by eapply agree_mono]. Qed.

Lemma temp_data A {X} (m : GoM TempDir X) : respects (data_step A) (temp m : GoM Service X).
Proof. intros s r s' (td & _ & ->)%zoom_inv. by split. Qed.

Lemma objs_data A {X} (m : GoM OS X) :
  only_touches A m → respects (data_step A) (objs m : GoM Service X).
Proof. intros Hm s r s' (o & Hrun & ->)%zoom_inv. split; [done|]. by eapply Hm. Qed.

Lemma deleteObjects_data node key v chunks A :
  version_addrs node key v chunks ⊆ A →
  respects (data_step A) (deleteObjects node key v chunks : GoM Service _).
Proof.
  unfold version_addrs, deleteObjects. case_decide; intros HA.
  - apply respects_ignore, objs_data, touches_delete. apply HA. by left.
  - apply respects_for_each; [apply _|]. intros c Hc.
    apply respects_ignore, objs_data, touches_delete, HA.
    by apply (list_elem_of_fmap_2 (chunk_addr node key v)).
Qed.

Lemma write_chunk_data node key v staged chunks c A :
  c ∈ chunks → version_addrs node key v chunks ⊆ A →
  respects (data_step A) (write_chunk node key v staged chunks c : GoM Service _).
Proof.
  intros Hc HA. unfold write_chunk.
  respects_step ltac:(first [ apply temp_data | by apply deleteObjects_data | apply objs_data ]).
  apply touches_write, HA. unfold version_addrs.
  rewrite decide_False; [|intros E%length_zero_iff_nil; set_solver].
  by apply (list_elem_of_fmap_2 (chunk_addr node key v)).
Qed.

Lemma writeChunks_data node key v staged chunks :
  respects (data_step (version_addrs node key v chunks))
    (writeChunks node key v staged chunks : GoM Service _).
Proof.
  unfold writeChunks. case_decide as Hl.
  - respects_step ltac:(first [ apply temp_data | apply objs_data ]).
    apply touches_write. unfold version_addrs. rewrite decide_True by done. by left.
  - apply respects_for_each; [apply _|]. intros c Hc. by apply write_chunk_data.
Qed.

Lemma stage_chunk_data node meta acc c :
  respects (data_step []) (stage_chunk node meta acc c : GoM Service _).
Proof.
  unfold stage_chunk. destruct acc.
  respects_step ltac:(first [ apply temp_data | apply objs_data, touches_read ]).
Qed.

Lemma stageReplica_data node meta :
  respects (data_step []) (stageReplica node meta : GoM Service _).
Proof.
  unfold stageReplica.
  respects_step ltac:(first [ apply temp_data | apply objs_data, touches_read
    | apply stage_chunk_data ]).
Qed.

(** *** Reading a replica back *)

Lemma stage_chunk_ok node meta staged total c s acc s' :
  stage_chunk node meta (staged, total) c s = (Ok acc, s') →
  ∃ d, acc = (staged ++ d, (total + zlen d)%Z) ∧
    chunk_stored (sv_objects s) node (fm_Key meta) (fm_Version meta) c d.
Proof.
  intros Hrun. unfold stage_chunk in Hrun. go_step Hrun; [|done..]. destruct a as [size r].
  apply zoom_inv in Hc as (o & Hread & ->). apply read_law in Hread as (_ & _ & Hat).
  go_step Hrun; [|done..]. apply zoom_inv in Hc as (td & Hcopy & ->).
  apply copy_temp_inv in Hcopy as [_ Hd]. destruct (Hd _ eq_refl) as (d & Hdrain & ->).
  cbn in Hrun. destruct (r_close r); [done|].
  destruct (bool_decide_reflect (zlen d ≠ cm_Size c)) as [|Hsz]; [done|].
  destruct (bool_decide_reflect (checksumBytes d ≠ cm_Checksum c)) as [|Hck]; [done|].
  apply dec_stable in Hsz, Hck. inv Hrun. exists d. split; [done|].
  split; [by eapply Hat|done].
Qed.

Lemma agree_nil_stored (o o' : OS) node key v chunks ds :
  agree_outside [] o o' → version_stored o' node key v chunks ds →
  version_stored o node key v chunks ds.
Proof.
  intros Ho. apply (version_stored_agree []); [|set_solver].
  intros a Ha. symmetry. by apply Ho.
Qed.

Lemma stage_loop_ok node meta chunks staged total s acc s' :
  for_fold chunks (staged, total) (stage_chunk node meta) s = (Ok acc, s') →
  ∃ ds, acc = (staged ++ concat ds, (total + zlen (concat ds))%Z) ∧
    version_stored (sv_objects s) node (fm_Key meta) (fm_Version meta) chunks ds.
Proof.
  revert staged total s. induction chunks as [|c chunks IH]; intros staged total s Hrun;
    cbn [for_fold] in Hrun.
  { inv Hrun. exists []. cbn. rewrite app_nil_r, Z.add_0_r. by split; [|constructor]. }
  go_step Hrun; [|done..]. pose proof (stage_chunk_data _ _ _ _ _ _ _ Hc) as [_ Hd].
  apply stage_chunk_ok in Hc as (d & -> & Hst).
  apply IH in Hrun as (ds & -> & Hv). exists (d :: ds). cbn.
  rewrite zlen_app, <-app_assoc, Z.add_assoc. split; [done|].
  constructor; [done|]. by eapply agree_nil_stored.
Qed.

(** A replica that stages is one the node holds, of the size and the checksum
    of the metadata. *)
Lemma stageReplica_ok node meta s data s' :
  stageReplica node meta s = (Ok data, s') →
  holds (sv_objects s) node (fm_Key meta) (fm_Version meta) (fm_Chunks meta) data ∧
  zlen data = fm_Size meta ∧ checksumBytes data = fm_Checksum meta.
Proof.
  intros Hrun. unfold stageReplica, holds in *. case_decide.
  - go_step Hrun; [|done..]. destruct a as [size r].
    apply zoom_inv in Hc as (o & Hread & ->). apply read_law in Hread as (_ & _ & Hat).
    go_step Hrun; [|done..]. apply zoom_inv in Hc as (td & Hstage & ->).
    apply stage_spec in Hstage as [_ (d & Hdr & ->)]; [|done]. cbn [st_size st_checksum st_file] in *.
    cbn in Hrun. destruct (r_close r); [done|].
    destruct (bool_decide_reflect (zlen d ≠ fm_Size meta)) as [|Hsz]; [done|].
    destruct (bool_decide_reflect (checksumBytes d ≠ fm_Checksum meta)) as [|Hck]; [done|].
    apply dec_stable in Hsz, Hck. inv Hrun. eauto.
  - go_step Hrun; [|done..]. apply temp_data with (A := []) in Hc as [_ Hd].
    go_step Hrun; [|done..]. destruct a0 as [staged total].
    apply stage_loop_ok in Hc as (ds & [= -> ->] & Hv).
    cbn in Hrun. rewrite Z.add_0_l in Hrun.
    destruct (bool_decide_reflect (zlen (concat ds) ≠ fm_Size meta)) as [|Hsz]; [done|].
    destruct (bool_decide_reflect (checksumBytes (concat ds) ≠ fm_Checksum meta)) as [|Hck]; [done|].
    apply dec_stable in Hsz, Hck. inv Hrun. split; [|done]. exists ds. split; [|done].
    by eapply agree_nil_stored.
Qed.

(** *** Writing a version *)

Lemma write_chunk_ok node key v file chunks c s s' :
  write_chunk node key v file chunks c s = (Ok tt, s') →
  object_at (sv_objects s') (chunk_addr node key v c) = Some (chunk_slice file c) ∧
  zlen (chunk_slice file c) = cm_Size c ∧ data_step [chunk_addr node key v c] s s'.
Proof.
  intros Hrun. unfold write_chunk in Hrun.
  go_step Hrun; [|done..]. go_step Hc; [|done]. injection Hr as ->.
  apply (temp_data [chunk_addr node key v c]) in Hc.
  destruct r as [[]|e|]; [|by go_step Hrun|done].
  go_step Hrun; [|done..]. pose proof Hc0 as Hd0. apply (temp_data [chunk_addr node key v c]) in Hd0.
  apply zoom_inv in Hc0 as (td & Hsec & _). apply temp_section_inv in Hsec as (rd & [= <-] & Hsec).
  go_step Hrun; [|done..]. go_step Hc0; [|done]. injection Hr as ->.
  destruct r as [n|e|]; [|by go_step Hrun|done].
  pose proof Hc0 as Hd1. apply (objs_data [chunk_addr node key v c]) in Hd1;
    [|apply touches_write; by left].
  apply zoom_inv in Hc0 as (o & Hw & E). apply write_law in Hw as (_ & _ & Hok).
  destruct (Hok n eq_refl) as (d & Hdr & -> & Hat). apply Hsec in Hdr as ->.
  revert Hrun. case_decide as Hn; intros Hrun; [|by go_step Hrun]. injection Hrun as <-.
  subst s2. split; [done|]. split; [done|]. etrans; [exact Hc|]. by etrans.
Qed.

Lemma write_loop_ok node key v file chunks todo s s' :
  NoDup (chunk_addr node key v <$> todo) →
  (∀ c, c ∈ todo → checksumBytes (chunk_slice file c) = cm_Checksum c) →
  for_each todo (write_chunk node key v file chunks) s = (Ok tt, s') →
  version_stored (sv_objects s') node key v todo (chunk_slice file <$> todo).
Proof.
  revert s. induction todo as [|c todo IH]; intros s Hnd Hck Hrun; cbn [for_each] in Hrun.
  { constructor. }
  go_step Hrun; [|done..]. destruct a. apply write_chunk_ok in Hc as (Hat & Hsz & _).
  rewrite fmap_cons in Hnd. apply NoDup_cons in Hnd as [Hout Hnd].
  assert (data_step (chunk_addr node key v <$> todo) s0 s') as [_ Hag].
  { clear -Hrun. revert s0 Hrun. induction todo as [|c todo IH]; intros s Hrun; cbn [for_each] in Hrun.
    { by injection Hrun as <-. }
    go_step Hrun; [|done..]. destruct a. apply write_chunk_ok in Hc as (_ & _ & Hd).
    rewrite fmap_cons. etrans; [eapply data_step_mono; [exact Hd|set_solver]|].
    eapply data_step_mono; [by apply IH|set_solver]. }
  rewrite fmap_cons. constructor.
  - split; [by rewrite Hag|]. split; [done|]. apply Hck. by left.
  - eapply IH; [done| |done]. intros c' Hc'. apply Hck. by right.
Qed.

Lemma writeChunks_ok node key v file limit s s' :
  (0 < limit)%Z →
  let chunks := manifest limit file in
  NoDup (chunk_addr node key v <$> chunks) →
  writeChunks node key v file chunks s = (Ok tt, s') →
  holds (sv_objects s') node key v chunks file.
Proof.
  intros Hlim chunks Hnd Hrun.
  assert (length chunks ≠ 0) as Hne by (intros E%length_zero_iff_nil; by eapply manifest_nonempty).
  unfold writeChunks, holds in *. case_decide; [done|].
  exists (chunk_slice file <$> chunks). split.
  - eapply write_loop_ok; [done| |exact Hrun]. intros c [i Hi]%list_elem_of_lookup.
    pose proof (manifest_slice _ Hlim _ _ _ Hi) as Hs.
    apply manifest_lookup in Hi as (p & Hp & ->). rewrite Hp in Hs. injection Hs as <-. done.
  - unfold chunks. rewrite manifest_slices by done. by rewrite concat_pieces.
Qed.
End data_plane.

(** ** The data plane on a reliable store *)

Section reliable.
Context {B Q OS : Type} `{HB : MetadataBackend B} `{HQ : ReplicationTaskQueue Q}
  `{HR : ReliableObjectStore OS}.
Abbreviation Service := (ManagedFileService B Q OS).
Implicit Types (s : Service).

(** The store serves and no temporary file call fails. *)
Definition data_ready (s : Service) : Prop := os_ready (sv_objects s) ∧ temp_ok (sv_temp s).

Lemma temp_ready {X} (m : GoM TempDir X) x s :
  (∃ td, m (sv_temp s) = (Ok x, td) ∧ temp_ok td) → data_ready s →
  ∃ s', temp m s = (Ok x, s') ∧ data_ready s' ∧ sv_objects s' = sv_objects s.
Proof.
  intros (td & Hm & Htd) [Hs _]. exists (set_temp td s). split; [|done].
  unfold temp. by rewrite (zoom_run _ _ _ _ _ _ Hm).
Qed.

Lemma write_chunk_reliable node key v file chunks c s :
  serves_file node key v → data_ready s → (0 ≤ cm_Offset c)%Z → zlen (chunk_slice file c) = cm_Size c →
  ∃ s', write_chunk node key v file chunks c s = (Ok tt, s') ∧ data_ready s'.
Proof using HR.
  intros [_ Hn] Hs Ho Hsz. unfold write_chunk.
  destruct (temp_ready _ _ s (temp_seek_ok (cm_Offset c) _ (proj2 Hs) Ho) Hs) as (s1 & H1 & Hs1 & _).
  rewrite (gom_bind_ok _ _ _ _ _ (try_run _ _ _ _ H1 ltac:(done))).
  destruct (temp_ready _ _ s1 (temp_section_ok file (cm_Offset c) (cm_Size c) _ (proj2 Hs1)) Hs1)
    as (s2 & H2 & [Ho2 Ht2] & _).
  rewrite (gom_bind_ok _ _ _ _ _ H2).
  destruct (reliable_write node (chunkObjectKey key (cm_Index c)) v (reader_of (chunk_slice file c))
    (sv_objects s2) (chunk_slice file c)) as (o & Hw & Hready); [done|done|cbn; by rewrite app_nil_r|].
  apply (zoom_run (S := Service) sv_objects set_objects) in Hw.
  rewrite (gom_bind_ok _ _ _ _ _ (try_run _ _ _ _ Hw ltac:(done))).
  rewrite decide_True by done. eexists. split; [done|]. by split.
Qed.

Lemma writeChunks_reliable node key v file limit s :
  (0 < limit)%Z → serves_file node key v → data_ready s →
  ∃ s', writeChunks node key v file (manifest limit file) s = (Ok tt, s') ∧ data_ready s'.
Proof using HR.
  intros Hlim Hn Hs. unfold writeChunks.
  rewrite decide_False by (intros E%length_zero_iff_nil; by eapply manifest_nonempty).
  generalize (manifest limit file) at 2 as chunks. intros chunks.
  assert (∀ c, c ∈ manifest limit file →
    (0 ≤ cm_Offset c)%Z ∧ zlen (chunk_slice file c) = cm_Size c) as Hc.
  { intros c [i Hi]%list_elem_of_lookup. pose proof (manifest_slice _ Hlim _ _ _ Hi) as Hsl.
    apply manifest_lookup in Hi as (p & Hp & ->). rewrite Hp in Hsl. injection Hsl as <-.
    cbn. split; [lia|done]. }
  revert s Hs Hc. induction (manifest limit file) as [|c todo IH]; intros s Hs Hc; cbn [for_each].
  { by eexists. }
  destruct (Hc c) as [Hoff Hsz]; [by left|].
  destruct (write_chunk_reliable node key v file chunks c s) as (s1 & H1 & Hs1); [done..|].
  rewrite (gom_bind_ok _ _ _ _ _ H1). apply IH; [done|]. intros c' ?. apply Hc. by right.
Qed.

Lemma objs_read_reliable node k v data s :
  os_serves node k v → data_ready s → object_at (sv_objects s) (addr node k v) = Some data →
  ∃ size r s', objs (ReadObject node k v) s = (Ok (size, r), s') ∧
    drain (r_reads r) = (data, None) ∧ r_close r = None ∧ data_ready s'.
Proof using HR.
  intros Hn [Hs Ht] Hat. destruct (reliable_read _ _ _ _ _ Hn Hs Hat) as (size & r & o & Hr & ?&?&?).
  exists size, r, (set_objects o s). unfold objs. by rewrite (zoom_run _ _ _ _ _ _ Hr).
Qed.

Lemma stage_chunk_reliable node meta acc c d s :
  serves_file node (fm_Key meta) (fm_Version meta) → data_ready s →
  chunk_stored (sv_objects s) node (fm_Key meta) (fm_Version meta) c d →
  ∃ s', stage_chunk node meta acc c s = (Ok (acc.1 ++ d, (acc.2 + zlen d)%Z), s') ∧ data_ready s'.
Proof using HR.
  intros [_ Hn] Hs (Hat & Hsz & Hck). destruct acc as [staged total]. unfold stage_chunk.
  destruct (objs_read_reliable _ _ _ _ _ (Hn _) Hs Hat) as (size & r & s1 & H1 & Hd & Hcl & Hs1).
  rewrite (gom_bind_ok _ _ _ _ _ H1).
  destruct (temp_ready _ _ s1 (copy_temp_ok _ [] _ _ (proj2 Hs1) Hd) Hs1) as (s2 & H2 & Hs2 & _).
  rewrite (gom_bind_ok _ _ _ _ _ H2), Hcl. cbn [app].
  rewrite !bool_decide_eq_false_2 by tauto. cbn [orb]. by eexists.
Qed.

Lemma stage_loop_reliable node meta chunks ds acc s :
  serves_file node (fm_Key meta) (fm_Version meta) → data_ready s →
  version_stored (sv_objects s) node (fm_Key meta) (fm_Version meta) chunks ds →
  ∃ s', for_fold chunks acc (stage_chunk node meta) s =
      (Ok (acc.1 ++ concat ds, (acc.2 + zlen (concat ds))%Z), s') ∧ data_ready s'.
Proof using HR.
  intros Hn. revert ds acc s. induction chunks as [|c chunks IH]; intros ds acc s Hs Hv.
  { apply Forall2_nil_inv_l in Hv as ->. exists s. cbn. rewrite app_nil_r, Z.add_0_r.
    by destruct acc. }
  apply Forall2_cons_inv_l in Hv as (d & ds' & Hd & Hv & ->).
  destruct (stage_chunk_reliable node meta acc c d s) as (s1 & H1 & Hs1); [done..|].
  cbn [for_fold]. rewrite (gom_bind_ok _ _ _ _ _ H1).
  apply stage_chunk_data in H1 as [_ Hag].
  destruct (IH ds' (acc.1 ++ d, (acc.2 + zlen d)%Z) s1) as (s2 & -> & Hs2); [done|..].
  { eapply version_stored_agree; [exact Hag|set_solver|done]. }
  exists s2. cbn. by rewrite zlen_app, <-app_assoc, Z.add_assoc.
Qed.

(** A reliable store gives back what a node holds. *)
Lemma stageReplica_reliable node meta data s :
  serves_file node (fm_Key meta) (fm_Version meta) → data_ready s →
  holds (sv_objects s) node (fm_Key meta) (fm_Version meta) (fm_Chunks meta) data →
  zlen data = fm_Size meta → checksumBytes data = fm_Checksum meta →
  ∃ s', stageReplica node meta s = (Ok data, s') ∧ data_ready s'.
Proof using HR.
  intros Hn Hs Hh Hsz Hck. unfold stageReplica, holds in *. case_decide as Hl.
  - destruct (objs_read_reliable _ _ _ _ _ (proj1 Hn) Hs Hh) as (size & r & s1 & H1 & Hd & Hcl & Hs1).
    rewrite (gom_bind_ok _ _ _ _ _ H1).
    destruct (stage_total defaultChunkSize defaultChunkSize_pos _ _ _ (proj2 Hs1) Hd)
      as (td & Htd & Hst).
    destruct (temp_ready _ _ s1 (ex_intro _ td (conj Hst Htd)) Hs1) as (s2 & H2 & Hs2 & _).
    unfold stageReader. rewrite (gom_bind_ok _ _ _ _ _ H2), Hcl. cbn [st_size st_checksum st_file].
    rewrite !bool_decide_eq_false_2 by tauto. cbn [orb]. by eexists.
  - destruct Hh as (ds & Hv & ->).
    destruct (temp_ready _ _ s (temp_call_ok _ (proj2 Hs)) Hs) as (s1 & H1 & Hs1 & Ho1).
    rewrite (gom_bind_ok _ _ _ _ _ H1). rewrite <-Ho1 in Hv.
    destruct (stage_loop_reliable node meta _ ds ([], 0%Z) s1 Hn Hs1 Hv) as (s2 & H2 & Hs2).
    rewrite (gom_bind_ok _ _ _ _ _ H2). cbn [fst snd app]. rewrite Z.add_0_l.
    rewrite !bool_decide_eq_false_2 by tauto. cbn [orb]. by eexists.
Qed.
End reliable.
