(* ===== verification/ServiceProps.v ===== *)
(** * The guarantees of the managed file service.

    Integrity of reads, the write/read round trip, atomicity of failed writes,
    deletion, and what one run of the worker establishes. *)

From S2P Require Import Prelude Metadata Replication Backend MetadataSpec ReplicationSpec Names Hash Lifecycle Objects Staging Coordinator CoordinatorSpec Service ServiceSpec.
From stdpp Require Import options.

(** ** Marking replicas *)

(** Two records of a file that differ in replica states and times only. *)
Definition same_content (m m' : FileMetadata) : Prop :=
  fm_Key m' = fm_Key m ∧ fm_Version m' = fm_Version m ∧ fm_Size m' = fm_Size m ∧
  fm_Checksum m' = fm_Checksum m ∧ fm_Primary m' = fm_Primary m ∧
  fm_Deleted m' = fm_Deleted m ∧ fm_Chunks m' = fm_Chunks m ∧
  dom (fm_Replicas m') = dom (fm_Replicas m).

#[export] Instance same_content_preorder : PreOrder same_content.
Proof.
  split; [done|]. intros m1 m2 m3 (?&?&?&?&?&?&?&?) (?&?&?&?&?&?&?&?). repeat split; congruence.
Qed.

(** The catalog changed in the replica states of one key only. *)
Definition marked (key : string) (c c' : Catalog) : Prop :=
  cat_nodes c' = cat_nodes c ∧
  (∀ k, k ≠ key → cat_files c' !! k = cat_files c !! k) ∧
  option_Forall2 same_content (cat_files c !! key) (cat_files c' !! key).

#[export] Instance marked_preorder key : PreOrder (marked key).
Proof.
  split.
  - intros c. split; [done|]. split; [done|]. destruct (cat_files c !! key); by constructor.
  - intros c1 c2 c3 (H1 & H2 & H3) (H4 & H5 & H6). split; [congruence|]. split.
    + intros k Hk. by rewrite H5, H2.
    + destruct H3 as [m1 m2 H12|]; inv H6; constructor. by trans m2.
Qed.

Lemma mark_replica_marked key n st t c : marked key c (cat_mark_replica key n st t c).2.
Proof.
  unfold cat_mark_replica. destruct (cat_files c !! key) as [meta|] eqn:E; [|done].
  destruct (fm_Replicas meta !! n) as [rep|] eqn:Er; [|done]. cbn.
  split; [done|]. split; [intros k Hk; cbn; by rewrite lookup_insert_ne|].
  cbn. rewrite E, lookup_insert_eq. constructor. repeat split. cbn.
  rewrite dom_insert_L. apply elem_of_dom_2 in Er. set_solver.
Qed.

Section service.
Context {B Q OS : Type} `{HB : MetadataBackendLaws B} `{HQ : ReplicationTaskQueueLaws Q}
  `{HO : ObjectStoreLaws OS}.
Abbreviation Service := (ManagedFileService B Q OS).
Implicit Types (s : Service).

Definition svc_catalog s : Catalog := coord_catalog (sv_coordinator s).
Definition svc_table s : TaskTable := coord_table (sv_coordinator s).

(** ** Reads *)

(** What a read may change: replica states of its key. *)
Definition read_step (key : string) s s' : Prop :=
  marked key (svc_catalog s) (svc_catalog s') ∧ svc_table s' = svc_table s ∧
  agree_outside [] (sv_objects s) (sv_objects s').

#[export] Instance read_step_preorder key : PreOrder (read_step key).
Proof.
  split; [by intros s|]. intros s1 s2 s3 (Hm & Ht & Ha) (Hm' & Ht' & Ha').
  split; [by etrans|]. split; [congruence|by etrans].
Qed.

Lemma data_read_step key s s' : data_step [] s s' → read_step key s s'.
Proof using Type*. intros [Hc Ho]. unfold read_step, svc_catalog, svc_table. by rewrite Hc. Qed.

Lemma mark_read_step key n st :
  respects (read_step key) (ignore (meta_call (mb_MarkReplica key n st)) : GoM Service _).
Proof using Type*.
  apply respects_ignore. intros s r s' (c & Hrun & ->)%zoom_inv.
  apply (on_metadata_inv _ _ _ _ _ (mb_MarkReplica_ref key n st)) in Hrun as (Ht & _ & _ & Hc).
  split; [|by split]. unfold svc_catalog; cbn.
  destruct Hc as [[t Hs]|(_ & -> & _)]; [|done].
  pose proof (mark_replica_marked key n st t (coord_catalog (sv_coordinator s))) as Hm.
  by rewrite Hs in Hm.
Qed.

Lemma get_loop_read_step key meta replicas :
  respects (read_step key) (get_loop key meta replicas : GoM Service _).
Proof using Type*.
  induction replicas as [|r replicas IH]; cbn [get_loop]; [apply respects_fail; apply _|].
  apply respects_bind; [apply _| |].
  { apply respects_try. intros s x s' Hrun. apply data_read_step. by eapply stageReplica_data. }
  intros [data|err|].
  - apply respects_bind; [apply _| |intros; apply respects_ret; apply _].
    intros s x s' Hrun. by apply data_read_step, (temp_data [] _ _ _ _ Hrun).
  - apply respects_bind; [apply _|apply mark_read_step|]. intros _. apply IH.
  - apply respects_panic, _.
Qed.

Lemma get_loop_ok key meta replicas s data m s' :
  get_loop key meta replicas s = (Ok (data, m), s') →
  m = meta ∧ zlen data = fm_Size meta ∧ checksumBytes data = fm_Checksum meta ∧
  ∃ r, r ∈ replicas ∧
    holds (sv_objects s) (rm_NodeID r) (fm_Key meta) (fm_Version meta) (fm_Chunks meta) data.
Proof using Type*.
  revert s. induction replicas as [|r replicas IH]; intros s Hrun; cbn [get_loop] in Hrun; [done|].
  go_step Hrun; [|done..]. go_step Hc; [|done]. injection Hr as ->.
  destruct r0 as [d|err|]; [..|done].
  - apply stageReplica_ok in Hc as (Hh & Hsz & Hck). go_step Hrun; [|done..]. injection Hrun as -> -> _.
    do 3 (split; [done|]). exists r. split; [by left|done].
  - apply stageReplica_data in Hc as Hd0. go_step Hrun; [|done..].
    apply mark_read_step in Hc0 as (_ & _ & Ha).
    apply IH in Hrun as (-> & ? & ? & r' & Hr' & Hh). do 3 (split; [done|]).
    exists r'. split; [by right|]. destruct Hd0 as [_ Ha0].
    eapply (holds_agree []); [|set_solver|exact Hh].
    intros a0 Ha'. by rewrite Ha, Ha0.
Qed.

(** *** Reads never panic *)

Lemma on_metadata_panic_free {A} (m : GoM B A) spec :
  refines catalog mb_fault m spec → (∀ t x, (spec t x).1 ≠ Panic) →
  panic_free (on_metadata m : GoM (MetadataCoordinator B Q) A).
Proof.
  intros Hr Hs c r c' (b & Hrun & ->)%zoom_inv.
  destruct (Hr _ _ _ Hrun) as [[t Ht]|(_ & _ & e & ->)]; [|done].
  specialize (Hs t (catalog (mc_metadata c))). by rewrite Ht in Hs.
Qed.

Lemma ReadCandidates_panic_free key :
  panic_free (ReadCandidates key : GoM (MetadataCoordinator B Q) _).
Proof using Type*.
  unfold ReadCandidates. panic_free_step ltac:(eapply on_metadata_panic_free;
    [apply mb_GetFile_ref|done]).
Qed.

Lemma temp_panic_free {A} (m : GoM TempDir A) :
  panic_free m → panic_free (temp m : GoM Service A).
Proof. intros Hm. by apply panic_free_zoom. Qed.
Lemma objs_panic_free {A} (m : GoM OS A) : panic_free m → panic_free (objs m : GoM Service A).
Proof. intros Hm. by apply panic_free_zoom. Qed.

Lemma read_panic_free n k v : panic_free (ReadObject n k v : GoM OS _).
Proof using HO. by intros s r s' [? _]%read_law. Qed.
Lemma write_panic_free n k v rd : panic_free (WriteObject n k v rd : GoM OS _).
Proof using HO. by intros s r s' [? _]%write_law. Qed.
Lemma delete_panic_free n k v : panic_free (DeleteObject n k v : GoM OS _).
Proof using HO. by intros s r s' [? _]%delete_law. Qed.
Lemma temp_call_panic_free : panic_free temp_call.
Proof. by intros td r td' (_ & ? & _)%temp_call_result. Qed.
Lemma copy_temp_panic_free reads copied : panic_free (copy_temp reads copied).
Proof. by intros td r td' [? _]%copy_temp_inv. Qed.
Lemma stageReader_panic_free reads : panic_free (stageReader reads).
Proof. intros td r td' [_ Hr]%stage_spec; [|done]. by destruct r. Qed.

Lemma stageReplica_panic_free node meta : panic_free (stageReplica node meta : GoM Service _).
Proof using HO.
  unfold stageReplica, stage_chunk.
  panic_free_step ltac:(first
    [ apply objs_panic_free, read_panic_free | apply temp_panic_free, temp_call_panic_free
    | apply temp_panic_free, copy_temp_panic_free | apply temp_panic_free, stageReader_panic_free ]).
Qed.

Lemma temp_seek_panic_free offset : panic_free (temp_seek offset).
Proof. unfold temp_seek. panic_free_step ltac:(apply temp_call_panic_free). Qed.

Lemma get_loop_panic_free key meta replicas :
  panic_free (get_loop key meta replicas : GoM Service _).
Proof using Type*.
  induction replicas as [|r replicas IH]; cbn [get_loop]; [apply panic_free_fail|].
  apply panic_free_try; [apply stageReplica_panic_free|..].
  - intros data. panic_free_step ltac:(apply temp_panic_free, temp_seek_panic_free).
  - intros e. apply panic_free_bind; [|by intros]. apply panic_free_ignore, panic_free_zoom.
    eapply on_metadata_panic_free; [apply mb_MarkReplica_ref|].
    intros t c. unfold cat_mark_replica. by repeat case_match.
Qed.
End service.

(** C2: whatever the object store answers (wrong bytes, missing chunks, read
    errors), the bytes [Get] returns have the size and the SHA-256 checksum of
    the current, live metadata of the key, and are what one of its healthy
    replicas holds, chunk by chunk; a read changes nothing but the states of
    replicas of its key, and never panics. *)
Theorem Get_integrity `{HB : MetadataBackendLaws B} `{HQ : ReplicationTaskQueueLaws Q}
    `{HO : ObjectStoreLaws OS} (s s' : ManagedFileService B Q OS) key r :
  coord_ok (sv_coordinator s) → Get key s = (r, s') →
  marked key (svc_catalog s) (svc_catalog s') ∧ svc_table s' = svc_table s ∧
  agree_outside [] (sv_objects s) (sv_objects s') ∧
  match r with
  | Ok (data, meta) =>
      cat_files (svc_catalog s) !! key = Some meta ∧ fm_Deleted meta = false ∧
      zlen data = fm_Size meta ∧ checksumBytes data = fm_Checksum meta ∧
      ∃ n rep, fm_Replicas meta !! n = Some rep ∧ rm_State rep = ReplicaHealthy ∧
        holds (sv_objects s) n key (fm_Version meta) (fm_Chunks meta) data
  | Err _ => True
  | Panic => False
  end.
Proof.
  intros [[Hwf _] _] Hrun. unfold Get in Hrun. go_step Hrun.
  2,3: apply zoom_inv in Hc as (c & Hrc & ->).
  2: { apply ReadCandidates_inv in Hrc as (Hcat & Ht & _). unfold svc_catalog, svc_table; cbn.
       rewrite Hcat, Ht. by subst. }
  2: by apply ReadCandidates_panic_free in Hrc.
  apply zoom_inv in Hc as (c & Hrc & ->).
  apply ReadCandidates_inv in Hrc as (Hcat & Ht & _ & _ & [Hplan|(_ & e & ?)]); [|done].
  pose proof Hrun as (Hm & Htab & Ha)%get_loop_read_step.
  unfold svc_catalog, svc_table in *; cbn in Hm, Htab, Ha. rewrite Hcat in Hm. rewrite Ht in Htab.
  do 3 (split; [done|]). destruct r as [[data meta]| |]; [|done|by apply get_loop_panic_free in Hrun].
  apply get_loop_ok in Hrun as (-> & Hsz & Hck & rep & Hrep & Hh).
  unfold read_plan_of in Hplan.
  destruct (cat_files (coord_catalog (sv_coordinator s)) !! key) as [meta|] eqn:E; [|done].
  destruct (fm_Deleted meta) eqn:Hd; [done|].
  pose proof (Hwf _ _ E) as Hf. pose proof (HealthyReplicas_NoDup _ _ Hf) as Hnd.
  pose proof (prioritizePrimary_perm meta _ Hnd) as Hperm.
  destruct (prioritizePrimary meta (HealthyReplicas meta)) as [|r0 l] eqn:Hp; [done|].
  injection Hplan as ->. cbn [rd_Metadata rd_Replicas] in *. do 4 (split; [done|]).
  rewrite Hperm in Hrep. apply HealthyReplicas_elem in Hrep as [[n Hn] Hst].
  destruct Hf as (Hkey & _ & Hids). exists n, rep. split; [done|]. split; [done|].
  by rewrite <-(Hids _ _ Hn), <-Hkey.
Qed.

(** ** Writes *)

(** What [PrepareWrite] returns for a staged upload. *)
Definition prepared_write (cat : Catalog) (plan : ReplicaPlan) (key : string) (data : bytes) :
    PreparedWrite := {|
  pw_Key := key; pw_Version := next_version cat key; pw_Size := zlen data;
  pw_Checksum := checksumBytes data; pw_Chunks := manifest defaultChunkSize data;
  pw_Primary := rp_Primary plan; pw_Replicas := rp_Replicas plan
|}.

(** The addresses a write of [data] uses. *)
Definition put_addrs `{ObjectStoreLaws OS} (cat : Catalog) (plan : ReplicaPlan) (key : string)
    (data : bytes) : list Address :=
  chunk_addr (nm_ID (rp_Primary plan)) key (next_version cat key) <$>
    manifest defaultChunkSize data.

Lemma version_addrs_manifest `{ObjectStoreLaws OS} node key v data :
  version_addrs node key v (manifest defaultChunkSize data) =
  chunk_addr node key v <$> manifest defaultChunkSize data.
Proof.
  unfold version_addrs. rewrite decide_False; [done|].
  intros E%length_zero_iff_nil. by eapply (manifest_nonempty _ defaultChunkSize_pos).
Qed.

Section writes.
Context {B Q OS : Type} `{HB : MetadataBackendLaws B} `{HQ : ReplicationTaskQueueLaws Q}
  `{HO : ObjectStoreLaws OS}.
Abbreviation Service := (ManagedFileService B Q OS).
Implicit Types (s : Service).

(** A step of the control plane that leaves catalog and tasks alone, or of the
    data plane within [A]. *)
Definition quiet (A : list Address) s s' : Prop :=
  coord_same (sv_coordinator s) (sv_coordinator s') ∧
  agree_outside A (sv_objects s) (sv_objects s').

#[export] Instance quiet_preorder A : PreOrder (quiet A).
Proof.
  split; [by intros s; split|]. intros s1 s2 s3 [Hc Ha] [Hc' Ha']. split; by etrans.
Qed.

Lemma data_quiet A s s' : data_step A s s' → quiet A s s'.
Proof using Type*. intros [Hc ?]. split; [by rewrite Hc|done]. Qed.
Lemma coord_quiet A {X} (m : GoM (MetadataCoordinator B Q) X) :
  respects coord_same m → respects (quiet A) (coord m : GoM Service X).
Proof. intros Hm s r s' (c & Hrun & ->)%zoom_inv. split; [by eapply Hm|done]. Qed.

Lemma quiet_mono A A' s s' : quiet A s s' → A ⊆ A' → quiet A' s s'.
Proof. intros [? ?] ?. split; [done|by eapply agree_mono]. Qed.

(** Up to [CommitWrite], a write is quiet: it has published nothing and has
    touched no object but those of the new version. *)
Lemma Put_inv key reads s r s' :
  Put key reads s = (r, s') →
  (quiet [] s s' ∧ ∀ meta, r ≠ Ok meta) ∨
  ∃ data plan s1, drain reads = (data, None) ∧
    Plan (mc_planner (sv_coordinator s)) (healthy_nodes (svc_catalog s)) = Ok plan ∧
    quiet (put_addrs (svc_catalog s) plan key data) s s1 ∧
    ((s' = s1 ∧ ∀ meta, r ≠ Ok meta) ∨
     ∃ rc s2, coord (CommitWrite (prepared_write (svc_catalog s) plan key data)) s1 = (rc, s2) ∧
       (NoDup (put_addrs (svc_catalog s) plan key data) →
          holds (sv_objects s2) (nm_ID (rp_Primary plan)) key (next_version (svc_catalog s) key)
            (manifest defaultChunkSize data) data) ∧
       match rc with
       | Ok wp => r = Ok (wp_Metadata wp) ∧ s' = s2
       | Err e => (∀ meta, r ≠ Ok meta) ∧
           data_step (put_addrs (svc_catalog s) plan key data) s2 s'
       | Panic => r = Panic ∧ s' = s2
       end).
Proof using Type*.
  unfold Put. intros Hrun. go_step Hrun.
  2,3: left; subst; split; [eapply data_quiet, temp_data; eassumption|done].
  pose proof (data_quiet _ _ _ (temp_data [] _ _ _ _ Hc)) as Hq0.
  apply zoom_inv in Hc as (td & Hst & Es0). apply stage_spec in Hst as [_ (data & Hdr & ->)]; [|done].
  cbn [st_size st_checksum st_chunks st_file] in Hrun.
  go_step Hrun; pose proof (coord_quiet [] _ (PrepareWrite_same _ _ _ _) _ _ _ Hc) as Hq1.
  2,3: left; subst r; split; [by etrans|done].
  right. apply zoom_inv in Hc as (c1 & Hprep & Es1).
  apply PrepareWrite_ok in Hprep as (plan & Hplan & ->).
  assert (sv_coordinator s0 = sv_coordinator s) as Ec0 by by rewrite Es0.
  rewrite Ec0 in *. fold (svc_catalog s) in *. fold (prepared_write (svc_catalog s) plan key data) in *.
  set (A := put_addrs (svc_catalog s) plan key data).
  assert (quiet A s s1) as Hqs1 by (eapply quiet_mono; [by etrans|set_solver]).
  exists data, plan. clear Hq0 Hq1 Es0 Ec0 Es1 c1 td. cbn [pw_Primary pw_Version prepared_write] in Hrun.
  go_step Hrun; pose proof (writeChunks_data _ _ _ _ _ _ _ _ Hc) as Hdw;
    rewrite version_addrs_manifest in Hdw.
  2,3: exists s'; do 2 (split; [done|]); split; [by etrans; [|apply data_quiet]|];
       left; split; [done|by subst].
  exists s2. do 2 (split; [done|]). split; [by etrans; [|apply data_quiet]|].
  right. destruct a.
  assert (NoDup A → holds (sv_objects s2) (nm_ID (rp_Primary plan)) key
    (next_version (svc_catalog s) key) (manifest defaultChunkSize data) data) as Hh.
  { intros Hnd. by eapply writeChunks_ok; [..|exact Hc]. }
  assert (∀ rc s3, coord (CommitWrite (prepared_write (svc_catalog s) plan key data)) s2 = (rc, s3) →
    sv_objects s3 = sv_objects s2) as Ho by by intros rc s3 (c & _ & ->)%zoom_inv.
  clear Hdw Hc. go_step Hrun; [|by go_step Hc|].
  - go_step Hc; [|done]. injection Hr as ->. pose proof (Ho _ _ Hc) as Eo.
    exists r0, s3. split; [done|]. rewrite Eo. split; [done|].
    destruct r0 as [wp|e|]; [by injection Hrun as <- <-| |done].
    assert (∀ X, respects (data_step A) (fail e : GoM Service X)) as Hf
      by (intros X; apply respects_fail, _).
    assert (data_step A s3 s') as Hd3.
    { eapply (respects_bind (data_step A)); [|intros; apply Hf|exact Hrun].
      apply deleteObjects_data. by rewrite version_addrs_manifest. }
    split; [|done]. go_step Hrun; [by inv Hrun|by subst|by subst].
  - go_step Hc; [done|]. pose proof (Ho _ _ Hc) as Eo. exists Panic, s'. by rewrite Eo.
Qed.
End writes.

Lemma commit_after_quiet `{HB : MetadataBackendLaws B} `{HQ : ReplicationTaskQueueLaws Q}
    `{HO : ObjectStoreLaws OS} A (s s1 s2 : ManagedFileService B Q OS) p rc :
  quiet A s s1 → coord (CommitWrite p) s1 = (rc, s2) →
  sv_objects s2 = sv_objects s1 ∧
  (quiet A s s2 ∧ (∃ e, rc = Err e) ∨
   ∃ t u, let meta := committed (svc_catalog s) p t in
     svc_catalog s2 =
       cat_set_files (svc_catalog s) (<[pw_Key p := meta]> (cat_files (svc_catalog s))) ∧
     match rc with
     | Ok wp => wp_Metadata wp = meta ∧ ∃ tasks, TasksForFile meta u = Ok tasks ∧
         svc_table s2 = enqueue_all (svc_table s) tasks
     | Err e => svc_table s2 = svc_table s ∧
         (TasksForFile meta u = Err e ∨ rq_fault (mc_tasks (sv_coordinator s1)))
     | Panic => False
     end).
Proof.
  intros [Hsame Ha] (c & Hrun & ->)%zoom_inv. split; [done|].
  pose proof Hsame as (Hcat & Htab & _).
  apply CommitWrite_inv in Hrun as [Hp [(_ & Hs & He)|(t & u & Hpub & Hr)]].
  - left. split; [|done]. split; [by etrans|done].
  - right. exists t, u. unfold svc_catalog, svc_table in *; cbn. rewrite <-Hcat, <-Htab.
    split; [done|]. destruct rc as [wp|e|]; [|done..].
    destruct Hr as (tasks & Ht & Htab' & ->). eauto.
Qed.

(** A committed record never lacks its primary, unless the primary's ID is
    empty. *)
Lemma committed_tasks_ok cat p t u e :
  head (pw_Replicas p) = Some (pw_Primary p) → nm_ID (pw_Primary p) ≠ "" →
  TasksForFile (committed cat p t) u ≠ Err e.
Proof.
  intros Hh Hne. unfold TasksForFile. rewrite decide_False by done. cbn.
  rewrite initial_replicas_lookup, decide_True; [done|].
  by apply list_elem_of_fmap_2, head_Some_elem_of.
Qed.

(** Everything a successful [Put] has done. *)
Definition put_outcome `{HB : MetadataBackendLaws B} `{HQ : ReplicationTaskQueueLaws Q}
    `{HO : ObjectStoreLaws OS} (key : string) (data : bytes) (plan : ReplicaPlan)
    (s : ManagedFileService B Q OS) (meta : FileMetadata) (s' : ManagedFileService B Q OS) : Prop :=
  ∃ t u tasks,
  Plan (mc_planner (sv_coordinator s)) (healthy_nodes (svc_catalog s)) = Ok plan ∧
  meta = committed (svc_catalog s) (prepared_write (svc_catalog s) plan key data) t ∧
  svc_catalog s' =
    cat_set_files (svc_catalog s) (<[key := meta]> (cat_files (svc_catalog s))) ∧
  TasksForFile meta u = Ok tasks ∧ svc_table s' = enqueue_all (svc_table s) tasks ∧
  agree_outside (put_addrs (svc_catalog s) plan key data) (sv_objects s) (sv_objects s') ∧
  (NoDup (put_addrs (svc_catalog s) plan key data) →
     holds (sv_objects s') (nm_ID (rp_Primary plan)) key (next_version (svc_catalog s) key)
       (manifest defaultChunkSize data) data).

Lemma Put_ok `{HB : MetadataBackendLaws B} `{HQ : ReplicationTaskQueueLaws Q}
    `{HO : ObjectStoreLaws OS} (s s' : ManagedFileService B Q OS) key reads meta :
  Put key reads s = (Ok meta, s') →
  ∃ data plan, drain reads = (data, None) ∧ put_outcome key data plan s meta s'.
Proof.
  intros [[_ Hno]|(data & plan & s1 & Hdr & Hplan & Hq & [[_ Hno]|(rc & s2 & Hcm & Hh & Hr)])]%Put_inv;
    [by destruct (Hno meta)|by destruct (Hno meta)|].
  destruct rc as [wp|e|]; [|by destruct Hr as [Hno _]; destruct (Hno meta)|by destruct Hr].
  destruct Hr as [[= ->] ->]. exists data, plan. split; [done|].
  destruct (commit_after_quiet _ _ _ _ _ _ Hq Hcm)
    as [Eo [[_ [e ?]]|(t & u & Hpub & -> & tasks & Ht & Htab)]]; [done|].
  unfold put_outcome. rewrite Eo in *. destruct Hq as [_ Ha]. by exists t, u, tasks.
Qed.

(** C10: a successful [Put] has read the whole stream, has stored it on the
    primary replica chunk by chunk, and has published one record: the next
    version of the key, with the size, the checksum and the chunk manifest of
    the bytes read; it has touched no object but the chunks of that version on
    the primary, so earlier versions are still there. *)
Theorem Put_publishes `{HB : MetadataBackendLaws B} `{HQ : ReplicationTaskQueueLaws Q}
    `{HO : ObjectStoreLaws OS} (s s' : ManagedFileService B Q OS) key reads meta :
  Put key reads s = (Ok meta, s') →
  ∃ data plan, drain reads = (data, None) ∧
  Plan (mc_planner (sv_coordinator s)) (healthy_nodes (svc_catalog s)) = Ok plan ∧
  svc_catalog s' =
    cat_set_files (svc_catalog s) (<[key := meta]> (cat_files (svc_catalog s))) ∧
  fm_Version meta = wrap_u64 (version_of (svc_catalog s) key + 1) ∧ fm_Deleted meta = false ∧
  fm_Size meta = zlen data ∧ fm_Checksum meta = checksumBytes data ∧
  fm_Chunks meta = manifest defaultChunkSize data ∧ fm_Primary meta = nm_ID (rp_Primary plan) ∧
  agree_outside (put_addrs (svc_catalog s) plan key data) (sv_objects s) (sv_objects s') ∧
  (NoDup (put_addrs (svc_catalog s) plan key data) →
     holds (sv_objects s') (fm_Primary meta) key (fm_Version meta) (fm_Chunks meta) data).
Proof.
  intros (data & plan & Hdr & t & u & tasks & Hplan & -> & Hpub & _ & _ & Ha & Hh)%Put_ok.
  exists data, plan. cbn. rewrite cloneChunkMetadata_id. do 9 (split; [done|]). done.
Qed.

(** C11: a [Put] that does not succeed publishes nothing: the catalog and the
    task queue are as before, and no object was touched but the chunks of the
    version that was being written.  It needs a queue that takes the tasks and
    node IDs that are not empty. *)
Theorem Put_failure_atomic `{HB : MetadataBackendLaws B} `{HQ : ReplicationTaskQueueLaws Q}
    `{HO : ObjectStoreLaws OS} (s s' : ManagedFileService B Q OS) key reads r :
  (∀ q : Q, rq_fault q → False) →
  (∀ n, n ∈ healthy_nodes (svc_catalog s) → nm_ID n ≠ "") →
  Put key reads s = (r, s') → (∀ meta, r ≠ Ok meta) →
  svc_catalog s' = svc_catalog s ∧ svc_table s' = svc_table s ∧
  (agree_outside [] (sv_objects s) (sv_objects s') ∨
   ∃ data plan, drain reads = (data, None) ∧
     Plan (mc_planner (sv_coordinator s)) (healthy_nodes (svc_catalog s)) = Ok plan ∧
     agree_outside (put_addrs (svc_catalog s) plan key data) (sv_objects s) (sv_objects s')).
Proof.
  intros Hnf Hids Hrun Hno.
  apply Put_inv in Hrun as [[[(Hc & Ht & _) Ha] _]|(data & plan & s1 & Hdr & Hplan & Hq & Hr)];
    [by auto|].
  assert (quiet (put_addrs (svc_catalog s) plan key data) s s') as [(Hc & Ht & _) Ha];
    [|by eauto 10].
  destruct Hr as [[-> _]|(rc & s2 & Hcm & _ & Hr)]; [done|].
  pose proof (Plan_ok_inv _ _ _ Hplan) as (_ & Hreps & Hh).
  assert (rp_Primary plan ∈ healthy_nodes (svc_catalog s)) as Hin.
  { apply head_Some_elem_of in Hh. rewrite Hreps in Hh. apply elem_of_take_sub in Hh.
    by apply healthy_sorted_elem in Hh as [? _]. }
  destruct (commit_after_quiet _ _ _ _ _ _ Hq Hcm)
    as [Eo [[Hq2 [e ->]]|(t & u & Hpub & Hm)]].
  - destruct Hr as [_ Hd]. etrans; [exact Hq2|by apply data_quiet].
  - destruct rc as [wp|e|]; [by destruct Hr as [-> _]; destruct (Hno (wp_Metadata wp))| |done].
    exfalso. destruct Hm as [_ [He|Hf]]; [|by eapply Hnf].
    eapply committed_tasks_ok; [..|exact He]; [done|by apply Hids].
Qed.

(** ** The round trip on a reliable system *)

Section round_trip.
Context {B Q OS : Type} `{HB : MetadataBackendLaws B} `{HQ : ReplicationTaskQueueLaws Q}
  `{HR : ReliableObjectStore OS}.
Context (no_mb_fault : ∀ b : B, mb_fault b → False) (no_rq_fault : ∀ q : Q, rq_fault q → False).
Abbreviation Service := (ManagedFileService B Q OS).
Implicit Types (s : Service).

Lemma on_metadata_total {A} (m : GoM B A) spec (c : MetadataCoordinator B Q) :
  refines catalog mb_fault m spec →
  ∃ t r c', on_metadata m c = (r, c') ∧ spec t (coord_catalog c) = (r, coord_catalog c') ∧
    mc_planner c' = mc_planner c.
Proof using no_mb_fault HB HQ.
  intros Hr. destruct (on_metadata m c) as [r c'] eqn:E.
  pose proof (on_metadata_inv _ _ _ _ _ Hr E) as (_ & Hp & _ & [[t Ht]|(Hf & _)]);
    [by exists t, r, c'|]. by apply no_mb_fault in Hf.
Qed.

Lemma PrepareWrite_total key size sum chunks plan (c : MetadataCoordinator B Q) :
  Plan (mc_planner c) (healthy_nodes (coord_catalog c)) = Ok plan →
  ∃ p c', PrepareWrite key size sum chunks c = (Ok p, c').
Proof using no_mb_fault HB HQ.
  intros Hplan. unfold PrepareWrite.
  destruct (on_metadata_total _ _ c mb_HealthyNodes_ref) as (t & r & c1 & R1 & [= <- Hc1] & Hp1).
  rewrite (gom_bind_ok _ _ _ _ _ R1), (gom_bind_ok (gets mc_planner) _ _ _ c1 eq_refl).
  rewrite (gom_bind_ok (lift_res _) _ c1 plan c1); [|unfold lift_res; by rewrite Hp1, <-Hplan].
  destruct (on_metadata_total _ _ c1 (mb_NextVersion_ref key)) as (t2 & r2 & c2 & R2 & [= <- _] & _).
  rewrite (gom_bind_ok _ _ _ _ _ R2). by eexists _, _.
Qed.

(** A [Put] on a reliable system succeeds. *)
Lemma Put_total key reads data plan s :
  data_ready s → drain reads = (data, None) →
  Plan (mc_planner (sv_coordinator s)) (healthy_nodes (svc_catalog s)) = Ok plan →
  nm_ID (rp_Primary plan) ≠ "" →
  serves_file (nm_ID (rp_Primary plan)) key (next_version (svc_catalog s) key) →
  ∃ meta s', Put key reads s = (Ok meta, s') ∧ data_ready s'.
Proof using no_mb_fault no_rq_fault HR HQ HB.
  intros Hs Hdr Hplan Hid Hn. unfold Put.
  destruct (stage_total defaultChunkSize defaultChunkSize_pos _ _ _ (proj2 Hs) Hdr) as (td & Htd & Hst).
  destruct (temp_ready _ _ s (ex_intro _ td (conj Hst Htd)) Hs) as (s1 & R1 & Hs1 & _).
  assert (sv_coordinator s1 = sv_coordinator s) as Ec1 by by apply (temp_data []) in R1 as [? _].
  unfold stageReader. rewrite (gom_bind_ok _ _ _ _ _ R1). cbn [st_size st_checksum st_chunks st_file].
  assert (Plan (mc_planner (sv_coordinator s1)) (healthy_nodes (coord_catalog (sv_coordinator s1)))
    = Ok plan) as Hplan1 by by rewrite Ec1.
  destruct (PrepareWrite_total key (zlen data) (checksumBytes data) (manifest defaultChunkSize data)
    plan _ Hplan1) as (p & c2 & R2).
  pose proof (PrepareWrite_ok _ _ _ _ _ _ _ R2) as (plan' & Hplan' & ->).
  rewrite Hplan1 in Hplan'. injection Hplan' as <-.
  apply (zoom_run (S := Service) sv_coordinator set_coordinator) in R2.
  rewrite (gom_bind_ok _ _ _ _ _ R2). cbn [pw_Primary pw_Version].
  set (s2 := set_coordinator c2 s1). assert (data_ready s2) as Hs2 by exact Hs1.
  destruct (writeChunks_reliable (nm_ID (rp_Primary plan)) key
    (next_version (coord_catalog (sv_coordinator s1)) key) data defaultChunkSize s2)
    as (s3 & R3 & Hs3); [done|by rewrite Ec1|done|].
  rewrite (gom_bind_ok _ _ _ _ _ R3).
  match goal with |- context [try (coord (CommitWrite ?p))] =>
    destruct (CommitWrite p (sv_coordinator s3)) as [rc c4] eqn:R4; set (prep := p) in * end.
  assert (∃ wp, rc = Ok wp) as [wp ->].
  { pose proof (Plan_ok_inv _ _ _ Hplan) as (_ & _ & Hh).
    pose proof R4 as [_ [(Hf & _)|(t & u & _ & Hrc)]]%CommitWrite_inv; [by apply no_mb_fault in Hf|].
    destruct rc as [wp|e|]; [by eexists| |done].
    exfalso. destruct Hrc as [_ [He|Hf]]; [|by eapply no_rq_fault].
    by eapply committed_tasks_ok; [..|exact He]. }
  apply (zoom_run (S := Service) sv_coordinator set_coordinator) in R4.
  rewrite (gom_bind_ok _ _ _ _ _ (try_run _ _ _ _ R4 ltac:(done))). by eexists _, _.
Qed.

(** [Get] returns what the healthy primary of the current version holds. *)
Lemma Get_primary key meta rep data s :
  data_ready s → cat_files (svc_catalog s) !! key = Some meta → file_wf key meta →
  fm_Deleted meta = false → fm_Primary meta ≠ "" → 
  serves_file (fm_Primary meta) key (fm_Version meta) →
  fm_Replicas meta !! fm_Primary meta = Some rep → rm_State rep = ReplicaHealthy →
  holds (sv_objects s) (fm_Primary meta) key (fm_Version meta) (fm_Chunks meta) data →
  zlen data = fm_Size meta → checksumBytes data = fm_Checksum meta →
  ∃ s', Get key s = (Ok (data, meta), s') ∧ data_ready s'.
Proof using no_mb_fault HR HQ HB.
  intros Hs Hfile Hwf Hdel Hp Hn Hrep Hst Hh Hsz Hck. unfold Get.
  destruct (ReadCandidates key (sv_coordinator s)) as [r c1] eqn:R1.
  pose proof R1 as (_ & _ & _ & _ & [->|(Hf & _)])%ReadCandidates_inv; [|by apply no_mb_fault in Hf].
  pose proof Hwf as (Hkey & _ & Hids). pose proof (HealthyReplicas_NoDup _ _ Hwf) as Hnd.
  assert (rep ∈ HealthyReplicas meta) as Hin by (apply HealthyReplicas_elem; eauto).
  pose proof (Hids _ _ Hrep) as Hnode.
  unfold read_plan_of in R1. unfold svc_catalog in Hfile. rewrite Hfile, Hdel in R1.
  rewrite (prioritizePrimary_shape meta _ Hnd Hp rep Hin Hnode) in R1.
  apply (zoom_run (S := Service) sv_coordinator set_coordinator) in R1.
  rewrite (gom_bind_ok _ _ _ _ _ R1). cbn [rd_Metadata rd_Replicas get_loop].
  destruct (stageReplica_reliable (rm_NodeID rep) meta data (set_coordinator c1 s))
    as (s2 & R2 & Hs2); [by rewrite Hnode, Hkey|done|by rewrite Hnode, Hkey|done..|].
  rewrite (gom_bind_ok _ _ _ _ _ (try_run _ _ _ _ R2 ltac:(done))).
  destruct (temp_ready _ _ s2 (temp_seek_ok 0 _ (proj2 Hs2) ltac:(done)) Hs2) as (s3 & R3 & Hs3 & _).
  rewrite (gom_bind_ok _ _ _ _ _ R3). by eexists.
Qed.
End round_trip.

(** A [Put] and the [Get] after it. *)
Lemma put_get_run `{HB : MetadataBackendLaws B} `{HQ : ReplicationTaskQueueLaws Q}
    `{HR : ReliableObjectStore OS} (s : ManagedFileService B Q OS) key reads data plan :
  (∀ b : B, mb_fault b → False) → (∀ q : Q, rq_fault q → False) →
  data_ready s → drain reads = (data, None) →
  Plan (mc_planner (sv_coordinator s)) (healthy_nodes (svc_catalog s)) = Ok plan →
  nm_ID (rp_Primary plan) ≠ "" →
  serves_file (nm_ID (rp_Primary plan)) key (next_version (svc_catalog s) key) →
  NoDup (put_addrs (svc_catalog s) plan key data) →
  ∃ meta s1 s2, Put key reads s = (Ok meta, s1) ∧ Get key s1 = (Ok (data, meta), s2) ∧
    fm_Version meta = wrap_u64 (version_of (svc_catalog s) key + 1) ∧ fm_Checksum meta = checksumBytes data ∧
    data_ready s2.
Proof.
  intros Hmb Hrq Hs Hdr Hplan Hid Hn Hnd.
  destruct (Put_total Hmb Hrq key reads data plan s Hs Hdr Hplan Hid Hn) as (meta & s1 & Hput & Hs1).
  exists meta, s1.
  pose proof Hput as (data' & plan' & Hdr' & t & u & tasks & Hplan' & Em & Hpub & _ & _ & _ & Hh)%Put_ok.
  rewrite Hdr in Hdr'. rewrite Hplan in Hplan'. injection Hdr' as <-. injection Hplan' as <-.
  pose proof (Plan_ok_inv _ _ _ Hplan) as (_ & _ & Hhead).
  destruct (Get_primary Hmb key meta
    {| rm_NodeID := nm_ID (rp_Primary plan); rm_State := ReplicaHealthy; rm_UpdatedAt := t |}
    data s1) as (s3 & Hget & Hs3); rewrite ?Em; try done.
  - rewrite Hpub, Em. apply lookup_insert_eq.
  - apply file_wf_new, wrap_u64_in.
  - unfold committed.
    cbn [new_file_version fm_Replicas fm_Primary prepared_write pw_Primary pw_Replicas].
    rewrite initial_replicas_lookup, decide_True, decide_True; [done|done|].
    by apply list_elem_of_fmap_2, head_Some_elem_of.
  - cbn. rewrite cloneChunkMetadata_id. by apply Hh.
  - exists s3. by rewrite Em in Hput, Hget.
Qed.

(** C1: on a system whose stores serve every call, and with at least one
    healthy node, [Put] of a stream succeeds and the [Get] that follows
    returns exactly the bytes of the stream with the metadata [Put] returned,
    whatever the sizes of the reads the stream came in.  The chunks of the
    version have to have distinct addresses on the primary. *)
Theorem Put_Get_roundtrip `{HB : MetadataBackendLaws B} `{HQ : ReplicationTaskQueueLaws Q}
    `{HR : ReliableObjectStore OS} (s : ManagedFileService B Q OS) key reads data plan :
  (∀ b : B, mb_fault b → False) → (∀ q : Q, rq_fault q → False) →
  data_ready s → drain reads = (data, None) →
  Plan (mc_planner (sv_coordinator s)) (healthy_nodes (svc_catalog s)) = Ok plan →
  nm_ID (rp_Primary plan) ≠ "" →
  serves_file (nm_ID (rp_Primary plan)) key (next_version (svc_catalog s) key) →
  NoDup (put_addrs (svc_catalog s) plan key data) →
  ∃ meta s1 s2, Put key reads s = (Ok meta, s1) ∧ Get key s1 = (Ok (data, meta), s2) ∧
    fm_Version meta = wrap_u64 (version_of (svc_catalog s) key + 1) ∧ data_ready s2.
Proof.
  intros Hmb Hrq Hs Hdr Hplan Hid Hn Hnd.
  destruct (put_get_run s key reads data plan Hmb Hrq Hs Hdr Hplan Hid Hn Hnd)
    as (meta & s1 & s2 & Hput & Hget & Hv & _ & Hs2). by exists meta, s1, s2.
Qed.
