(* ===== verification/WorkerProps.v ===== *)
(** * The worker, deletion, and histories of service calls.

    What one run of [WorkOnce] establishes, deletion, and the invariant of the
    control plane over arbitrary sequences of calls on the service. *)

From S2P Require Import Prelude Metadata Replication Backend MetadataSpec ReplicationSpec Names Hash Lifecycle Objects Staging Coordinator CoordinatorSpec Service ServiceSpec ServiceProps.
From stdpp Require Import options.

(** ** The worker *)

Section worker.
Context {B Q OS : Type} `{HB : MetadataBackendLaws B} `{HQ : ReplicationTaskQueueLaws Q}
  `{HO : ObjectStoreLaws OS}.
Abbreviation Worker := (ReplicationWorker B Q OS).
Abbreviation Service := (ManagedFileService B Q OS).
Implicit Types (w : Worker) (s : Service).

(** A task picked from [Pending] is in the table, pending, under its ID. *)
Lemma PendingTasks_ok (c c' : MetadataCoordinator B Q) pending :
  table_ok (coord_table c) → PendingTasks c = (Ok pending, c') →
  coord_catalog c' = coord_catalog c ∧ coord_table c' = coord_table c ∧
  (∀ task, task ∈ pending → coord_table c !! rt_ID task = Some task ∧
     rt_State task = ReplicationTaskPending).
Proof using Type*.
  intros Hok Hrun. apply (on_tasks_ok _ _ _ _ _ rq_Pending_ref) in Hrun as (Hc & _ & _ & t & [= <- Ht]).
  do 2 (split; [done|]). intros task. unfold pending_tasks.
  rewrite sortReplicationTasks_perm, list_elem_of_filter, elem_of_range_values.
  intros [[Hst _] [id Hid]]. pose proof (Hok _ _ Hid) as [E _]. by rewrite E.
Qed.


(** A task update that succeeds. *)
Lemma tab_update_ok id f t (ts ts' : TaskTable) task :
  tab_update id f t ts = (Ok task, ts') →
  ∃ t0, ts !! id = Some t0 ∧ task = f t0 t ∧ ts' = <[id := task]> ts.
Proof. unfold tab_update. destruct (ts !! id); intros [= <- <-]. eauto. Qed.

Lemma StartReplication_ok id (c c' : MetadataCoordinator B Q) task :
  StartReplication id c = (Ok task, c') →
  coord_catalog c' = coord_catalog c ∧ ∃ t t0, coord_table c !! id = Some t0 ∧
    task = runReplicationTask t0 t ∧ coord_table c' = <[id := task]> (coord_table c).
Proof using Type*.
  intros Hrun. apply (on_tasks_ok _ _ _ _ _ (rq_MarkRunning_ref id)) in Hrun
    as (Hc & _ & _ & t & (t0 & ?)%tab_update_ok). eauto.
Qed.

(** The catalog after a task is over: the replica of the task has a new state,
    the other replicas of the file are as they were. *)
Definition state_set (key n : string) (st : ReplicaState) (cat cat' : Catalog) : Prop :=
  ∃ meta meta' rep, cat_files cat !! key = Some meta ∧ cat_files cat' !! key = Some meta' ∧
    fm_Replicas meta' !! n = Some rep ∧ rm_State rep = st ∧
    ∀ n', n' ≠ n → fm_Replicas meta' !! n' = fm_Replicas meta !! n'.

Definition replica_marked (cat cat' : Catalog) (task : ReplicationTask) (st : ReplicaState) : Prop :=
  marked (rt_Key task) cat cat' ∧ state_set (rt_Key task) (rt_Target task) st cat cat'.

Lemma mark_replica_ok key n st u cat meta cat' :
  cat_mark_replica key n st u cat = (Ok meta, cat') →
  marked key cat cat' ∧ state_set key n st cat cat'.
Proof.
  intros Hrun. split.
  { pose proof (mark_replica_marked key n st u cat) as Hm. by rewrite Hrun in Hm. }
  unfold cat_mark_replica, state_set in *. destruct (cat_files cat !! key); [|done].
  destruct (fm_Replicas _ !! n); [|done]. injection Hrun as _ <-. cbn.
  eexists _, _, _. rewrite lookup_insert_eq. split; [done|]. split; [done|]. cbn.
  rewrite lookup_insert_eq. split; [done|]. split; [done|].
  intros n' Hn. by rewrite lookup_insert_ne.
Qed.

Lemma FinishReplication_ok id (c c' : MetadataCoordinator B Q) meta task :
  FinishReplication id c = (Ok (meta, task), c') →
  (∃ t t0, coord_table c !! id = Some t0 ∧ task = doneReplicationTask t0 t) ∧
  coord_table c' = <[id := task]> (coord_table c) ∧
  replica_marked (coord_catalog c) (coord_catalog c') task ReplicaHealthy.
Proof using Type*.
  unfold FinishReplication. intros Hrun. go_step Hrun; [|done..].
  apply (on_tasks_ok _ _ _ _ _ (rq_MarkDone_ref id)) in Hc
    as (Hc & _ & _ & t & (t0 & Ht0 & -> & Htab)%tab_update_ok).
  go_step Hrun; [|done..]. injection Hrun as -> <- <-.
  apply (on_metadata_ok _ _ _ _ _ (mb_MarkReplica_ref _ _ _)) in Hc0 as (Ht & _ & _ & u & Hm).
  split; [by eauto|]. split; [by rewrite Ht, Htab|]. rewrite <-Hc. by eapply mark_replica_ok.
Qed.

Lemma FailReplication_ok id cause (c c' : MetadataCoordinator B Q) meta task :
  FailReplication id cause c = (Ok (meta, task), c') →
  (∃ t t0, coord_table c !! id = Some t0 ∧ task = failReplicationTask t0 t cause) ∧
  coord_table c' = <[id := task]> (coord_table c) ∧
  replica_marked (coord_catalog c) (coord_catalog c') task ReplicaMissing.
Proof using Type*.
  unfold FailReplication. intros Hrun. go_step Hrun; [|done..].
  apply (on_tasks_ok _ _ _ _ _ (rq_MarkFailed_ref id cause)) in Hc
    as (Hc & _ & _ & t & (t0 & Ht0 & -> & Htab)%tab_update_ok).
  go_step Hrun; [|done..]. injection Hrun as -> <- <-.
  apply (on_metadata_ok _ _ _ _ _ (mb_MarkReplica_ref _ _ _)) in Hc0 as (Ht & _ & _ & u & Hm).
  split; [by eauto|]. split; [by rewrite Ht, Htab|]. rewrite <-Hc. by eapply mark_replica_ok.
Qed.

(** Where a task writes. *)
Definition task_addrs (node : string) (task : ReplicationTask) : list Address :=
  version_addrs node (rt_Key task) (rt_Version task) (rt_Chunks task).

(** A successful copy, with or without a manifest. *)
Lemma Replicate_ok task (o o' : OS) :
  NoDup (task_addrs (rt_Target task) task) →
  (∀ a, a ∈ task_addrs (rt_Source task) task → a ∉ task_addrs (rt_Target task) task) →
  Replicate task o = (Ok tt, o') →
  ∃ data,
    holds o (rt_Source task) (rt_Key task) (rt_Version task) (rt_Chunks task) data ∧
    holds o' (rt_Target task) (rt_Key task) (rt_Version task) (rt_Chunks task) data ∧
    (rt_Checksum task = "" ∨ checksumBytes data = rt_Checksum task).
Proof using HO.
  unfold Replicate, task_addrs, holds, version_addrs. intros Hnd Hdis Hrun.
  destruct (decide (length (rt_Chunks task) = 0)) as [E|E].
  - rewrite decide_False in Hrun by lia. go_step Hrun; [|done..]. destruct a as [size src].
    apply read_law in Hc as (_ & Hsame & Hat). go_step Hrun; [|done..].
    apply write_law in Hc as (_ & _ & Hok). destruct (Hok _ eq_refl) as (d & Hd & _ & Hw).
    rewrite Hd in Hrun. cbn in Hrun. revert Hrun. case_match eqn:Hb; intros Hrun; [by go_step Hrun|].
    injection Hrun as <-. exists d. split; [by eapply Hat|]. split; [done|].
    apply andb_false_iff in Hb as [Hb|Hb]; apply bool_decide_eq_false, dec_stable in Hb; auto.
  - rewrite decide_True in Hrun by lia.
    apply replicateChunks_ok in Hrun as (ds & Hs & Ht & Hck); [|done|].
    + exists (concat ds). eauto 10.
    + intros c c' Hc Hc' Ea.
      eapply Hdis; [by apply (list_elem_of_fmap_2 (chunk_addr _ _ _)), Hc|].
      rewrite Ea. by apply (list_elem_of_fmap_2 (chunk_addr _ _ _)).
Qed.

Lemma Replicate_touches task :
  only_touches (task_addrs (rt_Target task) task) (Replicate task : GoM OS unit).
Proof using HO.
  unfold Replicate, task_addrs, version_addrs.
  destruct (decide (length (rt_Chunks task) = 0)) as [E|E].
  - rewrite decide_False by lia. unfold only_touches.
    respects_step ltac:(first [ apply touches_read | by apply touches_write; left
      | by apply touches_delete; left ]).
  - rewrite decide_True by lia. apply replicateChunks_touches. intros c Hc.
    by apply (list_elem_of_fmap_2 (chunk_addr _ _ _)).
Qed.

(** The states a run of [WorkOnce] goes through: a pending task of the table
    is marked running, copied, and then done with its replica healthy, or
    failed with its replica missing. *)
Definition work_outcome w task (err : option GoError) w' : Prop :=
  ∃ t0 t u, coord_table (rw_coordinator w) !! rt_ID t0 = Some t0 ∧
  rt_State t0 = ReplicationTaskPending ∧
  coord_table (rw_coordinator w') = <[rt_ID t0 := task]> (coord_table (rw_coordinator w)) ∧
  match err with
  | None =>
      Replicate (runReplicationTask t0 t) (rw_replicator w) = (Ok tt, rw_replicator w') ∧
      task = doneReplicationTask (runReplicationTask t0 t) u ∧
      replica_marked (coord_catalog (rw_coordinator w)) (coord_catalog (rw_coordinator w'))
        task ReplicaHealthy
  | Some e =>
      Replicate (runReplicationTask t0 t) (rw_replicator w) = (Err e, rw_replicator w') ∧
      task = failReplicationTask (runReplicationTask t0 t) u (Some e) ∧
      replica_marked (coord_catalog (rw_coordinator w)) (coord_catalog (rw_coordinator w'))
        task ReplicaMissing
  end.

Lemma WorkOnce_inv w task err w' :
  table_ok (coord_table (rw_coordinator w)) → WorkOnce w = (Ok (task, err), w') →
  work_outcome w task err w'.
Proof using Type*.
  intros Hok Hrun. unfold WorkOnce in Hrun. go_step Hrun; [|done..].
  apply zoom_inv in Hc as (c1 & Hp & ->). apply PendingTasks_ok in Hp as (Hc1 & Ht1 & Hp); [|done].
  destruct a as [|t0 pending]; [done|]. destruct (Hp t0) as [Ht0 Hst]; [by left|].
  go_step Hrun; [|done..]. apply zoom_inv in Hc as (c2 & Hs & ->). cbn in Hs.
  apply StartReplication_ok in Hs as (Hc2 & t & t0' & Ht0' & -> & Ht2).
  rewrite Ht1, Ht0 in Ht0'. injection Ht0' as <-. rewrite Ht1 in Ht2. rewrite Hc1 in Hc2.
  go_step Hrun; [|done..]. go_step Hc; [|done]. injection Hr as ->.
  apply zoom_inv in Hc as (o & Hcopy & ->). cbn in Hcopy.
  exists t0, t. destruct r as [[]|e|]; [| |done].
  - go_step Hrun; [|done..]. destruct a as [m done_]. injection Hrun as <- <- <-.
    apply zoom_inv in Hc as (c3 & Hf & ->). cbn in Hf.
    apply FinishReplication_ok in Hf as ((u & t1 & Ht1' & ->) & Ht3 & Hm).
    rewrite Ht2, lookup_insert_eq in Ht1'. injection Ht1' as <-.
    exists u. cbn. rewrite Ht3, Ht2, insert_insert_eq, <-Hc2. done.
  - go_step Hrun; [|done..]. destruct a as [m failed]. injection Hrun as <- <- <-.
    apply zoom_inv in Hc as (c3 & Hf & ->). cbn in Hf.
    apply FailReplication_ok in Hf as ((u & t1 & Ht1' & ->) & Ht3 & Hm).
    rewrite Ht2, lookup_insert_eq in Ht1'. injection Ht1' as <-.
    exists u. cbn. rewrite Ht3, Ht2, insert_insert_eq, <-Hc2. done.
Qed.
End worker.

(** C8: when the worker reports a task done, the task was pending in the queue
    and is now done, one attempt later, with no other task changed; the target
    node holds the content the source node held, which matches the checksum
    of the task; the replica of the target is marked healthy, and no other
    replica and no other file changed in the catalog; and no object was touched
    but those of this version on the target. *)
Theorem WorkOnce_copies `{HB : MetadataBackendLaws B} `{HQ : ReplicationTaskQueueLaws Q}
    `{HO : ObjectStoreLaws OS} (s s' : ManagedFileService B Q OS) task :
  table_ok (svc_table s) → RunReplicationOnce s = (Ok (task, None), s') →
  NoDup (task_addrs (rt_Target task) task) →
  (∀ a, a ∈ task_addrs (rt_Source task) task → a ∉ task_addrs (rt_Target task) task) →
  (∃ t0, svc_table s !! rt_ID task = Some t0 ∧ rt_State t0 = ReplicationTaskPending ∧
     rt_Attempts task = (rt_Attempts t0 + 1)%Z) ∧
  rt_State task = ReplicationTaskDone ∧ svc_table s' = <[rt_ID task := task]> (svc_table s) ∧
  replica_marked (svc_catalog s) (svc_catalog s') task ReplicaHealthy ∧
  agree_outside (task_addrs (rt_Target task) task) (sv_objects s) (sv_objects s') ∧
  ∃ data,
    holds (sv_objects s) (rt_Source task) (rt_Key task) (rt_Version task) (rt_Chunks task) data ∧
    holds (sv_objects s') (rt_Target task) (rt_Key task) (rt_Version task) (rt_Chunks task) data ∧
    (rt_Checksum task = "" ∨ checksumBytes data = rt_Checksum task).
Proof.
  intros Hok (w & Hrun & ->)%zoom_inv Hnd Hdis.
  apply WorkOnce_inv in Hrun as (t0 & t & u & Ht0 & Hst & Htab & Hcopy & Etask & Hm); [|done].
  cbn in Ht0, Htab, Hcopy, Hm.
  pose proof (Hok _ _ Ht0) as (_ & Hatt & Hp). rewrite Hst in Hp. destruct Hp as [Hlt _].
  unfold defaultReplicationTaskMaxAttempts in Hlt.
  split; [exists t0; subst task; split; [done|]; split; [done|]; cbn; apply wrap_s64_small;
    unfold in_s64; lia|].
  split; [by subst|]. split; [unfold svc_table; cbn; rewrite Htab; by subst|]. split; [done|].
  split; [subst task; by eapply Replicate_touches, Hcopy|].
  subst task. by eapply Replicate_ok.
Qed.

(** C19: when the copy fails, the worker hands the error back with the task, which
    was pending and is one attempt further.  After the fifth attempt it is dead;
    before, it is pending again and may run 2, 4, 8 or 16 seconds after the
    failure, two to the number of its attempts.  It has no lease and records the
    error; no other task changes; the target replica is marked missing, so no read
    is sent to it, and only objects of this version on the target were touched. *)
Theorem WorkOnce_fails `{HB : MetadataBackendLaws B} `{HQ : ReplicationTaskQueueLaws Q}
    `{HO : ObjectStoreLaws OS} (s s' : ManagedFileService B Q OS) task err :
  table_ok (svc_table s) → RunReplicationOnce s = (Ok (task, Some err), s') →
  (∃ t0, svc_table s !! rt_ID task = Some t0 ∧ rt_State t0 = ReplicationTaskPending ∧
     rt_Attempts task = (rt_Attempts t0 + 1)%Z) ∧
  (if (rt_Attempts task =? 5)%Z
   then rt_State task = ReplicationTaskDead ∧ rt_RunAfter task = zero_time
   else rt_State task = ReplicationTaskPending ∧
     rt_RunAfter task = (rt_UpdatedAt task + 2 ^ rt_Attempts task * Second)%Z) ∧
  rt_LeaseUntil task = zero_time ∧ rt_LastError task = error_string err ∧
  svc_table s' = <[rt_ID task := task]> (svc_table s) ∧
  replica_marked (svc_catalog s) (svc_catalog s') task ReplicaMissing ∧
  agree_outside (task_addrs (rt_Target task) task) (sv_objects s) (sv_objects s').
Proof.
  intros Hok (w & Hrun & ->)%zoom_inv.
  apply WorkOnce_inv in Hrun as (t0 & t & u & Ht0 & Hst & Htab & Hcopy & Etask & Hm); [|done].
  cbn in Ht0, Htab, Hcopy, Hm.
  pose proof (Hok _ _ Ht0) as (_ & Hatt & Hp). rewrite Hst in Hp. destruct Hp as [Hlt _].
  unfold defaultReplicationTaskMaxAttempts in Hlt.
  assert (rt_Attempts (runReplicationTask t0 t) = rt_Attempts t0 + 1)%Z as Hrun
    by (cbn; apply wrap_s64_small; unfold in_s64; lia).
  assert (rt_ID task = rt_ID t0 ∧ rt_Key task = rt_Key t0 ∧ rt_Version task = rt_Version t0 ∧
    rt_Chunks task = rt_Chunks t0 ∧ rt_Target task = rt_Target t0 ∧ rt_LeaseUntil task = zero_time ∧
    rt_LastError task = error_string err ∧ rt_Attempts task = rt_Attempts (runReplicationTask t0 t))
    as (Eid & Ek & Ev & Ech & Etg & El & Ee & Ea).
  { subst task. unfold failReplicationTask. by case_match. }
  split; [exists t0; rewrite Eid; split; [done|]; split; [done|]; congruence|].
  split; [|split; [done|]; split; [done|]; split; [unfold svc_table; cbn; by rewrite Htab, Eid|split; [done|]]].
  - rewrite Ea, Hrun. subst task. apply failReplicationTask_retry; [done|lia].
  - unfold task_addrs. rewrite Ek, Ev, Ech, Etg.
    apply (Replicate_touches (runReplicationTask t0 t) _ _ _ Hcopy).
Qed.

(** ** Deletion *)

Lemma list_bind_single {X Y} (f : X → Y) (l : list X) : (l ≫= λ x, [f x]) = f <$> l.
Proof. induction l as [|x l IH]; [done|]. rewrite fmap_cons, <-IH. done. Qed.

Section deletion.
Context {B Q OS : Type} `{HB : MetadataBackendLaws B} `{HQ : ReplicationTaskQueueLaws Q}
  `{HR : ReliableObjectStore OS}.
Abbreviation Service := (ManagedFileService B Q OS).
Implicit Types (s : Service).

(** The addresses of every replica of a file. *)
Definition file_addrs (meta : FileMetadata) : list Address :=
  range_keys (fm_Replicas meta) ≫= λ n,
    version_addrs n (fm_Key meta) (fm_Version meta) (fm_Chunks meta).

(** Nothing is stored at [A] any more, and what was gone stays gone. *)
Definition cleared (A : list Address) s s' : Prop :=
  data_ready s' ∧ sv_coordinator s' = sv_coordinator s ∧
  (∀ a, a ∈ A → object_at (sv_objects s') a = None) ∧
  (∀ a, object_at (sv_objects s) a = None → object_at (sv_objects s') a = None) ∧
  agree_outside A (sv_objects s) (sv_objects s').

Lemma cleared_nil s : data_ready s → cleared [] s s.
Proof. intros Hs. split; [done|]. split; [done|]. split; [set_solver|]. done. Qed.

Lemma cleared_app A A' s1 s2 s3 : cleared A s1 s2 → cleared A' s2 s3 → cleared (A ++ A') s1 s3.
Proof.
  intros (_ & C1 & N1 & K1 & G1) (R2 & C2 & N2 & K2 & G2). split; [done|]. split; [congruence|].
  split; [|split; [by auto|]].
  - intros a [Ha|Ha]%elem_of_app; auto.
  - etrans; (eapply agree_mono; [eassumption|set_solver]).
Qed.

Lemma delete_cleared n k v s :
  os_serves n k v → data_ready s →
  ∃ s', ignore (objs (DeleteObject n k v)) s = (Ok tt, s') ∧ cleared [addr n k v] s s'.
Proof using HR.
  intros Hn [Hs Ht]. destruct (reliable_delete n k v _ Hn Hs) as (o & Hd & Ho & Hgone).
  pose proof (delete_law _ _ _ _ _ _ Hd) as (_ & Hoth).
  exists (set_objects o s). split.
  - unfold ignore, objs, zoom. by rewrite Hd.
  - split; [done|]. split; [done|]. split; [by intros a ->%list_elem_of_singleton|]. split.
    + intros a Ha. cbn. destruct (decide (a = addr n k v)) as [->|]; [done|]. by rewrite Hoth.
    + intros a Ha. apply Hoth. set_solver.
Qed.

Lemma for_each_cleared {X} (xs : list X) (f : X → list Address) body s :
  (∀ x s, x ∈ xs → data_ready s → ∃ s', body x s = (Ok tt, s') ∧ cleared (f x) s s') →
  data_ready s → ∃ s', for_each xs body s = (Ok tt, s') ∧ cleared (xs ≫= f) s s'.
Proof.
  intros Hb. revert s. induction xs as [|x xs IH]; intros s Hs; cbn.
  { eexists. split; [done|]. by apply cleared_nil. }
  destruct (Hb x s) as (s1 & R1 & C1); [by left|done|]. rewrite (gom_bind_ok _ _ _ _ _ R1).
  destruct (IH (λ y s Hy, Hb y s (list_elem_of_further _ _ _ Hy)) s1) as (s2 & R2 & C2);
    [by destruct C1|]. exists s2. split; [done|]. by eapply cleared_app.
Qed.

Lemma deleteObjects_cleared n key v chunks s :
  serves_file n key v → data_ready s →
  ∃ s', deleteObjects n key v chunks s = (Ok tt, s') ∧ cleared (version_addrs n key v chunks) s s'.
Proof using HR.
  intros Hn Hs. unfold deleteObjects, version_addrs. case_decide; [apply delete_cleared, Hs; apply Hn|].
  destruct (for_each_cleared chunks (λ c, [chunk_addr n key v c])
    (λ c, ignore (objs (DeleteObject n (chunkObjectKey key (cm_Index c)) v))) s)
    as (s' & R1 & C1); [|done|].
  - intros c s1 _ Hs1. apply delete_cleared, Hs1. apply Hn.
  - exists s'. split; [done|].
    by rewrite (list_bind_single (chunk_addr n key v)) in C1.
Qed.
End deletion.

(** C12: deletion on a working system.  When the metadata backend does not fail and
    the object store serves every call on the nodes of the file, [Delete] of a key
    that has a record succeeds: it publishes a tombstone with the next version and
    every replica marked deleted, changes no other file and no task, and removes
    the objects of the deleted version from every node that had a replica, touching
    no other object; a [Get] that follows answers [ErrFileDeleted].  On a store
    that fails the objects can stay ([Delete_tombstones]). *)
Theorem Delete_then_Get `{HB : MetadataBackendLaws B} `{HQ : ReplicationTaskQueueLaws Q}
    `{HR : ReliableObjectStore OS} (s : ManagedFileService B Q OS) key meta :
  (∀ b : B, mb_fault b → False) → coord_ok (sv_coordinator s) → data_ready s →
  cat_files (svc_catalog s) !! key = Some meta →
  (∀ n, is_Some (fm_Replicas meta !! n) → serves_file n key (fm_Version meta)) →
  ∃ deleted s1 s2, Delete key s = (Ok deleted, s1) ∧ Get key s1 = (Err ErrFileDeleted, s2) ∧
    fm_Deleted deleted = true ∧ fm_Version deleted = wrap_u64 (fm_Version meta + 1) ∧
    (∀ n rep, fm_Replicas deleted !! n = Some rep → rm_State rep = ReplicaDeleted) ∧
    cat_files (svc_catalog s1) = <[key := deleted]> (cat_files (svc_catalog s)) ∧
    svc_table s1 = svc_table s ∧
    (∀ a, a ∈ file_addrs meta → object_at (sv_objects s1) a = None) ∧
    agree_outside (file_addrs meta) (sv_objects s) (sv_objects s1).
Proof.
  intros Hmb [[Hwf _] _] Hs Hfile Hserve. unfold Delete.
  destruct (on_metadata_total Hmb _ _ (sv_coordinator s) (mb_GetFile_ref key))
    as (t & r & c1 & R1 & [= <- Hc1] & _).
  pose proof (on_metadata_inv _ _ _ _ _ (mb_GetFile_ref key) R1) as (Ht1 & _).
  apply (zoom_run (S := ManagedFileService B Q OS) sv_coordinator set_coordinator) in R1.
  unfold meta_call, coord. rewrite (gom_bind_ok _ _ _ _ _ R1). unfold svc_catalog in Hfile.
  rewrite Hfile.
  destruct (on_metadata_total Hmb _ _ c1 (mb_Tombstone_ref key)) as (u & r & c2 & R2 & Hs2 & _).
  pose proof (on_metadata_inv _ _ _ _ _ (mb_Tombstone_ref key) R2) as (Ht2 & _).
  rewrite <-Hc1 in Hs2. unfold cat_tombstone in Hs2. rewrite Hfile in Hs2. injection Hs2 as <- Hc2.
  apply (zoom_run (S := ManagedFileService B Q OS) sv_coordinator set_coordinator
    _ (set_coordinator c1 s)) in R2.
  unfold DeleteFile. rewrite (gom_bind_ok _ _ _ _ _ R2).
  set (s2 := set_coordinator c2 (set_coordinator c1 s)). fold s2.
  destruct (for_each_cleared (range_keys (fm_Replicas meta))
    (λ n, version_addrs n (fm_Key meta) (fm_Version meta) (fm_Chunks meta))
    (λ n, deleteObjects n key (fm_Version meta) (fm_Chunks meta)) s2)
    as (s3 & R3 & Hs3 & Ec3 & Hgone & _ & Hag); [|done|].
  { intros n s' Hn%elem_of_range_keys Hs'. destruct (Hwf _ _ Hfile) as (-> & _).
    by apply deleteObjects_cleared; [apply Hserve|]. }
  rewrite (gom_bind_ok _ _ _ _ _ R3).
  assert (svc_catalog s3 = coord_catalog c2) as Hcat3 by (unfold svc_catalog; by rewrite Ec3).
  destruct (ReadCandidates key (sv_coordinator s3)) as [r c4] eqn:R4.
  pose proof R4 as (_ & _ & _ & _ & [->|(Hf & _)])%ReadCandidates_inv; [|by apply Hmb in Hf].
  unfold svc_catalog in Hcat3. unfold read_plan_of in R4. rewrite Hcat3, <-Hc2 in R4.
  cbn in R4. rewrite lookup_insert_eq in R4. cbn in R4.
  apply (zoom_run (S := ManagedFileService B Q OS) sv_coordinator set_coordinator) in R4.
  exists (tombstone_of meta u), s3, (set_coordinator c4 s3).
  split; [done|]. split; [unfold Get, coord; by rewrite (gom_bind_err _ _ _ _ _ R4)|].
  split; [done|]. split; [done|]. split.
  { intros n rep. cbn. rewrite lookup_fmap. destruct (fm_Replicas meta !! n); [|done].
    by intros [= <-]. }
  split; [unfold svc_catalog; by rewrite Hcat3, <-Hc2|].
  split; [unfold svc_table; rewrite Ec3; cbn; congruence|]. done.
Qed.

(** C13: whatever the object store does, a [Delete] that succeeds has published a
    tombstone of the record with the next version and every replica marked deleted,
    and changed no other file and no task; only objects of the deleted version were
    touched, but as errors of the object store are ignored they need not be gone; a
    [Get] that follows answers [ErrFileDeleted] unless the metadata backend fails. *)
Theorem Delete_tombstones `{HB : MetadataBackendLaws B} `{HQ : ReplicationTaskQueueLaws Q}
    `{HO : ObjectStoreLaws OS} (s s1 : ManagedFileService B Q OS) key deleted :
  coord_ok (sv_coordinator s) → Delete key s = (Ok deleted, s1) →
  ∃ meta, cat_files (svc_catalog s) !! key = Some meta ∧
    fm_Deleted deleted = true ∧ fm_Version deleted = wrap_u64 (fm_Version meta + 1) ∧
    (∀ n rep, fm_Replicas deleted !! n = Some rep → rm_State rep = ReplicaDeleted) ∧
    cat_files (svc_catalog s1) = <[key := deleted]> (cat_files (svc_catalog s)) ∧
    svc_table s1 = svc_table s ∧
    agree_outside (file_addrs meta) (sv_objects s) (sv_objects s1) ∧
    ∀ r s2, Get key s1 = (r, s2) →
      r = Err ErrFileDeleted ∨ mb_fault (mc_metadata (sv_coordinator s1)) ∧ ∃ e, r = Err e.
Proof.
  intros [[Hwf _] _] Hrun. unfold Delete in Hrun. go_step Hrun; [|done..].
  apply zoom_inv in Hc as (c1 & R1 & ->).
  apply (on_metadata_ok _ _ _ _ _ (mb_GetFile_ref key)) in R1 as (Ht1 & _ & _ & t & [= <- Hc1]).
  destruct (cat_files (coord_catalog (sv_coordinator s)) !! key) as [meta|] eqn:Hfile; [|done].
  destruct (Hwf _ _ Hfile) as (Hkey & _). go_step Hrun; [|done..].
  apply zoom_inv in Hc as (c2 & R2 & ->). cbn in R2.
  apply (on_metadata_ok _ _ _ _ _ (mb_Tombstone_ref key)) in R2 as (Ht2 & _ & _ & u & Hs2).
  rewrite <-Hc1 in Hs2. unfold cat_tombstone in Hs2. rewrite Hfile in Hs2. injection Hs2 as <- Hc2.
  go_step Hrun; [|done..]. injection Hrun as <- <-.
  assert (data_step (file_addrs meta) (set_coordinator c2 (set_coordinator c1 s)) s0) as [Ec Ho].
  { eapply (respects_for_each (data_step (file_addrs meta)) (range_keys (fm_Replicas meta))); [|exact Hc].
    intros n Hn. apply deleteObjects_data. intros x Hx. unfold file_addrs. rewrite Hkey.
    apply list_elem_of_bind. by exists n. }
  assert (cat_files (svc_catalog s0) = <[key := tombstone_of meta u]> (cat_files (svc_catalog s))) as Hcat
    by (unfold svc_catalog; rewrite Ec; cbn; by rewrite <-Hc2).
  exists meta. split; [done|]. split; [done|]. split; [done|]. split.
  { intros n rep. cbn. rewrite lookup_fmap. destruct (fm_Replicas meta !! n); [|done]. by intros [= <-]. }
  split; [done|]. split; [unfold svc_table; rewrite Ec; cbn; congruence|]. split; [done|].
  intros r s2 Hget. destruct (ReadCandidates key (sv_coordinator s0)) as [r4 c4] eqn:R4.
  assert (r4 = Err ErrFileDeleted ∨ mb_fault (mc_metadata (sv_coordinator s0)) ∧ ∃ e, r4 = Err e) as Hr4.
  { apply ReadCandidates_inv in R4 as (_ & _ & _ & _ & [->|Hf]); [left|by right].
    unfold read_plan_of. fold (svc_catalog s0). by rewrite Hcat, lookup_insert_eq. }
  apply (zoom_run (S := ManagedFileService B Q OS) sv_coordinator set_coordinator) in R4.
  assert (∃ e, r4 = Err e) as [e ->] by (destruct Hr4 as [->|[_ ?]]; eauto).
  unfold Get, coord in Hget. rewrite (gom_bind_err _ _ _ _ _ R4) in Hget. injection Hget as <- _. destruct Hr4 as [[= ->]|[? _]]; [by left|right; by eauto].
Qed.

(** ** Histories *)

(** The calls of the service that clients, workers and the manager loop make. *)
Inductive SvcOp :=
  | SvcRegisterNode (id addr : string)
  | SvcPut (key : string) (reads : list ReadResult)
  | SvcGet (key : string)
  | SvcDelete (key : string)
  | SvcRunReplicationOnce
  | SvcMetadata (key : string)
  | SvcPendingTasks
  | SvcPlanRepair
  | SvcRequeueExpired
  | SvcMarkExpiredNodes (ttl : Duration)
  | SvcNodes
  | SvcMetrics.

Definition run_svc_op `{MetadataBackend B} `{ReplicationTaskQueue Q} `{ObjectStore OS}
    (op : SvcOp) : GoM (ManagedFileService B Q OS) unit :=
  match op with
  | SvcRegisterNode id addr => ignore (ServiceRegisterNode id addr)
  | SvcPut key reads => ignore (Put key reads)
  | SvcGet key => ignore (Get key)
  | SvcDelete key => ignore (Delete key)
  | SvcRunReplicationOnce => ignore RunReplicationOnce
  | SvcMetadata key => ignore (ServiceMetadata key)
  | SvcPendingTasks => ignore ServicePendingTasks
  | SvcPlanRepair => ignore ServicePlanRepair
  | SvcRequeueExpired => ignore ServiceRequeueExpired
  | SvcMarkExpiredNodes ttl => ignore (ServiceMarkExpiredNodes ttl)
  | SvcNodes => ignore ServiceNodes
  | SvcMetrics => ignore Metrics
  end.

Definition run_svc_ops `{MetadataBackend B} `{ReplicationTaskQueue Q} `{ObjectStore OS}
    (ops : list SvcOp) : GoM (ManagedFileService B Q OS) unit := for_each ops run_svc_op.

Section histories.
Context {B Q OS : Type} `{HB : MetadataBackendLaws B} `{HQ : ReplicationTaskQueueLaws Q}
  `{HO : ObjectStoreLaws OS}.
Abbreviation Service := (ManagedFileService B Q OS).
Implicit Types (s : Service).

(** The step of the control plane, starting from a good state. *)
Definition svc_steps s s' : Prop :=
  coord_ok (sv_coordinator s) →
  coord_ok (sv_coordinator s') ∧ coord_steps (sv_coordinator s) (sv_coordinator s').

#[export] Instance svc_steps_preorder : PreOrder svc_steps.
Proof.
  split; [by intros s Hs|]. intros s1 s2 s3 S12 S23 Hs. destruct (S12 Hs) as [Hs2 ?].
  destruct (S23 Hs2) as [Hs3 ?]. split; [done|]. by etrans.
Qed.

Lemma coord_svc {X} (m : GoM (MetadataCoordinator B Q) X) :
  respects coord_steps m → respects svc_steps (coord m : GoM Service X).
Proof.
  intros Hm s r s' (c & Hrun & ->)%zoom_inv Hs. apply Hm in Hrun.
  split; [by eapply coord_steps_ok|done].
Qed.
Lemma data_svc A s s' : data_step A s s' → svc_steps s s'.
Proof using Type*. intros [E _] Hs. by rewrite E. Qed.
Lemma temp_svc {X} (m : GoM TempDir X) : respects svc_steps (temp m : GoM Service X).
Proof using Type*. intros s r s' Hrun. by eapply data_svc, (temp_data [] m). Qed.

Lemma get_loop_svc key meta replicas : respects svc_steps (get_loop key meta replicas : GoM Service _).
Proof using Type*.
  induction replicas as [|r replicas IH]; cbn [get_loop]; [apply respects_fail; apply _|].
  apply respects_bind; [apply _| |].
  { apply respects_try. intros s x s' Hrun. eapply data_svc. by eapply stageReplica_data. }
  intros [data|err|]; [|apply respects_bind; [apply _| |by intros]|apply respects_panic, _].
  - apply respects_bind; [apply _|apply temp_svc|intros; apply respects_ret, _].
  - apply respects_ignore, coord_svc. coord_respects.
Qed.

Lemma deleteObjects_svc n key v chunks :
  respects svc_steps (deleteObjects n key v chunks : GoM Service _).
Proof using Type*. intros s r s' Hrun. by eapply data_svc, (deleteObjects_data n key v chunks _ (reflexivity _)). Qed.

(** The steps of the worker on its coordinator. *)
Definition worker_steps (w w' : ReplicationWorker B Q OS) : Prop :=
  coord_steps (rw_coordinator w) (rw_coordinator w').

#[export] Instance worker_steps_preorder : PreOrder worker_steps.
Proof. split; [by intros w|]. intros w1 w2 w3 Hw Hw'. unfold worker_steps in *. by etrans. Qed.

Lemma on_coordinator_worker {X} (m : GoM (MetadataCoordinator B Q) X) :
  respects coord_steps m → respects worker_steps (on_coordinator m).
Proof. intros Hm w r w' (c & Hrun & ->)%zoom_inv. by apply Hm in Hrun. Qed.
Lemma on_replicator_worker {X} (m : GoM OS X) : respects worker_steps (on_replicator m).
Proof. by intros w r w' (o & _ & ->)%zoom_inv. Qed.

(** Everything [WorkOnce] does after it has marked a task running. *)
Lemma copy_task_worker task :
  respects worker_steps (
    copied ← try (on_replicator (or_Replicate task));
    match copied with
    | Ok _ =>
        '(_, doneTask) ← on_coordinator (FinishReplication (rt_ID task));
        mret (doneTask, None)
    | Err err =>
        '(_, failedTask) ← on_coordinator (FailReplication (rt_ID task) (Some err));
        mret (failedTask, Some err)
    | Panic => panic
    end).
Proof using Type*.
  apply respects_bind; [apply _|by apply respects_try, on_replicator_worker|].
  intros [?|e|]; [| |apply respects_panic, _];
    (apply respects_bind; [apply _| |intros []; apply respects_ret, _]);
    apply on_coordinator_worker; [apply FinishReplication_steps|apply FailReplication_steps].
Qed.

Lemma WorkOnce_worker w r w' :
  table_ok (coord_table (rw_coordinator w)) → WorkOnce w = (r, w') → worker_steps w w'.
Proof using Type*.
  intros Hok Hrun. unfold WorkOnce in Hrun. go_step Hrun.
  2,3: by eapply (on_coordinator_worker _ pending_steps).
  pose proof (on_coordinator_worker _ pending_steps _ _ _ Hc) as Hs1.
  apply zoom_inv in Hc as (c1 & Hp & ->). cbn in Hp.
  apply PendingTasks_ok in Hp as (_ & Ht1 & Hp); [|done].
  destruct a as [|t0 pending]; [by inv Hrun|]. destruct (Hp t0) as [Ht0 Hst]; [by left|].
  etrans; [exact Hs1|]. clear Hs1.
  set (w1 := {| rw_coordinator := c1; rw_replicator := rw_replicator w |}) in *.
  assert (∀ r w2, on_coordinator (StartReplication (rt_ID t0)) w1 = (r, w2) → worker_steps w1 w2)
    as Hstart.
  { intros r2 w2 (c2 & Hrun2 & ->)%zoom_inv. eapply start_steps; [|exact Hrun2].
    intros task. cbn. rewrite Ht1, Ht0. by intros [= <-]. }
  go_step Hrun; [|by eapply Hstart..].
  etrans; [by eapply Hstart|]. by eapply copy_task_worker.
Qed.

Lemma WorkOnce_svc : respects svc_steps (RunReplicationOnce : GoM Service _).
Proof using Type*.
  intros s r s' (w & Hrun & ->)%zoom_inv Hs. apply WorkOnce_worker in Hrun; [|by destruct Hs].
  split; [by eapply coord_steps_ok|done].
Qed.

Lemma Put_svc key reads : respects svc_steps (Put key reads : GoM Service _).
Proof using Type*.
  unfold Put. respects_step ltac:(first
    [ apply temp_svc | apply deleteObjects_svc | apply coord_svc, PrepareWrite_steps
    | apply coord_svc, CommitWrite_steps ]).
  intros s0 r s' Hrun. by eapply data_svc, writeChunks_data.
Qed.

Lemma ServicePendingTasks_svc : respects svc_steps (ServicePendingTasks : GoM Service _).
Proof using Type*.
  unfold ServicePendingTasks. respects_step ltac:(apply coord_svc, pending_steps).
Qed.

Lemma run_svc_op_svc op : respects svc_steps (run_svc_op op : GoM Service _).
Proof using Type*.
  destruct op; cbn [run_svc_op]; apply respects_ignore.
  - apply coord_svc, RegisterNode_steps.
  - apply Put_svc.
  - unfold Get. respects_step ltac:(first [ apply coord_svc, ReadCandidates_steps | apply get_loop_svc ]).
  - unfold Delete, meta_call. respects_step ltac:(first
      [ apply coord_svc, DeleteFile_steps | apply deleteObjects_svc ]). apply coord_svc. coord_respects.
  - apply WorkOnce_svc.
  - apply coord_svc. coord_respects.
  - apply ServicePendingTasks_svc.
  - apply coord_svc, PlanRepair_steps.
  - apply coord_svc, requeue_steps.
  - apply coord_svc. coord_respects.
  - apply coord_svc. coord_respects.
  - unfold Metrics, meta_call. respects_step ltac:(first
      [ apply ServicePendingTasks_svc | apply coord_svc, stats_steps
      | apply coord_svc; coord_respects ]).
Qed.
End histories.

(** C3: the invariant of the control plane survives every history: whatever
    sequence of calls clients, workers and the manager loop make, on stores
    that may fail at any call, every file record keeps its key, a version that
    fits 64 bits and replicas filed under their node IDs, and every task keeps
    its ID, its budget of five attempts and the lease that belongs to its
    state; the changes are steps of the metadata and task specifications. *)
Theorem service_history_ok `{HB : MetadataBackendLaws B} `{HQ : ReplicationTaskQueueLaws Q}
    `{HO : ObjectStoreLaws OS} (ops : list SvcOp) (s s' : ManagedFileService B Q OS) r :
  coord_ok (sv_coordinator s) → run_svc_ops ops s = (r, s') →
  coord_ok (sv_coordinator s') ∧ coord_steps (sv_coordinator s) (sv_coordinator s').
Proof.
  intros Hs Hrun. revert Hs.
  apply (respects_for_each svc_steps ops run_svc_op (λ op _, run_svc_op_svc op) _ _ _ Hrun).
Qed.
