(* ===== verification/Manager.v ===== *)
(** * The manager loop of [main.go].

    One round of the background loop of the manager: expire silent nodes,
    requeue abandoned tasks, plan repairs, then run copies until one call
    returns an error.  That inner loop has no bound in the source; here it is
    shown to end, and on a working system to complete every pending copy. *)

From S2P Require Import Prelude Metadata Replication Backend MetadataSpec ReplicationSpec Names Hash Lifecycle Objects Staging Coordinator CoordinatorSpec Service ServiceSpec ServiceProps WorkerProps.
From stdpp Require Import options.

(** ** The loop *)

Section loop.
Context {B Q OS : Type} `{MetadataBackend B} `{ReplicationTaskQueue Q} `{ObjectStore OS}.
Abbreviation Service := (ManagedFileService B Q OS).

(** [for { if _, err := service.RunReplicationOnce(); err != nil { break } }];
    the result is [true] when the loop was left through [break], and [false]
    when [fuel] rounds were not enough. *)
Fixpoint run_tasks (fuel : nat) : GoM Service bool :=
  match fuel with
  | 0 => mret false
  | S fuel =>
      ran ← try RunReplicationOnce;
      match ran with
      | Ok (_, None) => run_tasks fuel
      | Ok (_, Some _) => mret true
      | Err _ => mret true
      | Panic => panic
      end
  end.

(** The body of [case <-ticker.C]; a failed call is logged only. *)
Definition manager_tick (fuel : nat) : GoM Service bool :=
  ignore (ServiceMarkExpiredNodes (10 * Second));;
  ignore ServiceRequeueExpired;;
  ignore ServicePlanRepair;;
  run_tasks fuel.
End loop.

(** ** Panic freedom *)

Section panic_free.
Context {B Q OS : Type} `{HB : MetadataBackendLaws B} `{HQ : ReplicationTaskQueueLaws Q}
  `{HO : ObjectStoreLaws OS}.
Abbreviation Coord := (MetadataCoordinator B Q).
Abbreviation Service := (ManagedFileService B Q OS).

Lemma on_tasks_panic_free {A} (m : GoM Q A) spec :
  refines task_table rq_fault m spec → (∀ t x, (spec t x).1 ≠ Panic) →
  panic_free (on_tasks m : GoM Coord A).
Proof using Type*.
  intros Hr Hp c r c' Hrun.
  pose proof (on_tasks_inv _ _ _ _ _ Hr Hrun) as (_ & _ & _ & [[t Ht]|(_ & _ & e & ->)]); [|done].
  specialize (Hp t (coord_table c)). by rewrite Ht in Hp.
Qed.

Lemma coord_now_panic_free : panic_free (coord_now : GoM Coord Time).
Proof. intros c r c'. unfold coord_now. destruct (mb_Now _). by intros [= <- _]. Qed.

Lemma update_no_panic id f t (ts : TaskTable) : (tab_update id f t ts).1 ≠ Panic.
Proof. unfold tab_update. by destruct (ts !! id). Qed.

Lemma mark_replica_no_panic key n st t cat : (cat_mark_replica key n st t cat).1 ≠ Panic.
Proof. unfold cat_mark_replica. by repeat case_match. Qed.

Lemma add_replica_no_panic key n st t cat : (cat_add_replica key n st t cat).1 ≠ Panic.
Proof. unfold cat_add_replica. by case_match. Qed.

Lemma PendingTasks_panic_free : panic_free (PendingTasks : GoM Coord _).
Proof using Type*. by apply (on_tasks_panic_free _ _ rq_Pending_ref). Qed.
Lemma StartReplication_panic_free id : panic_free (StartReplication id : GoM Coord _).
Proof using Type*. apply (on_tasks_panic_free _ _ (rq_MarkRunning_ref id)), update_no_panic. Qed.

Lemma FinishReplication_panic_free id : panic_free (FinishReplication id : GoM Coord _).
Proof using Type*.
  unfold FinishReplication. panic_free_step ltac:(first
    [ apply (on_tasks_panic_free _ _ (rq_MarkDone_ref id)), update_no_panic
    | apply (on_metadata_panic_free _ _ (mb_MarkReplica_ref _ _ _)), mark_replica_no_panic ]).
Qed.

Lemma FailReplication_panic_free id cause : panic_free (FailReplication id cause : GoM Coord _).
Proof using Type*.
  unfold FailReplication. panic_free_step ltac:(first
    [ apply (on_tasks_panic_free _ _ (rq_MarkFailed_ref id cause)); intros; apply update_no_panic
    | apply (on_metadata_panic_free _ _ (mb_MarkReplica_ref _ _ _)), mark_replica_no_panic ]).
Qed.

Lemma Replicate_panic_free task : panic_free (Replicate task : GoM OS unit).
Proof using HO.
  unfold Replicate, replicateChunks, replicate_chunk, deleteChunkObjects.
  panic_free_step ltac:(first
    [ apply read_panic_free | apply write_panic_free | apply delete_panic_free ]).
Qed.

Lemma WorkOnce_panic_free : panic_free (WorkOnce : GoM (ReplicationWorker B Q OS) _).
Proof using Type*.
  unfold WorkOnce. panic_free_step ltac:(first
    [ apply panic_free_zoom, PendingTasks_panic_free
    | apply panic_free_zoom, StartReplication_panic_free
    | apply panic_free_zoom, Replicate_panic_free
    | apply panic_free_zoom, FinishReplication_panic_free
    | apply panic_free_zoom, FailReplication_panic_free ]).
Qed.

Lemma PlanRepair_panic_free : panic_free (PlanRepair : GoM Coord _).
Proof using Type*.
  assert (∀ meta source n nodes tasks,
    panic_free (repair_missing_loop meta source n nodes tasks : GoM Coord _)) as Hloop.
  { intros meta source n nodes. induction nodes as [|node nodes IH]; intros tasks;
      cbn [repair_missing_loop]; panic_free_step ltac:(first
      [ apply IH | apply coord_now_panic_free
      | apply (on_metadata_panic_free _ _ (mb_AddReplica_ref _ _ _)), add_replica_no_panic ]). }
  unfold PlanRepair, repair_file, repairExistingReplicas, repairMissingReplicas.
  panic_free_step ltac:(first
    [ apply Hloop | apply coord_now_panic_free
    | by apply (on_metadata_panic_free _ _ mb_HealthyNodes_ref)
    | by apply (on_metadata_panic_free _ _ mb_ListFiles_ref)
    | by apply (on_tasks_panic_free _ _ (rq_Enqueue_ref _)) ]).
Qed.

Lemma RunReplicationOnce_panic_free : panic_free (RunReplicationOnce : GoM Service _).
Proof using Type*. apply panic_free_zoom, WorkOnce_panic_free. Qed.
End panic_free.

(** ** The inner loop ends *)

(** The tasks that wait for a worker. *)
Definition is_pending (task : ReplicationTask) : Prop := rt_State task = ReplicationTaskPending.
#[export] Instance is_pending_dec task : Decision (is_pending task).
Proof. unfold is_pending. apply _. Defined.

Definition pending_count (ts : TaskTable) : nat := size (filter (λ kt, is_pending kt.2) ts).

Lemma pending_count_insert ts id t0 task :
  ts !! id = Some t0 → is_pending t0 → ¬ is_pending task →
  pending_count ts = S (pending_count (<[id := task]> ts)).
Proof.
  intros Ht0 Hp Hn. unfold pending_count.
  rewrite map_filter_insert_False by done. rewrite map_filter_delete.
  assert (filter (λ kt, is_pending kt.2) ts !! id = Some t0) as Hin
    by by apply map_lookup_filter_Some.
  rewrite <-(insert_delete_id _ _ _ Hin) at 1. rewrite map_size_insert_None; [done|].
  apply lookup_delete_eq.
Qed.

Lemma pending_none (ts : TaskTable) id task :
  pending_count ts = 0 → ts !! id = Some task → ¬ is_pending task.
Proof.
  intros Hn%map_size_empty_inv Hid Hp.
  assert (filter (λ kt, is_pending kt.2) ts !! id = Some task) as Hf
    by by apply map_lookup_filter_Some.
  by rewrite Hn, lookup_empty in Hf.
Qed.

Section ends.
Context {B Q OS : Type} `{HB : MetadataBackendLaws B} `{HQ : ReplicationTaskQueueLaws Q}
  `{HO : ObjectStoreLaws OS}.
Abbreviation Service := (ManagedFileService B Q OS).
Implicit Types (s : Service).

(** A round that does not end the loop takes a task out of [pending]. *)
Lemma copy_decreases s task s' :
  table_ok (svc_table s) → RunReplicationOnce s = (Ok (task, None), s') →
  pending_count (svc_table s) = S (pending_count (svc_table s')).
Proof using Type*.
  intros Hok (w & Hrun & ->)%zoom_inv.
  apply WorkOnce_inv in Hrun as (t0 & t & u & Ht0 & Hst & Htab & _ & -> & _); [|done].
  cbn in Ht0, Htab. unfold svc_table; cbn. rewrite Htab. by apply (pending_count_insert _ _ t0).
Qed.

Lemma run_tasks_total s :
  coord_ok (sv_coordinator s) →
  ∃ s', (∀ fuel, pending_count (svc_table s) < fuel → run_tasks fuel s = (Ok true, s')) ∧
    svc_steps s s'.
Proof using Type*.
  remember (pending_count (svc_table s)) as n eqn:Hn. revert s Hn.
  induction n as [n IH] using lt_wf_ind; intros s Hn Hs.
  destruct (RunReplicationOnce s) as [r s1] eqn:Hrun.
  pose proof (WorkOnce_svc _ _ _ Hrun) as Hstep. destruct (Hstep Hs) as [Hs1 _].
  pose proof (try_run _ _ _ _ Hrun (RunReplicationOnce_panic_free _ _ _ Hrun)) as Htry.
  assert (Hbreak : (∀ task, r ≠ Ok (task, None)) → r ≠ Panic →
    ∀ fuel, n < fuel → run_tasks fuel s = (Ok true, s1)).
  { intros Hno Hp [|fuel] Hlt; [lia|]. cbn [run_tasks]. rewrite (gom_bind_ok _ _ _ _ _ Htry).
    destruct r as [[task [err|]]|e|]; [done|by destruct (Hno task)|done..]. }
  destruct r as [[task [err|]]|e|]; [by eauto| |by eauto|].
  2: by apply RunReplicationOnce_panic_free in Hrun.
  pose proof Hrun as Hdec%copy_decreases; [|by destruct Hs].
  destruct (IH (pending_count (svc_table s1)) ltac:(lia) s1 eq_refl Hs1) as (s2 & R2 & S2).
  exists s2. split; [|by etrans].
  intros [|fuel] Hlt; [lia|]. cbn [run_tasks]. rewrite (gom_bind_ok _ _ _ _ _ Htry).
  apply R2. lia.
Qed.

Lemma ignore_coord_total {A} (m : GoM (MetadataCoordinator B Q) A) s :
  panic_free m → respects coord_steps m →
  ∃ s', ignore (coord m) s = (Ok tt, s') ∧ svc_steps s s'.
Proof using Type*.
  intros Hp Hm. destruct (coord m s) as [r s'] eqn:Hrun. exists s'. split.
  - unfold ignore. rewrite Hrun. apply (panic_free_zoom sv_coordinator set_coordinator m Hp) in Hrun.
    by destruct r.
  - by eapply coord_svc.
Qed.
End ends.

(** C20: the manager's round always comes to an end, from every well-formed state
    and whichever calls fail: its first three calls lead to a state [s1], and from
    there the loop that runs copies is left through its [break] after at most one
    run more than there are pending tasks in [s1]; more fuel does not change where
    it stops; the invariant of the control plane holds afterwards. *)
Theorem manager_tick_terminates `{HB : MetadataBackendLaws B} `{HQ : ReplicationTaskQueueLaws Q}
    `{HO : ObjectStoreLaws OS} (s : ManagedFileService B Q OS) :
  coord_ok (sv_coordinator s) →
  ∃ s1 s2,
    (ignore (ServiceMarkExpiredNodes (10 * Second));; ignore ServiceRequeueExpired;; ignore ServicePlanRepair) s =
      (Ok tt, s1) ∧
    (∀ fuel, pending_count (svc_table s1) < fuel → manager_tick fuel s = (Ok true, s2)) ∧
    coord_ok (sv_coordinator s2) ∧
    coord_steps (sv_coordinator s) (sv_coordinator s2).
Proof.
  intros Hs.
  destruct (ignore_coord_total (on_metadata (mb_MarkExpiredNodes (10 * Second))) s)
    as (s1 & R1 & S1).
  { by apply (on_metadata_panic_free _ _ (mb_MarkExpiredNodes_ref _)). }
  { coord_respects. }
  destruct (ignore_coord_total RequeueExpiredReplicationTasks s1) as (s2 & R2 & S2).
  { by apply (on_tasks_panic_free _ _ rq_RequeueExpiredRunning_ref). }
  { apply requeue_steps. }
  destruct (ignore_coord_total PlanRepair s2 PlanRepair_panic_free PlanRepair_steps)
    as (s3 & R3 & S3).
  assert (svc_steps s s3) as S03 by (etrans; [exact S1|]; by etrans).
  destruct (S03 Hs) as [Hs3 _]. destruct (run_tasks_total s3 Hs3) as (s4 & R4 & S4).
  exists s3, s4. split; [|split].
  - rewrite (gom_bind_ok _ _ _ _ _ (R1 : ignore (ServiceMarkExpiredNodes _) s = _)).
    by rewrite (gom_bind_ok _ _ _ _ _ (R2 : ignore ServiceRequeueExpired s1 = _)).
  - intros fuel Hf. unfold manager_tick.
    rewrite (gom_bind_ok _ _ _ _ _ (R1 : ignore (ServiceMarkExpiredNodes _) s = _)).
    rewrite (gom_bind_ok _ _ _ _ _ (R2 : ignore ServiceRequeueExpired s1 = _)).
    rewrite (gom_bind_ok _ _ _ _ _ (R3 : ignore ServicePlanRepair s2 = _)). by apply R4.
  - assert (svc_steps s s4) as S04 by by etrans. by apply S04.
Qed.

(** ** On a working system every pending copy is made *)

Section copyable.
Context {OS : Type} `{HR : ReliableObjectStore OS}.
Implicit Types (o : OS).

(** The source has the data of the task, as the task describes it. *)
Definition source_has o (task : ReplicationTask) (data : bytes) : Prop :=
  holds o (rt_Source task) (rt_Key task) (rt_Version task) (rt_Chunks task) data ∧
  (rt_Checksum task = "" ∨ checksumBytes data = rt_Checksum task).

Definition target_has o (task : ReplicationTask) (data : bytes) : Prop :=
  holds o (rt_Target task) (rt_Key task) (rt_Version task) (rt_Chunks task) data.

(** A task that can be copied at once: it waits for no retry, its file has a
    replica entry for the target, its nodes are served, and the copy does not
    write over itself. *)
Definition copyable (cat : Catalog) o (task : ReplicationTask) : Prop :=
  rt_RunAfter task = zero_time ∧ serves_task task ∧
  (∃ meta, cat_files cat !! rt_Key task = Some meta ∧
     is_Some (fm_Replicas meta !! rt_Target task)) ∧
  NoDup (task_addrs (rt_Target task) task) ∧
  (∀ a, a ∈ task_addrs (rt_Source task) task → a ∉ task_addrs (rt_Target task) task) ∧
  ∃ data, source_has o task data.

Lemma Replicate_reliable task data o :
  serves_task task → os_ready o → source_has o task data →
  (∀ a, a ∈ task_addrs (rt_Source task) task → a ∉ task_addrs (rt_Target task) task) →
  ∃ o', Replicate task o = (Ok tt, o') ∧ os_ready o'.
Proof using Type*.
  intros Hn Ho [Hh Hck] Hdis. unfold Replicate, task_addrs, holds, version_addrs in *.
  destruct (decide (length (rt_Chunks task) = 0)) as [E|E].
  - rewrite decide_False by lia. destruct Hn as [Hns Hnt].
    destruct (reliable_read _ _ _ _ _ (proj1 Hns) Ho Hh) as (size & src & o1 & R1 & Hd & _ & Ho1).
    rewrite (gom_bind_ok _ _ _ _ _ R1).
    destruct (reliable_write (rt_Target task) (rt_Key task) (rt_Version task) src _ _ (proj1 Hnt) Ho1 Hd)
      as (o2 & R2 & Ho2).
    rewrite (gom_bind_ok _ _ _ _ _ R2), Hd. exists o2. cbn.
    rewrite (proj2 (andb_false_iff _ _)); [done|].
    rewrite !bool_decide_eq_false. destruct Hck; [left|right]; tauto.
  - rewrite decide_True by lia. destruct Hh as (ds & Hv & ->).
    eapply replicateChunks_reliable; [done..| |done].
    intros c c' Hc Hc' Ea. eapply Hdis; [by apply (list_elem_of_fmap_2 (chunk_addr _ _ _)), Hc|].
    rewrite Ea. by apply (list_elem_of_fmap_2 (chunk_addr _ _ _)).
Qed.
Lemma holds_inj o n key v chunks d1 d2 :
  holds o n key v chunks d1 → holds o n key v chunks d2 → d1 = d2.
Proof using Type*.
  unfold holds. case_decide as Hl; [congruence|]. clear Hl. intros (ds1 & H1' & ->) (ds2 & H2' & ->). f_equal.
  revert ds2 H2'. induction H1' as [|c d1 cs ds1 [Hd1 _] H1' IH]; intros ds2 H2'.
  - by apply Forall2_nil_inv_l in H2' as ->.
  - apply Forall2_cons_inv_l in H2' as (d2 & ds2' & [Hd2 _] & H2' & ->).
    rewrite Hd1 in Hd2. injection Hd2 as ->. f_equal. by apply IH.
Qed.
End copyable.

(** A task without a retry time is offered by [Pending]. *)
Lemma pending_tasks_head t (ts : TaskTable) :
  ids_ok ts → (∀ id task, ts !! id = Some task → is_pending task → rt_RunAfter task = zero_time) →
  pending_count ts ≠ 0 →
  ∃ task rest, pending_tasks t ts = task :: rest ∧ ts !! rt_ID task = Some task ∧ is_pending task.
Proof.
  intros Hids Hrun Hn.
  assert (∃ id task, ts !! id = Some task ∧ is_pending task) as (id & task & Hid & Hp).
  { apply map_size_ne_0_lookup_1 in Hn as (id & task & Hf).
    apply map_lookup_filter_Some in Hf. naive_solver. }
  assert (∀ task, task ∈ pending_tasks t ts ↔ runnable t task ∧ ∃ id, ts !! id = Some task) as Hel.
  { intros task'. unfold pending_tasks.
    by rewrite sortReplicationTasks_perm, list_elem_of_filter, elem_of_range_values. }
  assert (task ∈ pending_tasks t ts) as Hin.
  { apply Hel. split; [|by eauto]. split; [done|]. unfold readyToRun. by rewrite (Hrun _ _ Hid Hp). }
  destruct (pending_tasks t ts) as [|first rest] eqn:E; [set_solver|].
  destruct (proj1 (Hel first)) as [[Hst _] [id' Hid']]; [by left|].
  exists first, rest. split; [done|]. by rewrite (Hids _ _ Hid').
Qed.
Section completes.
Context {B Q OS : Type} `{HB : MetadataBackendLaws B} `{HQ : ReplicationTaskQueueLaws Q}
  `{HR : ReliableObjectStore OS}.
Context (no_mb_fault : ∀ b : B, mb_fault b → False) (no_rq_fault : ∀ q : Q, rq_fault q → False).
Abbreviation Worker := (ReplicationWorker B Q OS).
Abbreviation Service := (ManagedFileService B Q OS).
Implicit Types (w : Worker) (s : Service) (o : OS).

Lemma on_tasks_total {A} (m : GoM Q A) spec (c : MetadataCoordinator B Q) :
  refines task_table rq_fault m spec →
  ∃ t r c', on_tasks m c = (r, c') ∧ spec t (coord_table c) = (r, coord_table c') ∧
    coord_catalog c' = coord_catalog c.
Proof using no_rq_fault HB HQ.
  intros Hr. destruct (on_tasks m c) as [r c'] eqn:E.
  pose proof (on_tasks_inv _ _ _ _ _ Hr E) as (Hc & _ & _ & [[t Ht]|(Hf & _)]);
    [by exists t, r, c'|]. by apply no_rq_fault in Hf.
Qed.

Lemma on_coordinator_run {A} (m : GoM (MetadataCoordinator B Q) A) w r c :
  m (rw_coordinator w) = (r, c) →
  on_coordinator m w = (r, {| rw_coordinator := c; rw_replicator := rw_replicator w |}).
Proof. unfold on_coordinator, zoom. by intros ->. Qed.
Lemma on_replicator_run {A} (m : GoM OS A) w r o :
  m (rw_replicator w) = (r, o) →
  on_replicator m w = (r, {| rw_coordinator := rw_coordinator w; rw_replicator := o |}).
Proof. unfold on_replicator, zoom. by intros ->. Qed.

(** The worker completes the first pending task. *)
Lemma WorkOnce_total w :
  table_ok (coord_table (rw_coordinator w)) → os_ready (rw_replicator w) →
  (∀ id task, coord_table (rw_coordinator w) !! id = Some task → is_pending task →
     copyable (coord_catalog (rw_coordinator w)) (rw_replicator w) task) →
  pending_count (coord_table (rw_coordinator w)) ≠ 0 →
  ∃ task w', WorkOnce w = (Ok (task, None), w') ∧ os_ready (rw_replicator w').
Proof using Type*.
  intros Hok Ho Hcopy Hn. unfold WorkOnce.
  destruct (on_tasks_total _ _ (rw_coordinator w) rq_Pending_ref)
    as (t & r & c1 & R1 & [= <- Ht1] & Hc1).
  destruct (pending_tasks_head t (coord_table (rw_coordinator w))) as (t0 & rest & E & Ht0 & Hp);
    [by apply table_ok_ids|intros id task ? ?; by apply (Hcopy id)|done|].
  destruct (Hcopy _ _ Ht0 Hp) as (_ & Hserv & (meta & Hfile & [rep Hrep]) & _ & Hdis & data & Hsrc).
  rewrite (gom_bind_ok _ _ _ _ _ (on_coordinator_run PendingTasks w _ _ R1)), E.
  destruct (on_tasks_total _ _ c1 (rq_MarkRunning_ref (rt_ID t0))) as (t2 & r2 & c2 & R2 & U2 & Hc2).
  unfold tab_update in U2. rewrite <-Ht1, Ht0 in U2. injection U2 as <- Ht2.
  rewrite (gom_bind_ok _ _ _ _ _ (on_coordinator_run (StartReplication (rt_ID t0))
    {| rw_coordinator := c1; rw_replicator := rw_replicator w |} _ _ R2)).
  destruct (Replicate_reliable (runReplicationTask t0 t2) data (rw_replicator w))
    as (o' & R3 & Ho'); [done..|].
  change (or_Replicate (runReplicationTask t0 t2) (rw_replicator w) = (Ok tt, o')) in R3.
  rewrite (gom_bind_ok _ _ _ _ _ (try_run _ _ _ _ (on_replicator_run _
    {| rw_coordinator := c2; rw_replicator := rw_replicator w |} _ _ R3) ltac:(done))).
  assert (∃ meta' task c3, FinishReplication (rt_ID t0) c2 = (Ok (meta', task), c3))
    as (meta' & task & c3 & R4).
  { unfold FinishReplication.
    destruct (on_tasks_total _ _ c2 (rq_MarkDone_ref (rt_ID t0))) as (t3 & r3 & c3 & R3' & U3 & Hc3).
    unfold tab_update in U3. rewrite <-Ht2, lookup_insert_eq in U3. injection U3 as <- _.
    rewrite (gom_bind_ok _ _ _ _ _ R3').
    destruct (on_metadata_total no_mb_fault _ _ c3 (mb_MarkReplica_ref
      (rt_Key t0) (rt_Target t0) ReplicaHealthy)) as (t4 & r4 & c4 & R4 & U4 & _).
    unfold cat_mark_replica in U4. rewrite Hc3, Hc2, Hc1, Hfile, Hrep in U4. injection U4 as <- _.
    rewrite (gom_bind_ok _ _ _ _ _ R4). by eexists _, _, _. }
  rewrite (gom_bind_ok _ _ _ _ _ (on_coordinator_run (FinishReplication _)
    {| rw_coordinator := c2; rw_replicator := o' |} _ _ R4)). by eexists _, _.
Qed.

Lemma WorkOnce_idle w :
  pending_count (coord_table (rw_coordinator w)) = 0 →
  ∃ w', WorkOnce w = (Err ErrNoPendingTasks, w') ∧ rw_replicator w' = rw_replicator w ∧
    coord_table (rw_coordinator w') = coord_table (rw_coordinator w) ∧
    coord_catalog (rw_coordinator w') = coord_catalog (rw_coordinator w).
Proof using no_rq_fault HB HQ.
  intros Hn. unfold WorkOnce.
  destruct (on_tasks_total _ _ (rw_coordinator w) rq_Pending_ref)
    as (t & r & c1 & R1 & [= <- Ht1] & Hc1).
  rewrite (gom_bind_ok _ _ _ _ _ (on_coordinator_run PendingTasks w _ _ R1)).
  assert (pending_tasks t (coord_table (rw_coordinator w)) = []) as ->; [|by eexists].
  apply elem_of_nil_inv. intros task. unfold pending_tasks.
  rewrite sortReplicationTasks_perm, list_elem_of_filter, elem_of_range_values.
  intros [[Hst _] [id Hid]]. by apply (pending_none _ _ _ Hn Hid).
Qed.

(** Pending tasks do not read or write where another one writes. *)
Definition separated (ts : TaskTable) : Prop :=
  ∀ id1 id2 t1 t2, ts !! id1 = Some t1 → ts !! id2 = Some t2 → is_pending t1 → is_pending t2 →
  (∀ a, a ∈ task_addrs (rt_Source t1) t1 → a ∉ task_addrs (rt_Target t2) t2) ∧
  (id1 ≠ id2 → ∀ a, a ∈ task_addrs (rt_Target t1) t1 → a ∉ task_addrs (rt_Target t2) t2).

(** A replica the catalog offers to readers. *)
Definition healthy_at (cat : Catalog) (key n : string) : Prop :=
  ∃ meta rep, cat_files cat !! key = Some meta ∧ fm_Replicas meta !! n = Some rep ∧
    rm_State rep = ReplicaHealthy.

(** Everything that was pending in [s] is done in [s']. *)
Definition replicated s s' : Prop :=
  data_ready s' ∧ pending_count (svc_table s') = 0 ∧
  (∀ id task, svc_table s !! id = Some task → is_pending task → ∀ data,
     source_has (sv_objects s) task data →
     (rt_State <$> svc_table s' !! id) = Some ReplicationTaskDone ∧
     healthy_at (svc_catalog s') (rt_Key task) (rt_Target task) ∧
     target_has (sv_objects s') task data) ∧
  (∀ id task, svc_table s !! id = Some task → ¬ is_pending task →
     svc_table s' !! id = Some task) ∧
  (∀ key n, healthy_at (svc_catalog s) key n → healthy_at (svc_catalog s') key n) ∧
  (∀ a, (∀ id task, svc_table s !! id = Some task → is_pending task →
           a ∉ task_addrs (rt_Target task) task) →
     object_at (sv_objects s') a = object_at (sv_objects s) a).

(** The preconditions of the loop. *)
Definition ready_to_copy s : Prop :=
  coord_ok (sv_coordinator s) ∧ data_ready s ∧ separated (svc_table s) ∧
  ∀ id task, svc_table s !! id = Some task → is_pending task →
    copyable (svc_catalog s) (sv_objects s) task.

(** What one copy does to a state that is ready. *)
Definition copied s (id : string) (t0 task : ReplicationTask) s1 : Prop :=
  svc_table s !! id = Some t0 ∧ is_pending t0 ∧ rt_State task = ReplicationTaskDone ∧
  svc_table s1 = <[id := task]> (svc_table s) ∧ data_ready s1 ∧
  replica_marked (svc_catalog s) (svc_catalog s1) t0 ReplicaHealthy ∧
  agree_outside (task_addrs (rt_Target t0) t0) (sv_objects s) (sv_objects s1) ∧
  ∀ data, source_has (sv_objects s) t0 data → target_has (sv_objects s1) t0 data.

Lemma copy_step s :
  ready_to_copy s → pending_count (svc_table s) ≠ 0 →
  ∃ id t0 task s1, RunReplicationOnce s = (Ok (task, None), s1) ∧ copied s id t0 task s1.
Proof using Type*.
  intros ([_ Hok] & [Ho Htemp] & _ & Hcopy) Hn.
  destruct (WorkOnce_total (worker_of s) Hok Ho Hcopy Hn) as (task & w & Hrun & Ho').
  assert (RunReplicationOnce s = (Ok (task, None), set_worker w s)) as Hsvc
    by (unfold RunReplicationOnce, zoom; by rewrite Hrun).
  apply WorkOnce_inv in Hrun as (t0 & t & u & Ht0 & Hst & Htab & Hrep & -> & Hm); [|done].
  exists (rt_ID t0), t0, (doneReplicationTask (runReplicationTask t0 t) u), (set_worker w s).
  destruct (Hcopy _ _ Ht0 Hst) as (_ & _ & _ & Hnd & Hdis & _).
  split; [done|]. split; [done|]. split; [done|]. split; [done|]. split; [done|].
  split; [done|]. split; [done|]. split.
  - by apply (Replicate_touches (runReplicationTask t0 t) _ _ _ Hrep).
  - intros data [Hsrc _].
    destruct (Replicate_ok (runReplicationTask t0 t) _ _ Hnd Hdis Hrep) as (d & Hs & Ht & _).
    by rewrite (holds_inj _ _ _ _ _ _ _ Hsrc Hs).
Qed.

Lemma copied_healthy s id t0 task s1 key n :
  copied s id t0 task s1 → healthy_at (svc_catalog s) key n → healthy_at (svc_catalog s1) key n.
Proof.
  intros (_ & _ & _ & _ & _ & [Hm (m & m' & rep & Hf & Hf' & Hr & Hst & Hoth)] & _)
    (meta & rep' & Hfile & Hrep & Hh).
  destruct (decide (key = rt_Key t0)) as [->|Hne].
  - rewrite Hf in Hfile. injection Hfile as <-.
    destruct (decide (n = rt_Target t0)) as [->|Hn]; [by eexists _, _|].
    exists m', rep'. split; [done|]. by rewrite Hoth.
  - exists meta, rep'. split; [|done]. destruct Hm as (_ & Hm & _). by rewrite Hm.
Qed.

Lemma copied_ready s id t0 task s1 :
  ready_to_copy s → coord_ok (sv_coordinator s1) → copied s id t0 task s1 → ready_to_copy s1.
Proof.
  intros (_ & _ & Hsep & Hcopy) Hok1 (Ht0 & Hp & Hdone & Htab & Hd & [Hm _] & Hag & _).
  assert (∀ id' t', svc_table s1 !! id' = Some t' → is_pending t' →
    svc_table s !! id' = Some t' ∧ id' ≠ id) as Hold.
  { intros id' t'. rewrite Htab, lookup_insert_Some. unfold is_pending.
    intros [[<- <-]|[Hne Ht']]; [by rewrite Hdone|by auto]. }
  split; [done|]. split; [done|]. split.
  { intros id1 id2 t1 t2 Ht1 Ht2 Hp1 Hp2. destruct (Hold _ _ Ht1 Hp1), (Hold _ _ Ht2 Hp2).
    by apply (Hsep id1 id2). }
  intros id' t' Ht' Hp'. destruct (Hold _ _ Ht' Hp') as [Ht Hne].
  destruct (Hcopy _ _ Ht Hp') as (Hra & Hserv & (meta & Hfile & Hrep) & Hnd & Hdis & data & Hsrc & Hck).
  split; [done|]. split; [done|]. split; [|split; [done|split; [done|]]].
  - destruct Hm as (_ & Hoth & Hsame). destruct (decide (rt_Key t' = rt_Key t0)) as [E|E].
    + rewrite <-E, Hfile in Hsame. inversion Hsame as [? meta' (_ & _ & _ & _ & _ & _ & _ & Hdom) E1 E2|].
      exists meta'. split; [done|]. apply elem_of_dom. rewrite Hdom. by apply elem_of_dom.
    + exists meta. by rewrite Hoth.
  - exists data. split; [|done]. eapply holds_agree; [exact Hag| |exact Hsrc].
    intros a Ha. destruct (Hsep id' id t' t0) as [Hs _]; [done..|]. by apply Hs.
Qed.

Lemma replicated_idle s s1 :
  data_ready s1 → sv_objects s1 = sv_objects s → svc_table s1 = svc_table s →
  svc_catalog s1 = svc_catalog s → pending_count (svc_table s) = 0 → replicated s s1.
Proof.
  intros Hd Eo Et Ec Hn. unfold replicated. rewrite Eo, Et, Ec. split; [done|]. split; [done|].
  split; [|done]. intros id task Hid Hp. by destruct (pending_none _ _ _ Hn Hid).
Qed.

(** One copy, then the rest. *)
Lemma replicated_cons s id t0 task s1 s2 :
  ready_to_copy s → copied s id t0 task s1 → replicated s1 s2 → replicated s s2.
Proof.
  intros (_ & _ & Hsep & _) Hcop (Hd2 & Hn2 & Hdone2 & Hkeep2 & Hheal2 & Hframe2).
  pose proof Hcop as (Ht0 & Hp & Hdone & Htab & Hd & [_ Hm] & Hag & Hdata).
  assert (¬ is_pending task) as Hnp by (unfold is_pending; by rewrite Hdone).
  assert (∀ id' t', svc_table s !! id' = Some t' → id' ≠ id → svc_table s1 !! id' = Some t') as Hold.
  { intros id' t' Ht' Hne. by rewrite Htab, lookup_insert_ne. }
  assert (∀ a, (∀ id' t', svc_table s !! id' = Some t' → is_pending t' → id' ≠ id →
    a ∉ task_addrs (rt_Target t') t') → object_at (sv_objects s2) a = object_at (sv_objects s1) a)
    as Hframe.
  { intros a Ha. apply Hframe2. intros id' t'. rewrite Htab, lookup_insert_Some.
    intros [[<- <-]|[Hne Ht']] Hp'; [done|]. by apply (Ha id'). }
  split; [done|]. split; [done|]. split; [|split; [|split]].
  - intros id' t' Ht' Hp' data Hsrc. destruct (decide (id' = id)) as [->|Hne].
    + rewrite Ht0 in Ht'. injection Ht' as <-. split; [|split].
      * rewrite (Hkeep2 id task); [by cbn; rewrite Hdone|by rewrite Htab, lookup_insert_eq|done].
      * apply Hheal2. destruct Hm as (m & m' & rep & _ & ? & ? & ? & _). by exists m', rep.
      * eapply holds_local; [|by apply Hdata]. intros a Ha. apply Hframe.
        intros id' t' Ht' Hp2 Hne. destruct (Hsep id id' t0 t') as [_ Hs]; [done..|]. by apply Hs.
    + pose proof (Hold _ _ Ht' Hne) as Ht1. apply (Hdone2 _ _ Ht1 Hp').
      destruct Hsrc as [Hh Hck]. split; [|done]. eapply holds_agree; [exact Hag| |exact Hh].
      intros a Ha. destruct (Hsep id' id t' t0) as [Hs _]; [done..|]. by apply Hs.
  - intros id' t' Ht' Hp'. destruct (decide (id' = id)) as [->|Hne]; [by simplify_eq|].
    apply Hkeep2; [|done]. by apply Hold.
  - intros key n Hh. apply Hheal2. by eapply copied_healthy.
  - intros a Ha. rewrite Hframe by eauto. apply Hag. by apply (Ha id).
Qed.

Lemma run_tasks_replicates s :
  ready_to_copy s →
  ∃ s', (∀ fuel, pending_count (svc_table s) < fuel → run_tasks fuel s = (Ok true, s')) ∧
    replicated s s'.
Proof using Type*.
  remember (pending_count (svc_table s)) as n eqn:Hn. revert s Hn.
  induction n as [|n IH]; intros s Hn Hs.
  - destruct (WorkOnce_idle (worker_of s)) as (w & Hrun & Eo & Et & Ec); [done|].
    assert (RunReplicationOnce s = (Err ErrNoPendingTasks, set_worker w s)) as Hsvc
      by (unfold RunReplicationOnce, zoom; by rewrite Hrun).
    exists (set_worker w s). split.
    + intros [|fuel] Hf; [lia|]. cbn [run_tasks].
      by rewrite (gom_bind_ok _ _ _ _ _ (try_run _ _ _ _ Hsvc ltac:(done))).
    + destruct Hs as (_ & [Ho Ht] & _). apply replicated_idle; try done. split; [|done].
      cbn. by rewrite Eo.
  - destruct (copy_step s Hs) as (id & t0 & task & s1 & Hrun & Hcop); [lia|].
    destruct (WorkOnce_svc _ _ _ Hrun (proj1 Hs)) as [Hok1 _].
    pose proof (copy_decreases _ _ _ (proj2 (proj1 Hs)) Hrun) as Hdec.
    destruct (IH s1) as (s2 & R2 & Hrep); [lia|by eapply copied_ready|].
    exists s2. split; [|by eapply replicated_cons].
    intros [|fuel] Hf; [lia|]. cbn [run_tasks].
    rewrite (gom_bind_ok _ _ _ _ _ (try_run _ _ _ _ Hrun ltac:(done))). apply R2. lia.
Qed.
End completes.

(** ** A write followed by the loop *)

Lemma NoDup_bind_inj {X Y} (f : X → list Y) (l : list X) x y a :
  NoDup (l ≫= f) → x ∈ l → y ∈ l → a ∈ f x → a ∈ f y → x = y.
Proof.
  induction l as [|z l IH]; [set_solver|]. cbn. intros (_ & Hdis & Hl)%NoDup_app Hx Hy Hax Hay.
  apply elem_of_cons in Hx as [->|Hx], Hy as [->|Hy]; [done| | |by auto];
    exfalso; eapply Hdis; try eassumption; apply list_elem_of_bind; eauto.
Qed.

Lemma NoDup_bind_elem {X Y} (f : X → list Y) (l : list X) x : NoDup (l ≫= f) → x ∈ l → NoDup (f x).
Proof.
  induction l as [|z l IH]; [set_solver|]. cbn.
  intros (Hz & _ & Hl)%NoDup_app [->|Hx]%elem_of_cons; auto.
Qed.

(** Where a version of a file goes on every node of a plan. *)
Definition plan_addrs `{ObjectStoreLaws OS} (plan : ReplicaPlan) (key : string) (v : Z)
    (chunks : list ChunkMetadata) : list Address :=
  rp_Replicas plan ≫= λ n, version_addrs (nm_ID n) key v chunks.

Section put_then_copy.
Context {B Q OS : Type} `{HB : MetadataBackendLaws B} `{HQ : ReplicationTaskQueueLaws Q}
  `{HR : ReliableObjectStore OS}.
Abbreviation Service := (ManagedFileService B Q OS).
Implicit Types (s : Service).

(** The tasks a [Put] leaves pending in a queue that was idle. *)
Lemma put_pending key data plan s meta s' id task :
  pending_count (svc_table s) = 0 → put_outcome key data plan s meta s' →
  svc_table s' !! id = Some task → is_pending task →
  ∃ n u, n ∈ rp_Replicas plan ∧ nm_ID n ≠ nm_ID (rp_Primary plan) ∧
    id = rt_ID task ∧ task = pending_task meta (fm_Primary meta) (nm_ID n) u u.
Proof.
  intros Hn (t & u & tasks & _ & -> & _ & Ht & -> & _). rewrite lookup_enqueue_all.
  destruct (svc_table s !! id) as [old|] eqn:E.
  { intros [= <-] Hp. by destruct (pending_none _ _ _ Hn E). }
  unfold first_with_id. intros [Eid Hin]%head_Some_elem_of%list_elem_of_filter Hp.
  apply (TasksForFile_ok _ _ _ _ Ht) in Hin as (n & [Hne (rep & Hrep & _)] & ->).
  unfold committed in Hrep. cbn [new_file_version fm_Replicas pw_Replicas prepared_write] in Hrep.
  rewrite initial_replicas_lookup in Hrep. case_decide as Hin; [|done].
  apply list_elem_of_fmap in Hin as (node & -> & Hin). by exists node, u.
Qed.

Lemma put_ready key data plan s meta s' :
  coord_ok (sv_coordinator s') → data_ready s' → pending_count (svc_table s) = 0 →
  (∀ n, n ∈ rp_Replicas plan → serves_file (nm_ID n) key (fm_Version meta)) →
  NoDup (plan_addrs plan key (fm_Version meta) (fm_Chunks meta)) →
  holds (sv_objects s') (fm_Primary meta) key (fm_Version meta) (fm_Chunks meta) data →
  put_outcome key data plan s meta s' → ready_to_copy s'.
Proof.
  intros Hok Hd Hn Hserv Hnd Hh Hout.
  pose proof Hout as (t & u & tasks & Hplan & Em & Hpub & _).
  pose proof (Plan_ok_inv _ _ _ Hplan) as (_ & _ & Hhead%head_Some_elem_of).
  assert (fm_Primary meta = nm_ID (rp_Primary plan)) as Hprim by by rewrite Em.
  assert (∀ n n' a, n ∈ rp_Replicas plan → n' ∈ rp_Replicas plan →
    a ∈ version_addrs (nm_ID n) key (fm_Version meta) (fm_Chunks meta) →
    a ∈ version_addrs (nm_ID n') key (fm_Version meta) (fm_Chunks meta) → n = n') as Hinj.
  { intros n n' a. by apply (NoDup_bind_inj _ _ _ _ a Hnd). }
  assert (∀ m n u, task_addrs m (pending_task meta (fm_Primary meta) n u u) =
    version_addrs m key (fm_Version meta) (fm_Chunks meta)) as Haddr.
  { intros m n v. unfold task_addrs. cbn. rewrite cloneChunkMetadata_id. by rewrite Em. }
  split; [done|]. split; [done|]. split.
  - intros id1 id2 t1 t2 Ht1 Ht2 Hp1 Hp2.
    destruct (put_pending _ _ _ _ _ _ _ _ Hn Hout Ht1 Hp1) as (n1 & u1 & Hn1 & _ & Eid1 & ->).
    destruct (put_pending _ _ _ _ _ _ _ _ Hn Hout Ht2 Hp2) as (n2 & u2 & Hn2 & Hne2 & Eid2 & ->).
    rewrite !Haddr. cbn. rewrite Hprim. split.
    + intros a Ha Ha2. apply Hne2. by rewrite (Hinj _ _ _ Hhead Hn2 Ha Ha2).
    + intros Hne a Ha Ha2. apply Hne. by rewrite Eid1, Eid2, (Hinj _ _ _ Hn1 Hn2 Ha Ha2).
  - intros id task Htask Hp.
    destruct (put_pending _ _ _ _ _ _ _ _ Hn Hout Htask Hp) as (n & v & Hin & Hne & Eid & ->).
    split; [done|]. split.
    { assert (fm_Key meta = key) as Ek by by rewrite Em. unfold serves_task. cbn.
      rewrite Hprim, Ek. by split; apply Hserv. }
    split; [|split; [|split]].
    + exists meta. rewrite Hpub, Em. split; [apply lookup_insert_eq|].
      cbn [pending_task rt_Target committed new_file_version fm_Replicas prepared_write pw_Replicas].
      unfold committed. cbn [new_file_version fm_Replicas prepared_write pw_Replicas pw_Primary].
      rewrite initial_replicas_lookup, decide_True by by apply list_elem_of_fmap_2. done.
    + rewrite Haddr. by apply (NoDup_bind_elem _ _ n Hnd).
    + intros a. rewrite !Haddr. cbn. rewrite Hprim. intros Ha Ha2. apply Hne.
      by rewrite (Hinj _ _ _ Hhead Hin Ha Ha2).
    + exists data. split; [|right].
      * cbn. rewrite cloneChunkMetadata_id. by rewrite Em in Hh |- *.
      * by rewrite Em.
Qed.

(** The task of a replica is in the queue after the [Put]. *)
Lemma put_task key data plan s meta s' n :
  put_outcome key data plan s meta s' → n ∈ rp_Replicas plan →
  nm_ID n ≠ nm_ID (rp_Primary plan) →
  (∀ m, svc_table s !! replicationTaskID key (fm_Version meta) (nm_ID (rp_Primary plan)) m = None) →
  ∃ id task, svc_table s' !! id = Some task ∧ is_pending task ∧
    task.(rt_Key) = key ∧ task.(rt_Target) = nm_ID n ∧ task.(rt_Version) = fm_Version meta ∧
    task.(rt_Chunks) = fm_Chunks meta ∧ task.(rt_Source) = fm_Primary meta ∧
    task.(rt_Checksum) = fm_Checksum meta.
Proof.
  intros (t & u & tasks & _ & Em & _ & Ht & Htab & _) Hin Hne Hfresh.
  pose (task := pending_task meta (fm_Primary meta) (nm_ID n) u u).
  assert (task ∈ tasks) as Htask.
  { apply (TasksForFile_ok _ _ _ _ Ht). exists (nm_ID n). split; [|done].
    rewrite Em. split; [done|]. unfold committed.
    cbn [new_file_version fm_Replicas fm_Primary prepared_write pw_Primary pw_Replicas].
    eexists. rewrite initial_replicas_lookup, decide_True by by apply list_elem_of_fmap_2.
    split; [done|]. cbn. rewrite decide_False by done. by left. }
  assert (first_with_id (rt_ID task) tasks = Some task) as Hfirst.
  { unfold first_with_id. destruct (filter _ tasks) as [|first l] eqn:E.
    { exfalso. by eapply (filter_nil_not_elem_of _ _ _ E). }
    assert (first ∈ filter (λ x, rt_ID x = rt_ID task) tasks) as [Eid Hf]%list_elem_of_filter
      by (rewrite E; left).
    apply (TasksForFile_ok _ _ _ _ Ht) in Hf as (m & _ & ->). cbn. do 2 f_equal.
    cbn in Eid. unfold replicationTaskID in Eid. by repeat apply (inj (String.app _)) in Eid. }
  exists (rt_ID task), task. rewrite Htab, lookup_enqueue_all.
  assert (svc_table s !! rt_ID task = None) as -> by (rewrite Em in Hfresh; cbn; rewrite Em; apply Hfresh).
  split; [done|]. split; [done|]. cbn. rewrite cloneChunkMetadata_id. by rewrite Em.
Qed.

Lemma put_fields key data plan s meta s' :
  put_outcome key data plan s meta s' →
  fm_Version meta = next_version (svc_catalog s) key ∧ fm_Primary meta = nm_ID (rp_Primary plan) ∧
  fm_Chunks meta = manifest defaultChunkSize data ∧ fm_Checksum meta = checksumBytes data.
Proof. intros (t & u & tasks & _ & -> & _). cbn. by rewrite cloneChunkMetadata_id. Qed.

Lemma put_primary_healthy key data plan s meta s' :
  put_outcome key data plan s meta s' → healthy_at (svc_catalog s') key (nm_ID (rp_Primary plan)).
Proof.
  intros (t & u & tasks & Hplan & -> & Hpub & _).
  pose proof (Plan_ok_inv _ _ _ Hplan) as (_ & _ & Hhead%head_Some_elem_of).
  eexists _, _. rewrite Hpub. split; [apply lookup_insert_eq|]. unfold committed.
  cbn [new_file_version fm_Replicas fm_Primary prepared_write pw_Primary pw_Replicas].
  rewrite initial_replicas_lookup, decide_True by by apply list_elem_of_fmap_2.
  split; [done|]. cbn. by rewrite decide_True.
Qed.
End put_then_copy.

(** C9: on a system whose stores serve every call and whose queue is idle, a
    [Put] followed by the manager's copy loop leaves every planned replica
    healthy in the metadata and holding the bytes of the stream, chunk by
    chunk: asynchronous replication does complete.  The chunks need distinct
    addresses across the planned nodes and the tasks of this version must not
    be known to the queue already. *)
Theorem Put_replicates `{HB : MetadataBackendLaws B} `{HQ : ReplicationTaskQueueLaws Q}
    `{HR : ReliableObjectStore OS} (s : ManagedFileService B Q OS) key reads data plan :
  (∀ b : B, mb_fault b → False) → (∀ q : Q, rq_fault q → False) →
  coord_ok (sv_coordinator s) → data_ready s → pending_count (svc_table s) = 0 →
  drain reads = (data, None) →
  Plan (mc_planner (sv_coordinator s)) (healthy_nodes (svc_catalog s)) = Ok plan →
  let v := next_version (svc_catalog s) key in
  (∀ n, n ∈ rp_Replicas plan → nm_ID n ≠ "" ∧ serves_file (nm_ID n) key v) →
  NoDup (plan_addrs plan key v (manifest defaultChunkSize data)) →
  (∀ m, svc_table s !! replicationTaskID key v (nm_ID (rp_Primary plan)) m = None) →
  ∃ meta s1 s2, Put key reads s = (Ok meta, s1) ∧
    (∀ fuel, pending_count (svc_table s1) < fuel → run_tasks fuel s1 = (Ok true, s2)) ∧
    ∀ n, n ∈ rp_Replicas plan → healthy_at (svc_catalog s2) key (nm_ID n) ∧
      holds (sv_objects s2) (nm_ID n) key v (manifest defaultChunkSize data) data.
Proof.
  intros Hmb Hrq Hok Hd Hn Hdr Hplan v Hnodes Hnd Hfresh.
  pose proof (Plan_ok_inv _ _ _ Hplan) as (_ & _ & Hhead%head_Some_elem_of).
  destruct (Hnodes _ Hhead) as [Hid Hserv].
  destruct (Put_total Hmb Hrq key reads data plan s Hd Hdr Hplan Hid Hserv) as (meta & s1 & Hput & Hd1).
  destruct (Put_svc _ _ _ _ _ Hput Hok) as [Hok1 _].
  pose proof (Put_ok _ _ _ _ _ Hput) as (data' & plan' & Hdr' & Hout).
  rewrite Hdr in Hdr'. injection Hdr' as <-.
  assert (plan' = plan) as -> by (destruct Hout as (?&?&?&Hp&_); rewrite Hplan in Hp; congruence).
  pose proof Hout as (t & u & tasks & _ & Em & _ & _ & _ & _ & Hh).
  pose proof (put_fields _ _ _ _ _ _ Hout) as (Ev & Ep & Ec & Es). fold v in Ev.
  specialize (Hh ltac:(unfold put_addrs; rewrite <-version_addrs_manifest;
    by apply (NoDup_bind_elem _ _ _ Hnd Hhead))).
  assert (ready_to_copy s1) as Hready.
  { eapply (put_ready key data plan s meta); rewrite ?Ev, ?Ec, ?Ep; try done.
    intros n Hin. by apply Hnodes. }
  destruct (run_tasks_replicates Hmb Hrq s1 Hready) as (s2 & Hrun & _ & _ & Hdone & _ & Hheal & Hframe).
  exists meta, s1, s2. split; [done|]. split; [done|]. intros n Hin.
  destruct (decide (nm_ID n = nm_ID (rp_Primary plan))) as [E|E].
  - rewrite E. split.
    + eapply Hheal, put_primary_healthy, Hout.
    + eapply holds_local; [|exact Hh]. intros a Ha. apply Hframe. intros id task Hid' Hp Ha'.
      destruct (put_pending _ _ _ _ _ _ _ _ Hn Hout Hid' Hp) as (m & w & Hm & Hne & _ & ->).
      apply Hne. f_equal. eapply (NoDup_bind_inj _ _ _ _ a Hnd Hm Hhead); [|done].
      revert Ha'. unfold task_addrs. cbn. rewrite cloneChunkMetadata_id, Ev, Ec. by rewrite Em.
  - destruct (put_task key data plan s meta s1 n Hout Hin E) as
      (id & task & Htask & Hp & Ek & Et & Evt & Ect & Est & Eck); [by rewrite Ev|].
    destruct (Hdone _ _ Htask Hp data) as (_ & Hheal' & Hhas).
    { split; [by rewrite Est, Ek, Evt, Ect, Ep, Ev, Ec|]. right. by rewrite Eck, Es. }
    rewrite Ek, Et in Hheal'. split; [done|].
    unfold target_has in Hhas. by rewrite Ek, Et, Evt, Ect, Ev, Ec in Hhas.
Qed.
