(* ===== verification/Paths.v ===== *)
(** * Paths: [path/filepath] as [store.go] uses it, and the
    content-addressed layout.

    A path is the list of its components; a leading empty component marks an
    absolute path.  [Join] cleans as Go's does, so node IDs such as [..] or
    [a/b] are resolved the way the program resolves them. *)

From Stdlib Require Import Ascii.
From S2P Require Import Prelude Metadata Replication Names Hash.
From stdpp Require Import options.

Abbreviation Path := (list string) (only parsing).

(** ** Splitting and joining *)

(** [strings.Split(s, string(c))] *)
Fixpoint split_on (c : ascii) (s : string) : list string :=
  match s with
  | EmptyString => [""]
  | String a s =>
      if decide (a = c) then "" :: split_on c s
      else match split_on c s with
           | [] => [String a ""]
           | part :: parts => String a part :: parts
           end
  end.

(** [strings.Join(parts, sep)] *)
Fixpoint join_with (sep : string) (parts : list string) : string :=
  match parts with
  | [] => ""
  | [part] => part
  | part :: parts => part +:+ sep +:+ join_with sep parts
  end.

(** [filepath.Clean] on components, on a stack of the components kept so
    far. *)
Definition clean_push (rooted : bool) (stack : list string) (c : string) : list string :=
  if decide (c = "" ∨ c = ".") then stack
  else if decide (c = "..") then
    match stack with
    | [] => if rooted then [] else [".."]
    | top :: rest => if decide (top = "..") then ".." :: stack else rest
    end
  else c :: stack.

Definition clean_stack (rooted : bool) (stack comps : list string) : list string :=
  foldl (clean_push rooted) stack comps.

Definition is_rooted (comps : list string) : bool :=
  match comps with "" :: _ => true | _ => false end.

Definition Clean (comps : list string) : Path :=
  (if is_rooted comps then [""] else []) ++ reverse (clean_stack (is_rooted comps) [] comps).

(** [filepath.Join]: empty elements are dropped, the rest joined and cleaned. *)
Definition Join (elems : list string) : Path :=
  Clean (concat (split_on "/" <$> filter (λ e, e ≠ "") elems)).

(** [filepath.Dir] of a cleaned path. *)
Definition PathDir (p : Path) : Path :=
  match p with
  | [""] => [""]
  | _ => take (length p - 1) p
  end.

(** The path as a string. *)
Definition path_string (p : Path) : string :=
  match p with
  | [] => "."
  | [""] => "/"
  | _ => join_with "/" p
  end.

(** [strings.HasPrefix] *)
Definition HasPrefix (s prefix : string) : bool := String.prefix prefix s.

(** ** The layout of [store.go] *)

Record PathKey := { PathName : string; FileName : string }.

(** [hashStr\[from:to\]] for the [i]-th block. *)
Definition hash_block (hashStr : string) (blocksize i : nat) : string :=
  String.substring (i * blocksize) blocksize hashStr.

Definition CASPathTransformFunc (key : string) : PathKey :=
  let hashStr := hex_encode (sha1 (bytes_of_string key)) in
  let blocksize := 5 in
  let sliceLen := String.length hashStr / blocksize in
  let paths := hash_block hashStr blocksize <$> seq 0 sliceLen in
  {| PathName := join_with "/" paths; FileName := hashStr |}.

Definition FullPath (p : PathKey) : string := PathName p +:+ "/" +:+ FileName p.

Definition FirstPathName (p : PathKey) : string :=
  match split_on "/" (PathName p) with
  | [] => ""
  | first :: _ => first
  end.

Definition DefaultPathTransformFunc (key : string) : PathKey :=
  {| PathName := key; FileName := key |}.

(** ** Lemmas on components *)

(** A component that [Clean] keeps as it is. *)
Definition plain (c : string) : Prop :=
  c ≠ "" ∧ c ≠ "." ∧ c ≠ ".." ∧ has_char "/" c = false.

Lemma split_on_nonempty c s : split_on c s ≠ [].
Proof. destruct s as [|a s]; cbn; [done|]. case_decide; [done|]. by case_match. Qed.

Lemma split_on_plain c s : has_char c s = false → split_on c s = [s].
Proof.
  induction s as [|a s IH]; [done|]. cbn. intros [Ha Hs]%orb_false_iff.
  apply bool_decide_eq_false in Ha. rewrite decide_False by done. by rewrite IH.
Qed.

Lemma split_on_app c s t :
  has_char c s = false → split_on c (s +:+ String c t) = s :: split_on c t.
Proof.
  induction s as [|a s IH].
  - intros _. change (split_on c (String c t) = "" :: split_on c t). cbn. by rewrite decide_True.
  - cbn. intros [Ha Hs]%orb_false_iff. apply bool_decide_eq_false in Ha.
    change (split_on c (String a (s +:+ String c t)) = String a s :: split_on c t). cbn.
    rewrite decide_False by done. by rewrite IH.
Qed.

(** Splitting undoes joining. *)
Lemma split_join parts :
  parts ≠ [] → Forall (λ p, has_char "/" p = false) parts →
  split_on "/" (join_with "/" parts) = parts.
Proof.
  induction parts as [|p parts IH]; [done|]. intros _ [Hp Hps]%Forall_cons.
  destruct parts as [|q parts]; [by apply split_on_plain|].
  change (join_with "/" (p :: q :: parts)) with (p +:+ String "/" (join_with "/" (q :: parts))).
  rewrite split_on_app by done. f_equal. by apply IH.
Qed.

Lemma clean_stack_plain rooted stack comps :
  Forall plain comps → clean_stack rooted stack comps = reverse comps ++ stack.
Proof.
  intros Hc. revert stack. induction Hc as [|c comps (? & ? & ? & _) Hc IH]; intros stack; [done|].
  change (clean_stack rooted stack (c :: comps)) with
    (clean_stack rooted (clean_push rooted stack c) comps).
  rewrite IH, reverse_cons, <-app_assoc. unfold clean_push.
  by rewrite decide_False, decide_False by tauto.
Qed.

(** Appending plain components to a clean path. *)
Lemma Clean_app comps tail :
  comps ≠ [] → Forall plain tail → Clean (comps ++ tail) = Clean comps ++ tail.
Proof.
  intros Hne Ht. unfold Clean.
  assert (is_rooted (comps ++ tail) = is_rooted comps) as -> by by destruct comps.
  unfold clean_stack. rewrite foldl_app. fold (clean_stack (is_rooted comps) [] comps).
  rewrite (clean_stack_plain _ _ _ Ht : foldl _ _ _ = _), reverse_app, reverse_involutive.
  by rewrite app_assoc.
Qed.

(** A node directory holds the files whose relative path is made of plain
    components. *)
Lemma Join_node root id rel comps :
  root ≠ "" → plain id → rel = join_with "/" comps → comps ≠ [] → Forall plain comps →
  Join [root; id; rel] = Join [root] ++ id :: comps.
Proof.
  intros Hroot Hid -> Hne Hc. unfold Join.
  assert (join_with "/" comps ≠ "") as Hrel.
  { destruct comps as [|c [|d comps]]; [done|..]; apply Forall_cons in Hc as [(Hc & _) _]; cbn; [done|].
    by destruct c. }
  destruct Hid as (Hid1 & Hid2 & Hid3 & Hid4).
  rewrite !filter_cons_True, filter_nil by done. cbn [fmap list_fmap concat].
  rewrite !app_nil_r, (split_on_plain _ _ Hid4).
  rewrite split_join; [|done|by eapply Forall_impl; [exact Hc|]; intros ? (_ & _ & _ & ?)].
  apply Clean_app; [apply split_on_nonempty|]. by constructor.
Qed.

(** ** The content-addressed layout *)

Lemma hex_encode_free c l :
  c = "/"%char ∨ c = "."%char → has_char c (hex_encode l) = false.
Proof.
  intros Hc. induction l as [|b l IH]; [done|]. cbn [hex_encode has_char]. rewrite IH, orb_false_r.
  apply orb_false_iff. by destruct Hc as [-> | ->]; destruct b.
Qed.

Lemma has_char_substring c n m s : has_char c s = false → has_char c (String.substring n m s) = false.
Proof.
  revert n m. induction s as [|a s IH]; intros [|n] [|m]; cbn; try done;
    intros [Ha Hs]%orb_false_iff; rewrite ?Ha; cbn; auto.
Qed.

Lemma length_substring n m s :
  n + m ≤ String.length s → String.length (String.substring n m s) = m.
Proof.
  revert n m. induction s as [|a s IH]; intros [|n] [|m]; cbn; try lia; intros H.
  - f_equal. apply (IH 0). lia.
  - rewrite (IH n 0) by lia. done.
  - rewrite (IH n (S m)) by lia. done.
Qed.

Lemma substring_app n m s :
  String.substring 0 n s +:+ String.substring n m s = String.substring 0 (n + m) s.
Proof.
  revert n. induction s as [|a s IH]; intros [|n]; [by destruct m..|done|].
  change (String a (String.substring 0 n s +:+ String.substring n m s) =
    String a (String.substring 0 (n + m) s)). by rewrite IH.
Qed.

Lemma substring_full s : String.substring 0 (String.length s) s = s.
Proof. induction s as [|a s IH]; [done|]. cbn. by rewrite IH. Qed.

(** The SHA-1 name of a key, and its eight directories. *)
Definition cas_name (key : string) : string := hex_encode (sha1 (bytes_of_string key)).
Definition cas_dirs (key : string) : list string := hash_block (cas_name key) 5 <$> seq 0 8.

Lemma length_cas_name key : String.length (cas_name key) = 40.
Proof. unfold cas_name. by rewrite length_hex_encode, length_sha1. Qed.

Lemma CASPathTransformFunc_eq key :
  CASPathTransformFunc key =
  {| PathName := join_with "/" (cas_dirs key); FileName := cas_name key |}.
Proof. unfold CASPathTransformFunc, cas_dirs. fold (cas_name key). by rewrite length_cas_name. Qed.

Lemma plain_hex s : s ≠ "" → has_char "/" s = false → has_char "." s = false → plain s.
Proof. intros ? ? Hd. repeat split; try done; by intros ->. Qed.

Lemma cas_name_plain key : plain (cas_name key).
Proof.
  apply plain_hex; [|by apply hex_encode_free; auto..].
  intros E. pose proof (length_cas_name key) as Hl. by rewrite E in Hl.
Qed.

Lemma cas_dir_length key i : i < 8 → String.length (hash_block (cas_name key) 5 i) = 5.
Proof. intros Hi. apply length_substring. rewrite length_cas_name. lia. Qed.

Lemma cas_dirs_plain key : Forall plain (cas_dirs key).
Proof.
  apply Forall_fmap, Forall_forall. intros i [_ Hi]%elem_of_seq. cbn.
  pose proof (cas_dir_length key i ltac:(lia)) as Hl.
  apply plain_hex; [by intros E; rewrite E in Hl|..];
    apply has_char_substring, hex_encode_free; auto.
Qed.

Lemma join_snoc dirs f : dirs ≠ [] → join_with "/" (dirs ++ [f]) = join_with "/" dirs +:+ "/" +:+ f.
Proof.
  intros Hne. induction dirs as [|d dirs IH]; [done|]. destruct dirs as [|e dirs]; [done|].
  change (join_with "/" ((d :: e :: dirs) ++ [f])) with
    (d +:+ "/" +:+ join_with "/" ((e :: dirs) ++ [f])).
  rewrite IH by done. change (join_with "/" (d :: e :: dirs)) with
    (d +:+ "/" +:+ join_with "/" (e :: dirs)).
  by rewrite !string_app_assoc.
Qed.

Lemma cas_full_path key :
  FullPath (CASPathTransformFunc key) = join_with "/" (cas_dirs key ++ [cas_name key]).
Proof. rewrite CASPathTransformFunc_eq. unfold FullPath; cbn [PathName FileName]. by rewrite join_snoc. Qed.

(** The content-addressed layout puts a key in a file named by the 40 hex
    digits of its SHA-1 sum, eight directories deep; each directory is five
    digits of the name and together they spell it; the joined path splits back
    into these components, so nothing in a key (slashes, dots) can leave the
    node's directory. *)
Theorem CASPathTransformFunc_shape key :
  let p := CASPathTransformFunc key in
  let dirs := split_on "/" (PathName p) in
  String.length (FileName p) = 40 ∧ length dirs = 8 ∧
  Forall (λ d, String.length d = 5 ∧ has_char "/" d = false ∧ has_char "." d = false) dirs ∧
  join_with "" dirs = FileName p ∧
  split_on "/" (FullPath p) = dirs ++ [FileName p] ∧
  FirstPathName p = String.substring 0 5 (FileName p).
Proof.
  intros p dirs. unfold dirs, p, FirstPathName.
  assert (split_on "/" (PathName (CASPathTransformFunc key)) = cas_dirs key) as Hsplit.
  { rewrite CASPathTransformFunc_eq. apply split_join; [done|].
    eapply Forall_impl; [apply cas_dirs_plain|]. by intros ? (_ & _ & _ & ?). }
  rewrite Hsplit. split; [apply length_cas_name|]. split; [done|]. split; [|split; [|split; [|done]]].
  - apply Forall_fmap, Forall_forall. intros i [_ Hi]%elem_of_seq. cbn.
    split; [apply cas_dir_length; lia|].
    split; apply has_char_substring, hex_encode_free; auto.
  - rewrite CASPathTransformFunc_eq. cbn [FileName].
    rewrite <-(substring_full (cas_name key)). rewrite length_cas_name.
    unfold cas_dirs, hash_block. cbn [fmap list_fmap seq join_with Nat.mul Nat.add].
    change (40) with (((((((5 + 5) + 5) + 5) + 5) + 5) + 5) + 5).
    rewrite <-!substring_app, !string_app_assoc. done.
  - rewrite cas_full_path. apply split_join; [by destruct (cas_dirs key)|].
    apply Forall_app; split.
    + eapply Forall_impl; [apply cas_dirs_plain|]. by intros ? (_ & _ & _ & ?).
    + constructor; [|done]. by apply hex_encode_free; auto.
Qed.

(** The example of [TestPathTransformFunc]. *)
Example cas_example :
  CASPathTransformFunc "momsbestpicture" =
  {| PathName := "68044/29f74/181a6/3c50c/3d81d/733a1/2f14a/353ff";
     FileName := "6804429f74181a63c50c3d81d733a12f14a353ff" |}.
Proof. by vm_compute. Qed.
