(* ===== verification/Store.v ===== *)
(** * The local store: [store.go] and the [LocalObjectStore] of [object.go].

    A file system is a map from paths to directories and files; a system call
    walks its path first and may also fail for reasons of its own, which the
    file system scripts ([fs_outcomes]).  The working directory and the root
    always exist.  A file that was opened is read as it was then: the program
    does not write to an object it is reading.

    [LocalObjectStore] implements [ObjectStore] and satisfies its laws, and is
    reliable while no system call fails, for node IDs that are single path
    components. *)

From S2P Require Import Prelude Metadata Replication Names Hash Objects Paths.
From stdpp Require Import options.

(** ** The file system *)

Inductive Entry :=
  | EntryDir
  | EntryFile (content : bytes).

Record FS := {
  fs_tree : gmap Path Entry;
  fs_outcomes : nat → option string;
  fs_used : nat
}.

Definition set_tree (f : gmap Path Entry → gmap Path Entry) (fs : FS) : FS :=
  {| fs_tree := f (fs_tree fs); fs_outcomes := fs_outcomes fs; fs_used := fs_used fs |}.

(** A system call that may fail for reasons other than the paths involved. *)
Definition sys_call (op : string) (p : Path) : GoM FS unit := λ fs,
  (match fs_outcomes fs (fs_used fs) with
   | None => Ok tt
   | Some msg => Err (PathError op (path_string p) (OtherErrno msg))
   end,
   {| fs_tree := fs_tree fs; fs_outcomes := fs_outcomes fs; fs_used := S (fs_used fs) |}).

(** The directories above a path, from the top. *)
Definition dirs_above (p : Path) : list Path := (λ i, take i p) <$> seq 1 (length p - 1).

Definition is_file (tree : gmap Path Entry) (p : Path) : bool :=
  match tree !! p with Some (EntryFile _) => true | _ => false end.
Definition is_dir (tree : gmap Path Entry) (p : Path) : bool :=
  match tree !! p with Some EntryDir => true | _ => false end.

(** What stops the walk to a path: a file on the way, or a directory that is
    missing.  (The directories of an entry that exists exist.) *)
Definition resolve (tree : gmap Path Entry) (p : Path) : option Errno :=
  if existsb (is_file tree) (dirs_above p) then Some ENOTDIR
  else match tree !! p with
       | Some _ => None
       | None => if forallb (is_dir tree) (dirs_above p) then None else Some ENOENT
       end.

Definition path_error {A} (op : string) (p : Path) (e : Errno) : GoM FS A :=
  fail (PathError op (path_string p) e).

(** Walk to [p], then go on with what is there. *)
Definition at_path {A} (op : string) (p : Path) (k : option Entry → GoM FS A) : GoM FS A :=
  sys_call op p;;
  tree ← gets fs_tree;
  match resolve tree p with
  | Some e => path_error op p e
  | None => k (tree !! p)
  end.

(** [os.Stat], without the file info *)
Definition os_Stat (p : Path) : GoM FS unit :=
  at_path "stat" p (λ entry,
    match entry with None => path_error "stat" p ENOENT | Some _ => mret tt end).

Definition has_child (tree : gmap Path Entry) (p : Path) : bool :=
  existsb (λ '(q, _), bool_decide (q ≠ p) && bool_decide (take (length q - 1) q = p))
    (map_to_list tree).

(** The working directory and the root cannot be removed. *)
Definition os_Remove (p : Path) : GoM FS unit :=
  at_path "remove" p (λ entry,
    if decide (p = [] ∨ p = [""]) then
      path_error "remove" p (OtherErrno "device or resource busy")
    else match entry with
    | None => path_error "remove" p ENOENT
    | Some (EntryFile _) => modify (set_tree (delete p))
    | Some EntryDir =>
        tree ← gets fs_tree;
        if has_child tree p then path_error "remove" p ENOTEMPTY
        else modify (set_tree (delete p))
    end).

(** [os.Mkdir] unless it is there, as [os.MkdirAll] does from the top down. *)
Definition mkdir_one (p : Path) : GoM FS unit :=
  tree ← gets fs_tree;
  match tree !! p with
  | Some EntryDir => mret tt
  | Some (EntryFile _) => path_error "mkdir" p ENOTDIR
  | None => sys_call "mkdir" p;; modify (set_tree (<[p := EntryDir]>))
  end.

Definition os_MkdirAll (p : Path) : GoM FS unit := for_each (dirs_above p ++ [p]) mkdir_one.

(** [os.Create]: open for writing, truncated. *)
Definition os_Create (p : Path) : GoM FS unit :=
  at_path "open" p (λ entry,
    match entry with
    | Some EntryDir => path_error "open" p EISDIR
    | _ => modify (set_tree (<[p := EntryFile []]>))
    end).

(** [f.Write(data)] at the end of the file. *)
Definition file_append (p : Path) (data : bytes) : GoM FS unit :=
  sys_call "write" p;;
  modify (set_tree (alter (λ entry,
    match entry with EntryFile content => EntryFile (content ++ data) | EntryDir => EntryDir end) p)).

(** [io.Copy(f, r)] *)
Fixpoint copy_file (p : Path) (reads : list ReadResult) (n : Z) : GoM FS Z :=
  match reads with
  | [] => mret n
  | (data, readErr) :: reads =>
      (if decide (0 < length data) then file_append p data else mret tt);;
      let n := (n + zlen data)%Z in
      match readErr with
      | Some EOF => mret n
      | Some (ReadErr e) => fail e
      | None => copy_file p reads n
      end
  end.

(** What reading an open file will deliver; reading a directory fails. *)
Definition open_reader (p : Path) (entry : Entry) : GoM FS Reader :=
  match entry with
  | EntryDir =>
      mret {| r_reads := [([], Some (ReadErr (PathError "read" (path_string p) EISDIR)))];
              r_close := None |}
  | EntryFile content =>
      readable ← try (sys_call "read" p);
      match readable with
      | Err e => mret {| r_reads := [([], Some (ReadErr e))]; r_close := None |}
      | _ => mret (reader_of content)
      end
  end.

(** What [Stat] gives as the size of a directory depends on the file system. *)
Definition entry_size (entry : Entry) : Z :=
  match entry with EntryDir => 4096%Z | EntryFile content => zlen content end.

(** ** The store *)

Record StoreOpts := {
  Root : string;
  PathTransformFunc : string → PathKey
}.

Definition defaultRootFolderName : string := "dfs-data".

(** [NewStore], given the options with [None] for a nil transform. *)
Definition NewStore (root : string) (transform : option (string → PathKey)) : StoreOpts := {|
  Root := if decide (String.length root = 0) then defaultRootFolderName else root;
  PathTransformFunc := default DefaultPathTransformFunc transform
|}.

Section store.
Context (opts : StoreOpts).

(** [filepath.Join(s.Root, id, pathKey.FullPath())] *)
Definition object_path (id key : string) : Path :=
  Join [Root opts; id; FullPath (PathTransformFunc opts key)].

Definition is_errno (e : GoError) (errno : Errno) : bool :=
  match e with PathError _ _ errno' => bool_decide (errno' = errno) | _ => false end.

Definition Has (id key : string) : GoM FS bool :=
  res ← try (os_Stat (object_path id key));
  match res with
  | Ok _ => mret true
  | Err e => mret (negb (is_errno e ENOENT))
  | Panic => panic
  end.

Definition under (p q : Path) : bool := bool_decide (take (length p) q = p).

Definition Clear : GoM FS unit :=
  sys_call "unlinkat" (Join [Root opts]);;
  modify (set_tree (filter (λ '(q, _), under (Join [Root opts]) q = false))).

(** The loop of [removeEmptyParents]; every round shortens [dir], so its
    length bounds the rounds. *)
Fixpoint remove_parents (fuel : nat) (dir stop : Path) : GoM FS unit :=
  match fuel with
  | 0 => mret tt
  | S fuel =>
      if bool_decide (path_string dir ≠ path_string stop) &&
         HasPrefix (path_string dir) (path_string stop)
      then
        res ← try (os_Remove dir);
        match res with
        | Ok _ => remove_parents fuel (PathDir dir) stop
        | Err e =>
            if is_errno e ENOENT then mret tt
            else if is_errno e ENOTEMPTY then mret tt
            else fail e
        | Panic => panic
        end
      else mret tt
  end.

Definition removeEmptyParents (dir stop : Path) : GoM FS unit :=
  remove_parents (S (length dir)) dir stop.

Definition StoreDelete (id key : string) : GoM FS unit :=
  let fullPath := object_path id key in
  res ← try (os_Remove fullPath);
  match res with
  | Panic => panic
  | Err e =>
      if is_errno e ENOENT then removeEmptyParents (PathDir fullPath) (Join [Root opts; id])
      else fail e
  | Ok _ => removeEmptyParents (PathDir fullPath) (Join [Root opts; id])
  end.

Definition openFileForWriting (id key : string) : GoM FS Path :=
  let pathKey := PathTransformFunc opts key in
  os_MkdirAll (Join [Root opts; id; PathName pathKey]);;
  os_Create (object_path id key);;
  mret (object_path id key).

Definition writeStream (id key : string) (r : Reader) : GoM FS Z :=
  f ← openFileForWriting id key;
  copy_file f (r_reads r) 0.

Definition StoreWrite (id key : string) (r : Reader) : GoM FS Z := writeStream id key r.

Definition StoreRead (id key : string) : GoM FS (Z * Reader) :=
  let p := object_path id key in
  entry ← at_path "open" p (λ entry,
    match entry with None => path_error "open" p ENOENT | Some entry => mret entry end);
  sys_call "stat" p;;
  file ← open_reader p entry;
  mret (entry_size entry, file).
End store.

(** ** [LocalObjectStore] *)

(** The file system as seen by a store with the options [opts]. *)
Record LocalObjectStore (opts : StoreOpts) := { ls_fs : FS }.
Arguments ls_fs {opts} _.

Definition on_fs {opts A} (m : GoM FS A) : GoM (LocalObjectStore opts) A :=
  zoom ls_fs (λ fs _, {| ls_fs := fs |}) m.

#[export] Instance LocalObjectStore_store opts : ObjectStore (LocalObjectStore opts) := {|
  WriteObject nodeID key version r := on_fs (StoreWrite opts nodeID (versionedObjectKey key version) r);
  ReadObject nodeID key version := on_fs (StoreRead opts nodeID (versionedObjectKey key version));
  DeleteObject nodeID key version := on_fs (StoreDelete opts nodeID (versionedObjectKey key version));
  HasObject nodeID key version := on_fs (Has opts nodeID (versionedObjectKey key version))
|}.
