(* ===== verification/StoreSpec.v ===== *)
(** * The local store satisfies the laws of [ObjectStore]. *)

From S2P Require Import Prelude Metadata Replication Names Hash Objects Paths Store.
From stdpp Require Import options.

(** ** Objects of a file system *)

(** The file at a path. *)
Definition file_at (fs : FS) (p : Path) : option bytes :=
  match fs_tree fs !! p with Some (EntryFile d) => Some d | _ => None end.

(** Two file systems whose files agree outside [A]. *)
Definition fs_agree (A : list Path) (fs fs' : FS) : Prop :=
  ∀ p, p ∉ A → file_at fs' p = file_at fs p.

#[export] Instance fs_agree_preorder A : PreOrder (fs_agree A).
Proof. split; [by intros fs p|]. intros f1 f2 f3 H1 H2 p Hp. by rewrite H2, H1. Qed.

Lemma fs_agree_mono A A' fs fs' : fs_agree A fs fs' → A ⊆ A' → fs_agree A' fs fs'.
Proof. intros Hs HA p Hp. apply Hs. set_solver. Qed.

Lemma sys_call_inv op p fs r fs' :
  sys_call op p fs = (r, fs') →
  fs_tree fs' = fs_tree fs ∧ fs_outcomes fs' = fs_outcomes fs ∧
  (r = Ok tt ∨ (∃ msg n, r = Err (PathError op (path_string p) (OtherErrno msg)) ∧
     fs_outcomes fs n = Some msg)).
Proof.
  unfold sys_call. intros [= <- <-]. split; [done|]. split; [done|].
  destruct (fs_outcomes fs (fs_used fs)) eqn:E; [right|by left]. by eexists _, _.
Qed.

Lemma sys_call_agree A op p : respects (fs_agree A) (sys_call op p).
Proof. intros fs r fs' (Ht & _)%sys_call_inv q _. unfold file_at. by rewrite Ht. Qed.

Lemma sys_call_panic_free op p : panic_free (sys_call op p).
Proof. intros fs r fs' (_ & _ & [->|(? & ? & -> & _)])%sys_call_inv; done. Qed.

(** [at_path] fails with the walk's error or a fault, or runs its
    continuation on the entry, in the same tree. *)
Lemma at_path_inv {A} op p (k : option Entry → GoM FS A) fs r fs' :
  at_path op p k fs = (r, fs') →
  (∃ e, r = Err (PathError op (path_string p) e) ∧ fs_tree fs' = fs_tree fs ∧
     fs_outcomes fs' = fs_outcomes fs ∧
     (resolve (fs_tree fs) p = Some e ∨ ∃ msg n, e = OtherErrno msg ∧ fs_outcomes fs n = Some msg)) ∨
  (∃ fs1, fs_tree fs1 = fs_tree fs ∧ fs_outcomes fs1 = fs_outcomes fs ∧
     resolve (fs_tree fs) p = None ∧ k (fs_tree fs !! p) fs1 = (r, fs')).
Proof.
  unfold at_path. intros Hrun. go_step Hrun.
  - apply sys_call_inv in Hc as (Ht & Ho & _). go_step Hrun; [|done..]. injection Hc as <- <-.
    rewrite Ht in Hrun. destruct (resolve (fs_tree fs) p) as [e|] eqn:E; [left|right; eauto 10].
    injection Hrun as <- <-. eauto 10.
  - apply sys_call_inv in Hc as (Ht & Ho & [?|(msg & n & [= ->] & Hf)]); [done|]. subst. left. eauto 12.
  - by apply sys_call_panic_free in Hc.
Qed.

Lemma at_path_panic_free {A} op p (k : option Entry → GoM FS A) :
  (∀ e, panic_free (k e)) → panic_free (at_path op p k).
Proof.
  intros Hk fs r fs' [(e & -> & _)|(fs1 & _ & _ & _ & Hrun)]%at_path_inv; [done|]. by eapply Hk.
Qed.

(** ** Walking *)

(** The directory a path of at least two components lies in. *)
Definition parent (p : Path) : Path := take (length p - 1) p.

Lemma length_parent p : length (parent p) = length p - 1.
Proof. unfold parent. rewrite length_take. lia. Qed.

Lemma elem_of_dirs_above p d :
  d ∈ dirs_above p ↔ ∃ i, 1 ≤ i < length p ∧ d = take i p.
Proof.
  unfold dirs_above. rewrite list_elem_of_fmap. setoid_rewrite elem_of_seq.
  split; intros (i & ? & ?); exists i; split; (done || lia).
Qed.

(** No file lies on the way to [p]. *)
Definition no_file_above (tree : gmap Path Entry) (p : Path) : Prop :=
  ∀ d c, d ∈ dirs_above p → tree !! d ≠ Some (EntryFile c).

Lemma resolve_notdir tree p : resolve tree p ≠ Some ENOTDIR ↔ no_file_above tree p.
Proof.
  unfold resolve, no_file_above. destruct (existsb _ _) eqn:E; split.
  - done.
  - apply existsb_exists in E as (d & Hd%list_elem_of_In & Hf). unfold is_file in Hf.
    destruct (tree !! d) as [[|c]|] eqn:Ed; [done| |done]. intros Hn. by destruct (Hn d c Hd).
  - intros _ d c Hd Hc. apply not_true_iff_false in E. apply E, existsb_exists.
    exists d. split; [by apply list_elem_of_In|]. unfold is_file. by rewrite Hc.
  - intros _. destruct (tree !! p); [done|]. by case_match.
Qed.

Lemma resolve_None_above tree p : resolve tree p = None → no_file_above tree p.
Proof. intros Hr. apply resolve_notdir. by rewrite Hr. Qed.

Lemma resolve_ENOENT tree p : resolve tree p = Some ENOENT → tree !! p = None.
Proof. unfold resolve. case_match; [done|]. by destruct (tree !! p). Qed.

Lemma resolve_entry tree p : no_file_above tree p → is_Some (tree !! p) → resolve tree p = None.
Proof.
  intros Hn%resolve_notdir [e He]. unfold resolve in *. rewrite He in *. by case_match.
Qed.

Lemma no_file_above_parent tree p : no_file_above tree p → no_file_above tree (parent p).
Proof.
  intros Hn d c (i & Hi & ->)%elem_of_dirs_above. rewrite length_parent in Hi. unfold parent.
  rewrite take_take, Nat.min_l by lia. apply Hn, elem_of_dirs_above. exists i. split; [lia|done].
Qed.

Lemma no_file_above_delete tree p q : no_file_above tree p → no_file_above (delete q tree) p.
Proof. intros Hn d c Hd [_ Hc]%lookup_delete_Some. by eapply Hn. Qed.

Lemma PathDir_parent p : p ≠ [""] → PathDir p = parent p.
Proof. intros Hp. unfold PathDir. by destruct p as [|[|] [|]]. Qed.

(** ** What the system calls change *)

Lemma os_Remove_inv p fs r fs' :
  os_Remove p fs = (r, fs') →
  r ≠ Panic ∧ fs_outcomes fs' = fs_outcomes fs ∧
  ((r = Ok tt ∧ p ≠ [] ∧ p ≠ [""] ∧ no_file_above (fs_tree fs) p ∧
    is_Some (fs_tree fs !! p) ∧ fs_tree fs' = delete p (fs_tree fs) ∧
    (fs_tree fs !! p = Some EntryDir → has_child (fs_tree fs) p = false)) ∨
   (∃ e, r = Err (PathError "remove" (path_string p) e) ∧ fs_tree fs' = fs_tree fs ∧
     (e = ENOENT → fs_tree fs !! p = None ∧ no_file_above (fs_tree fs) p) ∧
     (e ≠ ENOENT → e ≠ ENOTEMPTY → resolve (fs_tree fs) p = Some ENOTDIR ∨
        p = [] ∨ p = [""] ∨ ∃ n msg, fs_outcomes fs n = Some msg))).
Proof.
  intros [(e & -> & Ht & Ho & He)|(fs1 & Ht & Ho & Hr & Hrun)]%at_path_inv.
  - split; [done|]. split; [done|]. right. exists e. split; [done|]. split; [done|]. split.
    + intros ->. destruct He as [He|(? & ? & ? & _)]; [|done].
      split; [by apply resolve_ENOENT|]. apply resolve_notdir. by rewrite He.
    + intros He1 He2. destruct He as [He|(msg & n & _ & Hm)]; [left|by eauto 10].
      revert He. unfold resolve. case_match; [done|]. case_match; [done|]. by case_match; intros [= <-].
  - case_decide as Hp; [injection Hrun as <- <-; split; [done|]; split; [done|]; right;
      eexists; split; [done|]; split; [done|]; split; [done|]; tauto|].
    assert (p ≠ [] ∧ p ≠ [""]) as [Hp1 Hp2] by tauto.
    pose proof (resolve_None_above _ _ Hr) as Hn.
    destruct (fs_tree fs !! p) as [[|c]|] eqn:E.
    + go_step Hrun; [|done..]. injection Hc as <- <-. rewrite Ht in Hrun.
      destruct (has_child (fs_tree fs) p); injection Hrun as <- <-.
      * split; [done|]. split; [done|]. right. eexists. by split.
      * split; [done|]. split; [done|]. left. cbn. rewrite Ht. do 4 (split; [done|]). by eauto.
    + injection Hrun as <- <-. split; [done|]. split; [done|]. left. cbn. rewrite Ht.
      do 4 (split; [done|]). by eauto.
    + injection Hrun as <- <-. split; [done|]. split; [done|]. right. eexists. by auto.
Qed.

(** Removing the directory a path lies in touches no file, when the walk to
    the path did not run into one. *)
Lemma remove_parent_agree p fs r fs' :
  no_file_above (fs_tree fs) p → os_Remove (PathDir p) fs = (r, fs') →
  fs_agree [] fs fs' ∧ (r = Ok tt → no_file_above (fs_tree fs') (PathDir p)).
Proof.
  intros Hres (_ & _ & [(-> & Hne1 & Hne2 & Hr & [e He] & Ht & _)|(e & -> & Ht & _)])%os_Remove_inv.
  2: { split; [|done]. intros q _. unfold file_at. by rewrite Ht. }
  assert (p ≠ [""]) as Hp by by intros ->. rewrite PathDir_parent in * by done.
  assert (2 ≤ length p) as Hl.
  { destruct p as [|x [|y p]]; [done|done|]. cbn. lia. }
  split.
  - intros q _. unfold file_at. rewrite Ht.
    destruct (decide (q = parent p)) as [->|]; [|by rewrite lookup_delete_ne].
    rewrite lookup_delete_eq. destruct (fs_tree fs !! parent p) as [[|c]|] eqn:E; [done| |done].
    exfalso. apply (Hres (parent p) c); [|done]. apply elem_of_dirs_above.
    exists (length p - 1). split; [lia|done].
  - intros _. rewrite Ht. by apply no_file_above_delete.
Qed.

Lemma remove_parents_agree fuel p stop fs r fs' :
  no_file_above (fs_tree fs) p → remove_parents fuel (PathDir p) stop fs = (r, fs') →
  fs_agree [] fs fs' ∧ r ≠ Panic.
Proof.
  revert p fs. induction fuel as [|fuel IH]; intros p fs Hres Hrun; cbn in Hrun; [by injection Hrun as <- <-|].
  revert Hrun. case_match; intros Hrun; [|by injection Hrun as <- <-].
  go_step Hrun.
  - go_step Hc; [|done]. injection Hr as ->. destruct (remove_parent_agree _ _ _ _ Hres Hc) as [Ha Hn].
    destruct r0 as [[]|e|]; [|repeat case_match; by injection Hrun as <- <-|done].
    apply IH in Hrun as [Ha' ?]; [|by apply Hn]. split; [by etrans|done].
  - go_step Hc; done.
  - go_step Hc; [done|]. by apply os_Remove_inv in Hc as [? _].
Qed.

Lemma mkdir_one_agree p : respects (fs_agree []) (mkdir_one p).
Proof.
  unfold mkdir_one. intros fs r fs' Hrun. go_step Hrun; [|done..]. injection Hc as <- <-.
  destruct (fs_tree fs !! p) as [[|c]|] eqn:E; [by injection Hrun as <- <-|by injection Hrun as <- <-|].
  go_step Hrun; [|by eapply sys_call_agree..]. pose proof (sys_call_inv _ _ _ _ _ Hc) as (Ht & _).
  injection Hrun as <- <-. intros q _. unfold file_at; cbn. rewrite Ht.
  destruct (decide (q = p)) as [->|]; [by rewrite lookup_insert_eq, E|by rewrite lookup_insert_ne].
Qed.

Lemma os_MkdirAll_agree p : respects (fs_agree []) (os_MkdirAll p).
Proof. apply respects_for_each; [apply _|]. intros. apply mkdir_one_agree. Qed.

Lemma os_Create_inv p fs r fs' :
  os_Create p fs = (r, fs') →
  fs_agree [p] fs fs' ∧ (r = Ok tt → fs_tree fs' !! p = Some (EntryFile [])).
Proof.
  intros [(e & -> & Ht & _)|(fs1 & Ht & _ & _ & Hrun)]%at_path_inv.
  { split; [|done]. intros q _. unfold file_at. by rewrite Ht. }
  assert (∀ fs', fs_tree fs' = <[p := EntryFile []]> (fs_tree fs) → fs_agree [p] fs fs') as Hins.
  { intros fs2 Ht2 q Hq. unfold file_at. rewrite Ht2, lookup_insert_ne; [done|set_solver]. }
  destruct (fs_tree fs !! p) as [[|c]|]; injection Hrun as <- <-.
  - split; [|done]. intros q _. unfold file_at. by rewrite Ht.
  - split; [apply Hins; cbn; by rewrite Ht|]. intros _. cbn. by rewrite lookup_insert_eq.
  - split; [apply Hins; cbn; by rewrite Ht|]. intros _. cbn. by rewrite lookup_insert_eq.
Qed.

Lemma file_append_inv p data fs r fs' :
  file_append p data fs = (r, fs') →
  r ≠ Panic ∧ fs_agree [p] fs fs' ∧
  (∀ c, r = Ok tt → fs_tree fs !! p = Some (EntryFile c) → fs_tree fs' !! p = Some (EntryFile (c ++ data))).
Proof.
  unfold file_append. intros Hrun. go_step Hrun.
  - apply sys_call_inv in Hc as (Ht & _). injection Hrun as <- <-. split; [done|]. split.
    + intros q Hq. unfold file_at; cbn. rewrite Ht, lookup_alter_ne; [done|set_solver].
    + intros c _ E. cbn. by rewrite Ht, lookup_alter_eq, E.
  - subst. split; [done|]. split; [by eapply sys_call_agree|done].
  - by apply sys_call_panic_free in Hc.
Qed.

Lemma copy_file_inv p reads n fs r fs' :
  copy_file p reads n fs = (r, fs') →
  r ≠ Panic ∧ fs_agree [p] fs fs' ∧
  (∀ c m, r = Ok m → fs_tree fs !! p = Some (EntryFile c) →
     ∃ d, drain reads = (d, None) ∧ m = (n + zlen d)%Z ∧
       fs_tree fs' !! p = Some (EntryFile (c ++ d))).
Proof.
  revert n fs. induction reads as [|[data e] reads IH]; intros n fs Hrun; cbn [copy_file] in Hrun.
  { injection Hrun as <- <-. split; [done|]. split; [done|]. intros c m [= <-] E.
    exists []. by rewrite app_nil_r, Z.add_0_r. }
  assert (∀ (r1 : Res ()) fs1,
    (if decide (0 < length data) then file_append p data else mret tt) fs = (r1, fs1) →
    r1 ≠ Panic ∧ fs_agree [p] fs fs1 ∧ (∀ c, r1 = Ok tt → fs_tree fs !! p = Some (EntryFile c) →
      fs_tree fs1 !! p = Some (EntryFile (c ++ data)))) as Happ.
  { intros r1 fs1. case_decide as Hl; [apply file_append_inv|]. intros [= <- <-].
    split; [done|]. split; [done|]. intros c _ E. destruct data; [|cbn in Hl; lia].
    by rewrite app_nil_r. }
  go_step Hrun; apply Happ in Hc as (Hnp & Ha & Hw); [|by subst|done].
  destruct a. destruct e as [[|e]|].
  - injection Hrun as <- <-. split; [done|]. split; [done|]. intros c m [= <-] E. exists data.
    split; [done|]. split; [done|]. by apply Hw.
  - by injection Hrun as <- <-.
  - apply IH in Hrun as (? & Ha' & Hok). split; [done|]. split; [by etrans|].
    intros c m -> E. destruct (Hok (c ++ data) m eq_refl) as (d & Hd & -> & Ht); [by apply Hw|].
    exists (data ++ d). cbn. rewrite Hd. rewrite <-app_assoc in Ht. split; [done|]. split; [|done].
    unfold zlen. rewrite length_app. lia.
Qed.

(** ** The operations of the store *)

Section operations.
Context (opts : StoreOpts).

Lemma mkdir_panic_free p : panic_free (os_MkdirAll p).
Proof.
  unfold os_MkdirAll, mkdir_one.
  panic_free_step ltac:(first [ apply sys_call_panic_free | by intros fs r fs' [= <- <-] ]).
Qed.

Lemma os_Create_panic_free p : panic_free (os_Create p).
Proof.
  apply at_path_panic_free. intros [[|c]|]; by intros fs r fs' [= <- <-].
Qed.

Lemma openFileForWriting_inv id key fs r fs' :
  openFileForWriting opts id key fs = (r, fs') →
  let p := object_path opts id key in
  r ≠ Panic ∧ fs_agree [p] fs fs' ∧
  (∀ f, r = Ok f → f = p ∧ fs_tree fs' !! p = Some (EntryFile [])).
Proof.
  intros Hrun p. unfold openFileForWriting in Hrun. split; [|split].
  - revert Hrun. apply panic_free_bind; [apply mkdir_panic_free|]. intros _.
    apply panic_free_bind; [apply os_Create_panic_free|]. intros _. apply panic_free_ret.
  - revert Hrun. apply (respects_bind (fs_agree [p])).
    + intros f r1 f1 Hmk. eapply fs_agree_mono; [by eapply os_MkdirAll_agree|set_solver].
    + intros _. apply respects_bind; [apply _| |intros; apply respects_ret, _].
      by intros f r1 f1 [? _]%os_Create_inv.
  - intros f ->. go_step Hrun; [|done..]. go_step Hrun; [|done..]. injection Hrun as <- <-.
    apply os_Create_inv in Hc0 as [_ Hok]. destruct a0. auto.
Qed.

Lemma StoreWrite_inv id key rd fs r fs' :
  StoreWrite opts id key rd fs = (r, fs') →
  r ≠ Panic ∧ fs_agree [object_path opts id key] fs fs' ∧
  (∀ n, r = Ok n → ∃ d, drain (r_reads rd) = (d, None) ∧ n = zlen d ∧
     file_at fs' (object_path opts id key) = Some d).
Proof.
  unfold StoreWrite, writeStream. intros Hrun.
  go_step Hrun; apply openFileForWriting_inv in Hc as (Hnp & Ha & Hok); [|by subst|done].
  destruct (Hok _ eq_refl) as [-> Ht]. apply copy_file_inv in Hrun as (? & Ha' & Hw).
  split; [done|]. split; [by etrans|]. intros n ->.
  destruct (Hw [] n eq_refl Ht) as (d & Hd & -> & Hf). exists d. split; [done|]. split; [done|].
  unfold file_at. by rewrite Hf.
Qed.

Lemma open_reader_inv p entry fs r fs' :
  open_reader p entry fs = (r, fs') →
  fs_tree fs' = fs_tree fs ∧ r ≠ Panic ∧
  (∀ rd, r = Ok rd →
     (∀ d, drain (r_reads rd) = (d, None) → entry = EntryFile d) ∧
     ((entry_size entry ≤ zlen (drain (r_reads rd)).1)%Z →
      entry = EntryFile (drain (r_reads rd)).1)).
Proof.
  unfold open_reader. destruct entry as [|c].
  { intros [= <- <-]. split; [done|]. split; [done|]. by intros rd [= <-]. }
  intros Hrun. go_step Hrun; (go_step Hc; [|try done]).
  - injection Hr as ->. apply sys_call_inv in Hc as (Ht & _).
    destruct r0 as [[]|e|]; [..|done]; injection Hrun as <- <-; (split; [done|]; split; [done|]);
      intros rd [= <-]; cbn; rewrite ?app_nil_r.
    + split; [by intros d [= <-]|done].
    + split; [done|]. intros Hz. destruct c; [done|]. unfold zlen in Hz. cbn in Hz. lia.
  - apply sys_call_panic_free in Hc. by destruct r0.
  - done.
  - by apply sys_call_panic_free in Hc.
Qed.

Lemma StoreRead_inv id key fs r fs' :
  StoreRead opts id key fs = (r, fs') →
  fs_tree fs' = fs_tree fs ∧ r ≠ Panic ∧
  (∀ size rd, r = Ok (size, rd) → (0 ≤ size)%Z ∧
     (∀ d, drain (r_reads rd) = (d, None) →
        file_at fs (object_path opts id key) = Some d ∧ size = zlen d) ∧
     ((size ≤ zlen (drain (r_reads rd)).1)%Z →
        file_at fs (object_path opts id key) = Some (drain (r_reads rd)).1 ∧
        size = zlen (drain (r_reads rd)).1)).
Proof.
  unfold StoreRead. intros Hrun.
  assert (∀ r1 fs1, at_path "open" (object_path opts id key) (λ entry,
      match entry with
      | None => path_error "open" (object_path opts id key) ENOENT
      | Some entry => mret entry
      end) fs = (r1, fs1) →
    fs_tree fs1 = fs_tree fs ∧ r1 ≠ Panic ∧
    ∀ e, r1 = Ok e → fs_tree fs !! object_path opts id key = Some e) as Hopen.
  { intros r1 fs1 [(e & -> & Ht & _)|(fs2 & Ht & _ & _ & Hk)]%at_path_inv; [done|].
    destruct (fs_tree fs !! object_path opts id key) as [e|]; injection Hk as <- <-;
      (split; [done|]; split; [done|]); [|done]. by intros e' [= <-]. }
  go_step Hrun; apply Hopen in Hc as (Ht & Hnp & He); [|by subst|done]. specialize (He _ eq_refl).
  go_step Hrun; pose proof (sys_call_inv _ _ _ _ _ Hc) as (Ht1 & _ & Hr1); [|subst; by split; [congruence|]|].
  2: by destruct Hr1 as [|(? & ? & ? & _)].
  go_step Hrun; apply open_reader_inv in Hc0 as (Ht2 & Hnp2 & Hd); [|subst; by split; [congruence|]|done].
  injection Hrun as <- <-. split; [congruence|]. split; [done|]. intros size rd [= <- <-].
  unfold file_at. rewrite He. destruct (Hd _ eq_refl) as [Hw Hp].
  split; [destruct a; cbn; unfold zlen; lia|].
  split; [intros d ->%Hw|intros ->%Hp]; done.
Qed.

Lemma StoreDelete_inv id key fs r fs' :
  StoreDelete opts id key fs = (r, fs') →
  r ≠ Panic ∧ fs_agree [object_path opts id key] fs fs' ∧
  (r = Ok tt → file_at fs' (object_path opts id key) = None).
Proof.
  unfold StoreDelete. set (p := object_path opts id key). intros Hrun.
  go_step Hrun; [|by go_step Hc|go_step Hc; [done|by apply os_Remove_inv in Hc as [? _]]].
  go_step Hc; [|done]. injection Hr as ->.
  apply os_Remove_inv in Hc as (_ & _ & [(-> & _ & _ & Hres & _ & Ht & _)|(e & -> & Ht & He & _)]).
  - assert (fs_agree [p] fs s) as Ha.
    { intros q Hq. unfold file_at. rewrite Ht, lookup_delete_ne; [done|set_solver]. }
    apply remove_parents_agree in Hrun as [Ha' ?]; [|rewrite Ht; by apply no_file_above_delete].
    split; [done|]. split; [etrans; [exact Ha|eapply fs_agree_mono; [exact Ha'|set_solver]]|].
    intros _. rewrite Ha' by set_solver. unfold file_at. by rewrite Ht, lookup_delete_eq.
  - assert (fs_agree [p] fs s) as Ha by (intros q _; unfold file_at; by rewrite Ht).
    cbn [is_errno] in Hrun. destruct (bool_decide_reflect (e = ENOENT)) as [Ee|Ee];
      [|injection Hrun as <- <-; by split]. destruct (He Ee) as [Hnone Hres]. clear Ee.
    rewrite <-Ht in Hres. apply remove_parents_agree in Hrun as [Ha' ?]; [|done].
    split; [done|]. split; [etrans; [exact Ha|eapply fs_agree_mono; [exact Ha'|set_solver]]|].
    intros _. rewrite Ha' by set_solver. unfold file_at. by rewrite Ht, Hnone.
Qed.

Lemma Has_inv id key fs r fs' :
  Has opts id key fs = (r, fs') → fs_tree fs' = fs_tree fs ∧ r ≠ Panic.
Proof.
  unfold Has. intros Hrun.
  assert (∀ r1 fs1, os_Stat (object_path opts id key) fs = (r1, fs1) →
    fs_tree fs1 = fs_tree fs ∧ r1 ≠ Panic) as Hst.
  { intros r1 fs1 [(e & -> & Ht & _)|(fs2 & Ht & _ & _ & Hk)]%at_path_inv; [done|].
    destruct (fs_tree fs !! _); by injection Hk as <- <-. }
  go_step Hrun; (go_step Hc; [|try done]).
  - injection Hr as ->. apply Hst in Hc as [Ht _]. by destruct r0; injection Hrun as <- <-.
  - by apply Hst in Hc as [? _].
  - done.
  - by apply Hst in Hc as [_ ?].
Qed.
End operations.

(** ** The laws *)

#[export] Instance LocalObjectStore_laws opts : ObjectStoreLaws (LocalObjectStore opts).
Proof.
  refine {| Address := Path;
            addr n k v := object_path opts n (versionedObjectKey k v);
            object_at s p := file_at (ls_fs s) p |}.
  - intros n k v r s res s' (fs & Hrun & ->)%zoom_inv.
    apply StoreWrite_inv in Hrun as (? & Ha & Hok). split; [done|].
    split; [intros a Hne; apply Ha; set_solver|done].
  - intros n k v s res s' (fs & Hrun & ->)%zoom_inv.
    apply StoreRead_inv in Hrun as (Ht & ? & Hok). split; [done|].
    split; [intros a; unfold file_at; cbn; by rewrite Ht|].
    intros size rd d E Hd. by destruct (Hok _ _ E) as (_ & [? _]%(λ H, H d Hd) & _).
  - intros n k v s res s' (fs & Hrun & ->)%zoom_inv.
    apply StoreDelete_inv in Hrun as (? & Ha & _). split; [done|]. intros a Hne. apply Ha. set_solver.
  - intros n k v s res s' (fs & Hrun & ->)%zoom_inv.
    apply Has_inv in Hrun as [Ht ?]. split; [done|]. intros a. unfold file_at; cbn. by rewrite Ht.
Defined.

#[export] Instance LocalObjectStore_sized opts : SizedReads (LocalObjectStore opts).
Proof.
  split.
  - intros n k v s size rd s' (fs & Hrun & ->)%zoom_inv.
    apply StoreRead_inv in Hrun as (_ & _ & Hok). by apply (Hok _ _ eq_refl).
  - intros n k v s size rd s' d (fs & Hrun & ->)%zoom_inv Hd.
    apply StoreRead_inv in Hrun as (_ & _ & Hok). by apply (proj1 (proj2 (Hok _ _ eq_refl))) in Hd as [_ ?].
  - intros n k v s size rd s' (fs & Hrun & ->)%zoom_inv Hle.
    apply StoreRead_inv in Hrun as (_ & _ & Hok). apply (proj2 (proj2 (Hok _ _ eq_refl))) in Hle as [Hat ->].
    change (file_at (ls_fs s) (object_path opts n (versionedObjectKey k v)) =
      Some (take (Z.to_nat (zlen (drain (r_reads rd)).1)) (drain (r_reads rd)).1)).
    rewrite Hat. unfold zlen. by rewrite Nat2Z.id, firstn_all.
Qed.
