(* ===== verification/StoreReliable.v ===== *)
(** * The local store is reliable.

    While no system call fails, a store with the content-addressed layout
    serves every write, read and delete for node IDs that are single path
    components: the layout keeps files and directories at different depths,
    so they never get in each other's way. *)

From S2P Require Import Prelude Metadata Replication Names Hash Objects Paths Store StoreSpec.
From stdpp Require Import options.

Definition cas_opts (root : string) : StoreOpts := NewStore root (Some CASPathTransformFunc).

Lemma cas_root root : Root (cas_opts root) ≠ "".
Proof. unfold cas_opts, NewStore; cbn. case_decide; [done|]. by destruct root. Qed.

(** ** Trees *)

(** Every entry lies in a directory. *)
Definition closed (tree : gmap Path Entry) : Prop :=
  ∀ q e, tree !! q = Some e → 2 ≤ length q → tree !! parent q = Some EntryDir.

Lemma resolve_dirs tree p :
  (∀ d, d ∈ dirs_above p → tree !! d = Some EntryDir) → resolve tree p = None.
Proof.
  intros Hd. assert (no_file_above tree p) as Hn by (intros d c Hin Hc; by rewrite Hd in Hc).
  destruct (tree !! p) as [e|] eqn:E; [by apply resolve_entry; eauto|].
  apply resolve_notdir in Hn. unfold resolve in *. case_match; [done|]. rewrite E in *.
  case_match eqn:Ef; [done|]. apply not_true_iff_false in Ef. destruct Ef.
  apply forallb_forall. intros d Hin%list_elem_of_In. unfold is_dir. by rewrite Hd.
Qed.

Lemma parent_take p i : 1 ≤ i ≤ length p → parent (take i p) = take (i - 1) p.
Proof. intros Hi. unfold parent. rewrite length_take, take_take. f_equal. lia. Qed.

Lemma closed_above tree p i :
  closed tree → is_Some (tree !! p) → 1 ≤ i < length p → tree !! take i p = Some EntryDir.
Proof.
  intros Hc [e He] Hi. remember (length p - 1 - i) as k eqn:Hk.
  revert i Hi Hk. induction k as [|k IH]; intros i Hi Hk.
  - replace i with (length p - 1) by lia. apply (Hc _ _ He). lia.
  - pose proof (IH (S i) ltac:(lia) ltac:(lia)) as Hs.
    specialize (Hc _ _ Hs ltac:(rewrite length_take; lia)). rewrite parent_take in Hc by lia.
    by replace (S i - 1) with i in Hc by lia.
Qed.

Lemma closed_resolve tree p : closed tree → is_Some (tree !! p) → resolve tree p = None.
Proof.
  intros Hc Hp. apply resolve_dirs. intros d (i & Hi & ->)%elem_of_dirs_above.
  by apply closed_above.
Qed.

Lemma has_child_false tree p q e :
  has_child tree p = false → tree !! q = Some e → q ≠ p → parent q ≠ p.
Proof.
  intros Hf Hq Hne Hp. apply not_true_iff_false in Hf. apply Hf, existsb_exists. exists (q, e).
  split; [by apply list_elem_of_In, elem_of_map_to_list|]. apply andb_true_iff.
  by rewrite !bool_decide_eq_true.
Qed.

Lemma closed_delete tree p :
  closed tree → (tree !! p = Some EntryDir → has_child tree p = false) → closed (delete p tree).
Proof.
  intros Hc Hch q e [Hne Hq]%lookup_delete_Some Hl. specialize (Hc _ _ Hq Hl).
  rewrite lookup_delete_ne; [done|]. intros Ep. rewrite <-Ep in Hc.
  by eapply has_child_false; [by apply Hch|exact Hq|done|].
Qed.

Lemma closed_insert_file tree p c :
  closed tree → tree !! p ≠ Some EntryDir → (2 ≤ length p → tree !! parent p = Some EntryDir) →
  closed (<[p := EntryFile c]> tree).
Proof.
  intros Hc Hp Hpar q e Hq Hl.
  assert (tree !! parent q = Some EntryDir) as Hd.
  { apply lookup_insert_Some in Hq as [[<- _]|[_ Hq]]; eauto. }
  rewrite lookup_insert_ne; [done|]. intros E. by rewrite E in Hp.
Qed.

(** ** System calls that succeed *)

Definition no_faults (fs : FS) : Prop := ∀ n, fs_outcomes fs n = None.

Lemma sys_call_ok op p fs :
  no_faults fs → ∃ fs', sys_call op p fs = (Ok tt, fs') ∧ fs_tree fs' = fs_tree fs ∧ no_faults fs'.
Proof. intros Hf. unfold sys_call. rewrite Hf. eexists. split; [done|]. by split. Qed.

Lemma at_path_ok {A} op p (k : option Entry → GoM FS A) fs :
  no_faults fs → resolve (fs_tree fs) p = None →
  ∃ fs', at_path op p k fs = k (fs_tree fs !! p) fs' ∧ fs_tree fs' = fs_tree fs ∧ no_faults fs'.
Proof.
  intros Hf Hr. unfold at_path. destruct (sys_call_ok op p fs Hf) as (fs1 & H1 & Ht & Hf1).
  exists fs1. rewrite (gom_bind_ok _ _ _ _ _ H1), (gom_bind_ok (gets fs_tree) _ _ _ fs1 eq_refl).
  by rewrite Ht, Hr.
Qed.

Lemma mkdirs_ok ds fs :
  no_faults fs → (∀ d c, d ∈ ds → fs_tree fs !! d ≠ Some (EntryFile c)) →
  ∃ fs', for_each ds mkdir_one fs = (Ok tt, fs') ∧ no_faults fs' ∧
    ∀ q, fs_tree fs' !! q = if decide (q ∈ ds) then Some EntryDir else fs_tree fs !! q.
Proof.
  revert fs. induction ds as [|d ds IH]; intros fs Hf Hd.
  { exists fs. split; [done|]. split; [done|]. intros q. rewrite decide_False; [done|set_solver]. }
  assert (∃ fs1, mkdir_one d fs = (Ok tt, fs1) ∧ no_faults fs1 ∧
    ∀ q, fs_tree fs1 !! q = if decide (q = d) then Some EntryDir else fs_tree fs !! q)
    as (fs1 & H1 & Hf1 & Ht1).
  { unfold mkdir_one. rewrite (gom_bind_ok (gets fs_tree) _ _ _ fs eq_refl).
    destruct (fs_tree fs !! d) as [[|c]|] eqn:E.
    - exists fs. split; [done|]. split; [done|]. intros q. by case_decide; subst.
    - by destruct (Hd d c); [left|].
    - destruct (sys_call_ok "mkdir" d fs Hf) as (fs1 & H1 & Ht & Hf1).
      rewrite (gom_bind_ok _ _ _ _ _ H1). eexists. split; [done|]. split; [done|].
      intros q. cbn. rewrite Ht, lookup_insert. by repeat case_decide; subst. }
  destruct (IH fs1 Hf1) as (fs2 & H2 & Hf2 & Ht2).
  { intros d' c Hin. rewrite Ht1. case_decide; [done|]. apply Hd. by right. }
  exists fs2. cbn [for_each]. rewrite (gom_bind_ok _ _ _ _ _ H1). split; [done|]. split; [done|].
  intros q. rewrite Ht2, Ht1. repeat case_decide; (done || set_solver).
Qed.

Lemma file_append_ok p data c fs :
  no_faults fs → fs_tree fs !! p = Some (EntryFile c) →
  ∃ fs', file_append p data fs = (Ok tt, fs') ∧ no_faults fs' ∧
    fs_tree fs' = <[p := EntryFile (c ++ data)]> (fs_tree fs).
Proof.
  intros Hf Hp. unfold file_append. destruct (sys_call_ok "write" p fs Hf) as (fs1 & H1 & Ht & Hf1).
  rewrite (gom_bind_ok _ _ _ _ _ H1). eexists. split; [done|]. split; [done|].
  cbn. rewrite Ht. apply map_eq. intros q. destruct (decide (q = p)) as [->|].
  - by rewrite lookup_alter_eq, Hp, lookup_insert_eq.
  - by rewrite lookup_alter_ne, lookup_insert_ne.
Qed.

Lemma copy_file_ok p reads d n c fs :
  no_faults fs → fs_tree fs !! p = Some (EntryFile c) → drain reads = (d, None) →
  ∃ fs', copy_file p reads n fs = (Ok (n + zlen d)%Z, fs') ∧ no_faults fs' ∧
    fs_tree fs' = <[p := EntryFile (c ++ d)]> (fs_tree fs).
Proof.
  revert n c d fs. induction reads as [|[data e] reads IH]; intros n c d fs Hf Hp Hd; cbn in Hd.
  { injection Hd as <-. exists fs. rewrite app_nil_r, Z.add_0_r, insert_id by done. done. }
  assert (∃ fs1, (if decide (0 < length data) then file_append p data else mret tt) fs
    = (Ok tt, fs1) ∧ no_faults fs1 ∧ fs_tree fs1 = <[p := EntryFile (c ++ data)]> (fs_tree fs))
    as (fs1 & H1 & Hf1 & Ht1).
  { case_decide as Hl.
    - by apply file_append_ok.
    - exists fs. destruct data; [|cbn in Hl; lia]. by rewrite app_nil_r, insert_id. }
  cbn [copy_file]. rewrite (gom_bind_ok _ _ _ _ _ H1). destruct e as [[|e]|]; [|done|].
  - injection Hd as <-. by exists fs1.
  - destruct (drain reads) as [rest e] eqn:E. injection Hd as <- ->.
    destruct (IH (n + zlen data)%Z (c ++ data) rest fs1 Hf1) as (fs2 & H2 & Hf2 & Ht2);
      [by rewrite Ht1, lookup_insert_eq|done|].
    exists fs2. rewrite H2. split; [f_equal; f_equal; unfold zlen; rewrite length_app; lia|].
    split; [done|]. by rewrite Ht2, Ht1, insert_insert_eq, app_assoc.
Qed.

(** ** The layout invariant *)

Section layout.
Context (root : string).
Abbreviation opts := (cas_opts root).

(** The root directory of the store. *)
Definition store_root : Path := Join [Root opts].

(** Below the root, files lie exactly ten components down (the node, eight
    directories, the file) and directories above them; no file is on the way
    to the root. *)
Record layout (tree : gmap Path Entry) : Prop := {
  layout_closed : closed tree;
  layout_files q c : tree !! q = Some (EntryFile c) →
    (∀ i, q ≠ take i store_root) ∧
    (take (length store_root) q = store_root → length q = length store_root + 10);
  layout_dirs q : tree !! q = Some EntryDir → take (length store_root) q = store_root →
    length q < length store_root + 10
}.

Definition ready (fs : FS) : Prop := no_faults fs ∧ layout (fs_tree fs).

(** The directory of an object, relative to its node. *)
Definition node_dir (n : string) : Path := store_root ++ [n].
Definition object_dir (n key : string) : Path := node_dir n ++ cas_dirs key.

Lemma object_path_cas n key :
  plain n → object_path opts n key = object_dir n key ++ [cas_name key].
Proof.
  intros Hn. unfold object_path, object_dir, node_dir, store_root.
  rewrite (Join_node _ n _ (cas_dirs key ++ [cas_name key])).
  - by rewrite <-!app_assoc.
  - apply cas_root.
  - done.
  - apply cas_full_path.
  - by destruct (cas_dirs key).
  - apply Forall_app; split; [apply cas_dirs_plain|]. by repeat constructor; apply cas_name_plain.
Qed.

Lemma object_dir_cas n key :
  plain n → Join [Root opts; n; PathName (CASPathTransformFunc key)] = object_dir n key.
Proof.
  intros Hn. unfold object_dir, node_dir, store_root.
  rewrite (Join_node _ n _ (cas_dirs key)).
  - by rewrite <-app_assoc.
  - apply cas_root.
  - done.
  - by rewrite CASPathTransformFunc_eq.
  - done.
  - apply cas_dirs_plain.
Qed.

Lemma length_object_dir n key : length (object_dir n key) = length store_root + 9.
Proof. unfold object_dir, node_dir. rewrite !length_app. cbn. lia. Qed.

(** Between the root and the object's directory there is no file. *)
Lemma layout_no_file tree n key i c :
  layout tree → i ≤ length store_root + 9 →
  tree !! take i (object_dir n key) ≠ Some (EntryFile c).
Proof.
  intros Hl Hi Hf. destruct (layout_files _ Hl _ _ Hf) as [Hpre Hdeep].
  unfold object_dir, node_dir in *. rewrite <-app_assoc in *.
  destruct (decide (i ≤ length store_root)) as [Hle|Hgt].
  - rewrite take_app_le in Hpre by done. by destruct (Hpre i).
  - rewrite take_app_ge in Hdeep by lia. rewrite take_app_length in Hdeep.
    specialize (Hdeep eq_refl). rewrite length_app, length_take in Hdeep. lia.
Qed.

Lemma dirs_of_object n key d :
  d ∈ dirs_above (object_dir n key) ++ [object_dir n key] ↔
  ∃ i, 1 ≤ i ≤ length store_root + 9 ∧ d = take i (object_dir n key).
Proof.
  rewrite elem_of_app, elem_of_dirs_above, list_elem_of_singleton, length_object_dir. split.
  - intros [(i & Hi & ->)| ->]; [exists i; split; [lia|done]|].
    exists (length store_root + 9). rewrite take_ge by (rewrite length_object_dir; lia).
    split; [lia|done].
  - intros (i & Hi & ->). destruct (decide (i = length store_root + 9)) as [->|].
    + right. by rewrite take_ge by (rewrite length_object_dir; lia).
    + left. exists i. split; [lia|done].
Qed.

Lemma take_object_root n key i :
  length store_root ≤ i → take (length store_root) (take i (object_dir n key)) = store_root.
Proof.
  intros Hi. rewrite take_take, Nat.min_l by lia. unfold object_dir, node_dir.
  by rewrite <-app_assoc, take_app_length.
Qed.

(** Creating the directories of an object keeps the layout. *)
Lemma layout_mkdirs tree tree' n key :
  layout tree →
  (∀ q, tree' !! q = if decide (q ∈ dirs_above (object_dir n key) ++ [object_dir n key])
                     then Some EntryDir else tree !! q) →
  layout tree'.
Proof.
  intros Hl Ht. split.
  - intros q e Hq Hlen. rewrite Ht in Hq |- *.
    destruct (decide (parent q ∈ _)) as [|Hpar]; [done|].
    destruct (decide (q ∈ _)) as [Hin|]; [|by eapply layout_closed].
    apply dirs_of_object in Hin as (i & Hi & ->). exfalso. apply Hpar, dirs_of_object.
    rewrite length_take in Hlen. exists (i - 1).
    rewrite parent_take by (rewrite length_object_dir; lia). split; [lia|done].
  - intros q c. rewrite Ht. case_decide; [done|]. apply (layout_files _ Hl).
  - intros q Hq Hr. rewrite Ht in Hq. case_decide as Hin; [|by eapply layout_dirs].
    apply dirs_of_object in Hin as (i & Hi & ->). rewrite length_take. lia.
Qed.

Lemma object_path_length n key :
  length (object_dir n key ++ [cas_name key]) = length store_root + 10.
Proof. rewrite length_app, length_object_dir. cbn. lia. Qed.

Lemma object_path_root n key :
  take (length store_root) (object_dir n key ++ [cas_name key]) = store_root.
Proof. unfold object_dir, node_dir. by rewrite <-!app_assoc, take_app_length. Qed.

Lemma layout_insert tree n key c :
  layout tree → tree !! object_dir n key = Some EntryDir →
  layout (<[object_dir n key ++ [cas_name key] := EntryFile c]> tree).
Proof.
  intros Hl Hd. set (p := object_dir n key ++ [cas_name key]).
  assert (parent p = object_dir n key) as Hpar.
  { unfold parent, p. rewrite length_app; cbn. rewrite Nat.add_sub. apply take_app_length. }
  split.
  - apply closed_insert_file; [by apply layout_closed| |by rewrite Hpar].
    intros Hp. apply (layout_dirs _ Hl) in Hp; [|apply object_path_root].
    unfold p in Hp. rewrite object_path_length in Hp. lia.
  - intros q c' [[<- _]|[_ Hq]]%lookup_insert_Some; [|by eapply layout_files].
    split; [|by intros _; apply object_path_length]. intros i E. apply (f_equal length) in E.
    unfold p in E. rewrite object_path_length, length_take in E. lia.
  - intros q [[_ ?]|[_ Hq]]%lookup_insert_Some; [done|]. by apply (layout_dirs _ Hl).
Qed.

Lemma layout_delete tree p :
  layout tree → (tree !! p = Some EntryDir → has_child tree p = false) → layout (delete p tree).
Proof.
  intros Hl Hp. split.
  - apply closed_delete; [by apply layout_closed|done].
  - intros q c [_ Hq]%lookup_delete_Some. by eapply layout_files.
  - intros q [_ Hq]%lookup_delete_Some. by apply (layout_dirs _ Hl).
Qed.

(** ** Writes, reads and deletes succeed *)

(** An object opened for writing: it is empty, and may get any content. *)
Definition opened (p : Path) (fs : FS) : Prop :=
  no_faults fs ∧ ∀ c, layout (<[p := EntryFile c]> (fs_tree fs)).

Lemma openFile_ready n key fs :
  plain n → ready fs →
  ∃ fs', openFileForWriting opts n key fs = (Ok (object_path opts n key), fs') ∧
    opened (object_path opts n key) fs' ∧
    fs_tree fs' !! object_path opts n key = Some (EntryFile []).
Proof.
  intros Hn [Hf Hl]. unfold openFileForWriting.
  cbn [PathTransformFunc cas_opts NewStore default].
  rewrite object_dir_cas, object_path_cas by done.
  destruct (mkdirs_ok (dirs_above (object_dir n key) ++ [object_dir n key]) fs Hf)
    as (fs1 & H1 & Hf1 & Ht1).
  { intros q c (i & Hi & ->)%dirs_of_object. apply layout_no_file; [done|lia]. }
  pose proof (layout_mkdirs _ _ _ _ Hl Ht1) as Hl1.
  assert (∀ i, 1 ≤ i ≤ length store_root + 9 → fs_tree fs1 !! take i (object_dir n key) = Some EntryDir)
    as Hdirs.
  { intros i Hi. rewrite Ht1, decide_True; [done|]. apply dirs_of_object. eauto. }
  set (p := object_dir n key ++ [cas_name key]).
  destruct (at_path_ok "open" p (λ entry,
    match entry with
    | Some EntryDir => path_error "open" p EISDIR
    | _ => modify (set_tree (<[p := EntryFile []]>))
    end) fs1 Hf1) as (fs2 & H2 & Ht2 & Hf2).
  { apply resolve_dirs. intros q (i & Hi & ->)%elem_of_dirs_above. unfold p in *.
    rewrite object_path_length in Hi. rewrite take_app_le by (rewrite length_object_dir; lia).
    apply Hdirs. lia. }
  assert (fs_tree fs1 !! p ≠ Some EntryDir) as Hnd.
  { intros Hp. apply (layout_dirs _ Hl1) in Hp; [|apply object_path_root].
    unfold p in Hp. rewrite object_path_length in Hp. lia. }
  set (fs3 := set_tree (<[p := EntryFile []]>) fs2).
  assert (os_Create p fs1 = (Ok tt, fs3)) as H3.
  { unfold os_Create. rewrite H2. by destruct (fs_tree fs1 !! p) as [[|c]|]. }
  exists fs3. unfold os_MkdirAll. rewrite (gom_bind_ok _ _ _ _ _ H1), (gom_bind_ok _ _ _ _ _ H3).
  split; [done|]. split; [split; [done|]|cbn; by rewrite lookup_insert_eq].
  intros c. cbn. rewrite Ht2, insert_insert_eq. apply layout_insert; [done|].
  rewrite <-(firstn_all (object_dir n key)), length_object_dir. apply Hdirs. lia.
Qed.

Lemma StoreWrite_ready n key rd d fs :
  plain n → ready fs → drain (r_reads rd) = (d, None) →
  ∃ fs', StoreWrite opts n key rd fs = (Ok (zlen d), fs') ∧ ready fs'.
Proof.
  intros Hn Hr Hd. unfold StoreWrite, writeStream.
  destruct (openFile_ready n key fs Hn Hr) as (fs1 & H1 & [Hf1 Hl1] & Ht1).
  rewrite (gom_bind_ok _ _ _ _ _ H1).
  destruct (copy_file_ok _ (r_reads rd) d 0 [] fs1 Hf1 Ht1 Hd) as (fs2 & H2 & Hf2 & Ht2).
  exists fs2. rewrite H2. split; [done|]. split; [done|]. by rewrite Ht2.
Qed.

Lemma StoreRead_ready n key d fs :
  ready fs → file_at fs (object_path opts n key) = Some d →
  ∃ fs', StoreRead opts n key fs = (Ok (zlen d, reader_of d), fs') ∧ ready fs'.
Proof.
  intros [Hf Hl] Hp. unfold StoreRead. set (p := object_path opts n key) in *.
  unfold file_at in Hp. destruct (fs_tree fs !! p) as [[|c]|] eqn:E; simplify_eq.
  destruct (at_path_ok "open" p (λ entry,
    match entry with None => path_error "open" p ENOENT | Some entry => mret entry end) fs Hf)
    as (fs1 & H1 & Ht1 & Hf1).
  { apply closed_resolve; [by apply layout_closed|by eauto]. }
  rewrite E in H1. destruct (sys_call_ok "stat" p fs1 Hf1) as (fs2 & H2 & Ht2 & Hf2).
  destruct (sys_call_ok "read" p fs2 Hf2) as (fs3 & H3 & Ht3 & Hf3).
  exists fs3. rewrite (gom_bind_ok _ _ _ _ _ (H1 : _ = (Ok _, fs1))), (gom_bind_ok _ _ _ _ _ H2).
  rewrite (gom_bind_ok _ _ fs2 (reader_of d) fs3); [|unfold open_reader;
    by rewrite (gom_bind_ok _ _ _ _ _ (try_run _ _ _ _ H3 ltac:(done)))].
  split; [done|]. split; [done|]. by rewrite Ht3, Ht2, Ht1.
Qed.

(** Removing something inside the store: it goes, or it was not there, or it is
    a directory that is not empty. *)
Lemma os_Remove_ready p fs r fs' :
  ready fs → p ≠ [] → p ≠ [""] → no_file_above (fs_tree fs) p → os_Remove p fs = (r, fs') →
  ready fs' ∧ (r = Ok tt ∨ ∃ e, r = Err (PathError "remove" (path_string p) e) ∧
    (e = ENOENT ∨ e = ENOTEMPTY ∧ fs_tree fs !! p = Some EntryDir)).
Proof.
  intros [Hf Hl] Hp1 Hp2 Hn Hrun. pose proof Hrun as
    (_ & Ho & [(-> & _ & _ & _ & _ & Ht & Hch)|(e & -> & Ht & _ & He)])%os_Remove_inv.
  - split; [|by left]. split; [intros k; by rewrite Ho|]. rewrite Ht. by apply layout_delete.
  - split; [split; [intros k; by rewrite Ho|by rewrite Ht]|]. right. exists e. split; [done|].
    destruct (decide (e = ENOENT)) as [|H1]; [by left|]. destruct (decide (e = ENOTEMPTY)) as [->|H2].
    + right. split; [done|].
      apply at_path_inv in Hrun as [(e & [= <-] & _ & _ & [Hr|(? & ? & ? & _)])|(fs1 & Ht1 & _ & _ & Hk)].
      * unfold resolve in Hr. by repeat case_match.
      * done.
      * rewrite decide_False in Hk by tauto. by destruct (fs_tree fs !! p) as [[|c]|].
    + exfalso. destruct (He H1 H2) as [Hr|[?|[?|(k & msg & Hm)]]]; [|done|done|by rewrite Hf in Hm].
      by apply resolve_notdir in Hn.
Qed.

Lemma take_object_dir n key k :
  take (length store_root + 1 + k) (object_dir n key) = node_dir n ++ take k (cas_dirs key).
Proof.
  unfold object_dir. replace (length store_root + 1) with (length (node_dir n));
    [apply take_app_add|]. unfold node_dir. by rewrite length_app.
Qed.

Lemma remove_parents_ready fuel k n key fs :
  ready fs → k ≤ 8 → k < fuel →
  ∃ fs', remove_parents fuel (node_dir n ++ take k (cas_dirs key)) (node_dir n) fs = (Ok tt, fs') ∧
    ready fs'.
Proof.
  revert k fs. induction fuel as [|fuel IH]; intros k fs Hr Hk Hfuel; [lia|]. cbn [remove_parents].
  destruct k as [|k].
  { cbn [take]. rewrite app_nil_r, bool_decide_eq_false_2 by tauto. by exists fs. }
  case_match; [|by exists fs].
  set (dir := node_dir n ++ take (S k) (cas_dirs key)).
  assert (dir = take (length store_root + 1 + S k) (object_dir n key)) as Edir.
  { by rewrite take_object_dir. }
  assert (length dir = length store_root + 1 + S k) as Hlen.
  { rewrite Edir, length_take, length_object_dir. lia. }
  destruct (os_Remove dir fs) as [r fs1] eqn:Hrun.
  destruct (os_Remove_ready dir fs r fs1) as [Hr1 Hres]; [done|..|done|].
  { intros E. rewrite E in Hlen. cbn in Hlen. lia. }
  { intros E. rewrite E in Hlen. cbn in Hlen. lia. }
  { intros d c (i & Hi & ->)%elem_of_dirs_above. rewrite Edir, take_take, Nat.min_l by lia.
    destruct Hr as [_ Hl]. apply layout_no_file; [done|lia]. }
  rewrite (gom_bind_ok _ _ fs r fs1).
  2: { apply try_run; [done|]. by destruct Hres as [->|(e & -> & _)]. }
  destruct Hres as [->|(e & -> & He)].
  - assert (PathDir dir = node_dir n ++ take k (cas_dirs key)) as ->; [|apply IH; [done|lia|lia]].
    rewrite PathDir_parent by (intros E; rewrite E in Hlen; cbn in Hlen; lia).
    rewrite Edir, parent_take by (rewrite length_object_dir; lia).
    rewrite <-take_object_dir. f_equal. lia.
  - exists fs1. split; [|done]. cbn [is_errno].
    destruct He as [->|[-> _]]; [by rewrite bool_decide_eq_true_2|].
    by rewrite bool_decide_eq_false_2, bool_decide_eq_true_2.
Qed.

Lemma StoreDelete_ready n key fs :
  plain n → ready fs → ∃ fs', StoreDelete opts n key fs = (Ok tt, fs') ∧ ready fs'.
Proof.
  intros Hn Hr. unfold StoreDelete. rewrite object_path_cas by done.
  set (p := object_dir n key ++ [cas_name key]).
  assert (length p = length store_root + 10) as Hlen by apply object_path_length.
  assert (Join [Root opts; n] = node_dir n) as ->.
  { unfold node_dir, store_root, Join. rewrite !filter_cons_True, filter_nil by (apply cas_root || apply Hn).
    cbn [fmap list_fmap concat]. rewrite !app_nil_r. destruct Hn as (? & ? & ? & Hc).
    rewrite (split_on_plain _ _ Hc). apply Clean_app; [apply split_on_nonempty|].
    by repeat constructor. }
  destruct (os_Remove p fs) as [r fs1] eqn:Hrun.
  destruct (os_Remove_ready p fs r fs1) as [Hr1 Hres]; [done|..|done|].
  { intros E. rewrite E in Hlen. cbn in Hlen. lia. }
  { intros E. rewrite E in Hlen. cbn in Hlen. lia. }
  { intros d c (i & Hi & ->)%elem_of_dirs_above. unfold p in *. rewrite object_path_length in Hi.
    rewrite take_app_le by (rewrite length_object_dir; lia).
    destruct Hr as [_ Hl]. apply layout_no_file; [done|lia]. }
  rewrite (gom_bind_ok _ _ fs r fs1).
  2: { apply try_run; [done|]. by destruct Hres as [->|(e & -> & _)]. }
  assert (∃ fs', removeEmptyParents (PathDir p) (node_dir n) fs1 = (Ok tt, fs') ∧ ready fs') as Hpar.
  { unfold removeEmptyParents. rewrite PathDir_parent by (intros E; rewrite E in Hlen; cbn in Hlen; lia).
    assert (parent p = node_dir n ++ take 8 (cas_dirs key)) as ->.
    { unfold parent, p. rewrite length_app; cbn. rewrite Nat.add_sub, take_app_length. done. }
    apply remove_parents_ready; [done|done|]. rewrite length_app. cbn. lia. }
  destruct Hres as [->|(e & -> & [->|[-> Hd]])]; [done|done|].
  exfalso. destruct Hr as [_ Hl]. apply (layout_dirs _ Hl) in Hd; [lia|apply object_path_root].
Qed.
End layout.

#[export] Instance LocalObjectStore_reliable root : ReliableObjectStore (LocalObjectStore (cas_opts root)).
Proof.
  refine {| os_ready s := ready root (ls_fs s); os_serves n _ _ := plain n |}.
  - intros n k v r s data Hn Hs Hd.
    destruct (StoreWrite_ready root n (versionedObjectKey k v) r data _ Hn Hs Hd) as (fs & Hrun & Hr).
    exists {| ls_fs := fs |}. split; [|done]. cbn. unfold on_fs. by rewrite (zoom_run _ _ _ _ _ _ Hrun).
  - intros n k v s data Hn Hs Hat.
    destruct (StoreRead_ready root n (versionedObjectKey k v) data _ Hs Hat) as (fs & Hrun & Hr).
    eexists _, _, {| ls_fs := fs |}. split; [cbn; unfold on_fs; by rewrite (zoom_run _ _ _ _ _ _ Hrun)|].
    cbn. by rewrite app_nil_r.
  - intros n k v s Hn Hs.
    destruct (StoreDelete_ready root n (versionedObjectKey k v) _ Hn Hs) as (fs & Hrun & Hr).
    apply (zoom_run (S := LocalObjectStore (cas_opts root)) ls_fs (λ fs _, {| ls_fs := fs |}) _ s)
      in Hrun as Hrun'.
    exists {| ls_fs := fs |}. split; [done|]. split; [done|].
    apply StoreDelete_inv in Hrun as (_ & _ & Hgone). by apply Hgone.
Defined.

(** ** Properties *)

(** Equal SHA-1 names mean equal SHA-1 sums. *)
Lemma cas_path_inj root n n' key key' :
  plain n → plain n' →
  object_path (cas_opts root) n key = object_path (cas_opts root) n' key' →
  n = n' ∧ cas_name key = cas_name key'.
Proof.
  intros Hn Hn'. rewrite !object_path_cas by done. unfold object_dir, node_dir.
  intros E. apply app_inj_2 in E as [Hd Hname]; [|done]. split; [|congruence].
  rewrite <-!app_assoc in Hd. apply app_inv_head in Hd. by injection Hd as ->.
Qed.

(** On the content-addressed layout two objects share a file only if they
    belong to the same node and their versioned names have the same SHA-1 sum:
    node directories are disjoint, and within one a clash would be a SHA-1
    collision. *)
Theorem object_path_collision root n n' k k' v v' :
  plain n → plain n' →
  object_path (cas_opts root) n (versionedObjectKey k v) =
  object_path (cas_opts root) n' (versionedObjectKey k' v') →
  n = n' ∧ hex_encode (sha1 (bytes_of_string (versionedObjectKey k v))) =
           hex_encode (sha1 (bytes_of_string (versionedObjectKey k' v'))).
Proof. intros Hn Hn' E. by apply cas_path_inj in E. Qed.

Definition empty_fs : FS := {| fs_tree := ∅; fs_outcomes := λ _, None; fs_used := 0 |}.

Lemma empty_fs_ready root : ready root empty_fs.
Proof.
  split; [done|]. split; [intros q e Hq|intros q c Hq|intros q Hq];
    cbn in Hq; by rewrite lookup_empty in Hq.
Qed.

(** [Has] tells whether the object is there. *)
Lemma Has_ready root n key fs :
  plain n → ready root fs →
  ∃ fs', Has (cas_opts root) n key fs =
      (Ok (bool_decide (is_Some (file_at fs (object_path (cas_opts root) n key)))), fs') ∧
    ready root fs' ∧ fs_tree fs' = fs_tree fs.
Proof.
  intros Hn [Hf Hl]. set (p := object_path (cas_opts root) n key).
  assert (p = object_dir root n key ++ [cas_name key]) as Ep by by apply object_path_cas.
  assert (no_file_above (fs_tree fs) p) as Hab.
  { intros d c (i & Hi & ->)%elem_of_dirs_above. rewrite Ep in *. rewrite object_path_length in Hi.
    rewrite take_app_le by (rewrite length_object_dir; lia). apply layout_no_file; [done|lia]. }
  assert (fs_tree fs !! p ≠ Some EntryDir) as Hnd.
  { rewrite Ep. intros Hp. apply (layout_dirs _ _ Hl) in Hp; [|apply object_path_root].
    rewrite object_path_length in Hp. lia. }
  unfold Has. fold p. destruct (os_Stat p fs) as [r fs1] eqn:Hrun.
  assert (fs_tree fs1 = fs_tree fs ∧ no_faults fs1 ∧
    (is_Some (file_at fs p) ∧ r = Ok tt ∨
     ¬ is_Some (file_at fs p) ∧ r = Err (PathError "stat" (path_string p) ENOENT)))
    as (Ht & Hf1 & Hr).
  { unfold file_at.
    apply at_path_inv in Hrun as [(e & -> & Ht & Ho & He)|(fs2 & Ht & Ho & _ & Hk)].
    - split; [done|]. split; [intros i; by rewrite Ho|]. right.
      destruct He as [He|(msg & i & _ & Hm)]; [|by rewrite Hf in Hm].
      assert (e = ENOENT) as ->.
      { apply resolve_notdir in Hab. unfold resolve in *. by repeat case_match; simplify_eq. }
      apply resolve_ENOENT in He. rewrite He. split; [by intros [? ?]|done].
    - destruct (fs_tree fs !! p) as [[|c]|]; [done|..]; injection Hk as <- <-;
        (split; [done|]; split; [intros i; by rewrite Ho|]).
      + by left.
      + right. split; [by intros [? ?]|done]. }
  exists fs1. split; [|by split; [split; [done|rewrite Ht]|]].
  rewrite (gom_bind_ok _ _ _ _ _ (try_run _ _ _ _ Hrun ltac:(by destruct Hr as [[_ ->]|[_ ->]]))).
  destruct Hr as [[Hp ->]|[Hp ->]]; [by rewrite bool_decide_eq_true_2|].
  by rewrite bool_decide_eq_false_2.
Qed.

(** C36: on a store with the content-addressed layout whose system calls
    succeed, what is written under a node and a key is there and is read back
    exactly, until it is deleted; then it is gone, and no file of any other
    object has changed through all of it. *)
Theorem Store_roundtrip root n key rd data fs :
  plain n → ready root fs → drain (r_reads rd) = (data, None) →
  let s := cas_opts root in
  ∃ fs1 fs2 fs3 fs4 fs5,
    StoreWrite s n key rd fs = (Ok (zlen data), fs1) ∧
    Has s n key fs1 = (Ok true, fs2) ∧
    StoreRead s n key fs2 = (Ok (zlen data, reader_of data), fs3) ∧
    StoreDelete s n key fs3 = (Ok tt, fs4) ∧
    Has s n key fs4 = (Ok false, fs5) ∧ ready root fs5 ∧
    ∀ p, p ≠ object_path s n key → file_at fs5 p = file_at fs p.
Proof.
  intros Hn Hr Hd s. set (p := object_path s n key).
  destruct (StoreWrite_ready root n key rd data fs Hn Hr Hd) as (fs1 & R1 & Hr1).
  pose proof R1 as (_ & A1 & W1)%StoreWrite_inv. destruct (W1 _ eq_refl) as (d & Hd' & _ & F1).
  rewrite Hd in Hd'. injection Hd' as <-.
  destruct (Has_ready root n key fs1 Hn Hr1) as (fs2 & R2 & Hr2 & T2).
  fold s p in F1, R2. rewrite F1, bool_decide_eq_true_2 in R2 by by eexists.
  assert (file_at fs2 p = Some data) as F2 by (unfold file_at in *; by rewrite T2).
  destruct (StoreRead_ready root n key data fs2 Hr2 F2) as (fs3 & R3 & Hr3).
  pose proof R3 as (T3 & _)%StoreRead_inv.
  destruct (StoreDelete_ready root n key fs3 Hn Hr3) as (fs4 & R4 & Hr4).
  pose proof R4 as (_ & A4 & W4)%StoreDelete_inv. specialize (W4 eq_refl).
  destruct (Has_ready root n key fs4 Hn Hr4) as (fs5 & R5 & Hr5 & T5).
  fold s p in W4, R5. rewrite W4, bool_decide_eq_false_2 in R5 by by intros [? ?].
  exists fs1, fs2, fs3, fs4, fs5. do 6 (split; [done|]). intros q Hq. unfold file_at at 1.
  rewrite T5. fold (file_at fs4 q). rewrite A4 by set_solver. unfold file_at at 1.
  rewrite T3, T2. fold (file_at fs1 q). apply A1. set_solver.
Qed.
