(* ===== verification/Metrics.v ===== *)
(** * Counters: [Stats] of the task queue and [Metrics] of the service. *)

From S2P Require Import Prelude Metadata Replication Backend MetadataSpec ReplicationSpec Lifecycle Names Hash Objects Staging Coordinator CoordinatorSpec Service ServiceSpec ServiceProps.
From stdpp Require Import options.

(** How often [k] occurs in [l]. *)
Definition count_of {K} `{EqDecision K} (k : K) (l : list K) : Z := zlen (filter (λ x, x = k) l).

(** The value of a counter, 0 when it was never touched. *)
Definition counter `{Countable K} (m : gmap K Z) (k : K) : Z := default 0%Z (m !! k).

Lemma counter_incr `{Countable K} (m : gmap K Z) x k :
  counter (incr m x) k = (counter m k + if decide (x = k) then 1 else 0)%Z.
Proof.
  unfold counter, incr. rewrite lookup_insert. case_decide; subst; cbn; lia.
Qed.

Lemma counter_foldl `{Countable K} (l : list K) (m : gmap K Z) k :
  counter (foldl incr m l) k = (counter m k + count_of k l)%Z.
Proof.
  revert m. induction l as [|x l IH]; intros m; cbn [foldl].
  { unfold count_of, zlen. rewrite filter_nil. cbn. lia. }
  rewrite IH, counter_incr. unfold count_of, zlen. rewrite filter_cons. case_decide; cbn; lia.
Qed.

Lemma count_states_incr l : count_states l = foldl incr ∅ (rt_State <$> l).
Proof.
  unfold count_states. generalize (∅ : gmap ReplicationTaskState Z).
  induction l as [|task l IH]; intros m; [done|]. cbn. apply IH.
Qed.

Lemma count_of_app {K} `{EqDecision K} (k : K) l1 l2 :
  count_of k (l1 ++ l2) = (count_of k l1 + count_of k l2)%Z.
Proof. unfold count_of. by rewrite filter_app, zlen_app. Qed.

Lemma count_of_perm {K} `{EqDecision K} (k : K) l1 l2 : l1 ≡ₚ l2 → count_of k l1 = count_of k l2.
Proof. intros Hp. unfold count_of, zlen. by rewrite Hp. Qed.

(** What the loop over the files counts. *)
Definition replica_states (files : list FileMetadata) : list ReplicaState :=
  files ≫= λ m, rm_State <$> range_values (fm_Replicas m).

Lemma count_files files m :
  let m' := foldl count_file m files in
  me_Files m' = (me_Files m + zlen files)%Z ∧
  me_DeletedFiles m' = (me_DeletedFiles m + zlen (filter (λ f, fm_Deleted f = true) files))%Z ∧
  me_PendingTasks m' = me_PendingTasks m ∧ me_ReplicationTasks m' = me_ReplicationTasks m ∧
  me_Nodes m' = me_Nodes m ∧
  ∀ st, counter (me_Replicas m') st =
    (counter (me_Replicas m) st + count_of st (replica_states files))%Z.
Proof.
  revert m. induction files as [|f files IH]; intros m; cbn [foldl].
  { cbv zeta. rewrite filter_nil. change (zlen (@nil FileMetadata)) with 0%Z.
    do 2 (split; [lia|]). do 3 (split; [done|]). intros st.
    change (replica_states []) with (@nil ReplicaState). unfold count_of. rewrite filter_nil.
    unfold zlen. cbn. lia. }
  destruct (IH (count_file m f)) as (Hf & Hd & Hp & Ht & Hn & Hr). cbv zeta in *.
  rewrite Hf, Hd, Hp, Ht, Hn. cbn [count_file me_Files me_DeletedFiles me_PendingTasks
    me_ReplicationTasks me_Nodes me_Replicas].
  split; [unfold zlen; cbn; lia|]. split.
  { rewrite filter_cons. destruct (fm_Deleted f); [rewrite decide_True by done|rewrite decide_False by done];
      unfold zlen; cbn; lia. }
  do 3 (split; [done|]). intros st. rewrite Hr. cbn [me_Replicas count_file].
  rewrite counter_foldl. unfold replica_states. cbn [mbind list_bind]. rewrite count_of_app.
  unfold replica_states, mbind. lia.
Qed.

(** [PendingTasks] of the service answers with no tasks when the queue fails. *)
Lemma ServicePendingTasks_run `{HB : MetadataBackendLaws B} `{HQ : ReplicationTaskQueueLaws Q}
    `{HO : ObjectStore OS} (s : ManagedFileService B Q OS) :
  ∃ pending s', ServicePendingTasks s = (Ok pending, s') ∧
    coord_same (sv_coordinator s) (sv_coordinator s') ∧ sv_objects s' = sv_objects s ∧
    ((∃ t, pending = pending_tasks t (coord_table (sv_coordinator s))) ∨
     pending = [] ∧ ∃ q : Q, rq_fault q).
Proof.
  unfold ServicePendingTasks. destruct (PendingTasks (sv_coordinator s)) as [r c] eqn:R.
  pose proof R as (C4 & P4 & _ & Hr)%(on_tasks_inv _ _ _ _ _ rq_Pending_ref).
  apply (zoom_run (S := ManagedFileService B Q OS) sv_coordinator set_coordinator) in R.
  destruct Hr as [[t [= <- T4]]|(Hf & T4 & e & ->)];
    rewrite (gom_bind_ok _ _ _ _ _ (try_run _ _ _ _ R ltac:(done)));
    eexists _, _; (split; [done|]); (split; [done|]); (split; [done|]); [left|right]; eauto.
Qed.

(** [Metrics] counts exactly: the files, the tombstones among them, the
    nodes by state, the replicas of all files by state, the tasks by state,
    and the tasks a worker could run now; and it changes nothing. *)
Theorem Metrics_counts `{HB : MetadataBackendLaws B} `{HQ : ReplicationTaskQueueLaws Q}
    `{HO : ObjectStore OS} (s s' : ManagedFileService B Q OS) m :
  Metrics s = (Ok m, s') →
  let files := range_values (cat_files (coord_catalog (sv_coordinator s))) in
  let nodes := range_values (cat_nodes (coord_catalog (sv_coordinator s))) in
  let tasks := range_values (coord_table (sv_coordinator s)) in
  coord_same (sv_coordinator s) (sv_coordinator s') ∧ sv_objects s' = sv_objects s ∧
  me_Files m = zlen files ∧
  me_DeletedFiles m = zlen (filter (λ f, fm_Deleted f = true) files) ∧
  (∀ st, counter (me_Nodes m) st = count_of st (nm_State <$> nodes)) ∧
  (∀ st, counter (me_Replicas m) st = count_of st (replica_states files)) ∧
  (∀ st, counter (me_ReplicationTasks m) st = count_of st (rt_State <$> tasks)) ∧
  ((∃ t, me_PendingTasks m = zlen (filter (runnable t) tasks)) ∨
   me_PendingTasks m = 0%Z ∧ ∃ q : Q, rq_fault q).
Proof.
  intros Hrun. cbv zeta. unfold Metrics, meta_call in Hrun.
  go_step Hrun; [|done..]. apply zoom_inv in Hc as (c1 & R1 & ->).
  apply (on_metadata_ok _ _ _ _ _ mb_Nodes_ref) in R1 as (T1 & P1 & _ & t1 & [= <- C1]).
  go_step Hrun; [|done..]. apply zoom_inv in Hc as (c2 & R2 & ->). cbn in R2.
  apply (on_metadata_ok _ _ _ _ _ mb_ListFiles_ref) in R2 as (T2 & P2 & _ & t2 & [= <- C2]).
  go_step Hrun; [|done..]. apply zoom_inv in Hc as (c3 & R3 & ->). cbn in R3.
  apply (on_tasks_ok _ _ _ _ _ rq_Stats_ref) in R3 as (C3 & P3 & _ & t3 & [= <- T3]).
  go_step Hrun; [|done..]. injection Hrun as <- <-.
  destruct (ServicePendingTasks_run (set_coordinator c3 (set_coordinator c2 (set_coordinator c1 s))))
    as (pending & s4 & R4 & (C4 & T4 & P4) & O4 & Hp).
  rewrite R4 in Hc. injection Hc as <- <-. cbn in C4, T4, P4, O4, Hp.
  match goal with |- context [foldl count_file ?m0 ?fs] =>
    destruct (count_files fs m0) as (Hf & Hd & Hpt & Htt & Hn & Hr) end.
  cbv zeta in Hf, Hd, Hpt, Htt, Hn, Hr. rewrite Hf, Hd, Hpt, Htt, Hn.
  cbn [me_Files me_DeletedFiles me_PendingTasks me_ReplicationTasks me_Nodes me_Replicas] in *.
  assert (coord_catalog c1 = coord_catalog (sv_coordinator s)) as E1 by congruence.
  assert (coord_table c2 = coord_table (sv_coordinator s)) as E2 by congruence.
  assert (coord_table c3 = coord_table (sv_coordinator s)) as E3 by congruence.
  rewrite E1 in *. split; [repeat split; congruence|]. split; [done|].
  split; [unfold zlen; by rewrite length_sort_by|].
  split; [unfold zlen; by rewrite sort_by_Permutation|].
  split; [intros st; rewrite counter_foldl; unfold counter; rewrite lookup_empty; cbn;
    apply count_of_perm; by rewrite sort_by_Permutation|].
  split; [intros st; rewrite Hr; unfold counter at 1; rewrite lookup_empty; cbn;
    apply count_of_perm; unfold replica_states; by rewrite sort_by_Permutation|].
  split; [intros st; rewrite count_states_incr, counter_foldl, E2; unfold counter;
    by rewrite lookup_empty|].
  rewrite E3 in Hp. destruct Hp as [[t ->]|[-> Hq]]; [left|by right].
  exists t. unfold pending_tasks, zlen. by rewrite sortReplicationTasks_perm.
Qed.
