(* ===== verification/Aes.v ===== *)
(** * [crypto/aes] and the CTR mode of [crypto/cipher].

    The block cipher as FIPS 197 defines it, for keys of 16, 24 and 32 bytes,
    and the key stream of the counter mode of SP 800-38A, executable.  The
    substitution table is computed from its definition (inversion in the field
    of 256 elements followed by an affine map). *)

From Stdlib Require Import ZArith Strings.Byte.
From S2P Require Import Prelude Hash.
From stdpp Require Import options.

Local Open Scope Z_scope.

(** ** The field and the substitution table *)

Definition xtime (a : Z) : Z :=
  let d := Z.shiftl a 1 in if d <? 256 then d else Z.lxor (d - 256) 27.

Definition gf_mul (a b : Z) : Z :=
  (foldl (λ '(acc, p) (i : nat),
    (if Z.testbit b (Z.of_nat i) then Z.lxor acc p else acc, xtime p)) (0, a) (seq 0 8)).1.

(** [a^254], the inverse of [a] (and 0 for 0). *)
Definition gf_inv (a : Z) : Z := Nat.iter 253 (gf_mul a) a.

Definition rotl8 (a n : Z) : Z := Z.land (Z.lor (Z.shiftl a n) (Z.shiftr a (8 - n))) 255.

Definition sub_box : list Z :=
  Eval vm_compute in ((λ i : nat,
    let x := gf_inv (Z.of_nat i) in
    foldl Z.lxor 99 [x; rotl8 x 1; rotl8 x 2; rotl8 x 3; rotl8 x 4]) <$> seq 0 256).

Definition sub_byte (a : Z) : Z := default 0 (sub_box !! Z.to_nat a).

(** ** Key schedule *)

Definition xor_list (l k : list Z) : list Z := zip_with Z.lxor l k.

(** The next word, from the words so far in reverse. *)
Definition next_word (nk : nat) (rev_w : list (list Z)) : list (list Z) :=
  let i := length rev_w in
  let prev := default [] (rev_w !! 0%nat) in
  let temp :=
    if decide (i `mod` nk = 0)%nat then
      match sub_byte <$> (drop 1 prev ++ take 1 prev) with
      | b :: rest => Z.lxor b (Nat.iter (i / nk - 1) xtime 1) :: rest
      | [] => []
      end
    else if decide (6 < nk ∧ i `mod` nk = 4)%nat then sub_byte <$> prev
    else prev in
  xor_list (default [] (rev_w !! (nk - 1)%nat)) temp :: rev_w.

Fixpoint group (n k : nat) (l : list Z) : list (list Z) :=
  match n with O => [] | S n => take k l :: group n k (drop k l) end.

(** The round keys, 16 bytes each. *)
Definition expand_key (key : list Z) : list (list Z) :=
  let nk := (length key / 4)%nat in
  let words := reverse (Nat.iter (4 * (nk + 7) - nk) (next_word nk) (reverse (group nk 4 key))) in
  group (nk + 7) 16 (concat words).

(** ** Rounds *)

(** The state is its columns one after the other. *)
Definition shift_rows (s : list Z) : list Z :=
  (λ i : nat, default 0 (s !! ((i + 4 * (i `mod` 4)) `mod` 16)%nat)) <$> seq 0 16.

Definition mix_column (c : list Z) : list Z :=
  (λ i : nat, let at_ j := default 0 (c !! ((i + j) `mod` 4)%nat) in
    Z.lxor (Z.lxor (gf_mul (at_ 0%nat) 2) (gf_mul (at_ 1%nat) 3)) (Z.lxor (at_ 2%nat) (at_ 3%nat)))
    <$> seq 0 4.

Definition mix_columns (s : list Z) : list Z := concat (mix_column <$> group 4 4 s).

Fixpoint rounds (keys : list (list Z)) (s : list Z) : list Z :=
  match keys with
  | [] => s
  | [last] => xor_list (shift_rows (sub_byte <$> s)) last
  | k :: keys => rounds keys (xor_list (mix_columns (shift_rows (sub_byte <$> s))) k)
  end.

(** [block.Encrypt], for a block of 16 bytes. *)
Definition aes_encrypt (key block : bytes) : bytes :=
  match expand_key (byte_z <$> key) with
  | [] => []
  | first :: keys => z_byte <$> rounds keys (xor_list (byte_z <$> block) first)
  end.

(** [block.BlockSize()] *)
Definition aes_BlockSize : nat := 16.

(** [aes.NewCipher(key)]: the encryption function of the key. *)
Definition aes_NewCipher (key : bytes) : Res (bytes → bytes) :=
  if decide (length key = 16 ∨ length key = 24 ∨ length key = 32)%nat then Ok (aes_encrypt key)
  else Err (ErrOther ("crypto/aes: invalid key size " +:+ pretty (zlen key))).

(** The example vectors of FIPS 197, appendix C. *)
Definition counting (n : nat) : bytes := (λ i : nat, z_byte (Z.of_nat i)) <$> seq 0 n.
Definition doubled : bytes := (λ i : nat, z_byte (17 * Z.of_nat i)) <$> seq 0 16.

Example aes128_vector :
  hex_encode (aes_encrypt (counting 16) doubled) = "69c4e0d86a7b0430d8cdb78070b4c55a".
Proof. by vm_compute. Qed.
Example aes192_vector :
  hex_encode (aes_encrypt (counting 24) doubled) = "dda97ca4864cdfe06eaf70a0ec0d7191".
Proof. by vm_compute. Qed.
Example aes256_vector :
  hex_encode (aes_encrypt (counting 32) doubled) = "8ea2b7ca516745bfeafc49904b496089".
Proof. by vm_compute. Qed.

(** ** Counter mode *)

(** A [cipher.Stream]: the block function, the initial counter block, and the
    number of key stream bytes used so far. *)
Record Stream := { cs_block : bytes → bytes; cs_iv : bytes; cs_used : nat }.

Definition cipher_NewCTR (block : bytes → bytes) (iv : bytes) : Stream :=
  {| cs_block := block; cs_iv := iv; cs_used := 0 |}.

(** Byte [i] of the key stream: the counter is a big-endian number of the size
    of the block that wraps around. *)
Definition key_stream (s : Stream) (i : nat) : Byte.byte :=
  let counter := (be_word (cs_iv s) + Z.of_nat (i / aes_BlockSize)) `mod` 2 ^ 128 in
  default "000"%byte (cs_block s (be_bytes aes_BlockSize counter) !! (i `mod` aes_BlockSize)%nat).

Definition xor_byte (a b : Byte.byte) : Byte.byte := z_byte (Z.lxor (byte_z a) (byte_z b)).

(** [stream.XORKeyStream(buf, data)] *)
Definition XORKeyStream (s : Stream) (data : bytes) : bytes * Stream :=
  (imap (λ i b, xor_byte b (key_stream s (cs_used s + i))) data,
   {| cs_block := cs_block s; cs_iv := cs_iv s; cs_used := (cs_used s + length data)%nat |}).

(** ** Facts *)

Lemma z_byte_z b : z_byte (byte_z b) = b.
Proof. by destruct b. Qed.

Lemma byte_z_z z : 0 ≤ z < 256 → byte_z (z_byte z) = z.
Proof.
  intros Hz. unfold byte_z, z_byte.
  assert (Z.land z 255 = z) as ->.
  { change 255 with (Z.ones 8). rewrite Z.land_ones by lia. apply Z.mod_small. lia. }
  destruct (Byte.of_N (Z.to_N z)) as [b|] eqn:E.
  - apply Byte.to_of_N in E. lia.
  - apply Byte.of_N_None_iff in E. lia.
Qed.

Lemma byte_z_range b : 0 ≤ byte_z b < 256.
Proof. by destruct b. Qed.

Lemma log2_byte a : 0 ≤ a < 256 → Z.log2 a < 8.
Proof.
  intros Ha. destruct (Z.eq_dec a 0) as [->|Hne]; [done|]. apply Z.log2_lt_pow2; lia.
Qed.

Lemma lxor_range a b : 0 ≤ a < 256 → 0 ≤ b < 256 → 0 ≤ Z.lxor a b < 256.
Proof.
  intros Ha Hb. assert (0 ≤ Z.lxor a b) as H0 by (apply Z.lxor_nonneg; lia). split; [done|].
  destruct (Z.eq_dec (Z.lxor a b) 0) as [->|Hne]; [lia|].
  apply (Z.log2_lt_pow2 _ 8); [lia|]. eapply Z.le_lt_trans; [apply Z.log2_lxor; lia|].
  apply Z.max_lub_lt; by apply log2_byte.
Qed.

(** Adding the same key stream byte twice gives the byte back. *)
Lemma xor_byte_twice a k : xor_byte (xor_byte a k) k = a.
Proof.
  unfold xor_byte. rewrite byte_z_z by (apply lxor_range; apply byte_z_range).
  by rewrite Z.lxor_assoc, Z.lxor_nilpotent, Z.lxor_0_r, z_byte_z.
Qed.
