(* ===== verification/Crypto.v ===== *)
(** * Stream encryption: [crypto.go], and [WriteDecrypt] of [store.go].

    Copying through an AES-CTR stream from a reader to a writer.  A writer is
    what its [Write] method does to the state behind it; the bytes of
    [rand.Reader] are an argument. *)

From S2P Require Import Prelude Metadata Replication Names Hash Objects Paths Store StoreSpec StoreReliable Aes.
From stdpp Require Import options.

(** ** Reading the initialization vector *)

(** [io.ReadFull(src, buf)] for a buffer with [n] bytes still to fill and
    [got] read: the bytes and the reader after them.  An entry that is longer
    than the buffer is delivered in part. *)
Fixpoint read_full (n : nat) (got : bytes) (src : list ReadResult) : Res (bytes * list ReadResult) :=
  match src with
  | [] =>
      if decide (n = 0) then Ok (got, [])
      else Err (ErrOther (if decide (length got = 0) then "EOF" else "unexpected EOF"))
  | (data, err) :: src =>
      if decide (n ≤ length data) then Ok (got ++ take n data, (drop n data, err) :: src)
      else
        match err with
        | None => read_full (n - length data) (got ++ data) src
        | Some EOF =>
            Err (ErrOther (if decide (length (got ++ data) = 0) then "EOF" else "unexpected EOF"))
        | Some (ReadErr e) => Err e
        end
  end.

(** ** Copying *)

Section copy.
Context {W : Type} (dst : bytes → GoM W Z).

(** What a round of the loop does with the bytes it read. *)
Definition copy_stream_step (acc : Stream * Z) (data : bytes) : GoM W (Stream * Z) :=
  let '(stream, nw) := acc in
  if decide (0 < length data) then
    let '(out, stream) := XORKeyStream stream data in
    nn ← dst out;
    if decide (nn = zlen data) then mret (stream, (nw + nn)%Z) else fail ErrShortWrite
  else mret (stream, nw).

Fixpoint copy_stream_loop (stream : Stream) (src : list ReadResult) (nw : Z) : GoM W Z :=
  match src with
  | [] => mret nw
  | (data, err) :: src =>
      '(stream, nw) ← copy_stream_step (stream, nw) data;
      match err with
      | Some EOF => mret nw
      | Some (ReadErr e) => fail e
      | None => copy_stream_loop stream src nw
      end
  end.

Definition copyStream (stream : Stream) (blockSize : Z) (src : list ReadResult) : GoM W Z :=
  copy_stream_loop stream src blockSize.

(** [random] is the result of [io.ReadFull(rand.Reader, iv)]. *)
Definition copyEncrypt (key : bytes) (random : Res bytes) (src : list ReadResult) : GoM W Z :=
  block ← lift_res (aes_NewCipher key);
  iv ← lift_res random;
  dst iv;;
  copyStream (cipher_NewCTR block iv) (Z.of_nat aes_BlockSize) src.

Definition copyDecrypt (key : bytes) (src : list ReadResult) : GoM W Z :=
  block ← lift_res (aes_NewCipher key);
  '(iv, src) ← lift_res (read_full aes_BlockSize [] src);
  copyStream (cipher_NewCTR block iv) (Z.of_nat aes_BlockSize) src.
End copy.

(** [bytes.Buffer] *)
Definition buffer_write (data : bytes) : GoM bytes Z := λ buf, (Ok (zlen data), buf ++ data).

(** [Write] of an open file. *)
Definition file_write (p : Path) (data : bytes) : GoM FS Z := file_append p data;; mret (zlen data).

Definition WriteDecrypt (opts : StoreOpts) (encKey : bytes) (id key : string) (r : Reader) :
    GoM FS Z :=
  f ← openFileForWriting opts id key;
  copyDecrypt (file_write f) encKey (r_reads r).

(** ** The key stream *)

Lemma XORKeyStream_app s a b :
  XORKeyStream s (a ++ b) =
  ((XORKeyStream s a).1 ++ (XORKeyStream (XORKeyStream s a).2 b).1,
   (XORKeyStream (XORKeyStream s a).2 b).2).
Proof.
  unfold XORKeyStream. cbn. f_equal.
  - rewrite imap_app. f_equal. apply imap_ext. intros i x _. cbn. by rewrite Nat.add_assoc.
  - rewrite length_app. by rewrite Nat.add_assoc.
Qed.

Lemma XORKeyStream_nil s : XORKeyStream s [] = ([], s).
Proof. unfold XORKeyStream. cbn. rewrite Nat.add_0_r. by destruct s. Qed.

Lemma length_XORKeyStream s data : length (XORKeyStream s data).1 = length data.
Proof. apply length_imap. Qed.

(** Decryption is encryption again. *)
Lemma XORKeyStream_twice s data : (XORKeyStream s (XORKeyStream s data).1).1 = data.
Proof.
  apply list_eq. intros i. unfold XORKeyStream. cbn. rewrite !list_lookup_imap.
  destruct (data !! i) as [b|]; [|done]. cbn. by rewrite xor_byte_twice.
Qed.

(** ** Keys and the initialization vector *)

Definition key_ok (key : bytes) : Prop := length key = 16 ∨ length key = 24 ∨ length key = 32.

Lemma NewCipher_ok key : key_ok key → aes_NewCipher key = Ok (aes_encrypt key).
Proof. intros Hk. unfold aes_NewCipher. by rewrite decide_True. Qed.

(** A stream that is long enough is split after the vector, however it is cut
    into reads. *)
Lemma read_full_ok n got src iv rest :
  length iv = n → drain src = (iv ++ rest, None) →
  ∃ src', read_full n got src = Ok (got ++ iv, src') ∧ drain src' = (rest, None).
Proof.
  revert n got iv. induction src as [|[b err] src IH]; intros n got iv Hn Hd; cbn [read_full].
  { injection Hd as Hd. symmetry in Hd. apply app_eq_nil in Hd as [-> ->]. cbn in Hn. subst n.
    exists []. by rewrite app_nil_r. }
  case_decide as Hl.
  - exists ((drop n b, err) :: src). cbn [drain] in *.
    assert (∀ t, b ++ t = iv ++ rest → take n b = iv ∧ drop n b ++ t = rest) as Hcut.
    { intros t E. rewrite <-(take_app_le b t n), <-(drop_app_le b t n), E by done.
      rewrite <-Hn. by rewrite take_app_length, drop_app_length. }
    destruct err as [[|e]|]; [|done|].
    + injection Hd as Hd. destruct (Hcut []) as [-> Hr]; [by rewrite app_nil_r|].
      rewrite app_nil_r in Hr. by rewrite Hr.
    + destruct (drain src) as [t e]. injection Hd as Hd ->. destruct (Hcut t Hd) as [-> ->]. done.
  - cbn [drain] in Hd. destruct err as [[|e]|]; [|done|].
    + injection Hd as ->. rewrite length_app in Hl. lia.
    + destruct (drain src) as [t e] eqn:Et. injection Hd as Hd ->.
      assert (∃ iv', iv = b ++ iv' ∧ t = iv' ++ rest) as (iv' & -> & ->).
      { exists (drop (length b) iv). apply app_eq_app in Hd as [k [[-> ->]|[-> ->]]].
        - rewrite length_app in Hl. assert (length k = 0) as ->%nil_length_inv by lia.
          by rewrite !app_nil_r, drop_all, app_nil_r.
        - by rewrite drop_app_length. }
      destruct (IH (n - length b) (got ++ b) iv') as (src' & R & Hr); [|done|].
      { rewrite length_app in Hn. lia. }
      exists src'. by rewrite R, <-app_assoc.
Qed.

(** ** The loop *)

Section writer.
Context {W : Type} (dst : bytes → GoM W Z) (view : W → bytes) (good : W → Prop).

(** A writer that appends what it is given. *)
Definition appends : Prop :=
  ∀ data w, good w → ∃ w', dst data w = (Ok (zlen data), w') ∧ good w' ∧ view w' = view w ++ data.

Context (dst_appends : appends).

Lemma copy_stream_step_ok stream nw b w :
  good w →
  ∃ w1, copy_stream_step dst (stream, nw) b w = (Ok ((XORKeyStream stream b).2, (nw + zlen b)%Z), w1) ∧
    good w1 ∧ view w1 = view w ++ (XORKeyStream stream b).1.
Proof using dst_appends.
  intros Hw. cbn [copy_stream_step].
  destruct b as [|x b]; cbn [length]; [rewrite decide_False by lia|rewrite decide_True by lia].
  { exists w. rewrite XORKeyStream_nil, app_nil_r. cbn. by rewrite Z.add_0_r. }
  destruct (XORKeyStream stream (x :: b)) as [out stream'] eqn:E.
  destruct (dst_appends out w Hw) as (w1 & R1 & Hw1 & V1). exists w1.
  rewrite (gom_bind_ok _ _ _ _ _ R1).
  assert (zlen out = zlen (x :: b)) as ->.
  { unfold zlen. f_equal. by rewrite <-(length_XORKeyStream stream (x :: b)), E. }
  by rewrite decide_True by done.
Qed.

Lemma copy_stream_loop_ok stream src data nw w :
  good w → drain src = (data, None) →
  ∃ w', copy_stream_loop dst stream src nw w = (Ok (nw + zlen data)%Z, w') ∧ good w' ∧
    view w' = view w ++ (XORKeyStream stream data).1.
Proof using dst_appends.
  revert stream data nw w. induction src as [|[b err] src IH]; intros stream data nw w Hw Hd.
  { injection Hd as <-. exists w. rewrite XORKeyStream_nil. cbn. by rewrite app_nil_r, Z.add_0_r. }
  cbn [copy_stream_loop]. destruct (copy_stream_step_ok stream nw b w Hw) as (w1 & R1 & Hw1 & V1).
  rewrite (gom_bind_ok _ _ _ _ _ R1). cbn in Hd.
  destruct err as [[|e]|]; [|done|].
  - injection Hd as <-. by exists w1.
  - destruct (drain src) as [rest e] eqn:Hrest. injection Hd as <- ->.
    destruct (IH (XORKeyStream stream b).2 rest (nw + zlen b)%Z w1 Hw1 eq_refl) as (w2 & R2 & Hw2 & V2).
    exists w2. rewrite R2. split; [|split; [done|]].
    + unfold zlen. rewrite length_app. do 2 f_equal. lia.
    + rewrite V2, V1, XORKeyStream_app. cbn [fst]. by rewrite app_assoc.
Qed.

Lemma copyEncrypt_ok key iv src data w :
  key_ok key → good w → drain src = (data, None) →
  ∃ w', copyEncrypt dst key (Ok iv) src w = (Ok (16 + zlen data)%Z, w') ∧ good w' ∧
    view w' = view w ++ iv ++ (XORKeyStream (cipher_NewCTR (aes_encrypt key) iv) data).1.
Proof using dst_appends.
  intros Hk Hw Hd. unfold copyEncrypt. rewrite (NewCipher_ok key Hk).
  rewrite !(gom_bind_ok (lift_res _) _ _ _ w eq_refl).
  destruct (dst_appends iv w Hw) as (w1 & R1 & Hw1 & V1). rewrite (gom_bind_ok _ _ _ _ _ R1).
  destruct (copy_stream_loop_ok (cipher_NewCTR (aes_encrypt key) iv) src data 16 w1 Hw1 Hd)
    as (w2 & R2 & Hw2 & V2). exists w2. split; [exact R2|]. by rewrite V2, V1, app_assoc.
Qed.

Lemma copyDecrypt_ok key iv src data w :
  key_ok key → length iv = 16 → good w →
  drain src = (iv ++ (XORKeyStream (cipher_NewCTR (aes_encrypt key) iv) data).1, None) →
  ∃ w', copyDecrypt dst key src w = (Ok (16 + zlen data)%Z, w') ∧ good w' ∧
    view w' = view w ++ data.
Proof using dst_appends.
  intros Hk Hiv Hw Hd. unfold copyDecrypt. rewrite (NewCipher_ok key Hk).
  rewrite (gom_bind_ok (lift_res _) _ _ _ w eq_refl).
  destruct (read_full_ok 16 [] src iv _ Hiv Hd) as (rest & E & Hrest). unfold aes_BlockSize.
  rewrite E. rewrite (gom_bind_ok (lift_res _) _ _ _ w eq_refl).
  destruct (copy_stream_loop_ok (cipher_NewCTR (aes_encrypt key) iv) rest _ 16 w Hw Hrest)
    as (w1 & R1 & Hw1 & V1). exists w1. rewrite XORKeyStream_twice in V1. split; [|done].
  unfold copyStream, zlen in *. by rewrite length_XORKeyStream in R1.
Qed.
End writer.

Lemma buffer_appends : appends buffer_write id (λ _, True).
Proof. intros data w _. by exists (w ++ data). Qed.

(** What is encrypted is decrypted: with a key of a legal size and any
    initialization vector, encrypting a stream gives the vector followed by as
    many bytes as the stream has, and decrypting that, however it is cut into
    reads, writes exactly the bytes of the stream to any writer that appends;
    both report the bytes of the vector and of the stream together. *)
Theorem crypt_roundtrip {W} (dst : bytes → GoM W Z) view good key iv src data :
  appends dst view good → key_ok key → length iv = 16 → drain src = (data, None) →
  ∃ sealed, copyEncrypt buffer_write key (Ok iv) src [] = (Ok (16 + zlen data)%Z, iv ++ sealed) ∧
    length sealed = length data ∧
    ∀ src' w, good w → drain src' = (iv ++ sealed, None) →
      ∃ w', copyDecrypt dst key src' w = (Ok (16 + zlen data)%Z, w') ∧ good w' ∧
        view w' = view w ++ data.
Proof.
  intros Hdst Hk Hiv Hd.
  destruct (copyEncrypt_ok buffer_write id (λ _, True) buffer_appends key iv src data [] Hk I Hd)
    as (out & R & _ & V). cbn in V. subst out.
  eexists. split; [exact R|]. split; [apply length_XORKeyStream|].
  intros src' w Hw Hd'. by eapply copyDecrypt_ok.
Qed.

(** ** Decrypting into the store *)

(** An object that is being written, in a store that is as [fs0] elsewhere. *)
Definition writing (root : string) (p : Path) (fs0 fs : FS) : Prop :=
  opened root p fs ∧ is_Some (file_at fs p) ∧ fs_agree [p] fs0 fs.

Lemma file_appends root p fs0 :
  appends (file_write p) (λ fs, default [] (file_at fs p)) (writing root p fs0).
Proof.
  intros data fs ([Hf Hl] & [c Hc] & Ha).
  assert (fs_tree fs !! p = Some (EntryFile c)) as Hp.
  { unfold file_at in Hc. destruct (fs_tree fs !! p) as [[|d]|]; [done| |done]. by injection Hc as ->. }
  destruct (file_append_ok p data c fs Hf Hp) as (fs1 & R1 & Hf1 & Ht1).
  pose proof (file_append_inv _ _ _ _ _ R1) as (_ & Hag & _).
  assert (file_at fs1 p = Some (c ++ data)) as Hc1
    by (unfold file_at; by rewrite Ht1, lookup_insert_eq).
  exists fs1. unfold file_write. rewrite (gom_bind_ok _ _ _ _ _ R1).
  split; [done|]. rewrite Hc1, Hc. split; [|done]. split; [|split; [by rewrite Hc1|]].
  - split; [done|]. intros c'. rewrite Ht1, insert_insert_eq. apply Hl.
  - intros q Hq. by rewrite Hag, Ha.
Qed.

Lemma writing_ready root p fs0 fs c : writing root p fs0 fs → file_at fs p = Some c → ready root fs.
Proof.
  intros ([Hf Hl] & _ & _) Hc. split; [done|]. rewrite <-(insert_id (fs_tree fs) p (EntryFile c)); [done|].
  unfold file_at in Hc. destruct (fs_tree fs !! p) as [[|d]|]; [done| |done]. by injection Hc as ->.
Qed.

(** C37: a stream that was encrypted with the key is stored in the clear:
    [WriteDecrypt] of its bytes succeeds on a working file system, a read of
    the object returns exactly the stream, and no other file changes. *)
Theorem WriteDecrypt_roundtrip root n key encKey iv src data rd fs sealed :
  plain n → ready root fs → key_ok encKey → length iv = 16 → drain src = (data, None) →
  copyEncrypt buffer_write encKey (Ok iv) src [] = (Ok (16 + zlen data)%Z, sealed) →
  drain (r_reads rd) = (sealed, None) →
  let s := cas_opts root in
  ∃ fs1 fs2, WriteDecrypt s encKey n key rd fs = (Ok (16 + zlen data)%Z, fs1) ∧
    StoreRead s n key fs1 = (Ok (zlen data, reader_of data), fs2) ∧ ready root fs2 ∧
    ∀ p, p ≠ object_path s n key → file_at fs2 p = file_at fs p.
Proof.
  intros Hn Hr Hk Hiv Hd Henc Hrd s. set (p := object_path s n key).
  destruct (copyEncrypt_ok buffer_write id (λ _, True) buffer_appends encKey iv src data [] Hk I Hd)
    as (out & R & _ & V). rewrite Henc in R. injection R as <-. cbn in V. subst sealed.
  destruct (openFile_ready root n key fs Hn Hr) as (fs1 & R1 & Ho1 & Ht1).
  pose proof (openFileForWriting_inv _ _ _ _ _ _ R1) as (_ & Ha1 & _).
  assert (file_at fs1 p = Some []) as Hc1 by (unfold file_at, p, s; by rewrite Ht1).
  destruct (copyDecrypt_ok (file_write p) _ _ (file_appends root p fs) encKey iv (r_reads rd) data fs1)
    as (fs2 & R2 & Hw2 & V2); [done..| |done|].
  { split; [done|]. split; [by rewrite Hc1|done]. }
  pose proof Hw2 as (_ & [c Hc2] & Ha2). rewrite Hc1, Hc2 in V2. cbn in V2. subst c.
  pose proof (writing_ready _ _ _ _ _ Hw2 Hc2) as Hr2.
  destruct (StoreRead_ready root n key data fs2 Hr2 Hc2) as (fs3 & R3 & Hr3).
  exists fs2, fs3. unfold WriteDecrypt. rewrite (gom_bind_ok _ _ _ _ _ R1).
  split; [done|]. split; [done|]. split; [done|]. intros q Hq.
  pose proof (StoreRead_inv _ _ _ _ _ _ R3) as (Ht3 & _).
  unfold file_at at 1. rewrite Ht3. apply Ha2. by intros ?%list_elem_of_singleton.
Qed.
