(* ===== verification/Utf8.v ===== *)
(** * UTF-8 as Go reads it.

    The JSON encoder and decoder of the Go library walk over strings with
    [utf8.DecodeRune]: a well-formed sequence of one to four bytes is one rune,
    and a byte that starts none is an error of width one.  [toks] is that walk;
    a string is valid when it meets no error.  [encode_rune] is
    [utf8.AppendRune]. *)

From S2P Require Import Prelude Metadata Replication Names.
From Stdlib Require Import Ascii.
From stdpp Require Import options.

(** ** Bytes *)

Definition code (c : ascii) : N := N_of_ascii c.
Definition between (lo hi : N) (c : ascii) : bool := (lo <=? code c)%N && (code c <=? hi)%N.
Definition is_cont (c : ascii) : bool := between 0x80%N 0xBF%N c.

(** The accepted second bytes after a three- and a four-byte lead
    ([acceptRanges] of unicode/utf8). *)
Definition second3 (a b : ascii) : bool :=
  if (code a =? 0xE0)%N then between 0xA0%N 0xBF%N b
  else if (code a =? 0xED)%N then between 0x80%N 0x9F%N b
  else is_cont b.
Definition second4 (a b : ascii) : bool :=
  if (code a =? 0xF0)%N then between 0x90%N 0xBF%N b
  else if (code a =? 0xF4)%N then between 0x80%N 0x8F%N b
  else is_cont b.

Definition is_rune1 (a : ascii) : bool := (code a <? 0x80)%N.
Definition is_rune2 (a b : ascii) : bool := between 0xC2%N 0xDF%N a && is_cont b.
Definition is_rune3 (a b c : ascii) : bool := between 0xE0%N 0xEF%N a && second3 a b && is_cont c.
Definition is_rune4 (a b c d : ascii) : bool :=
  between 0xF0%N 0xF4%N a && second4 a b && is_cont c && is_cont d.

(** ** The walk *)

Inductive Tok :=
  | R1 (a : ascii)
  | R2 (a b : ascii)
  | R3 (a b c : ascii)
  | R4 (a b c d : ascii)
  | Bad (a : ascii).

Fixpoint toks (s : string) : list Tok :=
  match s with
  | "" => []
  | String a s1 =>
      if is_rune1 a then R1 a :: toks s1 else
      match s1 with
      | String b s2 =>
          if is_rune2 a b then R2 a b :: toks s2 else
          match s2 with
          | String c s3 =>
              if is_rune3 a b c then R3 a b c :: toks s3 else
              match s3 with
              | String d s4 =>
                  if is_rune4 a b c d then R4 a b c d :: toks s4 else Bad a :: toks s1
              | "" => Bad a :: toks s1
              end
          | "" => Bad a :: toks s1
          end
      | "" => Bad a :: toks s1
      end
  end%string.

Definition tok_bytes (t : Tok) : string :=
  match t with
  | R1 a | Bad a => String a ""
  | R2 a b => String a (String b "")
  | R3 a b c => String a (String b (String c ""))
  | R4 a b c d => String a (String b (String c (String d "")))
  end.

Definition tok_valid (t : Tok) : bool :=
  match t with
  | R1 a => is_rune1 a
  | R2 a b => is_rune2 a b
  | R3 a b c => is_rune3 a b c
  | R4 a b c d => is_rune4 a b c d
  | Bad _ => false
  end.

Fixpoint cat (ss : list string) : string :=
  match ss with
  | [] => ""
  | s :: ss => s +:+ cat ss
  end.

(** [utf8.ValidString] *)
Definition utf8_ok (s : string) : bool := forallb tok_valid (toks s).

(** ** Runes to bytes *)

Definition byte_of (n : N) : ascii := ascii_of_N n.

(** [utf8.AppendRune]: surrogates and values past U+10FFFF become U+FFFD. *)
Definition encode_rune (r : N) : string :=
  let cont (n : N) : ascii := byte_of (0x80 + n mod 64)%N in
  let three (r : N) : string :=
    String (byte_of (0xE0 + r / 4096)%N) (String (cont (r / 64)%N) (String (cont r) "")) in
  if (r <? 0x80)%N then String (byte_of r) ""
  else if (r <? 0x800)%N then String (byte_of (0xC0 + r / 64)%N) (String (cont r) "")
  else if (0xD800 <=? r)%N && (r <=? 0xDFFF)%N then three 0xFFFD%N
  else if (r <? 0x10000)%N then three r
  else if (r <=? 0x10FFFF)%N then
    String (byte_of (0xF0 + r / 262144)%N)
      (String (cont (r / 4096)%N) (String (cont (r / 64)%N) (String (cont r) "")))
  else three 0xFFFD%N.

(** [unicode.ReplacementChar] *)
Definition replacement : string := encode_rune 0xFFFD%N.

(** ** Strings *)

Lemma app_nil_s (s : string) : s +:+ "" = s.
Proof. induction s as [|c s IH]; [done|]. rewrite string_app_cons. by f_equal. Qed.

Lemma length_app_s (s1 s2 : string) :
  String.length (s1 +:+ s2) = String.length s1 + String.length s2.
Proof. induction s1 as [|c s1 IH]; [done|]. rewrite string_app_cons. simpl. lia. Qed.

Lemma cat_app l1 l2 : cat (l1 ++ l2) = cat l1 +:+ cat l2.
Proof. induction l1 as [|s l1 IH]; simpl; [done|]. by rewrite IH, string_app_assoc. Qed.

(** ** Properties of the walk *)

Lemma ascii_all (P : ascii → bool) : forallb P (ascii_of_nat <$> seq 0 256) = true → ∀ c, P c = true.
Proof.
  intros H c. rewrite forallb_forall in H. apply H, list_elem_of_In, list_elem_of_fmap.
  exists (nat_of_ascii c). split; [by rewrite ascii_nat_embedding|].
  apply elem_of_seq. pose proof (nat_ascii_bounded c). lia.
Qed.

(** The lead byte alone tells the widths apart. *)
Lemma lead_exclusive a :
  (is_rune1 a → between 0xC2%N 0xDF%N a = false ∧ between 0xE0%N 0xEF%N a = false ∧
     between 0xF0%N 0xF4%N a = false) ∧
  (between 0xC2%N 0xDF%N a → is_rune1 a = false ∧ between 0xE0%N 0xEF%N a = false ∧
     between 0xF0%N 0xF4%N a = false) ∧
  (between 0xE0%N 0xEF%N a → is_rune1 a = false ∧ between 0xC2%N 0xDF%N a = false ∧
     between 0xF0%N 0xF4%N a = false) ∧
  (between 0xF0%N 0xF4%N a → is_rune1 a = false ∧ between 0xC2%N 0xDF%N a = false ∧
     between 0xE0%N 0xEF%N a = false).
Proof.
  unfold between, is_rune1. generalize (code a). intros n. rewrite !Is_true_true.
  destruct (N.ltb_spec n 0x80), (N.leb_spec 0xC2 n), (N.leb_spec n 0xDF), (N.leb_spec 0xE0 n),
    (N.leb_spec n 0xEF), (N.leb_spec 0xF0 n), (N.leb_spec n 0xF4); try lia; naive_solver.
Qed.

Lemma rune2_lead a b : is_rune2 a b → is_rune1 a = false.
Proof. unfold is_rune2. intros [H _]%andb_True. by apply lead_exclusive in H as (-> & _). Qed.
Lemma rune3_lead a b c b' : is_rune3 a b c → is_rune1 a = false ∧ is_rune2 a b' = false.
Proof.
  unfold is_rune3, is_rune2. intros [[H _]%andb_True _]%andb_True.
  apply lead_exclusive in H as (-> & -> & _). done.
Qed.
Lemma rune4_lead a b c d b' c' :
  is_rune4 a b c d → is_rune1 a = false ∧ is_rune2 a b' = false ∧ is_rune3 a b' c' = false.
Proof.
  unfold is_rune4, is_rune3, is_rune2.
  intros [[[H _]%andb_True _]%andb_True _]%andb_True.
  apply lead_exclusive in H as (-> & -> & ->). done.
Qed.

(** A valid token in front of any string is the first token of the walk. *)
Lemma toks_cons t s : tok_valid t → toks (tok_bytes t +:+ s) = t :: toks s.
Proof.
  destruct t as [a|a b|a b c|a b c d|a]; cbn [tok_valid tok_bytes]; intros H; simpl; [..|done].
  - by destruct (is_rune1 a).
  - rewrite (rune2_lead _ _ H). by destruct (is_rune2 a b).
  - destruct (rune3_lead _ _ _ b H) as [-> ->]. by destruct (is_rune3 a b c).
  - destruct (rune4_lead _ _ _ _ b c H) as (-> & -> & ->). by destruct (is_rune4 a b c d).
Qed.

Lemma toks_cat ts s : forallb tok_valid ts → toks (cat (tok_bytes <$> ts) +:+ s) = ts ++ toks s.
Proof.
  induction ts as [|t ts IH]; cbn [forallb]; [done|]. intros [Ht Hts]%andb_True.
  change (cat (tok_bytes <$> t :: ts)) with (tok_bytes t +:+ cat (tok_bytes <$> ts)).
  rewrite string_app_assoc, toks_cons by done. by rewrite IH.
Qed.

(** The walk loses nothing. *)
Lemma cat_toks s : cat (tok_bytes <$> toks s) = s.
Proof.
  induction s as [s IH] using (induction_ltof1 _ String.length). unfold ltof in IH.
  destruct s as [|a s1]; [done|].
  assert (Hcons : ∀ t l, cat (tok_bytes <$> t :: l) = tok_bytes t +:+ cat (tok_bytes <$> l)) by done.
  unfold toks; fold toks. repeat case_match; subst; rewrite Hcons, IH; simpl; try done; lia.
Qed.

Lemma utf8_ok_app s1 s2 : utf8_ok s1 → utf8_ok s2 → utf8_ok (s1 +:+ s2).
Proof.
  unfold utf8_ok. intros H1 H2. rewrite <-(cat_toks s1), toks_cat by done.
  rewrite forallb_app. auto.
Qed.

(** ASCII strings are valid. *)
Fixpoint all_chars (P : ascii → bool) (s : string) : bool :=
  match s with
  | "" => true
  | String c s => P c && all_chars P s
  end%string.

Lemma all_chars_app P s1 s2 : all_chars P (s1 +:+ s2) = all_chars P s1 && all_chars P s2.
Proof. induction s1 as [|c s1 IH]; simpl; [done|]. by rewrite IH, andb_assoc. Qed.

Lemma all_chars_impl (P Q : ascii → bool) s :
  (∀ c, P c → Q c) → all_chars P s → all_chars Q s.
Proof. intros HPQ. induction s as [|c s IH]; simpl; [done|]. rewrite !andb_True. naive_solver. Qed.

Lemma ascii_utf8_ok s : all_chars is_rune1 s → utf8_ok s.
Proof.
  unfold utf8_ok. induction s as [|c s IH]; simpl; [done|].
  intros [Hc Hs]%andb_True. destruct (is_rune1 c) eqn:E; [|done]. simpl. rewrite E. auto.
Qed.
