(* ===== verification/Json.v ===== *)
(** * JSON text: the part of encoding/json the program relies on.

    Both disk backends store records as JSON, the HTTP API answers in JSON and
    storage nodes announce themselves in it.  [Marshal] of a tree prints the
    compact form of the Go encoder, with its escapes (quotes, control
    characters, the HTML characters and the line separators U+2028 and U+2029,
    and U+FFFD for bytes that are not UTF-8); [Unmarshal] is the decoder's
    grammar: white space, escapes with surrogate pairs, number literals, the
    limit on nesting, and nothing but white space after the value.  Numbers
    stay literals, as in [json.Number], and are read by the types that want
    them ([Codec]). *)

From Stdlib Require Import Ascii ZifyBool.
From S2P Require Import Prelude Metadata Replication Names Utf8.
From stdpp Require Import options.

Inductive JValue :=
  | JNull
  | JBool (b : bool)
  | JNum (lit : string)
  | JStr (s : string)
  | JArr (vs : list JValue)
  | JObj (ms : list (string * JValue)).

(** ** Characters *)

Definition chr (n : N) : ascii := ascii_of_N n.
Definition is_char (n : N) (c : ascii) : bool := (code c =? n)%N.
Definition quote : ascii := chr 34.
Definition backslash : ascii := chr 92.

Definition hex_digit (n : N) : ascii := if (n <? 10)%N then chr (48 + n) else chr (87 + n).

(** ** Strings: [appendString] *)

Definition u_escape (n : N) : string :=
  String backslash (String "u" (String "0" (String "0"
    (String (hex_digit (n / 16)) (String (hex_digit (n mod 16)) ""))))).

Definition escape_char (a : ascii) : string :=
  let n := code a in
  let short (c : ascii) := String backslash (String c "") in
  if (n =? 34)%N || (n =? 92)%N then short a
  else if (n =? 8)%N then short "b"%char
  else if (n =? 12)%N then short "f"%char
  else if (n =? 10)%N then short "n"%char
  else if (n =? 13)%N then short "r"%char
  else if (n =? 9)%N then short "t"%char
  else if (n <? 32)%N || (n =? 38)%N || (n =? 60)%N || (n =? 62)%N then u_escape n
  else String a "".

Definition line_separator (a b c : ascii) : bool :=
  (code a =? 0xE2)%N && (code b =? 0x80)%N && ((code c =? 0xA8)%N || (code c =? 0xA9)%N).

Definition escape_tok (t : Tok) : string :=
  match t with
  | R1 a => escape_char a
  | R3 a b c =>
      if line_separator a b c
      then String backslash ("u202" +:+ String (hex_digit (code c - 0xA0)) "")
      else tok_bytes t
  | R2 _ _ | R4 _ _ _ _ => tok_bytes t
  | Bad _ => String backslash "ufffd"
  end.

Definition escape (s : string) : string := cat (escape_tok <$> toks s).
Definition print_string (s : string) : string := String quote (escape s +:+ String quote "").

(** ** Values: the compact printer *)

Fixpoint join (sep : string) (ss : list string) : string :=
  match ss with
  | [] => ""
  | [s] => s
  | s :: ss => s +:+ sep +:+ join sep ss
  end.

Fixpoint Marshal (v : JValue) : string :=
  match v with
  | JNull => "null"
  | JBool b => if b then "true" else "false"
  | JNum lit => lit
  | JStr s => print_string s
  | JArr vs => "[" +:+ join "," (List.map Marshal vs) +:+ "]"
  | JObj ms =>
      "{" +:+ join "," (List.map (λ m, print_string m.1 +:+ ":" +:+ Marshal m.2) ms) +:+ "}"
  end.

(** The layouts of the encoder: the text before an element at a depth, which is
    also the text before the bracket that closes the level, and the text after
    the colon of a member. *)
Record Layout := {
  ly_line : nat → string;
  ly_colon : string
}.

Definition compact : Layout := {| ly_line _ := ""; ly_colon := "" |}.

Fixpoint spaces (n : nat) : string :=
  match n with O => "" | S n => String " " (spaces n) end.

Section layout.
Context (ly : Layout).

Fixpoint print_value (d : nat) (v : JValue) : string :=
  match v with
  | JNull => "null"
  | JBool b => if b then "true" else "false"
  | JNum lit => lit
  | JStr s => print_string s
  | JArr [] => "[]"
  | JArr vs =>
      "[" +:+ ly_line ly (S d) +:+ join ("," +:+ ly_line ly (S d)) (List.map (print_value (S d)) vs) +:+
        ly_line ly d +:+ "]"
  | JObj [] => "{}"
  | JObj ms =>
      "{" +:+ ly_line ly (S d) +:+
        join ("," +:+ ly_line ly (S d))
          (List.map (λ m, print_string m.1 +:+ ":" +:+ ly_colon ly +:+ print_value (S d) m.2) ms) +:+
        ly_line ly d +:+ "}"
  end.
End layout.

(** [json.MarshalIndent(v, "", "  ")] *)
Definition indented : Layout := {|
  ly_line d := String (chr 10) (spaces (2 * d));
  ly_colon := " "
|}.
Definition MarshalIndent (v : JValue) : string := print_value indented 0 v.

(** ** Strings: [unquote] *)

Definition hex_value (c : ascii) : option N :=
  if between 48 57 c then Some (code c - 48)%N
  else if between 97 102 c then Some (code c - 87)%N
  else if between 65 70 c then Some (code c - 55)%N
  else None.

(** [getu4] *)
Definition hex4 (a b c d : ascii) : option N :=
  x ← hex_value a; y ← hex_value b; z ← hex_value c; w ← hex_value d;
  Some (((x * 16 + y) * 16 + z) * 16 + w)%N.

Definition is_surrogate (r : N) : bool := (0xD800 <=? r)%N && (r <? 0xE000)%N.

(** [utf16.DecodeRune] of a pair that is one. *)
Definition surrogate_pair (r1 r2 : N) : option N :=
  if ((0xD800 <=? r1) && (r1 <? 0xDC00) && (0xDC00 <=? r2) && (r2 <? 0xE000))%N
  then Some ((r1 - 0xD800) * 1024 + (r2 - 0xDC00) + 0x10000)%N
  else None.

Definition simple_escape (e : ascii) : option ascii :=
  let n := code e in
  if (n =? 34)%N || (n =? 92)%N || (n =? 47)%N then Some e
  else if is_char 98 e then Some (chr 8)
  else if is_char 102 e then Some (chr 12)
  else if is_char 110 e then Some (chr 10)
  else if is_char 114 e then Some (chr 13)
  else if is_char 116 e then Some (chr 9)
  else None.

Definition prefix_res (p : string) (r : option (string * string)) : option (string * string) :=
  match r with
  | Some (s, rest) => Some (p +:+ s, rest)
  | None => None
  end.

(** The string after its opening quote: its value and what follows the closing
    quote. *)
Fixpoint parse_string (s : string) : option (string * string) :=
  match s with
  | "" => None
  | String a s1 =>
      if is_char 34 a then Some ("", s1)
      else if is_char 92 a then
        match s1 with
        | "" => None
        | String e s2 =>
            if is_char 117 e then
              match s2 with
              | String h1 (String h2 (String h3 (String h4 s6))) =>
                  match hex4 h1 h2 h3 h4 with
                  | None => None
                  | Some r =>
                      if is_surrogate r then
                        match s6 with
                        | String b (String u (String g1 (String g2 (String g3 (String g4 s12))))) =>
                            match (if is_char 92 b && is_char 117 u then hex4 g1 g2 g3 g4
                                   else None) ≫= surrogate_pair r with
                            | Some r => prefix_res (encode_rune r) (parse_string s12)
                            | None => prefix_res replacement (parse_string s6)
                            end
                        | _ => prefix_res replacement (parse_string s6)
                        end
                      else prefix_res (encode_rune r) (parse_string s6)
                  end
              | _ => None
              end
            else
              match simple_escape e with
              | Some c => prefix_res (String c "") (parse_string s2)
              | None => None
              end
        end
      else if (code a <? 32)%N then None
      else if is_rune1 a then prefix_res (String a "") (parse_string s1)
      else
        match s1 with
        | String b s2 =>
            if is_rune2 a b then prefix_res (tok_bytes (R2 a b)) (parse_string s2) else
            match s2 with
            | String c s3 =>
                if is_rune3 a b c then prefix_res (tok_bytes (R3 a b c)) (parse_string s3) else
                match s3 with
                | String d s4 =>
                    if is_rune4 a b c d
                    then prefix_res (tok_bytes (R4 a b c d)) (parse_string s4)
                    else prefix_res replacement (parse_string s1)
                | "" => prefix_res replacement (parse_string s1)
                end
            | "" => prefix_res replacement (parse_string s1)
            end
        | "" => prefix_res replacement (parse_string s1)
        end
  end%string.

(** ** Number literals *)

Definition is_digit (c : ascii) : bool := between 48 57 c.
Definition is_digit19 (c : ascii) : bool := between 49 57 c.

Fixpoint take_digits (s : string) : string * string :=
  match s with
  | "" => ("", "")
  | String c r => if is_digit c then (String c (take_digits r).1, (take_digits r).2) else ("", s)
  end%string.

Definition scan_int (s : string) : option (string * string) :=
  match s with
  | "" => None
  | String c r =>
      if is_char 48 c then Some (String c "", r)
      else if is_digit19 c then Some (String c (take_digits r).1, (take_digits r).2)
      else None
  end%string.

(** At least one digit after [p]. *)
Definition scan_digits (p s : string) : option (string * string) :=
  match take_digits s with
  | ("", _) => None
  | (d, r) => Some (p +:+ d, r)
  end%string.

Definition scan_frac (s : string) : option (string * string) :=
  match s with
  | String c r => if is_char 46 c then scan_digits (String c "") r else Some ("", s)
  | "" => Some ("", s)
  end%string.

Definition scan_exp (s : string) : option (string * string) :=
  match s with
  | String c r =>
      if is_char 101 c || is_char 69 c then
        match r with
        | String g r' =>
            if is_char 43 g || is_char 45 g then scan_digits (String c (String g "")) r'
            else scan_digits (String c "") r
        | "" => None
        end
      else Some ("", s)
  | "" => Some ("", s)
  end%string.

Definition parse_number (s : string) : option (string * string) :=
  let '(sign, s) :=
    match s with
    | String c r => if is_char 45 c then (String c "", r) else ("", s)
    | "" => ("", s)
    end in
  '(i, s) ← scan_int s;
  '(f, s) ← scan_frac s;
  '(e, s) ← scan_exp s;
  Some (sign +:+ i +:+ f +:+ e, s).

(** ** Values: the decoder *)

Definition is_space (c : ascii) : bool :=
  is_char 32 c || is_char 9 c || is_char 10 c || is_char 13 c.

Fixpoint skip_ws (s : string) : string :=
  match s with
  | String c r => if is_space c then skip_ws r else s
  | "" => ""
  end%string.

Fixpoint strip (p s : string) : option string :=
  match p, s with
  | "", _ => Some s
  | String a p, String b s => if bool_decide (a = b) then strip p s else None
  | _, _ => None
  end%string.

Definition maxNestingDepth : N := 10000.

Definition parse_scalar (s : string) : option (JValue * string) :=
  match strip "null" s, strip "true" s, strip "false" s with
  | Some r, _, _ => Some (JNull, r)
  | _, Some r, _ => Some (JBool true, r)
  | _, _, Some r => Some (JBool false, r)
  | None, None, None => '(lit, r) ← parse_number s; Some (JNum lit, r)
  end.

(** One value; the elements of an array and the members of an object up to the
    closing bracket.  [depth] brackets are open. *)
Fixpoint parse_value (fuel : nat) (depth : N) (s : string) : option (JValue * string) :=
  match fuel with
  | 0 => None
  | S fuel =>
      match skip_ws s with
      | "" => None
      | String c r =>
          if is_char 34 c then '(x, r) ← parse_string r; Some (JStr x, r)
          else if is_char 91 c then
            if (maxNestingDepth <=? depth)%N then None else
            match strip "]" (skip_ws r) with
            | Some r => Some (JArr [], r)
            | None => '(vs, r) ← parse_elems fuel (depth + 1)%N r; Some (JArr vs, r)
            end
          else if is_char 123 c then
            if (maxNestingDepth <=? depth)%N then None else
            match strip "}" (skip_ws r) with
            | Some r => Some (JObj [], r)
            | None => '(ms, r) ← parse_members fuel (depth + 1)%N r; Some (JObj ms, r)
            end
          else parse_scalar (String c r)
      end%string
  end
with parse_elems (fuel : nat) (depth : N) (s : string) : option (list JValue * string) :=
  match fuel with
  | 0 => None
  | S fuel =>
      '(v, r) ← parse_value fuel depth s;
      match skip_ws r with
      | String c r =>
          if is_char 44 c then '(vs, r) ← parse_elems fuel depth r; Some (v :: vs, r)
          else if is_char 93 c then Some ([v], r)
          else None
      | "" => None
      end%string
  end
with parse_members (fuel : nat) (depth : N) (s : string) :
    option (list (string * JValue) * string) :=
  match fuel with
  | 0 => None
  | S fuel =>
      r ← strip (String quote "") (skip_ws s);
      '(k, r) ← parse_string r;
      r ← strip ":" (skip_ws r);
      '(v, r) ← parse_value fuel depth r;
      match skip_ws r with
      | String c r =>
          if is_char 44 c then '(ms, r) ← parse_members fuel depth r; Some ((k, v) :: ms, r)
          else if is_char 125 c then Some ([(k, v)], r)
          else None
      | "" => None
      end%string
  end.

Definition Unmarshal (s : string) : option JValue :=
  '(v, r) ← parse_value (S (String.length s)) 0 s;
  match skip_ws r with "" => Some v | _ => None end%string.

Example unmarshal_spaces :
  Unmarshal (" { " +:+ print_string "a" +:+ " : [ 1 , -2.5e+3 , null ] } ") =
  Some (JObj [("a", JArr [JNum "1"; JNum "-2.5e+3"; JNull])]).
Proof. reflexivity. Qed.

(** ** Strings round-trip *)

Lemma code_inj a b : code a = code b → a = b.
Proof. intros H. rewrite <-(ascii_N_embedding a), <-(ascii_N_embedding b). by f_equal. Qed.

Lemma high_byte a : is_rune1 a = false →
  is_char 34 a = false ∧ is_char 92 a = false ∧ (code a <? 32)%N = false.
Proof. unfold is_rune1, is_char. generalize (code a). intros n. lia. Qed.

Lemma parse_escape_char a s :
  is_rune1 a → parse_string (escape_char a +:+ s) = prefix_res (String a "") (parse_string s).
Proof. destruct a as [[] [] [] [] [] [] [] []]; vm_compute is_rune1; try done; reflexivity. Qed.

Lemma parse_high a s1 r :
  is_rune1 a = false →
  match s1 with
  | String b s2 =>
      if is_rune2 a b then prefix_res (tok_bytes (R2 a b)) (parse_string s2) else
      match s2 with
      | String c s3 =>
          if is_rune3 a b c then prefix_res (tok_bytes (R3 a b c)) (parse_string s3) else
          match s3 with
          | String d s4 =>
              if is_rune4 a b c d
              then prefix_res (tok_bytes (R4 a b c d)) (parse_string s4)
              else prefix_res replacement (parse_string s1)
          | "" => prefix_res replacement (parse_string s1)
          end
      | "" => prefix_res replacement (parse_string s1)
      end
  | "" => prefix_res replacement (parse_string s1)
  end%string = r → parse_string (String a s1) = r.
Proof.
  intros Ha <-. destruct (high_byte a Ha) as (H1 & H2 & H3).
  cbn [parse_string]. by rewrite H1, H2, H3, Ha.
Qed.

Lemma parse_escape_tok t s :
  tok_valid t → parse_string (escape_tok t +:+ s) = prefix_res (tok_bytes t) (parse_string s).
Proof.
  destruct t as [a|a b|a b c|a b c d|a]; cbn [tok_valid escape_tok]; intros H; [..|done].
  - by apply parse_escape_char.
  - apply parse_high; [by eapply rune2_lead|]. by apply Is_true_true in H as ->.
  - destruct (line_separator a b c) eqn:Hs.
    + unfold line_separator in Hs. apply andb_prop in Hs as [[Ha Hb]%andb_prop Hc].
      apply N.eqb_eq, (code_inj a (chr 0xE2)) in Ha as ->.
      apply N.eqb_eq, (code_inj b (chr 0x80)) in Hb as ->.
      apply orb_prop in Hc as [Hc|Hc]; apply N.eqb_eq in Hc;
        [apply (code_inj c (chr 0xA8)) in Hc as ->|apply (code_inj c (chr 0xA9)) in Hc as ->];
        reflexivity.
    + destruct (rune3_lead _ _ _ b H) as [H1 H2].
      apply parse_high; [done|]. rewrite H2. by apply Is_true_true in H as ->.
  - destruct (rune4_lead _ _ _ _ b c H) as (H1 & H2 & H3).
    apply parse_high; [done|]. rewrite H2, H3. by apply Is_true_true in H as ->.
Qed.

Lemma prefix_res_app p q r : prefix_res p (prefix_res q r) = prefix_res (p +:+ q) r.
Proof. destruct r as [[s rest]|]; simpl; [|done]. by rewrite string_app_assoc. Qed.

Lemma parse_escape_toks ts s :
  forallb tok_valid ts →
  parse_string (cat (escape_tok <$> ts) +:+ s) =
  prefix_res (cat (tok_bytes <$> ts)) (parse_string s).
Proof.
  induction ts as [|t ts IH]; cbn [forallb].
  { intros _. change (parse_string s = prefix_res "" (parse_string s)).
    by destruct (parse_string s) as [[? ?]|]. }
  intros [Ht Hts]%andb_True.
  change (cat (escape_tok <$> t :: ts)) with (escape_tok t +:+ cat (escape_tok <$> ts)).
  change (cat (tok_bytes <$> t :: ts)) with (tok_bytes t +:+ cat (tok_bytes <$> ts)).
  rewrite string_app_assoc, parse_escape_tok, IH by done. apply prefix_res_app.
Qed.

Lemma parse_print_string s rest :
  utf8_ok s → parse_string (escape s +:+ String quote rest) = Some (s, rest).
Proof.
  intros Hs. unfold escape. rewrite parse_escape_toks by done. rewrite cat_toks.
  simpl. by rewrite app_nil_s.
Qed.

(** ** Values round-trip *)

(** Integer literals, the only numbers the program writes. *)
Definition nat_literal (s : string) : bool :=
  match s with
  | "" => false
  | String c r => if is_char 48 c then bool_decide (r = "") else is_digit19 c && all_chars is_digit r
  end%string.
Definition int_literal (s : string) : bool :=
  match s with
  | "" => false
  | String c r => if is_char 45 c then nat_literal r else nat_literal s
  end%string.

(** Trees that are printed as they are: valid strings, integer numbers. *)
Fixpoint jvalid (v : JValue) : bool :=
  match v with
  | JNull | JBool _ => true
  | JNum lit => int_literal lit
  | JStr s => utf8_ok s
  | JArr vs => forallb jvalid vs
  | JObj ms => forallb (λ m, utf8_ok m.1 && jvalid m.2) ms
  end.

Fixpoint jdepth (v : JValue) : N :=
  match v with
  | JNull | JBool _ | JNum _ | JStr _ => 0
  | JArr vs => 1 + foldr N.max 0 (List.map jdepth vs)
  | JObj ms => 1 + foldr N.max 0 (List.map (λ m, jdepth m.2) ms)
  end%N.

(** What may follow a value without extending a number. *)
Definition stops (s : string) : bool :=
  match s with
  | "" => true
  | String c _ => negb (is_digit c || is_char 46 c || is_char 101 c || is_char 69 c)
  end%string.

Lemma JValue_ind' (P : JValue → Prop) :
  P JNull → (∀ b, P (JBool b)) → (∀ lit, P (JNum lit)) → (∀ s, P (JStr s)) →
  (∀ vs, Forall P vs → P (JArr vs)) → (∀ ms, Forall (P ∘ snd) ms → P (JObj ms)) → ∀ v, P v.
Proof.
  intros Hn Hb Hl Hs Ha Ho. fix IH 1. intros [|b|lit|s|vs|ms]; [done|done|done|done|..].
  - apply Ha. induction vs as [|v vs IHvs]; constructor; [apply IH|apply IHvs].
  - apply Ho. induction ms as [|m ms IHms]; constructor; [apply IH|apply IHms].
Qed.

Lemma strip_app p s : strip p (p +:+ s) = Some s.
Proof.
  induction p as [|c p IH]; [done|]. rewrite string_app_cons. simpl.
  by rewrite bool_decide_eq_true_2.
Qed.

Lemma take_digits_app d rest :
  all_chars is_digit d → stops rest → take_digits (d +:+ rest) = (d, rest).
Proof.
  induction d as [|c d IH]; intros Hd Hr.
  - change (take_digits rest = ("", rest)). destruct rest as [|c rest]; [done|].
    cbn in Hr |- *. by destruct (is_digit c).
  - rewrite string_app_cons. cbn in Hd |- *. apply andb_True in Hd as [Hc Hd].
    apply Is_true_true in Hc. by rewrite Hc, IH.
Qed.

Lemma scan_end rest : stops rest → scan_frac rest = Some ("", rest) ∧ scan_exp rest = Some ("", rest).
Proof.
  destruct rest as [|c rest]; [done|]. cbn.
  by destruct (is_digit c), (is_char 46 c), (is_char 101 c), (is_char 69 c).
Qed.

Lemma scan_nat_literal s rest :
  nat_literal s → stops rest → scan_int (s +:+ rest) = Some (s, rest).
Proof.
  destruct s as [|c r]; [done|]. rewrite string_app_cons. cbn. intros Hs Hr.
  destruct (is_char 48 c); [by rewrite (bool_decide_unpack _ Hs)|].
  destruct (is_digit19 c); [|done]. by rewrite take_digits_app.
Qed.

Lemma nat_literal_sign c s : nat_literal (String c s) → is_char 45 c = false.
Proof.
  cbn. unfold is_char, is_digit19, between. generalize (code c). intros n.
  destruct (n =? 48)%N eqn:E; [intros _; lia|]. intros [H%Is_true_true _]%andb_True. lia.
Qed.

Lemma parse_int_literal lit rest :
  int_literal lit → stops rest → parse_number (lit +:+ rest) = Some (lit, rest).
Proof.
  destruct lit as [|c r]; [done|]. rewrite string_app_cons. intros Hl Hr.
  destruct (scan_end rest Hr) as [Hf He]. unfold parse_number. cbn in Hl.
  destruct (is_char 45 c) eqn:Hc.
  - rewrite scan_nat_literal by done. cbn. rewrite Hf. cbn. rewrite He. cbn. by rewrite app_nil_s.
  - rewrite <-string_app_cons, scan_nat_literal by done. cbn. rewrite Hf. cbn. rewrite He. cbn.
    by rewrite app_nil_s.
Qed.

(** No printed value starts with white space or a closing bracket, and only
    strings, arrays and objects with a quote or an opening one. *)
Lemma int_literal_head lit :
  int_literal lit → ∃ c s, lit = String c s ∧ (is_digit c || is_char 45 c).
Proof.
  destruct lit as [|c s]; [done|]. cbn. intros H. exists c, s. split; [done|].
  unfold is_char, is_digit19, is_digit, between in *. revert H. generalize (code c). intros n.
  destruct (n =? 45)%N; [intros _; by rewrite orb_true_r|].
  destruct (n =? 48)%N eqn:E; [intros _|intros [H%Is_true_true _]%andb_True]; apply Is_true_true; lia.
Qed.

Lemma digit_head c : is_digit c || is_char 45 c →
  is_space c = false ∧ is_char 93 c = false ∧ is_char 34 c = false ∧ is_char 91 c = false ∧
  is_char 123 c = false ∧ c ≠ "n"%char ∧ c ≠ "t"%char ∧ c ≠ "f"%char.
Proof.
  intros H%Is_true_true. unfold is_space, is_digit, between, is_char in *.
  repeat split; try lia; intros ->; by vm_compute in H.
Qed.

Lemma skip_ws_head c s : is_space c = false → skip_ws (String c s) = String c s.
Proof. intros H. cbn. by rewrite H. Qed.

Lemma parse_scalar_int lit rest :
  int_literal lit → stops rest → parse_scalar (lit +:+ rest) = Some (JNum lit, rest).
Proof.
  intros Hl Hr. unfold parse_scalar. rewrite parse_int_literal by done.
  destruct (int_literal_head lit Hl) as (c & s & -> & Hc).
  destruct (digit_head c Hc) as (_ & _ & _ & _ & _ & Hn & Ht & Hf).
  rewrite string_app_cons. cbn. by rewrite !bool_decide_eq_false_2 by done.
Qed.

(** White space between tokens is skipped. *)
Definition blank (w : string) : Prop := all_chars is_space w.

Lemma skip_ws_blank w s : blank w → skip_ws (w +:+ s) = skip_ws s.
Proof.
  unfold blank. induction w as [|c w IH]; [done|]. rewrite string_app_cons. cbn.
  intros [Hc%Is_true_true Hw]%andb_True. rewrite Hc. by apply IH.
Qed.

Lemma stops_blank w s : blank w → stops s → stops (w +:+ s).
Proof.
  destruct w as [|c w]; [done|]. rewrite string_app_cons. intros [Hc%Is_true_true _]%andb_True _. cbn.
  apply Is_true_true. unfold is_space, is_digit, between, is_char in *. lia.
Qed.

Lemma parse_value_blank w fuel depth s :
  blank w → parse_value fuel depth (w +:+ s) = parse_value fuel depth s.
Proof. intros Hw. destruct fuel; [done|]. cbn [parse_value]. by rewrite skip_ws_blank. Qed.

Lemma parse_elems_blank w fuel depth s :
  blank w → parse_elems fuel depth (w +:+ s) = parse_elems fuel depth s.
Proof. intros Hw. destruct fuel; [done|]. cbn [parse_elems]. by rewrite parse_value_blank. Qed.

Lemma parse_members_blank w fuel depth s :
  blank w → parse_members fuel depth (w +:+ s) = parse_members fuel depth s.
Proof. intros Hw. destruct fuel; [done|]. cbn [parse_members]. by rewrite skip_ws_blank. Qed.

Lemma foldr_max_le (l : list N) d m :
  (d + foldr N.max 0 l ≤ m)%N → Forall (λ x, d + x ≤ m)%N l.
Proof. induction l as [|x l IH]; simpl; intros H; constructor; [lia|apply IH; lia]. Qed.

Lemma parse_key k rest :
  utf8_ok k →
  (r ← strip (String quote "") (skip_ws (print_string k +:+ rest)); parse_string r) =
  Some (k, rest).
Proof.
  intros Hk. unfold print_string. rewrite string_app_cons, skip_ws_head by done.
  change (parse_string ((escape k +:+ String quote "") +:+ rest) = Some (k, rest)).
  rewrite string_app_assoc. by apply parse_print_string.
Qed.

Lemma join_cons sep s s' ss : join sep (s :: s' :: ss) = s +:+ sep +:+ join sep (s' :: ss).
Proof. done. Qed.

(** ** Every layout is read back *)

Section layout.
Context (ly : Layout) (Hline : ∀ d, blank (ly_line ly d)) (Hcolon : blank (ly_colon ly)).

Lemma print_head d v : jvalid v → ∃ c s,
  print_value ly d v = String c s ∧ is_space c = false ∧ is_char 93 c = false.
Proof using.
  destruct v as [|[]|lit|s|[|v vs]|[|m ms]]; intros Hv; try by repeat eexists.
  destruct (int_literal_head lit Hv) as (c & s & -> & Hc). exists c, s.
  by destruct (digit_head c Hc) as (? & ? & _).
Qed.

(** The statement for one value, in any context and for any fuel above the
    length of its text. *)
Definition value_roundtrip (v : JValue) : Prop :=
  ∀ d fuel depth rest, String.length (print_value ly d v) ≤ fuel → (depth + jdepth v ≤ maxNestingDepth)%N →
    stops rest → parse_value fuel depth (print_value ly d v +:+ rest) = Some (v, rest).

Lemma print_pos d v : jvalid v → 1 ≤ String.length (print_value ly d v).
Proof using. intros (c & s & -> & _)%(print_head d). simpl. lia. Qed.

Lemma elems_roundtrip d vs fuel depth w rest :
  vs ≠ [] → forallb jvalid vs → Forall value_roundtrip vs →
  Forall (λ x, depth + x ≤ maxNestingDepth)%N (List.map jdepth vs) →
  blank w → S (String.length (join ("," +:+ ly_line ly d) (List.map (print_value ly d) vs))) ≤ fuel →
  parse_elems fuel depth
    (join ("," +:+ ly_line ly d) (List.map (print_value ly d) vs) +:+ w +:+ String "]" rest) = Some (vs, rest).
Proof using Hline.
  intros Hne Hv Hrt Hd Hw. revert fuel. induction vs as [|v vs IH]; intros fuel Hf; [done|].
  apply andb_True in Hv as [Hv Hvs]. apply Forall_cons in Hrt as [Hrt Hrts].
  apply Forall_cons in Hd as [Hd Hds].
  destruct fuel as [|fuel]; [simpl in Hf; lia|]. cbn [parse_elems].
  destruct vs as [|v' vs].
  - cbn [List.map join] in Hf |- *. rewrite Hrt by (try apply stops_blank; done || lia).
    cbn [mbind option_bind]. by rewrite skip_ws_blank.
  - cbn [List.map] in Hf |- *. rewrite join_cons in Hf |- *. rewrite !length_app_s in Hf.
    rewrite !string_app_assoc. rewrite Hrt by (done || (simpl in *; lia)).
    cbn [mbind option_bind]. change (skip_ws ("," +:+ ?x)) with (String "," x).
    change (is_char 44 ",") with true. cbn iota. rewrite parse_elems_blank by done.
    change (print_value ly d v' :: List.map (print_value ly d) vs) with (List.map (print_value ly d) (v' :: vs)).
    pose proof (print_pos d v Hv). rewrite IH; [done|done|done|done|done|simpl in *; lia].
Qed.

Definition print_member (d : nat) (m : string * JValue) : string :=
  print_string m.1 +:+ ":" +:+ ly_colon ly +:+ print_value ly d m.2.

Lemma member_roundtrip d k v fuel depth tail :
  utf8_ok k → value_roundtrip v → (depth + jdepth v ≤ maxNestingDepth)%N →
  stops tail → String.length (print_value ly d v) ≤ fuel →
  ∃ r1 r2 r3, strip (String quote "") (skip_ws (print_member d (k, v) +:+ tail)) = Some r1 ∧
    parse_string r1 = Some (k, r2) ∧ strip ":" (skip_ws r2) = Some r3 ∧
    parse_value fuel depth r3 = Some (v, tail).
Proof using Hcolon.
  intros Hk Hrt Hd Ht Hl. unfold print_member. cbn [fst snd]. rewrite !string_app_assoc.
  pose proof (parse_key k (":" +:+ ly_colon ly +:+ print_value ly d v +:+ tail) Hk) as Hkey.
  destruct (strip _ _) as [r1|] eqn:E; [|done]. cbn [mbind option_bind] in Hkey.
  eexists r1, _, _. split; [done|]. split; [exact Hkey|]. split; [apply (strip_app ":")|].
  rewrite parse_value_blank by done. by apply Hrt.
Qed.

Lemma members_roundtrip d ms fuel depth w rest :
  ms ≠ [] → forallb (λ m, utf8_ok m.1 && jvalid m.2) ms → Forall (value_roundtrip ∘ snd) ms →
  Forall (λ x, depth + x ≤ maxNestingDepth)%N (List.map (λ m, jdepth m.2) ms) →
  blank w → S (String.length (join ("," +:+ ly_line ly d) (List.map (print_member d) ms))) ≤ fuel →
  parse_members fuel depth
    (join ("," +:+ ly_line ly d) (List.map (print_member d) ms) +:+ w +:+ String "}" rest) =
  Some (ms, rest).
Proof using Hline Hcolon.
  intros Hne Hv Hrt Hd Hw. revert fuel. induction ms as [|[k v] ms IH]; intros fuel Hf; [done|].
  apply andb_True in Hv as [[Hk Hv]%andb_True Hvs]. apply Forall_cons in Hrt as [Hrt Hrts].
  apply Forall_cons in Hd as [Hd Hds]. cbn [fst snd compose] in *.
  destruct fuel as [|fuel]; [simpl in Hf; lia|]. cbn [parse_members].
  destruct ms as [|m' ms].
  - cbn [List.map join] in Hf |- *. unfold print_member in Hf. rewrite !length_app_s in Hf.
    cbn [fst snd] in Hf.
    destruct (member_roundtrip d k v fuel depth (w +:+ String "}" rest))
      as (r1 & r2 & r3 & -> & H2 & H3 & H4); [done|done|done|by apply stops_blank|lia|].
    cbn [mbind option_bind]. rewrite H2. cbn [mbind option_bind]. rewrite H3.
    cbn [mbind option_bind]. rewrite H4. cbn [mbind option_bind]. by rewrite skip_ws_blank.
  - cbn [List.map] in Hf |- *. rewrite join_cons in Hf |- *. rewrite !length_app_s in Hf.
    unfold print_member in Hf at 1. rewrite !length_app_s in Hf. cbn [fst snd] in Hf.
    rewrite !string_app_assoc.
    destruct (member_roundtrip d k v fuel depth ("," +:+ ly_line ly d +:+
        join ("," +:+ ly_line ly d) (print_member d m' :: List.map (print_member d) ms) +:+ w +:+ String "}" rest))
      as (r1 & r2 & r3 & -> & H2 & H3 & H4); [done|done|done|done|lia|].
    cbn [mbind option_bind]. rewrite H2. cbn [mbind option_bind]. rewrite H3.
    cbn [mbind option_bind]. rewrite H4. cbn [mbind option_bind].
    change (skip_ws ("," +:+ ?x)) with (String "," x).
    change (is_char 44 ",") with true. cbn iota. rewrite parse_members_blank by done.
    change (print_member d m' :: List.map (print_member d) ms) with (List.map (print_member d) (m' :: ms)).
    pose proof (print_pos d v Hv). simpl in Hf.
    rewrite IH; [done|done|done|done|done|simpl in *; lia].
Qed.

Lemma elems_no_close d v vs rest :
  jvalid v → strip "]" (skip_ws (join ("," +:+ ly_line ly d) (List.map (print_value ly d) (v :: vs)) +:+ rest)) = None.
Proof using.
  intros (c & s & Hm & Hs & Hb)%(print_head d).
  assert (∃ t, join ("," +:+ ly_line ly d) (List.map (print_value ly d) (v :: vs)) +:+ rest = String c t) as [t ->].
  { cbn [List.map]. destruct (List.map (print_value ly d) vs) as [|s' ss].
    - cbn [join]. rewrite Hm. by eexists.
    - rewrite join_cons, Hm. by eexists. }
  rewrite skip_ws_head by done. cbn [strip].
  rewrite bool_decide_eq_false_2; [done|]. by intros <-.
Qed.

Lemma members_no_close d m ms rest :
  strip "}" (skip_ws (join ("," +:+ ly_line ly d) (List.map (print_member d) (m :: ms)) +:+ rest)) = None.
Proof using. cbn [List.map]. by destruct (List.map (print_member d) ms). Qed.

Lemma Forall_roundtrip {A} (f : A → JValue) (l : list A) :
  Forall (λ x, jvalid (f x) → value_roundtrip (f x)) l → Forall (λ x, jvalid (f x) : Prop) l →
  Forall (λ x, value_roundtrip (f x)) l.
Proof using. rewrite !Forall_forall. eauto. Qed.

Lemma array_roundtrip v vs :
  let vs := v :: vs in
  forallb jvalid vs → Forall value_roundtrip vs → value_roundtrip (JArr vs).
Proof using Hline.
  intros vs' Hv Hrt d fuel depth rest Hf Hd Hr. destruct fuel as [|fuel]; [simpl in Hf; lia|].
  change (print_value ly d (JArr vs')) with ("[" +:+ ly_line ly (S d) +:+
    join ("," +:+ ly_line ly (S d)) (List.map (print_value ly (S d)) vs') +:+ ly_line ly d +:+ "]") in *.
  rewrite !length_app_s in Hf. cbn [jdepth] in Hd. rewrite !string_app_assoc.
  cbn [parse_value]. change (skip_ws ("[" +:+ ?x)) with (String "[" x).
  change (is_char 34 "[") with false. change (is_char 91 "[") with true. cbn iota.
  destruct (N.leb_spec maxNestingDepth depth); [lia|].
  subst vs'. rewrite skip_ws_blank, elems_no_close by (done || by apply andb_True in Hv as [? _]).
  rewrite parse_elems_blank by done. change ("]" +:+ rest) with (String "]" rest).
  rewrite elems_roundtrip; [done|done|done|done|apply foldr_max_le; lia|done|simpl in *; lia].
Qed.

Lemma object_roundtrip m ms :
  let ms := m :: ms in
  forallb (λ m, utf8_ok m.1 && jvalid m.2) ms → Forall (value_roundtrip ∘ snd) ms → value_roundtrip (JObj ms).
Proof using Hline Hcolon.
  intros ms' Hv Hrt d fuel depth rest Hf Hd Hr. destruct fuel as [|fuel]; [simpl in Hf; lia|].
  change (print_value ly d (JObj ms')) with ("{" +:+ ly_line ly (S d) +:+
    join ("," +:+ ly_line ly (S d)) (List.map (print_member (S d)) ms') +:+ ly_line ly d +:+ "}") in *.
  rewrite !length_app_s in Hf. cbn [jdepth] in Hd. rewrite !string_app_assoc.
  cbn [parse_value]. change (skip_ws ("{" +:+ ?x)) with (String "{" x).
  change (is_char 34 "{") with false. change (is_char 91 "{") with false.
  change (is_char 123 "{") with true. cbn iota.
  destruct (N.leb_spec maxNestingDepth depth); [lia|].
  subst ms'. rewrite skip_ws_blank, members_no_close by done.
  rewrite parse_members_blank by done. change ("}" +:+ rest) with (String "}" rest).
  rewrite members_roundtrip; [done|done|done|done|apply foldr_max_le; lia|done|simpl in *; lia].
Qed.

Lemma parse_print v : jvalid v → value_roundtrip v.
Proof using Hline Hcolon.
  induction v as [|b|lit|s|vs IH|ms IH] using JValue_ind'; intros Hv.
  - intros d fuel depth rest Hf Hd Hr. destruct fuel; [simpl in Hf; lia|reflexivity].
  - intros d fuel depth rest Hf Hd Hr. destruct fuel; [destruct b; simpl in Hf; lia|destruct b; reflexivity].
  - intros d fuel depth rest Hf Hd Hr. cbn [print_value] in *.
    destruct (int_literal_head lit Hv) as (c & s & Hl & Hc).
    destruct (digit_head c Hc) as (Hs & _ & H1 & H2 & H3 & _).
    rewrite <-(parse_scalar_int lit rest) by done.
    destruct fuel as [|fuel]; [rewrite Hl in Hf; simpl in Hf; lia|]. cbn [parse_value].
    by rewrite Hl, string_app_cons, skip_ws_head, H1, H2, H3.
  - intros d fuel depth rest Hf Hd Hr. destruct fuel as [|fuel]; [simpl in Hf; lia|].
    change (parse_value (S fuel) depth (print_value ly d (JStr s) +:+ rest)) with
      ('(x, r) ← parse_string ((escape s +:+ String quote "") +:+ rest); Some (JStr x, r)).
    rewrite string_app_assoc. change (String quote "" +:+ rest) with (String quote rest).
    by rewrite parse_print_string.
  - destruct vs as [|v vs].
    { intros d fuel depth rest Hf Hd Hr. destruct fuel; [simpl in Hf; lia|]. cbn [parse_value print_value].
      cbn in Hd. destruct (N.leb_spec maxNestingDepth depth); [lia|done]. }
    apply array_roundtrip; [done|]. apply (Forall_roundtrip id); [done|]. by apply forallb_True.
  - destruct ms as [|m ms].
    { intros d fuel depth rest Hf Hd Hr. destruct fuel; [simpl in Hf; lia|]. cbn [parse_value print_value].
      cbn in Hd. destruct (N.leb_spec maxNestingDepth depth); [lia|done]. }
    apply object_roundtrip; [done|]. apply (Forall_roundtrip snd); [done|]. apply forallb_True in Hv.
    eapply Forall_impl; [exact Hv|]. simpl. intros m' [_ ?]%andb_True. done.
Qed.
End layout.

(** [Marshal] is the compact layout. *)
Lemma print_compact v : ∀ d, print_value compact d v = Marshal v.
Proof.
  induction v as [| | | |vs IH|ms IH] using JValue_ind'; intros d; [done..| |].
  - destruct vs as [|v vs]; [done|].
    assert (List.map (print_value compact (S d)) (v :: vs) = List.map Marshal (v :: vs)) as E.
    { apply List.map_ext_in. intros x Hx%list_elem_of_In. rewrite Forall_forall in IH. by apply IH. }
    cbn [print_value Marshal]. by rewrite E.
  - destruct ms as [|m ms]; [done|].
    assert (List.map (λ m, print_string m.1 +:+ ":" +:+ ly_colon compact +:+ print_value compact (S d) m.2)
      (m :: ms) = List.map (λ m, print_string m.1 +:+ ":" +:+ Marshal m.2) (m :: ms)) as E.
    { apply List.map_ext_in. intros x Hx%list_elem_of_In. rewrite Forall_forall in IH.
      do 2 f_equal. by apply (IH x). }
    cbn [print_value Marshal]. by rewrite E.
Qed.

Lemma parse_Marshal v fuel depth rest :
  jvalid v → String.length (Marshal v) ≤ fuel → (depth + jdepth v ≤ maxNestingDepth)%N →
  stops rest → parse_value fuel depth (Marshal v +:+ rest) = Some (v, rest).
Proof. intros Hv. rewrite <-(print_compact v 0). by apply parse_print. Qed.

Lemma spaces_blank n : blank (spaces n).
Proof. by induction n. Qed.

Lemma parse_MarshalIndent v fuel depth rest :
  jvalid v → String.length (MarshalIndent v) ≤ fuel → (depth + jdepth v ≤ maxNestingDepth)%N →
  stops rest → parse_value fuel depth (MarshalIndent v +:+ rest) = Some (v, rest).
Proof. intros Hv. apply parse_print; [|done|done]. intros d. apply (spaces_blank (2 * d)). Qed.

(** A tree survives being written and read back. *)
Lemma Unmarshal_Marshal v :
  jvalid v → (jdepth v ≤ maxNestingDepth)%N → Unmarshal (Marshal v) = Some v.
Proof.
  intros Hv Hd. unfold Unmarshal.
  pose proof (parse_Marshal v (S (String.length (Marshal v))) 0%N "" Hv) as H.
  rewrite app_nil_s in H. rewrite H by (done || lia). done.
Qed.

Lemma Unmarshal_MarshalIndent v :
  jvalid v → (jdepth v ≤ maxNestingDepth)%N → Unmarshal (MarshalIndent v) = Some v.
Proof.
  intros Hv Hd. unfold Unmarshal.
  pose proof (parse_MarshalIndent v (S (String.length (MarshalIndent v))) 0%N "" Hv) as H.
  rewrite app_nil_s in H. rewrite H by (done || lia). done.
Qed.
