(* ===== verification/Times.v ===== *)
(** * The JSON form of [time.Time]: RFC 3339 with nanoseconds.

    [Time.MarshalJSON] writes an instant in UTC as
    2006-01-02T15:04:05.999999999Z, dropping the trailing zeros of the
    fraction, and fails outside the years 0 to 9999; [Time.UnmarshalJSON]
    reads RFC 3339, with a zone or an offset.  An instant is a number of
    nanoseconds since 0001-01-01T00:00:00Z, so both need the Gregorian
    calendar. *)

From Stdlib Require Import Ascii ZifyBool.
From S2P Require Import Prelude Metadata Replication Names Utf8 Json.
From stdpp Require Import options.

Local Open Scope Z_scope.

(** ** The calendar *)

Definition is_leap (y : Z) : bool :=
  (y mod 4 =? 0) && (negb (y mod 100 =? 0) || (y mod 400 =? 0)).

Definition month_lengths (y : Z) : list Z :=
  [31; if is_leap y then 29 else 28; 31; 30; 31; 30; 31; 31; 30; 31; 30; 31].

(** Days from 0001-01-01 to the first of January of [y]. *)
Definition days_before_year (y : Z) : Z :=
  365 * (y - 1) + (y - 1) / 4 - (y - 1) / 100 + (y - 1) / 400.

(** The year of a day and the day in it: cycles of 400, 100, 4 and 1 years, the
    last cycle of a longer one being a day longer. *)
Definition year_day (d : Z) : Z * Z :=
  let n400 := d / 146097 in
  let d := d mod 146097 in
  let n100 := Z.min 3 (d / 36524) in
  let d := d - n100 * 36524 in
  let n4 := d / 1461 in
  let d := d - n4 * 1461 in
  let n1 := Z.min 3 (d / 365) in
  (1 + 400 * n400 + 100 * n100 + 4 * n4 + n1, d - n1 * 365).

Fixpoint month_day (lengths : list Z) (month yday : Z) : Z * Z :=
  match lengths with
  | [] => (month, yday + 1)
  | l :: lengths =>
      if yday <? l then (month, yday + 1) else month_day lengths (month + 1) (yday - l)
  end.

Definition total (l : list Z) : Z := foldr Z.add 0 l.

Definition days_of_date (y m d : Z) : Z :=
  days_before_year y + total (take (Z.to_nat (m - 1)) (month_lengths y)) + (d - 1).

(** ** Fixed-width decimal fields *)

Fixpoint digits (k : nat) (n : Z) : string :=
  match k with
  | O => ""
  | S k => digits k (n / 10) +:+ String (chr (48 + Z.to_N (n mod 10))) ""
  end.

Fixpoint take_chars (k : nat) (s : string) : option (string * string) :=
  match k, s with
  | O, _ => Some ("", s)
  | S k, String c s => '(d, r) ← take_chars k s; Some (String c d, r)
  | S _, "" => None
  end%string.

(** [parseUint] of a field of [k] digits within its bounds. *)
Definition parse_field (k : nat) (lo hi : Z) (s : string) : option (Z * string) :=
  '(d, r) ← take_chars k s;
  let n := Z.of_N (dec_value 0 d) in
  if all_chars is_digit d && (lo <=? n) && (n <=? hi) then Some (n, r) else None.

(** The fraction without its trailing zeros, [k] digits before. *)
Fixpoint fraction (k : nat) (n : Z) : string :=
  match k with
  | O => ""
  | S k' => if n mod 10 =? 0 then fraction k' (n / 10) else digits k n
  end.

(** ** Printing and parsing *)

Definition nanos : Z := 1000000000.

Definition format_time (t : Time) : option string :=
  let ns := t mod nanos in
  let sec := t / nanos in
  let clock := sec mod 86400 in
  let '(y, yday) := year_day (sec / 86400) in
  let '(m, d) := month_day (month_lengths y) 1 yday in
  if (0 <=? y) && (y <=? 9999) then
    let frac := fraction 9 ns in
    Some (digits 4 y +:+ "-" +:+ digits 2 m +:+ "-" +:+ digits 2 d +:+ "T" +:+
          digits 2 (clock / 3600) +:+ ":" +:+ digits 2 (clock / 60 mod 60) +:+ ":" +:+
          digits 2 (clock mod 60) +:+
          (if bool_decide (frac = "") then "" else "." +:+ frac) +:+ "Z")
  else None.

(** A dot followed by a digit opens a fraction, of which nine digits count. *)
Definition parse_fraction (s : string) : Z * string :=
  match s with
  | String c r =>
      if is_char 46 c then
        match take_digits r with
        | ("", _) => (0, s)
        | (d, r) =>
            let d9 := match take_chars 9 d with Some (d9, _) => d9 | None => d end in
            (Z.of_N (dec_value 0 d9) * 10 ^ (9 - Z.of_nat (String.length d9)), r)
        end
      else (0, s)
  | "" => (0, s)
  end%string.

(** The offset from UTC in seconds. *)
Definition parse_zone (s : string) : option Z :=
  match s with
  | "Z" => Some 0
  | String c r =>
      '(h, r) ← parse_field 2 0 23 r;
      r ← strip ":" r;
      '(m, r) ← parse_field 2 0 59 r;
      match r with
      | "" =>
          if is_char 43 c then Some (h * 3600 + m * 60)
          else if is_char 45 c then Some (- (h * 3600 + m * 60))
          else None
      | _ => None
      end
  | "" => None
  end%string.

Definition parse_time (s : string) : option Time :=
  '(y, s) ← parse_field 4 0 9999 s;
  s ← strip "-" s;
  '(m, s) ← parse_field 2 1 12 s;
  s ← strip "-" s;
  len ← month_lengths y !! Z.to_nat (m - 1);
  '(d, s) ← parse_field 2 1 len s;
  s ← strip "T" s;
  '(hh, s) ← parse_field 2 0 23 s;
  s ← strip ":" s;
  '(mm, s) ← parse_field 2 0 59 s;
  s ← strip ":" s;
  '(ss, s) ← parse_field 2 0 59 s;
  let '(ns, s) := parse_fraction s in
  off ← parse_zone s;
  Some ((days_of_date y m d * 86400 + hh * 3600 + mm * 60 + ss - off) * nanos + ns).

Example parse_offset : parse_time "2026-06-17T14:30:00.25+02:30" =
  parse_time "2026-06-17T12:00:00.250Z".
Proof. vm_compute. reflexivity. Qed.

(** ** The calendar round-trips *)

Lemma days_before_cycles a b c e :
  0 ≤ b ≤ 3 → 0 ≤ c ≤ 24 → 0 ≤ e ≤ 3 →
  days_before_year (1 + 400 * a + 100 * b + 4 * c + e) =
  146097 * a + 36524 * b + 1461 * c + 365 * e.
Proof.
  intros Hb Hc He. unfold days_before_year.
  replace (1 + 400 * a + 100 * b + 4 * c + e - 1) with (400 * a + 100 * b + 4 * c + e) by lia.
  rewrite <-(Z.div_unique (400 * a + 100 * b + 4 * c + e) 4 (100 * a + 25 * b + c) e) by lia.
  rewrite <-(Z.div_unique (400 * a + 100 * b + 4 * c + e) 100 (4 * a + b) (4 * c + e)) by lia.
  rewrite <-(Z.div_unique (400 * a + 100 * b + 4 * c + e) 400 a (100 * b + 4 * c + e)) by lia.
  lia.
Qed.

Lemma is_leap_cycles a b c e :
  0 ≤ b ≤ 3 → 0 ≤ c ≤ 24 → 0 ≤ e ≤ 3 →
  is_leap (1 + 400 * a + 100 * b + 4 * c + e) = (e =? 3) && (negb (c =? 24) || (b =? 3)).
Proof.
  intros Hb Hc He. unfold is_leap.
  set (y := 1 + 400 * a + 100 * b + 4 * c + e).
  assert (y mod 4 = (1 + e) mod 4) as ->.
  { replace y with (1 + e + (100 * a + 25 * b + c) * 4) by (subst y; lia). apply Z.mod_add. lia. }
  assert (y mod 100 = (1 + 4 * c + e) mod 100) as ->.
  { replace y with (1 + 4 * c + e + (4 * a + b) * 100) by (subst y; lia). apply Z.mod_add. lia. }
  assert (y mod 400 = (1 + 100 * b + 4 * c + e) mod 400) as ->.
  { replace y with (1 + 100 * b + 4 * c + e + a * 400) by (subst y; lia). apply Z.mod_add. lia. }
  assert (e = 0 ∨ e = 1 ∨ e = 2 ∨ e = 3) as [-> | [-> | [-> | ->]]] by lia; [done..|].
  change ((1 + 3) mod 4) with 0.
  destruct (Z.eqb_spec c 24) as [->|Hc24].
  - change ((1 + 4 * 24 + 3) mod 100) with 0.
    assert (b = 0 ∨ b = 1 ∨ b = 2 ∨ b = 3) as [-> | [-> | [-> | ->]]] by lia; done.
  - rewrite (Z.mod_small (1 + 4 * c + 3) 100) by lia.
    destruct (Z.eqb_spec (1 + 4 * c + 3) 0); [lia|done].
Qed.

Lemma year_day_cycles d y yday :
  year_day d = (y, yday) → ∃ a b c e,
    0 ≤ b ≤ 3 ∧ 0 ≤ c ≤ 24 ∧ 0 ≤ e ≤ 3 ∧ 0 ≤ yday ≤ 365 ∧
    (yday = 365 → e = 3 ∧ (c = 24 → b = 3)) ∧
    y = 1 + 400 * a + 100 * b + 4 * c + e ∧
    d = 146097 * a + 36524 * b + 1461 * c + 365 * e + yday.
Proof.
  unfold year_day. set (a := d / 146097). set (d1 := d mod 146097).
  assert (Hd : d = 146097 * a + d1) by (apply Z.div_mod; lia).
  assert (Hd1 : 0 ≤ d1 < 146097) by (apply Z.mod_pos_bound; lia).
  clearbody a d1. set (b := Z.min 3 (d1 / 36524)).
  assert (Hb : 0 ≤ b ≤ 3 ∧ 0 ≤ d1 - b * 36524 ≤ 36524 ∧ (b < 3 → d1 - b * 36524 < 36524)).
  { pose proof (Z.div_mod d1 36524). pose proof (Z.mod_pos_bound d1 36524).
    pose proof (Z.div_pos d1 36524). subst b. lia. }
  clearbody b. set (d2 := d1 - b * 36524) in *. assert (d1 = d2 + b * 36524) by lia.
  clearbody d2. set (c := d2 / 1461).
  assert (Hc : 0 ≤ c ≤ 24 ∧ 0 ≤ d2 - c * 1461 < 1461).
  { pose proof (Z.div_mod d2 1461). pose proof (Z.mod_pos_bound d2 1461).
    pose proof (Z.div_pos d2 1461). subst c. lia. }
  clearbody c. set (d3 := d2 - c * 1461) in *. assert (d2 = d3 + c * 1461) by lia.
  clearbody d3. set (e := Z.min 3 (d3 / 365)).
  assert (He : 0 ≤ e ≤ 3 ∧ 0 ≤ d3 - e * 365 ≤ 365 ∧ (e < 3 → d3 - e * 365 < 365)).
  { pose proof (Z.div_mod d3 365). pose proof (Z.mod_pos_bound d3 365).
    pose proof (Z.div_pos d3 365). subst e. lia. }
  clearbody e. intros [= <- <-]. exists a, b, c, e. split_and!; lia.
Qed.

Lemma year_day_spec d y yday :
  year_day d = (y, yday) →
  days_before_year y + yday = d ∧ 0 ≤ yday < total (month_lengths y).
Proof.
  intros (a & b & c & e & Hb & Hc & He & Hyd & Hlast & -> & ->)%year_day_cycles.
  rewrite days_before_cycles by lia. split; [lia|].
  unfold month_lengths. rewrite is_leap_cycles by lia.
  destruct (Z.eqb_spec e 3), (Z.eqb_spec c 24), (Z.eqb_spec b 3);
    cbn [andb orb negb total foldr]; lia.
Qed.

Lemma month_day_spec lens m yday m' d :
  0 ≤ yday < total lens → month_day lens m yday = (m', d) →
  ∃ i len, lens !! i = Some len ∧ m' = m + Z.of_nat i ∧ 1 ≤ d ≤ len ∧
    total (take i lens) + (d - 1) = yday.
Proof.
  revert m yday. induction lens as [|l lens IH]; intros m yday Hy; [simpl in Hy; lia|].
  cbn [month_day]. destruct (Z.ltb_spec yday l) as [Hl|Hl].
  - intros [= <- <-]. exists 0%nat, l. simpl. split_and!; try done; lia.
  - intros Hm. apply IH in Hm as (i & len & Hi & -> & Hd & Ht); [|simpl in Hy; lia].
    exists (S i), len. split_and!; try done; try lia. cbn [take total foldr].
    unfold total in Ht. lia.
Qed.

Lemma date_roundtrip day y yday m d :
  year_day day = (y, yday) → month_day (month_lengths y) 1 yday = (m, d) →
  days_of_date y m d = day ∧ 1 ≤ m ≤ 12 ∧
  ∃ len, month_lengths y !! Z.to_nat (m - 1) = Some len ∧ 1 ≤ d ≤ len ∧ len ≤ 31.
Proof.
  intros [Hy Hr]%year_day_spec Hm. apply month_day_spec in Hm as (i & len & Hi & -> & Hd & Ht); [|done].
  pose proof (lookup_lt_Some _ _ _ Hi) as Hlt. change (length (month_lengths y)) with 12%nat in Hlt.
  unfold days_of_date. replace (Z.to_nat (1 + Z.of_nat i - 1)) with i by lia.
  split; [lia|]. split; [lia|]. exists len. split_and!; try done; try lia.
  assert (Hall : Forall (λ l, l ≤ 31) (month_lengths y)).
  { unfold month_lengths. destruct (is_leap y); repeat constructor; lia. }
  by eapply (Forall_lookup_1 (λ l, l ≤ 31)).
Qed.

(** ** Fields round-trip *)

Lemma dec_value_app acc s1 s2 : dec_value acc (s1 +:+ s2) = dec_value (dec_value acc s1) s2.
Proof. revert acc. induction s1 as [|c s1 IH]; intros acc; [done|]. apply IH. Qed.

Lemma digit_char n : 0 ≤ n < 10 →
  is_digit (chr (48 + Z.to_N n)) = true ∧ digit_value (chr (48 + Z.to_N n)) = Z.to_N n.
Proof.
  intros Hn. assert (code (chr (48 + Z.to_N n)) = 48 + Z.to_N n)%N as Hc
    by (apply N_ascii_embedding; lia).
  unfold is_digit, between, digit_value. unfold code in Hc. unfold code. rewrite Hc. lia.
Qed.

Lemma digits_ok k n : 0 ≤ n →
  all_chars is_digit (digits k n) = true ∧ String.length (digits k n) = k.
Proof.
  revert n. induction k as [|k IH]; intros n Hn; [done|]. cbn [digits].
  destruct (IH (n / 10)) as [Ha Hl]; [by apply Z.div_pos|].
  destruct (digit_char (n mod 10)) as [Hd _]; [by apply Z.mod_pos_bound|].
  rewrite all_chars_app, Ha, length_app_s, Hl. cbn. rewrite Hd. split; [done|lia].
Qed.

Lemma digits_value k n : 0 ≤ n < 10 ^ Z.of_nat k → dec_value 0 (digits k n) = Z.to_N n.
Proof.
  revert n. induction k as [|k IH]; intros n Hn.
  { change (10 ^ Z.of_nat 0) with 1 in Hn. by replace n with 0 by lia. }
  replace (10 ^ Z.of_nat (S k)) with (10 * 10 ^ Z.of_nat k) in Hn
    by (rewrite Nat2Z.inj_succ, Z.pow_succ_r; lia).
  pose proof (Z.div_mod n 10). pose proof (Z.mod_pos_bound n 10).
  cbn [digits]. rewrite dec_value_app, IH by lia. cbn [dec_value].
  destruct (digit_char (n mod 10)) as [_ Hd]; [lia|]. rewrite Hd. lia.
Qed.

Lemma take_chars_app s r : take_chars (String.length s) (s +:+ r) = Some (s, r).
Proof. induction s as [|c s IH]; [done|]. rewrite string_app_cons. cbn. by rewrite IH. Qed.

Lemma parse_field_digits k lo hi n r :
  0 ≤ n < 10 ^ Z.of_nat k → lo ≤ n ≤ hi → parse_field k lo hi (digits k n +:+ r) = Some (n, r).
Proof.
  intros Hn Hb. destruct (digits_ok k n) as [Ha Hl]; [lia|].
  unfold parse_field. rewrite <-Hl at 1. rewrite take_chars_app. cbn [mbind option_bind].
  rewrite Ha, digits_value, Z2N.id by lia.
  destruct (Z.leb_spec lo n), (Z.leb_spec n hi); try lia. done.
Qed.

Lemma fraction_spec k n : 0 ≤ n < 10 ^ Z.of_nat k →
  all_chars is_digit (fraction k n) = true ∧ (String.length (fraction k n) ≤ k)%nat ∧
  Z.of_N (dec_value 0 (fraction k n)) * 10 ^ (Z.of_nat k - Z.of_nat (String.length (fraction k n))) = n.
Proof.
  revert n. induction k as [|k IH]; intros n Hn.
  { change (10 ^ Z.of_nat 0) with 1 in Hn. replace n with 0 by lia. done. }
  destruct (digits_ok (S k) n) as [Ha Hl]; [lia|]. pose proof (digits_value (S k) n Hn) as Hv.
  cbn [fraction]. destruct (Z.eqb_spec (n mod 10) 0) as [Hz|Hz].
  - replace (10 ^ Z.of_nat (S k)) with (10 * 10 ^ Z.of_nat k) in Hn
      by (rewrite Nat2Z.inj_succ, Z.pow_succ_r; lia).
    pose proof (Z.div_mod n 10). pose proof (Z.mod_pos_bound n 10).
    destruct (IH (n / 10)) as (H1 & H2 & H3); [lia|]. split_and!; [done|lia|].
    set (f := fraction k (n / 10)) in *.
    replace (Z.of_nat (S k) - Z.of_nat (String.length f))
      with (Z.succ (Z.of_nat k - Z.of_nat (String.length f))) by lia.
    rewrite Z.pow_succ_r by lia. lia.
  - rewrite Ha, Hl, Hv. split_and!; [done|lia|]. rewrite Z.sub_diag, Z2N.id by lia. lia.
Qed.

Lemma take_chars_short k s : (String.length s < k)%nat → take_chars k s = None.
Proof.
  revert k. induction s as [|c s IH]; intros [|k] Hk; simpl in *; try done; try lia.
  by rewrite IH by lia.
Qed.

Lemma parse_fraction_print ns : 0 ≤ ns < nanos →
  parse_fraction ((if bool_decide (fraction 9 ns = "") then "" else "." +:+ fraction 9 ns) +:+ "Z")
  = (ns, "Z").
Proof.
  intros Hn. destruct (fraction_spec 9 ns Hn) as (Ha & Hl & Hv).
  set (f := fraction 9 ns) in *. clearbody f. case_bool_decide as Hf.
  - subst f. cbn in Hv. by subst ns.
  - rewrite string_app_assoc. change ("." +:+ (f +:+ "Z")) with (String "." (f +:+ "Z")).
    cbn [parse_fraction]. change (is_char 46 ".") with true. cbn iota.
    rewrite take_digits_app by (by rewrite ?Ha).
    assert ((match take_chars 9 f with Some (d9, _) => d9 | None => f end) = f) as Hd9.
    { destruct (decide (String.length f = 9%nat)) as [H9|H9].
      - pose proof (take_chars_app f "") as Hx. rewrite app_nil_s, H9 in Hx. by rewrite Hx.
      - by rewrite take_chars_short by lia. }
    rewrite Hd9. destruct f as [|c f]; [done|]. f_equal. exact Hv.
Qed.

(** What [MarshalJSON] writes, [UnmarshalJSON] reads back. *)
Lemma parse_format_time t s : format_time t = Some s → parse_time s = Some t.
Proof.
  unfold format_time. set (ns := t mod nanos). set (sec := t / nanos).
  set (clock := sec mod 86400). set (day := sec / 86400).
  assert (Ht : t = sec * nanos + ns) by (subst ns sec; rewrite Z.mul_comm; apply Z.div_mod; done).
  assert (Hns : 0 ≤ ns < nanos) by (by apply Z.mod_pos_bound).
  assert (Hsec : sec = day * 86400 + clock) by (subst day clock; rewrite Z.mul_comm; by apply Z.div_mod).
  assert (Hclock : 0 ≤ clock < 86400) by (by apply Z.mod_pos_bound).
  destruct (year_day day) as [y yday] eqn:Hy.
  destruct (month_day (month_lengths y) 1 yday) as [m d] eqn:Hm.
  destruct (date_roundtrip _ _ _ _ _ Hy Hm) as (Hday & Hm12 & len & Hlen & Hd & Hl31).
  destruct (Z.leb_spec 0 y), (Z.leb_spec y 9999); cbn [andb]; try done.
  intros Hs%(inj Some). subst s.
  clearbody ns sec clock day. unfold parse_time.
  pose proof (Z.div_mod clock 3600). pose proof (Z.mod_pos_bound clock 3600).
  pose proof (Z.div_mod clock 60). pose proof (Z.mod_pos_bound clock 60).
  pose proof (Z.div_mod (clock / 60) 60). pose proof (Z.mod_pos_bound (clock / 60) 60).
  assert (clock / 60 / 60 = clock / 3600) by (by rewrite Z.div_div).
  repeat first
    [ rewrite parse_field_digits by (change (10 ^ Z.of_nat 4) with 10000 || change (10 ^ Z.of_nat 2) with 100 || idtac; lia)
    | rewrite (strip_app "-") | rewrite (strip_app "T") | rewrite (strip_app ":")
    | rewrite Hlen | progress cbn [mbind option_bind] ].
  rewrite parse_fraction_print by done. cbn. f_equal. rewrite Hday. lia.
Qed.

(** Every instant of the years 1 to 9999 can be written. *)
Definition time_ok (t : Time) : bool := (0 <=? t) && (t <? days_before_year 10000 * 86400 * nanos).

Lemma format_time_total t : time_ok t → ∃ s, format_time t = Some s.
Proof.
  unfold time_ok. intros [H0%Is_true_true H1%Is_true_true]%andb_True.
  change (days_before_year 10000) with 3652059 in H1.
  unfold format_time. set (sec := t / nanos).
  assert (0 ≤ sec < 3652059 * 86400).
  { subst sec. split; [apply Z.div_pos; unfold nanos in *; lia|].
    apply Z.div_lt_upper_bound; unfold nanos in *; lia. }
  set (day := sec / 86400).
  assert (0 ≤ day < 3652059).
  { subst day. split; [by apply Z.div_pos; lia|]. apply Z.div_lt_upper_bound; lia. }
  destruct (year_day day) as [y yday] eqn:Hy.
  destruct (month_day (month_lengths y) 1 yday) as [m d].
  apply year_day_cycles in Hy as (a & b & c & e & Hb & Hc & He & Hyd & Hlast & -> & Hday).
  assert (0 ≤ a ≤ 24) by lia.
  destruct (Z.leb_spec 0 (1 + 400 * a + 100 * b + 4 * c + e)); [|lia].
  destruct (Z.leb_spec (1 + 400 * a + 100 * b + 4 * c + e) 9999); [|lia].
  by eexists.
Qed.

Lemma digits_ascii k n : 0 ≤ n → utf8_ok (digits k n).
Proof.
  intros Hn. apply ascii_utf8_ok. destruct (digits_ok k n Hn) as [Ha _].
  eapply all_chars_impl; [|by rewrite Ha].
  intros c. rewrite !Is_true_true. unfold is_digit, between, is_rune1. lia.
Qed.

Lemma fraction_ascii k n : 0 ≤ n < 10 ^ Z.of_nat k → utf8_ok (fraction k n).
Proof.
  intros Hn. apply ascii_utf8_ok. destruct (fraction_spec k n Hn) as [Ha _].
  eapply all_chars_impl; [|by rewrite Ha].
  intros c. rewrite !Is_true_true. unfold is_digit, between, is_rune1. lia.
Qed.

Lemma format_time_utf8 t s : format_time t = Some s → utf8_ok s.
Proof.
  unfold format_time. set (clock := t / nanos mod 86400).
  assert (Hns : 0 ≤ t mod nanos < 10 ^ Z.of_nat 9) by (by apply Z.mod_pos_bound).
  assert (Hclock : 0 ≤ clock < 86400) by (by apply Z.mod_pos_bound). clearbody clock.
  destruct (year_day _) as [y yday] eqn:Hy.
  destruct (month_day _ _ _) as [m d] eqn:Hm.
  destruct (date_roundtrip _ _ _ _ _ Hy Hm) as (_ & Hm12 & len & _ & Hd & _).
  destruct (Z.leb_spec 0 y), (Z.leb_spec y 9999); cbn [andb]; try done.
  intros Hs%(inj Some). subst s.
  repeat lazymatch goal with
  | |- Is_true (utf8_ok (digits _ _)) => apply digits_ascii; try lia
  | |- Is_true (utf8_ok (_ +:+ _)) => apply utf8_ok_app; try done
  end.
  - apply Z.div_pos; lia.
  - by apply Z.mod_pos_bound.
  - by apply Z.mod_pos_bound.
  - case_bool_decide; [done|]. apply utf8_ok_app; [done|]. by apply fraction_ascii.
Qed.
