(* ===== verification/Codec.v ===== *)
(** * Records as JSON: [json.Marshal] and [json.Unmarshal] on the program's types.

    A [Codec] is what reflection derives for a Go type: the zero value, the
    encoder (which fails only where a [MarshalJSON] method does, on times
    outside the years 0 to 9999) and the decoder, which updates a value.  A
    struct is the list of its exported fields in order.  Decoding follows
    encoding/json: an exact field name before one that differs in ASCII case,
    unknown members skipped, null leaving a scalar and clearing a slice or a
    map, integers only where the literal is one and fits.  The named string
    types (node, replica and task states) accept the constants the program
    declares. *)

From Stdlib Require Import Ascii ZifyBool.
From S2P Require Import Prelude Metadata Replication Names Utf8 Json Times.
From stdpp Require Import options.

Record Codec (A : Type) := {
  c_zero : A;
  c_enc : A → option JValue;
  c_dec : A → JValue → option A
}.
Arguments c_zero {A}.
Arguments c_enc {A}.
Arguments c_dec {A}.

Definition json_Marshal {A} (c : Codec A) (x : A) : option string := Marshal <$> c_enc c x.
Definition json_Unmarshal {A} (c : Codec A) (s : string) : option A :=
  v ← Unmarshal s; c_dec c (c_zero c) v.

(** ** Scalars *)

Definition c_string : Codec string := {|
  c_zero := "";
  c_enc s := Some (JStr s);
  c_dec cur v := match v with JNull => Some cur | JStr s => Some s | _ => None end
|}.

Definition c_bool : Codec bool := {|
  c_zero := false;
  c_enc b := Some (JBool b);
  c_dec cur v := match v with JNull => Some cur | JBool b => Some b | _ => None end
|}.

(** [strconv.ParseInt] and [strconv.ParseUint] on a number literal. *)
Definition literal_value (lit : string) : Z :=
  match lit with
  | String c r =>
      if is_char 45 c then (- Z.of_N (dec_value 0 r))%Z else Z.of_N (dec_value 0 lit)
  | "" => 0%Z
  end%string.
Definition parse_int64 (lit : string) : option Z :=
  let z := literal_value lit in
  if int_literal lit && (- 2 ^ 63 <=? z)%Z && (z <? 2 ^ 63)%Z then Some z else None.
Definition parse_uint64 (lit : string) : option Z :=
  let z := literal_value lit in
  if nat_literal lit && (z <? 2 ^ 64)%Z then Some z else None.

Definition c_number (parse : string → option Z) : Codec Z := {|
  c_zero := 0%Z;
  c_enc z := Some (JNum (pretty z));
  c_dec cur v := match v with JNull => Some cur | JNum lit => parse lit | _ => None end
|}.
Definition c_int64 : Codec Z := c_number parse_int64.
Definition c_uint64 : Codec Z := c_number parse_uint64.

Definition c_time : Codec Time := {|
  c_zero := zero_time;
  c_enc t := JStr <$> format_time t;
  c_dec cur v := match v with JNull => Some cur | JStr s => parse_time s | _ => None end
|}.

(** A named string type with declared constants. *)
Definition c_enum {A} (zero : A) (name : A → string) (of_name : string → option A) : Codec A := {|
  c_zero := zero;
  c_enc x := Some (JStr (name x));
  c_dec cur v := match v with JNull => Some cur | JStr s => of_name s | _ => None end
|}.

(** ** Slices and maps *)

Definition c_list {A} (c : Codec A) : Codec (list A) := {|
  c_zero := [];
  c_enc xs := JArr <$> mapM (c_enc c) xs;
  c_dec cur v :=
    match v with
    | JNull => Some []
    | JArr vs => mapM (c_dec c (c_zero c)) vs
    | _ => None
    end
|}.

(** The keys of a map are written in order. *)
Definition c_map {A} (c : Codec A) : Codec (gmap string A) := {|
  c_zero := ∅;
  c_enc m :=
    JObj <$> mapM (λ kx, v ← c_enc c kx.2; Some (kx.1, v)) (sort_by fst (map_to_list m));
  c_dec cur v :=
    match v with
    | JNull => Some ∅
    | JObj ms =>
        foldl (λ acc kv, m ← acc; x ← c_dec c (c_zero c) kv.2; Some (<[kv.1 := x]> m))
          (Some cur) ms
    | _ => None
    end
|}.

(** ** Structs *)

Record Field (R : Type) := {
  f_name : string;
  f_enc : R → option JValue;
  f_dec : JValue → R → option R
}.
Arguments f_name {R}.
Arguments f_enc {R}.
Arguments f_dec {R}.

Definition field {R A} (name : string) (c : Codec A) (get : R → A) (set : A → R → R) : Field R := {|
  f_name := name;
  f_enc r := c_enc c (get r);
  f_dec v r := a ← c_dec c (get r) v; Some (set a r)
|}.

Definition lower (c : ascii) : ascii := if between 65 90 c then chr (code c + 32) else c.
Fixpoint fold_name (s : string) : string :=
  match s with
  | "" => ""
  | String c s => String (lower c) (fold_name s)
  end%string.

Fixpoint find_field {R} (same : string → bool) (fs : list (Field R)) : option (Field R) :=
  match fs with
  | [] => None
  | f :: fs => if same (f_name f) then Some f else find_field same fs
  end.

Definition field_for {R} (fs : list (Field R)) (k : string) : option (Field R) :=
  match find_field (λ n, bool_decide (n = k)) fs with
  | Some f => Some f
  | None => find_field (λ n, bool_decide (fold_name n = fold_name k)) fs
  end.

Definition c_struct {R} (zero : R) (fs : list (Field R)) : Codec R := {|
  c_zero := zero;
  c_enc r := JObj <$> mapM (λ f, v ← f_enc f r; Some (f_name f, v)) fs;
  c_dec cur v :=
    match v with
    | JNull => Some cur
    | JObj ms =>
        foldl (λ acc kv, r ← acc;
                 match field_for fs kv.1 with Some f => f_dec f kv.2 r | None => Some r end)
          (Some cur) ms
    | _ => None
    end
|}.

(** ** Values that survive *)

(** [x] is written as a tree of at most [d] levels that reads back as [x]. *)
Definition survives {A} (c : Codec A) (d : N) (x : A) : Prop :=
  ∃ v, c_enc c x = Some v ∧ jvalid v ∧ (jdepth v ≤ d)%N ∧ c_dec c (c_zero c) v = Some x.

Lemma survives_roundtrip {A} (c : Codec A) d x :
  survives c d x → (d ≤ maxNestingDepth)%N →
  ∃ s, json_Marshal c x = Some s ∧ json_Unmarshal c s = Some x.
Proof.
  intros (v & He & Hv & Hd & Hdec) Hle. exists (Marshal v). unfold json_Marshal, json_Unmarshal.
  rewrite He. split; [done|]. rewrite Unmarshal_Marshal by (done || lia). done.
Qed.

Lemma survives_string s : utf8_ok s → survives c_string 0 s.
Proof. intros Hs. by exists (JStr s). Qed.

Lemma survives_bool b : survives c_bool 0 b.
Proof. by exists (JBool b). Qed.

Lemma pretty_digit x : (x < 10)%N → is_digit (pretty_N_char x) ∧ (x ≠ 0%N → is_digit19 (pretty_N_char x)).
Proof.
  intros Hx. assert (x = 0 ∨ x = 1 ∨ x = 2 ∨ x = 3 ∨ x = 4 ∨ x = 5 ∨ x = 6 ∨ x = 7
    ∨ x = 8 ∨ x = 9)%N by lia. naive_solver.
Qed.

Lemma digit19_not_0 c : is_digit19 c → is_char 48 c = false.
Proof. rewrite Is_true_true. unfold is_digit19, between, is_char. lia. Qed.

Lemma nat_literal_go x s :
  x ≠ 0%N → all_chars is_digit s → nat_literal (pretty_N_go x s).
Proof.
  revert s. induction (N.lt_wf_0 x) as [x _ IH]; intros s Hx Hs.
  rewrite pretty_N_go_step by lia.
  destruct (pretty_digit (x mod 10)) as [Hd Hd19]; [apply N.mod_lt; lia|].
  destruct (decide (x / 10 = 0)%N) as [Hq|Hq].
  - rewrite Hq, pretty_N_go_0. cbn.
    assert (x mod 10 ≠ 0)%N as H19%Hd19 by (pose proof (N.div_mod x 10); lia).
    rewrite digit19_not_0 by done. by apply andb_True.
  - apply IH; [apply N.div_lt; lia|done|]. cbn. by apply andb_True.
Qed.

Lemma nat_literal_pretty (n : N) : nat_literal (pretty n).
Proof. unfold pretty, pretty_N. case_decide; [done|]. by apply nat_literal_go. Qed.

Lemma literal_value_nat s : nat_literal s → int_literal s ∧ literal_value s = Z.of_N (dec_value 0 s).
Proof.
  intros Hs. destruct s as [|c r]; [done|]. pose proof (nat_literal_sign c r Hs) as Hc.
  unfold int_literal, literal_value. by rewrite Hc.
Qed.

Lemma pretty_literal (z : Z) : int_literal (pretty z) ∧ literal_value (pretty z) = z.
Proof.
  destruct (decide (0 ≤ z)%Z) as [Hz|Hz].
  - rewrite pretty_nonneg by done.
    destruct (literal_value_nat _ (nat_literal_pretty (Z.to_N z))) as [H1 H2].
    rewrite H2, dec_value_pretty. split; [done|lia].
  - destruct z as [|p|p]; [lia|lia|].
    change (pretty (Zneg p)) with (String "-" (pretty (Npos p))). split.
    + apply (nat_literal_pretty (Npos p)).
    + cbn. by rewrite dec_value_pretty.
Qed.

(** The characters of numbers. *)
Lemma nat_literal_chars (P : ascii → bool) s :
  (∀ c, is_digit c → P c) → nat_literal s → all_chars P s.
Proof.
  intros HP. destruct s as [|c s]; [done|]. cbn. destruct (is_char 48 c) eqn:Hc.
  - intros ->%bool_decide_unpack. apply andb_True. split; [|done]. apply HP.
    unfold is_char in Hc. unfold is_digit, between. apply Is_true_true. lia.
  - intros [Hd Hs]%andb_True. apply andb_True. split; [|by eapply all_chars_impl, Hs; apply HP].
    apply HP. revert Hd. rewrite !Is_true_true. unfold is_digit, is_digit19, between. lia.
Qed.

Lemma pretty_chars (P : ascii → bool) (z : Z) :
  (∀ c, is_digit c → P c) → P "-"%char → all_chars P (pretty z).
Proof.
  intros HP Hm. destruct (pretty_literal z) as [Hl _].
  destruct (pretty z) as [|c s]; [done|]. cbn [int_literal] in Hl.
  destruct (is_char 45 c) eqn:Hc; [|by apply nat_literal_chars].
  apply andb_True. split; [|by apply nat_literal_chars].
  assert (c = "-"%char) as ->; [|done]. apply code_inj. unfold is_char in Hc. by apply N.eqb_eq.
Qed.

Lemma survives_int64 z : in_s64 z → survives c_int64 0 z.
Proof.
  intros Hz. destruct (pretty_literal z) as [H1 H2]. exists (JNum (pretty z)). split_and!; try done.
  cbn. unfold parse_int64. rewrite H2. apply Is_true_true in H1. rewrite H1.
  unfold in_s64 in Hz. by rewrite (proj2 (Z.leb_le _ _)), (proj2 (Z.ltb_lt _ _)) by lia.
Qed.

Lemma survives_uint64 z : in_u64 z → survives c_uint64 0 z.
Proof.
  intros Hz. unfold in_u64 in Hz. destruct (pretty_literal z) as [H1 H2].
  exists (JNum (pretty z)). split_and!; try done. cbn. unfold parse_uint64. rewrite H2.
  pose proof (nat_literal_pretty (Z.to_N z)) as H3. rewrite <-pretty_nonneg in H3 by lia.
  apply Is_true_true in H3. rewrite H3. by rewrite (proj2 (Z.ltb_lt _ _)) by lia.
Qed.

Lemma survives_time t : time_ok t → survives c_time 0 t.
Proof.
  intros (s & Hs)%format_time_total. exists (JStr s). cbn [c_enc c_dec c_zero c_time].
  rewrite Hs. split_and!; try done.
  - by eapply format_time_utf8.
  - by apply parse_format_time.
Qed.

Lemma survives_enum {A} (zero : A) name of_name x :
  utf8_ok (name x) → of_name (name x) = Some x → survives (c_enum zero name of_name) 0 x.
Proof. intros Hu Hx. by exists (JStr (name x)). Qed.

Lemma mapM_survives {A} (c : Codec A) d xs :
  Forall (survives c d) xs → ∃ vs, mapM (c_enc c) xs = Some vs ∧ forallb jvalid vs ∧
    (foldr N.max 0 (List.map jdepth vs) ≤ d)%N ∧ mapM (c_dec c (c_zero c)) vs = Some xs.
Proof.
  induction 1 as [|x xs (v & He & Hv & Hd & Hx) _ (vs & Hm & Hvs & Hds & Hxs)].
  { exists []. split_and!; try done. cbn. lia. }
  exists (v :: vs). cbn. rewrite He. cbn. rewrite Hm. cbn. rewrite Hx. cbn. rewrite Hxs.
  split_and!; try done; lia.
Qed.

Lemma survives_list {A} (c : Codec A) d xs :
  Forall (survives c d) xs → survives (c_list c) (1 + d) xs.
Proof.
  intros (vs & Hm & Hv & Hd & Hx)%mapM_survives. exists (JArr vs). cbn [c_list c_enc c_dec].
  rewrite Hm. split_and!; try done. cbn [jdepth]. lia.
Qed.

Lemma foldl_insert_union {A} (l : list (string * A)) (m : gmap string A) :
  NoDup l.*1 → foldl (λ m kx, <[kx.1 := kx.2]> m) m l = list_to_map l ∪ m.
Proof.
  revert m. induction l as [|[k x] l IH]; intros m Hnd; cbn; [by rewrite map_empty_union|].
  apply NoDup_cons in Hnd as [Hk Hnd]. rewrite IH by done.
  rewrite <-insert_union_l, insert_union_r; [done|]. by apply not_elem_of_list_to_map_1.
Qed.

Lemma foldl_dec {A} (c : Codec A) d (l : list (string * A)) (m : gmap string A) :
  Forall (λ kx, utf8_ok kx.1 ∧ survives c d kx.2) l → ∃ ms,
    mapM (λ kx, v ← c_enc c kx.2; Some (kx.1, v)) l = Some ms ∧
    forallb (λ m, utf8_ok m.1 && jvalid m.2) ms ∧
    (foldr N.max 0 (List.map (λ m, jdepth m.2) ms) ≤ d)%N ∧
    foldl (λ acc kv, m ← acc; x ← c_dec c (c_zero c) kv.2; Some (<[kv.1 := x]> m)) (Some m) ms =
    Some (foldl (λ m kx, <[kx.1 := kx.2]> m) m l).
Proof.
  intros Hl. revert m.
  induction Hl as [|[k x] l [Hk (v & He & Hv & Hd & Hx)] _ IH]; intros m.
  { exists []. split_and!; try done. cbn. lia. }
  destruct (IH (<[k := x]> m)) as (ms & Hm & Hvs & Hds & Hxs).
  exists ((k, v) :: ms). cbn in *. rewrite He. cbn. rewrite Hm. cbn. rewrite Hx. cbn.
  split_and!; try done; lia.
Qed.

Lemma survives_map {A} (c : Codec A) d (m : gmap string A) :
  map_Forall (λ k x, utf8_ok k ∧ survives c d x) m → survives (c_map c) (1 + d) m.
Proof.
  intros Hm. assert (Hl : Forall (λ kx, utf8_ok kx.1 ∧ survives c d kx.2)
    (sort_by fst (map_to_list m))).
  { apply Forall_forall. intros [k x] Hk%elem_of_sort_by%elem_of_map_to_list. by apply (Hm k x). }
  apply (foldl_dec _ _ _ ∅) in Hl as (ms & He & Hv & Hd & Hx).
  exists (JObj ms). cbn [c_map c_enc c_dec c_zero]. rewrite He. split_and!; try done.
  { cbn [jdepth]. lia. }
  rewrite Hx, foldl_insert_union, map_union_empty
    by (apply sort_by_NoDup, NoDup_fst_map_to_list).
  f_equal. rewrite <-(list_to_map_to_list m) at 2.
  apply list_to_map_proper; [apply sort_by_NoDup, NoDup_fst_map_to_list|apply sort_by_Permutation].
Qed.

(** The fields [fs] of [x] survive, read one after the other into [cur]. *)
Fixpoint fields_survive {R} (d : N) (x : R) (fs : list (Field R)) (cur : R) : Prop :=
  match fs with
  | [] => cur = x
  | f :: fs => ∃ v cur', f_enc f x = Some v ∧ jvalid v ∧ (jdepth v ≤ d)%N ∧
      f_dec f v cur = Some cur' ∧ fields_survive d x fs cur'
  end.

Lemma fields_survive_cons {R A} name (c : Codec A) (get : R → A) set d d' fs x cur :
  survives c d' (get x) → (d' ≤ d)%N → get cur = c_zero c →
  fields_survive d x fs (set (get x) cur) →
  fields_survive d x (field name c get set :: fs) cur.
Proof.
  intros (v & He & Hv & Hd & Hx) Hle Hcur Hfs. exists v, (set (get x) cur). cbn.
  rewrite Hcur, Hx. split_and!; try done. lia.
Qed.

Lemma find_field_exact {R} (fs : list (Field R)) f :
  NoDup (f_name <$> fs) → f ∈ fs → field_for fs (f_name f) = Some f.
Proof.
  intros Hnd Hf. unfold field_for.
  assert (find_field (λ n, bool_decide (n = f_name f)) fs = Some f) as ->; [|done].
  induction fs as [|g fs IH]; [by apply elem_of_nil in Hf|]. cbn.
  apply NoDup_cons in Hnd as [Hg Hnd]. apply elem_of_cons in Hf as [->|Hf].
  - by rewrite bool_decide_eq_true_2.
  - rewrite bool_decide_eq_false_2 by (intros E; apply Hg; rewrite E; by apply list_elem_of_fmap_2).
    by apply IH.
Qed.

Lemma fields_survive_fold {R} (all fs : list (Field R)) d x cur :
  NoDup (f_name <$> all) → (∀ f, f ∈ fs → f ∈ all ∧ utf8_ok (f_name f)) →
  fields_survive d x fs cur → ∃ ms,
    mapM (λ f, v ← f_enc f x; Some (f_name f, v)) fs = Some ms ∧
    forallb (λ m, utf8_ok m.1 && jvalid m.2) ms ∧
    (foldr N.max 0 (List.map (λ m, jdepth m.2) ms) ≤ d)%N ∧
    foldl (λ acc kv, r ← acc;
             match field_for all kv.1 with Some f => f_dec f kv.2 r | None => Some r end)
      (Some cur) ms = Some x.
Proof.
  intros Hnd. revert cur. induction fs as [|f fs IH]; intros cur Hin.
  { cbn. intros ->. exists []. split_and!; try done. cbn. lia. }
  intros (v & cur' & He & Hv & Hd & Hdec & Hfs).
  destruct (Hin f) as [Hf Hu]; [left|].
  apply IH in Hfs as (ms & Hm & Hvs & Hds & Hx); [|intros g Hg; apply Hin; by right].
  exists ((f_name f, v) :: ms). cbn. rewrite He. cbn. rewrite Hm. cbn.
  rewrite find_field_exact by done. rewrite Hdec. split_and!; try done; lia.
Qed.

Lemma survives_struct {R} (zero : R) (fs : list (Field R)) d x :
  bool_decide (NoDup (f_name <$> fs)) → forallb utf8_ok (f_name <$> fs) →
  fields_survive d x fs zero → survives (c_struct zero fs) (1 + d) x.
Proof.
  intros Hnd%bool_decide_unpack Hu Hfs.
  eapply (fields_survive_fold fs) in Hfs as (ms & Hm & Hv & Hd & Hx); [|done|].
  2:{ intros f Hf. split; [done|]. apply forallb_True in Hu. rewrite Forall_forall in Hu.
      by apply Hu, list_elem_of_fmap_2. }
  exists (JObj ms). cbn [c_struct c_enc c_dec c_zero]. rewrite Hm. split_and!; try done.
  cbn [jdepth]. lia.
Qed.

Create HintDb json.
#[export] Hint Resolve survives_string survives_bool survives_int64 survives_uint64 survives_time
  survives_list survives_map : json.

(** Walk over the fields of a struct. *)
Ltac solve_struct d :=
  apply (survives_struct _ _ d); [vm_compute; exact I|vm_compute; exact I|];
  repeat (eapply fields_survive_cons; [solve [eauto with json]|lia|reflexivity|]);
  reflexivity.
