(* ===== verification/Records.v ===== *)
(** * The records of the program as JSON.

    The structs of metadata.go and replication.go with their field names and
    tags, the constants of their string types, and the conditions under which a
    record survives being stored: text that is UTF-8, integers of the width of
    their field, times of the years 1 to 9999. *)

From S2P Require Import Prelude Metadata Replication Names Utf8 Json Times Codec.
From stdpp Require Import options.

(** ** String types *)

Definition NodeState_string (st : NodeState) : string :=
  match st with NodeHealthy => "healthy" | NodeDown => "down" end.
Definition NodeState_of (s : string) : option NodeState :=
  if bool_decide (s = "healthy") then Some NodeHealthy
  else if bool_decide (s = "down") then Some NodeDown else None.

Definition ReplicaState_string (st : ReplicaState) : string :=
  match st with
  | ReplicaPending => "pending" | ReplicaHealthy => "healthy" | ReplicaStale => "stale"
  | ReplicaMissing => "missing" | ReplicaDeleted => "deleted"
  end.
Definition ReplicaState_of (s : string) : option ReplicaState :=
  list_find (λ st, ReplicaState_string st = s)
    [ReplicaPending; ReplicaHealthy; ReplicaStale; ReplicaMissing; ReplicaDeleted] ≫= λ p, Some p.2.

Definition ReplicationTaskState_string (st : ReplicationTaskState) : string :=
  match st with
  | ReplicationTaskPending => "pending" | ReplicationTaskRunning => "running"
  | ReplicationTaskDone => "done" | ReplicationTaskFailed => "failed"
  | ReplicationTaskDead => "dead"
  end.
Definition ReplicationTaskState_of (s : string) : option ReplicationTaskState :=
  list_find (λ st, ReplicationTaskState_string st = s)
    [ReplicationTaskPending; ReplicationTaskRunning; ReplicationTaskDone; ReplicationTaskFailed;
     ReplicationTaskDead] ≫= λ p, Some p.2.

Definition c_NodeState := c_enum NodeHealthy NodeState_string NodeState_of.
Definition c_ReplicaState := c_enum ReplicaPending ReplicaState_string ReplicaState_of.
Definition c_TaskState :=
  c_enum ReplicationTaskPending ReplicationTaskState_string ReplicationTaskState_of.

(** ** Structs *)

Definition NodeMetadata_fields : list (Field NodeMetadata) := [
  field "ID" c_string nm_ID
    (λ a '(Build_NodeMetadata _ x1 x2 x3), Build_NodeMetadata a x1 x2 x3);
  field "Addr" c_string nm_Addr
    (λ a '(Build_NodeMetadata x0 _ x2 x3), Build_NodeMetadata x0 a x2 x3);
  field "State" c_NodeState nm_State
    (λ a '(Build_NodeMetadata x0 x1 _ x3), Build_NodeMetadata x0 x1 a x3);
  field "LastHeartbeat" c_time nm_LastHeartbeat
    (λ a '(Build_NodeMetadata x0 x1 x2 _), Build_NodeMetadata x0 x1 x2 a)
].
Definition c_NodeMetadata : Codec NodeMetadata :=
  c_struct (Build_NodeMetadata "" "" NodeHealthy zero_time) NodeMetadata_fields.

Definition ReplicaMetadata_fields : list (Field ReplicaMetadata) := [
  field "NodeID" c_string rm_NodeID
    (λ a '(Build_ReplicaMetadata _ x1 x2), Build_ReplicaMetadata a x1 x2);
  field "State" c_ReplicaState rm_State
    (λ a '(Build_ReplicaMetadata x0 _ x2), Build_ReplicaMetadata x0 a x2);
  field "UpdatedAt" c_time rm_UpdatedAt
    (λ a '(Build_ReplicaMetadata x0 x1 _), Build_ReplicaMetadata x0 x1 a)
].
Definition c_ReplicaMetadata : Codec ReplicaMetadata :=
  c_struct (Build_ReplicaMetadata "" ReplicaPending zero_time) ReplicaMetadata_fields.

Definition ChunkMetadata_fields : list (Field ChunkMetadata) := [
  field "index" c_int64 cm_Index
    (λ a '(Build_ChunkMetadata _ x1 x2 x3), Build_ChunkMetadata a x1 x2 x3);
  field "offset" c_int64 cm_Offset
    (λ a '(Build_ChunkMetadata x0 _ x2 x3), Build_ChunkMetadata x0 a x2 x3);
  field "size" c_int64 cm_Size
    (λ a '(Build_ChunkMetadata x0 x1 _ x3), Build_ChunkMetadata x0 x1 a x3);
  field "checksum" c_string cm_Checksum
    (λ a '(Build_ChunkMetadata x0 x1 x2 _), Build_ChunkMetadata x0 x1 x2 a)
].
Definition c_ChunkMetadata : Codec ChunkMetadata :=
  c_struct (Build_ChunkMetadata 0 0 0 "") ChunkMetadata_fields.

Definition FileMetadata_fields : list (Field FileMetadata) := [
  field "Key" c_string fm_Key
    (λ a '(Build_FileMetadata _ x1 x2 x3 x4 x5 x6 x7 x8 x9), Build_FileMetadata a x1 x2 x3 x4 x5 x6 x7 x8 x9);
  field "Version" c_uint64 fm_Version
    (λ a '(Build_FileMetadata x0 _ x2 x3 x4 x5 x6 x7 x8 x9), Build_FileMetadata x0 a x2 x3 x4 x5 x6 x7 x8 x9);
  field "Size" c_int64 fm_Size
    (λ a '(Build_FileMetadata x0 x1 _ x3 x4 x5 x6 x7 x8 x9), Build_FileMetadata x0 x1 a x3 x4 x5 x6 x7 x8 x9);
  field "Checksum" c_string fm_Checksum
    (λ a '(Build_FileMetadata x0 x1 x2 _ x4 x5 x6 x7 x8 x9), Build_FileMetadata x0 x1 x2 a x4 x5 x6 x7 x8 x9);
  field "Primary" c_string fm_Primary
    (λ a '(Build_FileMetadata x0 x1 x2 x3 _ x5 x6 x7 x8 x9), Build_FileMetadata x0 x1 x2 x3 a x5 x6 x7 x8 x9);
  field "Deleted" c_bool fm_Deleted
    (λ a '(Build_FileMetadata x0 x1 x2 x3 x4 _ x6 x7 x8 x9), Build_FileMetadata x0 x1 x2 x3 x4 a x6 x7 x8 x9);
  field "Chunks" (c_list c_ChunkMetadata) fm_Chunks
    (λ a '(Build_FileMetadata x0 x1 x2 x3 x4 x5 _ x7 x8 x9), Build_FileMetadata x0 x1 x2 x3 x4 x5 a x7 x8 x9);
  field "Replicas" (c_map c_ReplicaMetadata) fm_Replicas
    (λ a '(Build_FileMetadata x0 x1 x2 x3 x4 x5 x6 _ x8 x9), Build_FileMetadata x0 x1 x2 x3 x4 x5 x6 a x8 x9);
  field "CreatedAt" c_time fm_CreatedAt
    (λ a '(Build_FileMetadata x0 x1 x2 x3 x4 x5 x6 x7 _ x9), Build_FileMetadata x0 x1 x2 x3 x4 x5 x6 x7 a x9);
  field "UpdatedAt" c_time fm_UpdatedAt
    (λ a '(Build_FileMetadata x0 x1 x2 x3 x4 x5 x6 x7 x8 _), Build_FileMetadata x0 x1 x2 x3 x4 x5 x6 x7 x8 a)
].
Definition c_FileMetadata : Codec FileMetadata :=
  c_struct (Build_FileMetadata "" 0 0 "" "" false [] ∅ zero_time zero_time) FileMetadata_fields.

Definition ReplicationTask_fields : list (Field ReplicationTask) := [
  field "ID" c_string rt_ID
    (λ a '(Build_ReplicationTask _ x1 x2 x3 x4 x5 x6 x7 x8 x9 x10 x11 x12 x13), Build_ReplicationTask a x1 x2 x3 x4 x5 x6 x7 x8 x9 x10 x11 x12 x13);
  field "Key" c_string rt_Key
    (λ a '(Build_ReplicationTask x0 _ x2 x3 x4 x5 x6 x7 x8 x9 x10 x11 x12 x13), Build_ReplicationTask x0 a x2 x3 x4 x5 x6 x7 x8 x9 x10 x11 x12 x13);
  field "Version" c_uint64 rt_Version
    (λ a '(Build_ReplicationTask x0 x1 _ x3 x4 x5 x6 x7 x8 x9 x10 x11 x12 x13), Build_ReplicationTask x0 x1 a x3 x4 x5 x6 x7 x8 x9 x10 x11 x12 x13);
  field "Checksum" c_string rt_Checksum
    (λ a '(Build_ReplicationTask x0 x1 x2 _ x4 x5 x6 x7 x8 x9 x10 x11 x12 x13), Build_ReplicationTask x0 x1 x2 a x4 x5 x6 x7 x8 x9 x10 x11 x12 x13);
  field "Chunks" (c_list c_ChunkMetadata) rt_Chunks
    (λ a '(Build_ReplicationTask x0 x1 x2 x3 _ x5 x6 x7 x8 x9 x10 x11 x12 x13), Build_ReplicationTask x0 x1 x2 x3 a x5 x6 x7 x8 x9 x10 x11 x12 x13);
  field "Source" c_string rt_Source
    (λ a '(Build_ReplicationTask x0 x1 x2 x3 x4 _ x6 x7 x8 x9 x10 x11 x12 x13), Build_ReplicationTask x0 x1 x2 x3 x4 a x6 x7 x8 x9 x10 x11 x12 x13);
  field "Target" c_string rt_Target
    (λ a '(Build_ReplicationTask x0 x1 x2 x3 x4 x5 _ x7 x8 x9 x10 x11 x12 x13), Build_ReplicationTask x0 x1 x2 x3 x4 x5 a x7 x8 x9 x10 x11 x12 x13);
  field "State" c_TaskState rt_State
    (λ a '(Build_ReplicationTask x0 x1 x2 x3 x4 x5 x6 _ x8 x9 x10 x11 x12 x13), Build_ReplicationTask x0 x1 x2 x3 x4 x5 x6 a x8 x9 x10 x11 x12 x13);
  field "Attempts" c_int64 rt_Attempts
    (λ a '(Build_ReplicationTask x0 x1 x2 x3 x4 x5 x6 x7 _ x9 x10 x11 x12 x13), Build_ReplicationTask x0 x1 x2 x3 x4 x5 x6 x7 a x9 x10 x11 x12 x13);
  field "LastError" c_string rt_LastError
    (λ a '(Build_ReplicationTask x0 x1 x2 x3 x4 x5 x6 x7 x8 _ x10 x11 x12 x13), Build_ReplicationTask x0 x1 x2 x3 x4 x5 x6 x7 x8 a x10 x11 x12 x13);
  field "RunAfter" c_time rt_RunAfter
    (λ a '(Build_ReplicationTask x0 x1 x2 x3 x4 x5 x6 x7 x8 x9 _ x11 x12 x13), Build_ReplicationTask x0 x1 x2 x3 x4 x5 x6 x7 x8 x9 a x11 x12 x13);
  field "LeaseUntil" c_time rt_LeaseUntil
    (λ a '(Build_ReplicationTask x0 x1 x2 x3 x4 x5 x6 x7 x8 x9 x10 _ x12 x13), Build_ReplicationTask x0 x1 x2 x3 x4 x5 x6 x7 x8 x9 x10 a x12 x13);
  field "CreatedAt" c_time rt_CreatedAt
    (λ a '(Build_ReplicationTask x0 x1 x2 x3 x4 x5 x6 x7 x8 x9 x10 x11 _ x13), Build_ReplicationTask x0 x1 x2 x3 x4 x5 x6 x7 x8 x9 x10 x11 a x13);
  field "UpdatedAt" c_time rt_UpdatedAt
    (λ a '(Build_ReplicationTask x0 x1 x2 x3 x4 x5 x6 x7 x8 x9 x10 x11 x12 _), Build_ReplicationTask x0 x1 x2 x3 x4 x5 x6 x7 x8 x9 x10 x11 x12 a)
].
Definition c_ReplicationTask : Codec ReplicationTask :=
  c_struct (Build_ReplicationTask "" "" 0 "" [] "" "" ReplicationTaskPending 0 "" zero_time zero_time
    zero_time zero_time) ReplicationTask_fields.

(** ** Records that can be stored *)

Definition node_json (n : NodeMetadata) : Prop :=
  utf8_ok (nm_ID n) ∧ utf8_ok (nm_Addr n) ∧ time_ok (nm_LastHeartbeat n).
Definition replica_json (r : ReplicaMetadata) : Prop :=
  utf8_ok (rm_NodeID r) ∧ time_ok (rm_UpdatedAt r).
Definition chunk_json (c : ChunkMetadata) : Prop :=
  in_s64 (cm_Index c) ∧ in_s64 (cm_Offset c) ∧ in_s64 (cm_Size c) ∧ utf8_ok (cm_Checksum c).
Definition file_json (f : FileMetadata) : Prop :=
  utf8_ok (fm_Key f) ∧ in_u64 (fm_Version f) ∧ in_s64 (fm_Size f) ∧ utf8_ok (fm_Checksum f) ∧
  utf8_ok (fm_Primary f) ∧ Forall chunk_json (fm_Chunks f) ∧
  map_Forall (λ id r, utf8_ok id ∧ replica_json r) (fm_Replicas f) ∧
  time_ok (fm_CreatedAt f) ∧ time_ok (fm_UpdatedAt f).
Definition task_json (t : ReplicationTask) : Prop :=
  utf8_ok (rt_ID t) ∧ utf8_ok (rt_Key t) ∧ in_u64 (rt_Version t) ∧ utf8_ok (rt_Checksum t) ∧
  Forall chunk_json (rt_Chunks t) ∧ utf8_ok (rt_Source t) ∧ utf8_ok (rt_Target t) ∧
  in_s64 (rt_Attempts t) ∧ utf8_ok (rt_LastError t) ∧ time_ok (rt_RunAfter t) ∧
  time_ok (rt_LeaseUntil t) ∧ time_ok (rt_CreatedAt t) ∧ time_ok (rt_UpdatedAt t).

Lemma survives_NodeState st : survives c_NodeState 0 st.
Proof. by apply survives_enum; destruct st. Qed.
Lemma survives_ReplicaState st : survives c_ReplicaState 0 st.
Proof. by apply survives_enum; destruct st. Qed.
Lemma survives_TaskState st : survives c_TaskState 0 st.
Proof. by apply survives_enum; destruct st. Qed.
#[export] Hint Resolve survives_NodeState survives_ReplicaState survives_TaskState : json.

Lemma survives_node n : node_json n → survives c_NodeMetadata 1 n.
Proof. destruct n. unfold node_json. cbn. intros (? & ? & ?). solve_struct 0%N. Qed.
Lemma survives_replica r : replica_json r → survives c_ReplicaMetadata 1 r.
Proof. destruct r. unfold replica_json. cbn. intros (? & ?). solve_struct 0%N. Qed.
Lemma survives_chunk c : chunk_json c → survives c_ChunkMetadata 1 c.
Proof. destruct c. unfold chunk_json. cbn. intros (? & ? & ? & ?). solve_struct 0%N. Qed.

Lemma survives_chunks cs : Forall chunk_json cs → survives (c_list c_ChunkMetadata) 2 cs.
Proof. intros H. apply (survives_list _ 1). eauto using Forall_impl, survives_chunk. Qed.
Lemma survives_replicas m :
  map_Forall (λ id r, utf8_ok id ∧ replica_json r) m → survives (c_map c_ReplicaMetadata) 2 m.
Proof.
  intros H. apply (survives_map _ 1). intros k r [Hk Hr]%H. split; [done|by apply survives_replica].
Qed.
#[export] Hint Resolve survives_chunks survives_replicas : json.

Lemma survives_file f : file_json f → survives c_FileMetadata 3 f.
Proof.
  destruct f. unfold file_json. cbn. intros (? & ? & ? & ? & ? & ? & ? & ? & ?). solve_struct 2%N.
Qed.
Lemma survives_task t : task_json t → survives c_ReplicationTask 3 t.
Proof.
  destruct t. unfold task_json. cbn.
  intros (? & ? & ? & ? & ? & ? & ? & ? & ? & ? & ? & ? & ?). solve_struct 2%N.
Qed.
