(* ===== verification/Bolt.v ===== *)
(** * bbolt, the embedded key-value store of the disk backends.

    [go.etcd.io/bbolt] is a dependency, so it is a parameter: a class of the
    operations the program calls and a class of what their documentation
    promises.  A database and a transaction hold named buckets, which map keys
    to values.  A closure that runs in a transaction also works on variables it
    captured (type [X]): those are not rolled back.

    - [db.Update] commits when the closure returns nil and rolls back
      otherwise; [db.View] changes nothing.  Either may fail for reasons of its
      own (a closed file, a full disk, [db_fault]), and then changes nothing,
      whether or not the closure ran.
    - A bucket that does not exist is nil, and calling a method on it panics.
    - [Put] rejects an empty key, a key of more than 32768 bytes and a value of
      more than 2^31-2 bytes, and nothing else.
    - [ForEach] visits the pairs in the order of the keys and stops at the first
      error, when the callback modifies nothing on any pair it is handed.

    The documentation calls the result of modifying a bucket inside its
    [ForEach] undefined, and there is no law for it.  The program does so in three
    places (MarkExpiredNodes, RequeueExpiredRunning and restoreRetryableTasks);
    nothing is proved about these when they have a record to change.

    [MapBolt] is an instance, a map without faults. *)

From S2P Require Import Prelude.
From stdpp Require Import options.

Abbreviation BoltData := (gmap string (gmap string string)).

Class Bolt (DB Tx : Type) := {
  db_View : ∀ {X A : Type}, GoM (Tx * X) A → GoM (DB * X) A;
  db_Update : ∀ {X A : Type}, GoM (Tx * X) A → GoM (DB * X) A;
  tx_CreateBucketIfNotExists : string → GoM Tx unit;
  b_Get : string → string → GoM Tx (option string);
  b_Put : string → string → string → GoM Tx unit;
  b_ForEach : ∀ {X : Type}, string → (string → string → GoM (Tx * X) unit) → GoM (Tx * X) unit
}.

Definition MaxKeySize : Z := 32768.
Definition MaxValueSize : Z := (2 ^ 31 - 2)%Z.
Definition ErrKeyRequired : GoError := ErrOther "key required".
Definition ErrKeyTooLarge : GoError := ErrOther "key too large".
Definition ErrValueTooLarge : GoError := ErrOther "value too large".

Definition zslen (s : string) : Z := Z.of_nat (String.length s).

(** The documented verdict of [Put]. *)
Definition put_error (k v : string) : option GoError :=
  if decide (k = "") then Some ErrKeyRequired
  else if decide (MaxKeySize < zslen k)%Z then Some ErrKeyTooLarge
  else if decide (MaxValueSize < zslen v)%Z then Some ErrValueTooLarge
  else None.

(** The pairs of a bucket in the order of their keys. *)
Definition sorted_pairs (m : gmap string string) : list (string * string) :=
  sort_by fst (map_to_list m).

Class BoltLaws (DB Tx : Type) `{Bolt DB Tx} := {
  db_data : DB → BoltData;
  tx_data : Tx → BoltData;
  db_fault : DB → Prop;
  db_View_law {X A} (f : GoM (Tx * X) A) db x r db' x' :
    db_View f (db, x) = (r, (db', x')) →
    db_data db' = db_data db ∧
    ((∃ tx tx', tx_data tx = db_data db ∧ f (tx, x) = (r, (tx', x'))) ∨
     (db_fault db ∧ (∃ e, r = Err e) ∧
      (x' = x ∨ ∃ tx r0 tx', tx_data tx = db_data db ∧ f (tx, x) = (r0, (tx', x')))));
  db_Update_law {X A} (f : GoM (Tx * X) A) db x r db' x' :
    db_Update f (db, x) = (r, (db', x')) →
    (∃ tx tx', tx_data tx = db_data db ∧ f (tx, x) = (r, (tx', x')) ∧
       db_data db' = match r with Ok _ => tx_data tx' | _ => db_data db end) ∨
    (db_fault db ∧ (∃ e, r = Err e) ∧ db_data db' = db_data db ∧
     (x' = x ∨ ∃ tx r0 tx', tx_data tx = db_data db ∧ f (tx, x) = (r0, (tx', x'))));
  tx_CreateBucket_law b tx :
    b ≠ "" → ∃ tx', tx_CreateBucketIfNotExists b tx = (Ok tt, tx') ∧
      tx_data tx' = <[b := default ∅ (tx_data tx !! b)]> (tx_data tx);
  b_Get_law b k tx :
    b_Get b k tx =
      (match tx_data tx !! b with Some m => Ok (m !! k) | None => Panic end, tx);
  b_Put_law b k v tx m :
    tx_data tx !! b = Some m →
    ∃ tx', b_Put b k v tx = (match put_error k v with Some e => Err e | None => Ok tt end, tx') ∧
      tx_data tx' = match put_error k v with
                    | Some _ => tx_data tx
                    | None => <[b := <[k := v]> m]> (tx_data tx)
                    end;
  b_Put_nil b k v tx : tx_data tx !! b = None → b_Put b k v tx = (Panic, tx);
  b_ForEach_law {X} b (f : string → string → GoM (Tx * X) unit) tx x m :
    tx_data tx !! b = Some m →
    (∀ k v y r tx' y', m !! k = Some v → f k v (tx, y) = (r, (tx', y')) → tx' = tx) →
    b_ForEach b f (tx, x) = for_each (sorted_pairs m) (λ kv, f kv.1 kv.2) (tx, x);
  b_ForEach_nil {X} b (f : string → string → GoM (Tx * X) unit) s :
    tx_data s.1 !! b = None → b_ForEach b f s = (Panic, s)
}.

(** ** A database in a map *)

Definition mb_run {X A} (keep : bool) (f : GoM (BoltData * X) A) : GoM (BoltData * X) A := λ s,
  let '(r, (tx, x)) := f s in
  (r, (match r with Ok _ => if keep then tx else s.1 | _ => s.1 end, x)).

Definition mb_get (b k : string) : GoM BoltData (option string) := λ tx,
  (match tx !! b with Some m => Ok (m !! k) | None => Panic end, tx).

Definition mb_put (b k v : string) : GoM BoltData unit := λ tx,
  match tx !! b with
  | None => (Panic, tx)
  | Some m =>
      match put_error k v with
      | Some e => (Err e, tx)
      | None => (Ok tt, <[b := <[k := v]> m]> tx)
      end
  end.

Definition mb_foreach {X} (b : string) (f : string → string → GoM (BoltData * X) unit) :
    GoM (BoltData * X) unit := λ s,
  match s.1 !! b with
  | None => (Panic, s)
  | Some m => for_each (sorted_pairs m) (λ kv, f kv.1 kv.2) s
  end.

#[export] Instance MapBolt : Bolt BoltData BoltData := {|
  db_View X A := mb_run false;
  db_Update X A := mb_run true;
  tx_CreateBucketIfNotExists b tx := (Ok tt, <[b := default ∅ (tx !! b)]> tx);
  b_Get := mb_get;
  b_Put := mb_put;
  b_ForEach X := mb_foreach
|}.

#[export] Instance MapBolt_laws : BoltLaws BoltData BoltData.
Proof.
  refine {| db_data := id; tx_data := id; db_fault := λ _, False |}.
  - intros X A f db x r db' x'. cbn. unfold mb_run. destruct (f (db, x)) as [r0 [tx y]] eqn:E.
    intros [= <- <- <-]. split; [by destruct r0|]. left. by exists db, tx.
  - intros X A f db x r db' x'. cbn. unfold mb_run. destruct (f (db, x)) as [r0 [tx y]] eqn:E.
    intros [= <- <- <-]. left. exists db, tx. by destruct r0.
  - intros b tx Hb. by eexists.
  - done.
  - intros b k v tx m Hm. cbn in *. unfold mb_put. rewrite Hm. destruct (put_error k v); by eexists.
  - intros b k v tx Hm. cbn in *. unfold mb_put. by rewrite Hm.
  - intros X b f tx x m Hm _. cbn in *. unfold mb_foreach. cbn. by rewrite Hm.
  - intros X b f s Hm. cbn in *. unfold mb_foreach. by rewrite Hm.
Defined.

(** ** Transactions inside a method *)

(** A bucket operation in a closure with captured variables. *)
Definition in_tx {Tx X A} (c : GoM Tx A) : GoM (Tx * X) A := zoom fst (λ tx s, (tx, s.2)) c.

(** A captured variable. *)
Definition captured {Tx X} : GoM (Tx * X) X := gets snd.
Definition capture {Tx X} (x : X) : GoM (Tx * X) unit := modify (λ s, (s.1, x)).
