(* ===== verification/DiskStore.v ===== *)
(** * Methods that work through bbolt transactions.

    Both disk backends are a database handle and a clock, and every method of
    theirs is a transaction with a closure.  This file has the common record,
    the transactions with the variables their closures capture, and the
    argument that a method implements a specification when its closure does:
    what [Update] commits is what the closure did, and nothing otherwise. *)

From S2P Require Import Prelude Metadata Times Bolt.
From stdpp Require Import options.

Record DiskStore (DB : Type) := {
  ds_db : DB;
  ds_now : Clock
}.
Arguments ds_db {DB}.
Arguments ds_now {DB}.

Section transactions.
Context {DB Tx : Type} `{!Bolt DB Tx}.
Abbreviation Store := (DiskStore DB).

(** ** Transactions of the store *)

(** [m.now().UTC()], outside and inside a closure. *)
Definition ds_clock : GoM Store Time := λ m,
  let '(t, c) := now (ds_now m) in (Ok t, {| ds_db := ds_db m; ds_now := c |}).
Definition tx_clock {X} : GoM (Tx * (Clock * X)) Time := λ s,
  let '(t, c) := now s.2.1 in (Ok t, (s.1, (c, s.2.2))).

(** [m.db.Update] and [m.db.View] with a closure that captures the store's clock
    and a local variable, here starting at [x]; the variable is returned with
    the result. *)
Definition on_db {X A} (run : GoM (DB * (Clock * X)) A) (x : X) : GoM Store (A * X) := λ m,
  let '(r, (db, (c, x))) := run (ds_db m, (ds_now m, x)) in
  (match r with Ok a => Ok (a, x) | Err e => Err e | Panic => Panic end,
   {| ds_db := db; ds_now := c |}).

Definition Update {A} (f : GoM (Tx * (Clock * unit)) A) : GoM Store A :=
  '(a, _) ← on_db (db_Update f) tt; mret a.
Definition View {A} (f : GoM (Tx * (Clock * unit)) A) : GoM Store A :=
  '(a, _) ← on_db (db_View f) tt; mret a.

End transactions.

(** ** Refinement *)

(** A clock whose readings, plus the minute the queue may add, can be written. *)
Definition clock_ok (rs : nat → Time) : Prop :=
  ∀ n, (0 ≤ rs n < days_before_year 10000 * 86400 * nanos - Minute)%Z.

Lemma clock_time_ok rs n : clock_ok rs → time_ok (rs n).
Proof.
  intros Hc. specialize (Hc n). unfold time_ok. unfold Minute, Second in *.
  apply andb_True. rewrite !Is_true_true, Z.leb_le, Z.ltb_lt. lia.
Qed.

Section refinement.
Context {DB Tx : Type} `{BoltLaws DB Tx}.
Abbreviation Store := (DiskStore DB).
(** The data a store accepts, what it stands for, and what it may touch. *)
Context {Σ : Type} (ok : BoltData → Prop) (abs : BoltData → Σ) (frame : relation BoltData).

Definition store_data (m : Store) : BoltData := db_data (ds_db m).
Definition store_ok (m : Store) : Prop := ok (store_data m) ∧ clock_ok (readings (ds_now m)).
Definition store_abs (m : Store) : Σ := abs (store_data m).

(** [c] implements [spec]: it succeeds or fails like it at some instant, or it
    fails on its own without an effect, because of an I/O error or because a
    record has outgrown a bbolt value. *)
Definition store_refines {A} (c : GoM Store A) (spec : Time → GoM Σ A) : Prop :=
  ∀ m r m', store_ok m → c m = (r, m') →
    store_ok m' ∧ frame (store_data m) (store_data m') ∧
    ((∃ t, spec t (store_abs m) = (r, store_abs m')) ∨
     (store_abs m' = store_abs m ∧
      ∃ e, r = Err e ∧ (db_fault (ds_db m) ∨ e = ErrValueTooLarge))).

Abbreviation Closure A := (GoM (Tx * (Clock * unit)) A).

(** What the closure of [Update] has to do, when the method returns [fin] of the
    closure's result and the captured variable. *)
Definition update_spec {X A B} (f : GoM (Tx * (Clock * X)) A) (x : X) (fin : A → X → B)
    (spec : Time → GoM Σ B) : Prop :=
  ∀ tx c r tx' c' x', ok (tx_data tx) → clock_ok (readings c) →
    f (tx, (c, x)) = (r, (tx', (c', x'))) →
    readings c' = readings c ∧
    match r with
    | Ok a => ok (tx_data tx') ∧ frame (tx_data tx) (tx_data tx') ∧
        ∃ t, spec t (abs (tx_data tx)) = (Ok (fin a x'), abs (tx_data tx'))
    | Err e => (∃ t, spec t (abs (tx_data tx)) = (Err e, abs (tx_data tx))) ∨
        e = ErrValueTooLarge
    | Panic => False
    end.

(** What the closure of [View] has to do. *)
Definition view_spec {X A} (f : GoM (Tx * (Clock * X)) A) (x : X)
    (answer : Σ → A → X → Prop) : Prop :=
  ∀ tx c r tx' c' x', ok (tx_data tx) → clock_ok (readings c) →
    f (tx, (c, x)) = (r, (tx', (c', x'))) →
    readings c' = readings c ∧ ∃ a, r = Ok a ∧ answer (abs (tx_data tx)) a x'.

End refinement.

Section rules.
Context {DB Tx : Type} `{BoltLaws DB Tx}.
Abbreviation Store := (DiskStore DB).
Context {Σ : Type} {ok : BoltData → Prop} {abs : BoltData → Σ} {frame : relation BoltData}.
Context `{!Reflexive frame}.
Abbreviation Closure A := (GoM (Tx * (Clock * unit)) A).
Local Abbreviation store_ok := (store_ok ok).
Local Abbreviation store_refines := (store_refines ok abs frame).
Local Abbreviation update_spec := (update_spec ok abs frame).
Local Abbreviation view_spec := (view_spec ok abs).

Lemma on_Update_refines {X A B} (f : GoM (Tx * (Clock * X)) A) x (fin : A → X → B)
    (k : A * X → GoM Store B) spec :
  update_spec f x fin spec → (∀ a x' m, k (a, x') m = (Ok (fin a x'), m)) →
  store_refines (on_db (db_Update f) x ≫= k) spec.
Proof using All.
  intros Hf Hk m r m' [Hd Hc] Hrun. unfold store_data in Hd. unfold on_db in Hrun.
  autounfold with go in Hrun.
  destruct (db_Update f (ds_db m, (ds_now m, x))) as [r0 [db' [c' x']]] eqn:Hu.
  assert (Hm' : m' = {| ds_db := db'; ds_now := c' |} ∧
    r = match r0 with Ok a => Ok (fin a x') | Err e => Err e | Panic => Panic end).
  { destruct r0; [rewrite Hk in Hrun|..]; by simplify_eq. }
  destruct Hm' as [-> ->]. clear Hrun. apply db_Update_law in Hu.
  destruct Hu as [(tx & tx' & Htx & Hrun & Hdata)|(Hfault & [e ->] & Hdata & Hx)].
  - rewrite <-Htx in Hd. destruct (Hf _ _ _ _ _ _ Hd Hc Hrun) as [Hrd Hcase].
    unfold DiskStore.store_ok, store_abs, store_data. cbn. rewrite Hdata, Hrd.
    destruct r0 as [a|e|]; [|rewrite <-Htx|done].
    + destruct Hcase as (Hok & Hfr & Hspec). rewrite Htx in Hfr, Hspec. split_and!; try done. by left.
    + split; [done|]. split; [done|].
      destruct Hcase as [Hspec|He]; [by left|right]. split; [done|]. eexists. split; [done|by right].
  - unfold DiskStore.store_ok, store_abs, store_data. cbn. rewrite Hdata. split; [split; [done|]|split].
    + destruct Hx as [[= -> _]|(tx & r0 & tx' & Htx & Hrun)]; [done|].
      rewrite <-Htx in Hd. by destruct (Hf _ _ _ _ _ _ Hd Hc Hrun) as [-> _].
    + done.
    + right. split; [done|]. eexists. split; [done|by left].
Qed.

Lemma Update_refines {A} (f : Closure A) spec :
  update_spec f tt (λ a _, a) spec → store_refines (Update f) spec.
Proof using All. intros Hf. by apply (on_Update_refines _ _ (λ a _, a)). Qed.

Lemma on_View_refines {X A B} (f : GoM (Tx * (Clock * X)) A) x answer (k : A * X → GoM Store B) spec :
  view_spec f x answer →
  (∀ c a x', answer c a x' → ∃ v t, (∀ m, k (a, x') m = (Ok v, m)) ∧ spec t c = (Ok v, c)) →
  store_refines (on_db (db_View f) x ≫= k) spec.
Proof using All.
  intros Hf Hk m r m' [Hd Hc] Hrun. unfold store_data in Hd. unfold on_db in Hrun.
  autounfold with go in Hrun.
  destruct (db_View f (ds_db m, (ds_now m, x))) as [r0 [db' [c' x']]] eqn:Hu.
  apply db_View_law in Hu as [Hdata Hu].
  destruct Hu as [(tx & tx' & Htx & Hrun')|(Hfault & [e ->] & Hx)].
  - rewrite <-Htx in *. destruct (Hf _ _ _ _ _ _ Hd Hc Hrun') as (Hrd & a & -> & Ha).
    destruct (Hk _ _ _ Ha) as (v & t & Hkv & Hspec). rewrite Hkv in Hrun. simplify_eq.
    unfold DiskStore.store_ok, store_abs, store_data. cbn. rewrite Hdata, <-Htx, Hrd.
    split; [done|]. split; [done|]. left. by exists t.
  - simplify_eq. unfold DiskStore.store_ok, store_abs, store_data. cbn. rewrite Hdata.
    split; [split; [done|]|split].
    + destruct Hx as [[= -> _]|(tx & r0 & tx' & Htx & Hrun')]; [done|].
      rewrite <-Htx in Hd. by destruct (Hf _ _ _ _ _ _ Hd Hc Hrun') as [-> _].
    + done.
    + right. split; [done|]. eexists. split; [done|by left].
Qed.

(** Reading the clock before the transaction. *)
Lemma clock_refines {A} (k : Time → GoM Store A) spec :
  (∀ t, time_ok t → store_refines (k t) (λ _, spec t)) → store_refines (t ← ds_clock; k t) spec.
Proof.
  intros Hk m r m' [Hd Hc] Hrun. unfold ds_clock, now in Hrun. autounfold with go in Hrun.
  set (m1 := {| ds_db := ds_db m; ds_now := _ |}) in Hrun.
  assert (Hok1 : store_ok m1) by (by split).
  destruct (Hk _ (clock_time_ok _ _ Hc) m1 r m' Hok1 Hrun) as (Hok & Hfr & Hcase).
  split_and!; [done|done|]. destruct Hcase as [[_ Hspec]|Hfail]; [left|by right]. by eexists.
Qed.

(** A function of the result. *)
Lemma map_refines {A B} (c : GoM Store A) (g : A → B) specA specB :
  (∀ t s, specB t s = (match (specA t s).1 with
                       | Ok a => Ok (g a) | Err e => Err e | Panic => Panic end, (specA t s).2)) →
  store_refines c specA → store_refines (a ← c; mret (g a)) specB.
Proof.
  intros Hspec Hc m r m' Hok Hrun. autounfold with go in Hrun.
  destruct (c m) as [r0 m1] eqn:Hcm. destruct (Hc m r0 m1 Hok Hcm) as (Hok1 & Hfr & Hcase).
  assert (m' = m1 ∧ r = match r0 with Ok a => Ok (g a) | Err e => Err e | Panic => Panic end)
    as [-> ->] by (by destruct r0; simplify_eq).
  split_and!; [done|done|]. destruct Hcase as [[t Ht]|(Hsame & e & -> & He)].
  - left. exists t. by rewrite Hspec, Ht.
  - right. split; [done|]. by exists e.
Qed.
End rules.
