(* ===== verification/DiskMetadata.v ===== *)
(** * The disk metadata store: [metadata_disk.go].

    Every method of [DiskMetadataStore], over the bbolt interface of [Bolt] and
    the JSON records of [Records].  The closure of a transaction reads the
    clock through the store, so the clock is one of its captured variables; the
    slices that a [ForEach] callback appends to are the others.  What
    [bolt.Open] returned is an argument of [OpenDiskMetadataStore]. *)

From S2P Require Import Prelude Metadata Replication Backend Utf8 Json Times Codec Records Bolt DiskStore.
From stdpp Require Import options.

Definition metadataFilesBucket : string := "files".
Definition metadataNodesBucket : string := "nodes".

(** The errors of [json.Marshal] and [json.Unmarshal], by kind. *)
Definition errMarshal : GoError := ErrOther "json: error calling MarshalJSON for type time.Time".
Definition errUnmarshal : GoError := ErrOther "json: cannot unmarshal".

(** The struct: the database and the clock. *)
Abbreviation DiskMetadataStore := DiskStore.

Section disk_metadata.
Context {DB Tx : Type} `{!Bolt DB Tx}.
Abbreviation Store := (DiskMetadataStore DB).

(** ** Helpers *)

Definition putMetadataJSON {X A} (b : string) (key : string) (c : Codec A) (v : A) :
    GoM (Tx * X) unit :=
  match json_Marshal c v with
  | None => fail errMarshal
  | Some raw => in_tx (b_Put b key raw)
  end.

Definition getFileFromBucket {X} (b : string) (key : string) :
    GoM (Tx * X) (option FileMetadata) :=
  raw ← in_tx (b_Get b key);
  match raw with
  | None => mret None
  | Some raw =>
      match json_Unmarshal c_FileMetadata raw with
      | None => fail errUnmarshal
      | Some meta => mret (Some meta)
      end
  end.

(** ** Opening *)

Definition dm_init : GoM Store unit :=
  Update (
    in_tx (tx_CreateBucketIfNotExists metadataFilesBucket);;
    in_tx (tx_CreateBucketIfNotExists metadataNodesBucket)).

(** The database is closed again when [init] fails. *)
Definition OpenDiskMetadataStore (opened : Res DB) (clock : Clock) : Res Store :=
  match opened with
  | Err e => Err e
  | Panic => Panic
  | Ok db =>
      match dm_init {| ds_db := db; ds_now := clock |} with
      | (Ok _, m) => Ok m
      | (Err e, _) => Err e
      | (Panic, _) => Panic
      end
  end.

(** ** Nodes *)

Definition dm_UpsertNode (id addr : string) : GoM Store NodeMetadata :=
  t ← ds_clock;
  let node := {| nm_ID := id; nm_Addr := addr; nm_State := NodeHealthy;
                 nm_LastHeartbeat := t |} in
  Update (putMetadataJSON metadataNodesBucket id c_NodeMetadata node);;
  mret node.

(** The callback of [MarkExpiredNodes]. *)
Definition expire_stored_node {X} (cutoff : Time) (k v : string) : GoM (Tx * X) unit :=
  match json_Unmarshal c_NodeMetadata v with
  | None => fail errUnmarshal
  | Some node =>
      if Before (nm_LastHeartbeat node) cutoff then
        putMetadataJSON metadataNodesBucket k c_NodeMetadata
          {| nm_ID := nm_ID node; nm_Addr := nm_Addr node; nm_State := NodeDown;
             nm_LastHeartbeat := nm_LastHeartbeat node |}
      else mret tt
  end.

Definition dm_MarkExpiredNodes (ttl : Duration) : GoM Store unit :=
  t ← ds_clock;
  let cutoff := TimeAdd t (wrap_s64 (- ttl)) in
  Update (b_ForEach metadataNodesBucket (expire_stored_node cutoff)).

(** A callback that decodes the value and appends it to the captured slice. *)
Definition append_decoded {A} (c : Codec A) (k v : string) :
    GoM (Tx * (Clock * list A)) unit :=
  match json_Unmarshal c v with
  | None => fail errUnmarshal
  | Some x => s ← captured; capture (s.1, s.2 ++ [x])
  end.

Definition dm_Nodes : GoM Store (list NodeMetadata) :=
  '(_, nodes) ← on_db (db_View (b_ForEach metadataNodesBucket (append_decoded c_NodeMetadata))) [];
  mret (sort_by nm_ID nodes).

Definition dm_HealthyNodes : GoM Store (list NodeMetadata) :=
  all ← dm_Nodes;
  mret (filter (λ n, nm_State n = NodeHealthy) all).

(** ** Files *)

Definition dm_BeginFileVersion (key : string) (size : Z) (checksum : string)
    (chunks : list ChunkMetadata) (primary : string) (replicas : list string) :
    GoM Store FileMetadata :=
  meta ← Update (
    t ← tx_clock;
    prev ← getFileFromBucket metadataFilesBucket key;
    let '(version, createdAt) :=
      match prev with
      | Some prev => (wrap_u64 (fm_Version prev + 1), fm_CreatedAt prev)
      | None => (1%Z, t)
      end in
    let meta := new_file_version key version size checksum chunks primary replicas createdAt t in
    putMetadataJSON metadataFilesBucket key c_FileMetadata meta;;
    mret meta);
  mret (cloneFileMetadata meta).

Definition dm_NextVersion (key : string) : GoM Store Z :=
  View (
    meta ← getFileFromBucket metadataFilesBucket key;
    mret (match meta with Some meta => wrap_u64 (fm_Version meta + 1) | None => 1%Z end)).

(** Look the record up, rewrite it, store it: [MarkReplica], [Tombstone] and
    [AddReplica]. *)
Definition update_file (key : string)
    (rewrite : FileMetadata → GoM (Tx * (Clock * unit)) FileMetadata) : GoM Store FileMetadata :=
  meta ← Update (
    found ← getFileFromBucket metadataFilesBucket key;
    match found with
    | None => fail ErrMetadataNotFound
    | Some meta =>
        meta ← rewrite meta;
        putMetadataJSON metadataFilesBucket key c_FileMetadata meta;;
        mret meta
    end);
  mret (cloneFileMetadata meta).

Definition dm_MarkReplica (key nodeID : string) (state : ReplicaState) : GoM Store FileMetadata :=
  update_file key (λ meta,
    match fm_Replicas meta !! nodeID with
    | None => fail ErrReplicaNotFound
    | Some replica =>
        t ← tx_clock;
        mret (set_replicas meta
          (<[nodeID := set_replica_state replica state t]> (fm_Replicas meta)) t)
    end).

Definition dm_Tombstone (key : string) : GoM Store FileMetadata :=
  update_file key (λ meta, t ← tx_clock; mret (tombstone_of meta t)).

Definition dm_GetFile (key : string) : GoM Store (option FileMetadata) :=
  found ← View (getFileFromBucket metadataFilesBucket key);
  mret (cloneFileMetadata <$> found).

Definition dm_ListFiles : GoM Store (list FileMetadata) :=
  '(_, files) ← on_db (db_View (b_ForEach metadataFilesBucket (append_decoded c_FileMetadata))) [];
  mret (sort_by fm_Key (cloneFileMetadata <$> files)).

Definition dm_AddReplica (key nodeID : string) (state : ReplicaState) : GoM Store FileMetadata :=
  update_file key (λ meta,
    t ← tx_clock;
    let replica := {| rm_NodeID := nodeID; rm_State := state; rm_UpdatedAt := t |} in
    mret (set_replicas meta (<[nodeID := replica]> (fm_Replicas meta)) t)).

Definition dm_Now (m : Store) : Time * Store :=
  let '(t, c) := now (ds_now m) in (t, {| ds_db := ds_db m; ds_now := c |}).

(** The store implements the interface the coordinator uses. *)
#[export] Instance DiskMetadataStore_backend : MetadataBackend Store := {|
  mb_UpsertNode := dm_UpsertNode;
  mb_MarkExpiredNodes := dm_MarkExpiredNodes;
  mb_HealthyNodes := dm_HealthyNodes;
  mb_Nodes := dm_Nodes;
  mb_BeginFileVersion := dm_BeginFileVersion;
  mb_NextVersion := dm_NextVersion;
  mb_MarkReplica := dm_MarkReplica;
  mb_Tombstone := dm_Tombstone;
  mb_GetFile := dm_GetFile;
  mb_ListFiles := dm_ListFiles;
  mb_AddReplica := dm_AddReplica;
  mb_Now := dm_Now
|}.
End disk_metadata.
