(* ===== verification/DiskTable.v ===== *)
(** * A bucket of JSON records as a table.

    Both disk backends keep records of one type per bucket.  Read through its
    codec a bucket is a finite map; this file relates the bucket operations to
    that map: looking a record up, storing one, and listing them in key order. *)

From S2P Require Import Prelude Metadata Replication Backend Utf8 Json Times Codec Records Bolt DiskStore DiskMetadata.
From stdpp Require Import options.

Definition key_ok (k : string) : Prop := k ≠ "" ∧ (zslen k ≤ MaxKeySize)%Z ∧ utf8_ok k.

(** The bucket [b] read through the codec [c]. *)
Definition table {A} (c : Codec A) (b : string) (d : BoltData) : gmap string A :=
  omap (json_Unmarshal c) (default ∅ (d !! b)).

(** The bucket exists, and every value in it decodes to a good record. *)
Definition table_ok {A} (c : Codec A) (good : string → A → Prop) (b : string) (d : BoltData) : Prop :=
  ∃ m, d !! b = Some m ∧
    map_Forall (λ k s, ∃ x, json_Unmarshal c s = Some x ∧ good k x) m.

(** All buckets but [b] are the same. *)
Definition only_bucket (b : string) (d d' : BoltData) : Prop := ∀ b', b' ≠ b → d' !! b' = d !! b'.

Lemma only_bucket_refl b d : only_bucket b d d.
Proof. by intros b' _. Qed.
Lemma only_bucket_trans b d1 d2 d3 : only_bucket b d1 d2 → only_bucket b d2 d3 → only_bucket b d1 d3.
Proof. intros H12 H23 b' Hb. by rewrite H23, H12. Qed.

Lemma table_frame {A} (c : Codec A) b b' d d' :
  only_bucket b' d d' → b ≠ b' → table c b d' = table c b d.
Proof. intros H Hb. unfold table. by rewrite H. Qed.
Lemma table_ok_frame {A} (c : Codec A) good b b' d d' :
  only_bucket b' d d' → b ≠ b' → table_ok c good b d → table_ok c good b d'.
Proof. intros H Hb (m & Hm & Hall). exists m. by rewrite H. Qed.

(** [CreateBucketIfNotExists] on a bucket that is missing or good. *)
Lemma create_ok {A} (c : Codec A) good b d :
  d !! b = None ∨ table_ok c good b d →
  table_ok c good b (<[b := default ∅ (d !! b)]> d) ∧
  table c b (<[b := default ∅ (d !! b)]> d) = table c b d ∧
  only_bucket b d (<[b := default ∅ (d !! b)]> d).
Proof.
  intros Hd. split_and!.
  - destruct Hd as [Hd|(m & Hm & Hall)].
    + exists ∅. rewrite Hd, lookup_insert_eq. split; [done|]. intros k s. by rewrite lookup_empty.
    + exists m. rewrite Hm, lookup_insert_eq. by split.
  - unfold table. by rewrite lookup_insert_eq.
  - intros b' Hb'. by rewrite lookup_insert_ne.
Qed.

Section table.
Context {DB Tx : Type} `{BoltLaws DB Tx}.
Context {A : Type} (c : Codec A) (good : string → A → Prop) (b : string).
Context (good_stored : ∀ k x, good k x → key_ok k ∧ survives c 3 x).
Abbreviation T := (table c b).
Abbreviation ok := (table_ok c good b).

Lemma in_tx_run {X B} (op : GoM Tx B) tx (x : X) r tx' :
  op tx = (r, tx') → in_tx op (tx, x) = (r, (tx', x)).
Proof. intros Hop. unfold in_tx, zoom. cbn. by rewrite Hop. Qed.

Lemma table_lookup d m k : d !! b = Some m → T d !! k = m !! k ≫= json_Unmarshal c.
Proof. intros Hm. unfold table. by rewrite Hm, lookup_omap. Qed.

Lemma table_good d k x : ok d → T d !! k = Some x → good k x.
Proof.
  intros (m & Hm & Hall). rewrite (table_lookup d m k Hm).
  intros (s & Hs & Hx)%bind_Some. destruct (Hall k s Hs) as (x' & Hx' & Hgood). by simplify_eq.
Qed.

(** The record under a key, as [Get] and [json.Unmarshal] find it. *)
Lemma get_run {X} tx (x : X) k :
  ok (tx_data tx) → ∃ raw, in_tx (b_Get b k) (tx, x) = (Ok raw, (tx, x)) ∧
    raw ≫= json_Unmarshal c = T (tx_data tx) !! k ∧
    (∀ s, raw = Some s → is_Some (json_Unmarshal c s)).
Proof.
  intros (m & Hm & Hall). exists (m !! k). split_and!.
  - apply in_tx_run. by rewrite b_Get_law, Hm.
  - by rewrite (table_lookup _ m).
  - intros s Hs. destruct (Hall k s Hs) as (y & Hy & _). by exists y.
Qed.

(** Storing a good record changes the table at its key; the only possible
    failure is a value that is too large. *)
Lemma put_run {X} tx (x : X) k v :
  ok (tx_data tx) → good k v → ∃ r tx', putMetadataJSON b k c v (tx, x) = (r, (tx', x)) ∧
    ((r = Ok tt ∧ ok (tx_data tx') ∧ T (tx_data tx') = <[k := v]> (T (tx_data tx)) ∧
      only_bucket b (tx_data tx) (tx_data tx') ∧
      ∃ w m, tx_data tx !! b = Some m ∧ tx_data tx' = <[b := <[k := w]> m]> (tx_data tx)) ∨
     (r = Err ErrValueTooLarge ∧ tx_data tx' = tx_data tx)).
Proof using good_stored.
  intros (m & Hm & Hall) Hv. destruct (good_stored k v Hv) as [(Hk1 & Hk2 & Hk3) Hs].
  destruct (survives_roundtrip c 3 v Hs) as (raw & Henc & Hdec); [done|].
  unfold putMetadataJSON. rewrite Henc.
  destruct (b_Put_law b k raw tx m Hm) as (tx' & Hput & Hdata).
  rewrite (in_tx_run _ _ _ _ _ Hput). eexists _, tx'. split; [done|].
  unfold put_error in *. rewrite !decide_False in Hdata |- * by (done || lia).
  case_decide; [right; by rewrite Hdata|]. left. split; [done|]. rewrite Hdata. split_and!.
  - exists (<[k := raw]> m). rewrite lookup_insert_eq. split; [done|].
    intros k' s. rewrite lookup_insert_Some. intros [[<- <-]|[_ Hs']]; [by exists v|].
    by apply (Hall k' s).
  - unfold table. rewrite Hm, lookup_insert_eq. cbn. apply omap_insert_Some, Hdec.
  - intros b' Hb'. by rewrite lookup_insert_ne.
  - by exists raw, m.
Qed.

(** ** Listing *)

Lemma fold_all {X} (upd : X → A → X) (f : string → string → GoM (Tx * (Clock * X)) unit)
    (l : list (string * string)) xs tx ck x :
  (∀ k v a tx ck x, json_Unmarshal c v = Some a →
     f k v (tx, (ck, x)) = (Ok tt, (tx, (ck, upd x a)))) →
  Forall2 (λ kv a, json_Unmarshal c kv.2 = Some a ∧ good kv.1 a) l xs →
  for_each l (λ kv, f kv.1 kv.2) (tx, (ck, x)) = (Ok tt, (tx, (ck, foldl upd x xs))).
Proof.
  intros Hf Hl. revert x. induction Hl as [|[k v] a l xs [Ha _] Hl IH]; intros x; [done|].
  cbn [for_each foldl]. erewrite gom_bind_ok by (by apply Hf). apply IH.
Qed.

(** The records in the order of the keys, each exactly once. *)
Lemma table_values m :
  map_Forall (λ k s, ∃ x, json_Unmarshal c s = Some x ∧ good k x) m →
  ∃ xs, Forall2 (λ kv x, json_Unmarshal c kv.2 = Some x ∧ good kv.1 x) (sorted_pairs m) xs ∧
    (∀ x, x ∈ xs ↔ ∃ k, omap (json_Unmarshal c) m !! k = Some x).
Proof.
  intros Hall.
  assert (Hl : Forall (λ kv, ∃ x, json_Unmarshal c kv.2 = Some x ∧ good kv.1 x) (sorted_pairs m)).
  { apply Forall_forall. intros [k s] Hk%elem_of_sort_by%elem_of_map_to_list. by apply (Hall k s). }
  assert (∃ xs, Forall2 (λ kv x, json_Unmarshal c kv.2 = Some x ∧ good kv.1 x) (sorted_pairs m) xs)
    as [xs Hxs].
  { induction Hl as [|kv l [x Hx] _ [xs Hxs]]; [by exists []|]. exists (x :: xs). by constructor. }
  exists xs. split; [done|]. intros x. split.
  - intros [i Hi]%list_elem_of_lookup. destruct (Forall2_lookup_r _ _ _ _ _ Hxs Hi)
      as ([k s] & Hks & Hx & _).
    exists k. apply list_elem_of_lookup_2, elem_of_sort_by, elem_of_map_to_list in Hks.
    rewrite lookup_omap, Hks. exact Hx.
  - intros [k Hk]. rewrite lookup_omap in Hk. apply bind_Some in Hk as (s & Hs & Hx).
    apply elem_of_map_to_list, (elem_of_sort_by fst), list_elem_of_lookup in Hs as [i Hi].
    destruct (Forall2_lookup_l _ _ _ _ _ Hxs Hi) as (x' & Hx' & Hdec & _).
    cbn [snd] in Hdec. apply list_elem_of_lookup. exists i. congruence.
Qed.

Lemma sorted_pairs_keys m : NoDup (sorted_pairs m).*1.
Proof. apply sort_by_NoDup, NoDup_fst_map_to_list. Qed.

(** Sorted by a field that equals the key, the list is the sorted table. *)
Lemma table_values_sorted (key : A → string) d xs m :
  (∀ k x, good k x → key x = k) → d !! b = Some m →
  Forall2 (λ kv x, json_Unmarshal c kv.2 = Some x ∧ good kv.1 x) (sorted_pairs m) xs →
  (∀ x, x ∈ xs ↔ ∃ k, omap (json_Unmarshal c) m !! k = Some x) →
  NoDup (key <$> xs) ∧ xs ≡ₚ range_values (T d).
Proof.
  intros Hkey Hm Hxs Hin.
  assert (key <$> xs = (sorted_pairs m).*1) as Heq.
  { clear Hin. induction Hxs as [|[k s] x l xs [_ Hg] _ IH]; [done|]. csimpl.
    by rewrite IH, (Hkey _ _ Hg). }
  assert (NoDup (key <$> xs)) as Hnd by (rewrite Heq; apply sorted_pairs_keys).
  split; [done|]. apply NoDup_Permutation; [by eapply NoDup_fmap_1|..].
  - eapply (NoDup_fmap_1 key), NoDup_range_values. intros k x Hx.
    unfold table in Hx. rewrite Hm in Hx. cbn in Hx.
    assert (x ∈ xs) as [i Hi]%list_elem_of_lookup by (apply Hin; eauto).
    rewrite lookup_omap in Hx. apply bind_Some in Hx as (s & Hs & Hx).
    apply elem_of_map_to_list, (elem_of_sort_by fst), list_elem_of_lookup in Hs as [j Hj].
    destruct (Forall2_lookup_l _ _ _ _ _ Hxs Hj) as (x' & Hx' & Hdec & Hg).
    cbn [fst snd] in *. assert (x' = x) as -> by congruence. by apply Hkey.
  - intros x. rewrite Hin, elem_of_range_values. unfold table. by rewrite Hm.
Qed.

(** [ForEach] with a callback that folds the records into a captured variable. *)
Lemma foreach_fold {X} (upd : X → A → X) (key : A → string)
    (f : string → string → GoM (Tx * (Clock * X)) unit) tx ck x :
  (∀ k a, good k a → key a = k) →
  (∀ k v a tx ck x, json_Unmarshal c v = Some a →
     f k v (tx, (ck, x)) = (Ok tt, (tx, (ck, upd x a)))) →
  (∀ k v tx s r tx' s', f k v (tx, s) = (r, (tx', s')) → tx' = tx) →
  ok (tx_data tx) →
  ∃ xs, b_ForEach b f (tx, (ck, x)) = (Ok tt, (tx, (ck, foldl upd x xs))) ∧
    NoDup (key <$> xs) ∧ xs ≡ₚ range_values (T (tx_data tx)).
Proof.
  intros Hkey Hf Hro (m & Hm & Hall). destruct (table_values m Hall) as (xs & Hxs & Hin).
  exists xs. rewrite (b_ForEach_law _ _ _ _ m Hm), (fold_all upd f _ xs) by eauto.
  split; [done|]. by eapply table_values_sorted.
Qed.

(** [ForEach] with a callback that leaves every stored record alone. *)
Lemma foreach_idle {X} (f : string → string → GoM (Tx * X) unit) tx (x : X) :
  ok (tx_data tx) →
  (∀ k v a y, json_Unmarshal c v = Some a → T (tx_data tx) !! k = Some a → f k v (tx, y) = (Ok tt, (tx, y))) →
  b_ForEach b f (tx, x) = (Ok tt, (tx, x)).
Proof.
  intros (m & Hm & Hall) Hf.
  assert (∀ k v y, m !! k = Some v → f k v (tx, y) = (Ok tt, (tx, y))) as Hidle.
  { intros k v y Hk. destruct (Hall k v Hk) as (a & Ha & _). eapply Hf; [exact Ha|].
    by rewrite (table_lookup _ m k Hm), Hk. }
  rewrite (b_ForEach_law _ _ _ _ m Hm) by (intros ?????? Hk Hrun; rewrite Hidle in Hrun by done; congruence).
  assert (∀ kv, kv ∈ sorted_pairs m → m !! kv.1 = Some kv.2) as Hin
    by (intros [k v] Hk%elem_of_sort_by%elem_of_map_to_list; done).
  induction (sorted_pairs m) as [|kv l IH]; [done|]. cbn [for_each].
  rewrite (gom_bind_ok _ _ _ _ _ (Hidle _ _ _ (Hin kv ltac:(by left)))). apply IH. intros kv' Hl. apply Hin. by right.
Qed.
End table.

Lemma foldl_snoc_app {A} (l acc : list A) : foldl (λ acc x, acc ++ [x]) acc l = acc ++ l.
Proof.
  revert acc. induction l as [|x l IH]; intros acc; cbn; [by rewrite app_nil_r|].
  by rewrite IH, <-app_assoc.
Qed.
