(* ===== verification/DiskMetadataSpec.v ===== *)
(** * The disk metadata store implements the metadata catalog.

    Read through the JSON codecs, the two buckets of the store are a [Catalog],
    the specification state of [Backend].  Every call of the interface, on
    arguments that JSON can carry, answers what the specification answers and
    leaves the records of the specification, or fails without changing a
    record; other buckets of the same file are left alone. *)

From S2P Require Import Prelude Metadata Replication Backend MetadataSpec ReplicationSpec Utf8 Json Times Codec Records Bolt DiskStore DiskMetadata DiskTable.
From stdpp Require Import options.

(** ** Calls of the interface as data *)

Inductive MetaCall : Type → Type :=
  | CUpsertNode (id addr : string) : MetaCall NodeMetadata
  | CMarkExpiredNodes (ttl : Duration) : MetaCall unit
  | CHealthyNodes : MetaCall (list NodeMetadata)
  | CNodes : MetaCall (list NodeMetadata)
  | CBeginFileVersion (key : string) (size : Z) (checksum : string) (chunks : list ChunkMetadata)
      (primary : string) (replicas : list string) : MetaCall FileMetadata
  | CNextVersion (key : string) : MetaCall Z
  | CMarkReplica (key nodeID : string) (state : ReplicaState) : MetaCall FileMetadata
  | CTombstone (key : string) : MetaCall FileMetadata
  | CGetFile (key : string) : MetaCall (option FileMetadata)
  | CListFiles : MetaCall (list FileMetadata)
  | CAddReplica (key nodeID : string) (state : ReplicaState) : MetaCall FileMetadata.

(** A call on an implementation of the interface. *)
Definition backend_call {B} `{MetadataBackend B} {A} (call : MetaCall A) : GoM B A :=
  match call with
  | CUpsertNode id addr => mb_UpsertNode id addr
  | CMarkExpiredNodes ttl => mb_MarkExpiredNodes ttl
  | CHealthyNodes => mb_HealthyNodes
  | CNodes => mb_Nodes
  | CBeginFileVersion key size checksum chunks primary replicas =>
      mb_BeginFileVersion key size checksum chunks primary replicas
  | CNextVersion key => mb_NextVersion key
  | CMarkReplica key nodeID state => mb_MarkReplica key nodeID state
  | CTombstone key => mb_Tombstone key
  | CGetFile key => mb_GetFile key
  | CListFiles => mb_ListFiles
  | CAddReplica key nodeID state => mb_AddReplica key nodeID state
  end.

(** The same call on the specification. *)
Definition catalog_call {A} (call : MetaCall A) : Time → GoM Catalog A :=
  match call with
  | CUpsertNode id addr => cat_upsert id addr
  | CMarkExpiredNodes ttl => cat_expire ttl
  | CHealthyNodes => cat_healthy_nodes
  | CNodes => cat_all_nodes
  | CBeginFileVersion key size checksum chunks primary replicas =>
      cat_begin key size checksum chunks primary replicas
  | CNextVersion key => cat_next_version key
  | CMarkReplica key nodeID state => cat_mark_replica key nodeID state
  | CTombstone key => cat_tombstone key
  | CGetFile key => cat_get_file key
  | CListFiles => cat_list_files
  | CAddReplica key nodeID state => cat_add_replica key nodeID state
  end.

(** A call with its answer, and histories of them on the specification, with
    failures of a given kind that change nothing. *)
Inductive MetaEvent :=
  | Ev {A : Type} (call : MetaCall A) (answer : Res A).

Definition call_step (fails : GoError → Prop) {A} (call : MetaCall A) (r : Res A)
    (c c' : Catalog) : Prop :=
  (∃ t, catalog_call call t c = (r, c')) ∨ (c' = c ∧ ∃ e, r = Err e ∧ fails e).

Inductive catalog_trace (fails : GoError → Prop) : Catalog → list MetaEvent → Catalog → Prop :=
  | ct_nil c : catalog_trace fails c [] c
  | ct_call A (call : MetaCall A) r c c1 evs c2 :
      call_step fails call r c c1 → catalog_trace fails c1 evs c2 →
      catalog_trace fails c (Ev call r :: evs) c2.

(** ** The stored catalog *)

Definition file_good (k : string) (f : FileMetadata) : Prop :=
  key_ok k ∧ fm_Key f = k ∧ file_json f.
Definition node_good (k : string) (n : NodeMetadata) : Prop :=
  key_ok k ∧ nm_ID n = k ∧ node_json n.

Abbreviation files_ok := (table_ok c_FileMetadata file_good metadataFilesBucket).
Abbreviation nodes_ok := (table_ok c_NodeMetadata node_good metadataNodesBucket).
Abbreviation stored_files := (table c_FileMetadata metadataFilesBucket).
Abbreviation stored_nodes := (table c_NodeMetadata metadataNodesBucket).

Definition data_ok (d : BoltData) : Prop := files_ok d ∧ nodes_ok d.
Definition data_catalog (d : BoltData) : Catalog :=
  {| cat_files := stored_files d; cat_nodes := stored_nodes d |}.

(** Buckets of other components. *)
Definition meta_frame (d d' : BoltData) : Prop :=
  ∀ b, b ≠ metadataFilesBucket → b ≠ metadataNodesBucket → d' !! b = d !! b.

#[export] Instance meta_frame_reflexive : Reflexive meta_frame.
Proof. by intros d b _ _. Qed.

Lemma file_stored k f : file_good k f → key_ok k ∧ survives c_FileMetadata 3 f.
Proof. intros (Hk & _ & Hf). split; [done|by apply survives_file]. Qed.
Lemma node_stored k n : node_good k n → key_ok k ∧ survives c_NodeMetadata 3 n.
Proof.
  intros (Hk & _ & Hn). split; [done|].
  destruct (survives_node n Hn) as (v & He & Hv & Hd & Hx). exists v. split_and!; try done. lia.
Qed.

Section disk.
Context {DB Tx : Type} `{BoltLaws DB Tx}.
Abbreviation Disk := (DiskMetadataStore DB).

Definition disk_data (m : Disk) : BoltData := store_data m.
Definition disk_ok (m : Disk) : Prop := store_ok data_ok m.
Definition disk_catalog (m : Disk) : Catalog := store_abs data_catalog m.
Abbreviation disk_refines := (store_refines data_ok data_catalog meta_frame).
Abbreviation Closure A := (GoM (Tx * (Clock * unit)) A).

(** ** Records in and out *)

Lemma getFile_run {X} tx (x : X) key :
  data_ok (tx_data tx) →
  getFileFromBucket metadataFilesBucket key (tx, x) = (Ok (stored_files (tx_data tx) !! key), (tx, x)).
Proof.
  intros [Hf _]. destruct (get_run _ _ _ tx x key Hf) as (raw & Hget & Hdec & Hsome).
  unfold getFileFromBucket. erewrite gom_bind_ok by exact Hget. rewrite <-Hdec.
  destruct raw as [s|]; [|done]. cbn [mbind option_bind].
  destruct (Hsome s) as [f Hs]; [done|]. by rewrite Hs.
Qed.

(** Storing a good file; the outcome shared by all closures that store one. *)
Lemma put_file {X} tx (x : X) k f :
  data_ok (tx_data tx) → file_good k f →
  ∃ r tx', putMetadataJSON metadataFilesBucket k c_FileMetadata f (tx, x) = (r, (tx', x)) ∧
    ((r = Ok tt ∧ data_ok (tx_data tx') ∧ meta_frame (tx_data tx) (tx_data tx') ∧
      data_catalog (tx_data tx') =
        cat_set_files (data_catalog (tx_data tx)) (<[k := f]> (stored_files (tx_data tx)))) ∨
     r = Err ErrValueTooLarge).
Proof.
  intros [Hf Hn] Hg.
  destruct (put_run c_FileMetadata file_good _ file_stored tx x k f Hf Hg)
    as (r & tx' & Hput & [(-> & Hok & HT & Hb & _)|(-> & _)]);
    eexists _, tx'; (split; [exact Hput|]); [left|by right].
  split_and!; [done|split; [done|by eapply table_ok_frame]|intros b ? ?; by apply Hb|].
  unfold data_catalog, cat_set_files. cbn. rewrite HT. f_equal. by eapply table_frame.
Qed.

Lemma put_node {X} tx (x : X) k n :
  data_ok (tx_data tx) → node_good k n →
  ∃ r tx', putMetadataJSON metadataNodesBucket k c_NodeMetadata n (tx, x) = (r, (tx', x)) ∧
    ((r = Ok tt ∧ data_ok (tx_data tx') ∧ meta_frame (tx_data tx) (tx_data tx') ∧
      data_catalog (tx_data tx') =
        cat_set_nodes (data_catalog (tx_data tx)) (<[k := n]> (stored_nodes (tx_data tx)))) ∨
     r = Err ErrValueTooLarge).
Proof.
  intros [Hf Hn] Hg.
  destruct (put_run c_NodeMetadata node_good _ node_stored tx x k n Hn Hg)
    as (r & tx' & Hput & [(-> & Hok & HT & Hb & _)|(-> & _)]);
    eexists _, tx'; (split; [exact Hput|]); [left|by right].
  split_and!; [done|split; [by eapply table_ok_frame|done]|intros b ? ?; by apply Hb|].
  unfold data_catalog, cat_set_nodes. cbn. rewrite HT. f_equal. by eapply table_frame.
Qed.

(** ** Nodes *)

Lemma UpsertNode_refines id addr :
  key_ok id → utf8_ok addr → disk_refines (dm_UpsertNode id addr) (cat_upsert id addr).
Proof.
  intros Hid Haddr. unfold dm_UpsertNode. apply clock_refines. intros t Ht.
  set (node := {| nm_ID := id; nm_Addr := addr; nm_State := NodeHealthy; nm_LastHeartbeat := t |}).
  apply (map_refines _ (λ _, node)
    (λ _ c, (Ok tt, cat_set_nodes c (<[id := node]> (cat_nodes c))))); [done|].
  apply Update_refines. intros tx c r tx' c' [] Hd Hc Hrun.
  destruct (put_node tx (c, tt) id node Hd) as (r0 & tx1 & Hput & Hcase).
  { split_and!; [done|done|]. destruct Hid as (_ & _ & ?). by split_and!. }
  rewrite Hput in Hrun. simplify_eq. split; [done|].
  destruct Hcase as [(-> & Hok & Hfr & Hcat)| ->]; [|by right].
  split_and!; [done|done|]. exists t. by rewrite Hcat.
Qed.

(** ** Files *)

Lemma replicas_json primary replicas t :
  Forall utf8_ok replicas → time_ok t →
  map_Forall (λ id r, utf8_ok id ∧ replica_json r) (initial_replicas primary replicas t).
Proof.
  intros Hr Ht id r. rewrite initial_replicas_lookup. case_decide as Hid; [|done].
  rewrite Forall_forall in Hr. intros [= <-]. split; [by apply Hr|]. split; [by apply Hr|done].
Qed.

Lemma new_version_good key version size checksum chunks primary replicas created t :
  key_ok key → in_u64 version → in_s64 size → utf8_ok checksum → Forall chunk_json chunks →
  utf8_ok primary → Forall utf8_ok replicas → time_ok created → time_ok t →
  file_good key (new_file_version key version size checksum chunks primary replicas created t).
Proof.
  intros Hk Hv Hs Hsum Hch Hp Hr Hcr Ht. split_and!; [done|done|]. destruct Hk as (_ & _ & Hk).
  unfold new_file_version, file_json. cbn. rewrite cloneChunkMetadata_id.
  split_and!; try done. by apply replicas_json.
Qed.

Lemma BeginFileVersion_refines key size checksum chunks primary replicas :
  key_ok key → in_s64 size → utf8_ok checksum → Forall chunk_json chunks →
  utf8_ok primary → Forall utf8_ok replicas →
  disk_refines (dm_BeginFileVersion key size checksum chunks primary replicas)
    (cat_begin key size checksum chunks primary replicas).
Proof.
  intros Hk Hs Hsum Hch Hp Hr. unfold dm_BeginFileVersion.
  apply (map_refines _ cloneFileMetadata (cat_begin key size checksum chunks primary replicas)).
  { intros t s. cbn. by rewrite cloneFileMetadata_id. }
  apply Update_refines. intros tx c r tx' c' [] Hd Hc Hrun.
  set (t := readings c (taken c)). assert (Ht : time_ok t) by (by apply clock_time_ok).
  erewrite gom_bind_ok in Hrun by reflexivity.
  erewrite gom_bind_ok in Hrun by (by apply getFile_run). cbn [fst snd] in Hrun.
  change (readings c (taken c)) with t in Hrun.
  assert (Hnext : (match stored_files (tx_data tx) !! key with
      | Some prev => (wrap_u64 (fm_Version prev + 1), fm_CreatedAt prev)
      | None => (1%Z, t) end) = nextVersionLocked (stored_files (tx_data tx)) key t).
  { unfold nextVersionLocked. by case_match. }
  rewrite Hnext in Hrun.
  pose proof (nextVersionLocked_in (stored_files (tx_data tx)) key t) as Hv.
  assert (Hcr : time_ok (nextVersionLocked (stored_files (tx_data tx)) key t).2).
  { unfold nextVersionLocked. destruct (stored_files (tx_data tx) !! key) as [prev|] eqn:Hprev; [|done].
    destruct Hd as [Hf _]. by apply (table_good _ _ _ _ _ _ Hf) in Hprev as (_ & _ & ?); unfold file_json in *; naive_solver. }
  destruct (nextVersionLocked _ _ _) as [version created] eqn:Hnv. cbn [fst snd] in *.
  set (meta := new_file_version key version size checksum chunks primary replicas created t) in *.
  match type of Hrun with _ (tx, ?x) = _ => destruct (put_file tx x key meta Hd) as (r0 & tx1 & Hput & Hcase) end.
  { by apply new_version_good. }
  destruct Hcase as [(-> & Hok & Hfr & Hcat)| ->].
  - erewrite gom_bind_ok in Hrun by exact Hput. inv Hrun. split; [done|]. split_and!; [done|done|].
    exists t. unfold cat_begin. cbn [cat_files data_catalog]. rewrite Hnv. by rewrite Hcat.
  - erewrite gom_bind_err in Hrun by exact Hput. inv Hrun. split; [done|by right].
Qed.

(** A rewriting of the record under [key] that follows [spec]. *)
Definition rewrite_spec (key : string) (rw : FileMetadata → Closure FileMetadata)
    (spec : Time → GoM Catalog FileMetadata) : Prop :=
  (∀ t c, cat_files c !! key = None → spec t c = (Err ErrMetadataNotFound, c)) ∧
  ∀ meta tx ck c, file_good key meta → clock_ok (readings ck) → cat_files c !! key = Some meta →
    (∃ meta' t ck', rw meta (tx, (ck, tt)) = (Ok meta', (tx, (ck', tt))) ∧
       readings ck' = readings ck ∧ file_good key meta' ∧
       spec t c = (Ok meta', cat_set_files c (<[key := meta']> (cat_files c)))) ∨
    (∃ e t, rw meta (tx, (ck, tt)) = (Err e, (tx, (ck, tt))) ∧ spec t c = (Err e, c)).

Lemma update_file_refines key rw spec :
  rewrite_spec key rw spec → disk_refines (update_file key rw) spec.
Proof.
  intros [Hnone Hsome]. unfold update_file. apply (map_refines _ cloneFileMetadata spec).
  { intros t s. destruct (spec t s) as [[a|e|] s']; cbn; by rewrite ?cloneFileMetadata_id. }
  apply Update_refines. intros tx c r tx' c' [] Hd Hc Hrun.
  erewrite gom_bind_ok in Hrun by (by apply getFile_run).
  destruct (stored_files (tx_data tx) !! key) as [meta|] eqn:Hkey.
  2:{ inv Hrun. split; [done|]. left. exists zero_time. by apply Hnone. }
  assert (Hg : file_good key meta) by (destruct Hd as [Hf _]; by eapply table_good).
  destruct (Hsome meta tx c (data_catalog (tx_data tx)) Hg Hc Hkey)
    as [(meta' & t & c1 & Hrw & Hrd & Hg' & Hspec)|(e & t & Hrw & Hspec)].
  - erewrite gom_bind_ok in Hrun by exact Hrw.
    destruct (put_file tx (c1, tt) key meta' Hd Hg') as (r0 & tx1 & Hput & Hcase).
    destruct Hcase as [(-> & Hok & Hfr & Hcat)| ->].
    + erewrite gom_bind_ok in Hrun by exact Hput. inv Hrun. split; [done|].
      split_and!; [done|done|]. exists t. by rewrite Hspec, Hcat.
    + erewrite gom_bind_err in Hrun by exact Hput. inv Hrun. split; [done|by right].
  - erewrite gom_bind_err in Hrun by exact Hrw. inv Hrun. split; [done|]. left. by exists t.
Qed.

Lemma file_good_set_replicas key meta rs t :
  file_good key meta → map_Forall (λ id r, utf8_ok id ∧ replica_json r) rs → time_ok t →
  file_good key (set_replicas meta rs t).
Proof. intros (Hk & Hkey & Hj) Hrs Ht. split_and!; [done|done|]. unfold file_json in *. naive_solver. Qed.

Lemma file_good_replica key meta id r :
  file_good key meta → fm_Replicas meta !! id = Some r → utf8_ok id ∧ replica_json r.
Proof. intros (_ & _ & (_ & _ & _ & _ & _ & _ & Hr & _)) Hid. by apply (Hr id r). Qed.

Lemma file_good_replicas key meta :
  file_good key meta → map_Forall (λ id r, utf8_ok id ∧ replica_json r) (fm_Replicas meta).
Proof. intros Hg id r. by apply file_good_replica with key. Qed.

Lemma file_good_tombstone key meta t :
  file_good key meta → time_ok t → file_good key (tombstone_of meta t).
Proof.
  intros Hg Ht. pose proof (file_good_replicas _ _ Hg) as Hrs. destruct Hg as (Hk & Hkey & Hj).
  split_and!; [done|done|]. unfold file_json in *. cbn.
  split_and!; try naive_solver; [apply wrap_u64_in|].
  intros id r. rewrite lookup_fmap_Some. intros (r0 & <- & Hr0). apply Hrs in Hr0 as [Hid [Hn _]].
  by split_and!.
Qed.

Lemma MarkReplica_refines key nodeID st :
  disk_refines (dm_MarkReplica key nodeID st) (cat_mark_replica key nodeID st).
Proof.
  apply update_file_refines. split; [intros t c Hk; unfold cat_mark_replica; by rewrite Hk|].
  intros meta tx ck c Hg Hc Hk. unfold cat_mark_replica. setoid_rewrite Hk.
  destruct (fm_Replicas meta !! nodeID) as [replica|] eqn:Hr.
  - left. pose proof (clock_time_ok _ (taken ck) Hc) as Ht.
    eexists _, _, _. split_and!; [reflexivity|reflexivity| |reflexivity].
    apply file_good_set_replicas; [done| |done].
    apply map_Forall_insert_2; [|by apply file_good_replicas with key].
    destruct (file_good_replica _ _ _ _ Hg Hr) as [? [? _]]. by split_and!.
  - right. exists ErrReplicaNotFound, zero_time. by split.
Qed.

Lemma Tombstone_refines key : disk_refines (dm_Tombstone key) (cat_tombstone key).
Proof.
  apply update_file_refines. split; [intros t c Hk; unfold cat_tombstone; by rewrite Hk|].
  intros meta tx ck c Hg Hc Hk. unfold cat_tombstone. setoid_rewrite Hk. left.
  pose proof (clock_time_ok _ (taken ck) Hc) as Ht.
  eexists _, _, _. split_and!; [reflexivity|reflexivity| |reflexivity].
  by apply file_good_tombstone.
Qed.

Lemma AddReplica_refines key nodeID st :
  utf8_ok nodeID → disk_refines (dm_AddReplica key nodeID st) (cat_add_replica key nodeID st).
Proof.
  intros Hn. apply update_file_refines.
  split; [intros t c Hk; unfold cat_add_replica; by rewrite Hk|].
  intros meta tx ck c Hg Hc Hk. unfold cat_add_replica. setoid_rewrite Hk. left.
  pose proof (clock_time_ok _ (taken ck) Hc) as Ht.
  eexists _, _, _. split_and!; [reflexivity|reflexivity| |reflexivity].
  apply file_good_set_replicas; [done| |done].
  apply map_Forall_insert_2; [by split_and!|by apply file_good_replicas with key].
Qed.

(** ** Queries *)

Lemma NextVersion_refines key : disk_refines (dm_NextVersion key) (cat_next_version key).
Proof.
  unfold dm_NextVersion, View.
  apply (on_View_refines _ _ (λ c v _, v = (nextVersionLocked (cat_files c) key zero_time).1)).
  - intros tx c r tx' c' x' Hd Hc Hrun. erewrite gom_bind_ok in Hrun by (by apply getFile_run).
    inv Hrun. split; [done|]. eexists. split; [done|]. unfold nextVersionLocked.
    cbn [cat_files data_catalog]. by destruct (table _ _ _ !! key).
  - intros c v x' ->. by eexists _, zero_time.
Qed.

Lemma GetFile_refines key : disk_refines (dm_GetFile key) (cat_get_file key).
Proof.
  unfold dm_GetFile. apply (map_refines _ _ (cat_get_file key)).
  { intros t s. cbn. by rewrite fmap_clone_option. }
  unfold View. apply (on_View_refines _ _ (λ c v _, v = cat_files c !! key)).
  - intros tx c r tx' c' x' Hd Hc Hrun. rewrite getFile_run in Hrun by done.
    inv Hrun. split; [done|]. by eexists.
  - intros c v x' ->. by eexists _, zero_time.
Qed.

(** A [ForEach] that collects the records of a bucket. *)
Lemma collect_run {A} (c : Codec A) (good : string → A → Prop) b (key : A → string) tx ck r tx' ck' xs :
  (∀ k x, good k x → key x = k) → table_ok c good b (tx_data tx) →
  b_ForEach b (append_decoded c) (tx, (ck, [])) = (r, (tx', (ck', xs))) →
  r = Ok tt ∧ ck' = ck ∧ NoDup (key <$> xs) ∧ xs ≡ₚ range_values (table c b (tx_data tx)).
Proof.
  intros Hkey Hok Hrun.
  destruct (foreach_fold c good b (λ acc x, acc ++ [x]) key (append_decoded c) tx ck [])
    as (ys & Hys & Hnd & Hp); [done| | |done|].
  - intros k v a tx1 ck1 x Ha. unfold append_decoded. by rewrite Ha.
  - intros k v tx1 s r1 tx2 s2 Hcb. unfold append_decoded, captured, capture in Hcb.
    destruct (json_Unmarshal c v); autounfold with go in Hcb; by inv Hcb.
  - rewrite Hys, foldl_snoc_app in Hrun. by simplify_eq/=.
Qed.

Lemma list_refines {A} (c : Codec A) good b (key : A → string) (clone : A → A)
    (sel : Catalog → gmap string A) spec :
  (∀ k x, good k x → key x = k) → (∀ d, data_ok d → table_ok c good b d) →
  (∀ d, sel (data_catalog d) = table c b d) → (∀ xs : list A, clone <$> xs = xs) →
  (∀ t cat, spec t cat = (Ok (sort_by key (range_values (sel cat))), cat)) →
  disk_refines ('(_, xs) ← on_db (db_View (b_ForEach b (append_decoded c))) [];
                mret (sort_by key (clone <$> xs))) spec.
Proof.
  intros Hkey Hok Hsel Hclone Hspec.
  apply (on_View_refines _ [] (λ cat _ xs, NoDup (key <$> xs) ∧ xs ≡ₚ range_values (sel cat))).
  - intros tx ck r0 tx' ck' xs Hd Hc Hcb.
    destruct (collect_run c good b key _ _ _ _ _ _ Hkey (Hok _ Hd) Hcb) as (-> & -> & Hnd & Hp).
    split; [done|]. exists tt. by rewrite Hsel.
  - intros cat [] xs [Hnd Hp]. eexists _, zero_time. split; [done|].
    by rewrite Hspec, Hclone, (sort_by_unique key xs _ Hnd Hp).
Qed.

Lemma Nodes_refines : disk_refines dm_Nodes cat_all_nodes.
Proof.
  intros m r m' Hok Hrun.
  eapply (list_refines c_NodeMetadata node_good metadataNodesBucket nm_ID id cat_nodes);
    [by intros ? ? (_ & ? & _)|by intros ? [_ ?]|done|by intros; apply list_fmap_id|done|done|].
  rewrite <-Hrun. unfold dm_Nodes. autounfold with go.
  destruct (on_db _ _ m) as [[[? ?]|?|] ?]; [by rewrite list_fmap_id|done..].
Qed.

Lemma ListFiles_refines : disk_refines dm_ListFiles cat_list_files.
Proof.
  apply (list_refines c_FileMetadata file_good metadataFilesBucket fm_Key cloneFileMetadata cat_files);
    [by intros ? ? (_ & ? & _)|by intros ? [? _]|done|apply fmap_clone_list|done].
Qed.

Lemma filter_sort_by {A} (key : A → string) (Q : A → Prop) `{!∀ x, Decision (Q x)} l :
  NoDup (key <$> l) → filter Q (sort_by key l) = sort_by key (filter Q l).
Proof.
  intros Hnd. apply (StronglySorted_unique_strong (by_key key)).
  - intros x y [_ Hx%elem_of_sort_by]%list_elem_of_filter.
    intros [_ Hy]%elem_of_sort_by%list_elem_of_filter Hxy Hyx.
    eapply NoDup_fmap_elem; eauto. by apply (anti_symm String.le).
  - eapply StronglySorted_sublist; [apply sublist_filter|apply Sorted_sort_by].
  - apply Sorted_sort_by.
  - by rewrite !sort_by_Permutation.
Qed.

Lemma HealthyNodes_refines : disk_refines dm_HealthyNodes cat_healthy_nodes.
Proof.
  intros m r m' Hok Hrun. unfold dm_HealthyNodes in Hrun. autounfold with go in Hrun.
  destruct (dm_Nodes m) as [r0 m1] eqn:Hn.
  destruct (Nodes_refines m r0 m1 Hok Hn) as (Hok1 & Hfr & Hcase).
  destruct Hcase as [[t Ht]|(Hsame & e & -> & He)].
  - pose proof (f_equal snd Ht) as Hcat. pose proof (f_equal fst Ht) as Hr. cbn [fst snd] in Hcat, Hr.
    rewrite <-Hr in Hrun. inv Hrun. split_and!; [done|done|]. left. exists t.
    unfold cat_healthy_nodes. rewrite <-Hcat. f_equal. f_equal. symmetry.
    apply filter_sort_by, NoDup_range_values.
    intros k n Hk. destruct Hok as [[_ Hnodes] _].
    by apply (table_good _ _ _ _ _ _ Hnodes) in Hk as (_ & ? & _).
  - assert (r = Err e ∧ m1 = m') as [-> <-] by (by split; congruence).
    split; [done|]. split; [done|]. right. split; [exact Hsame|]. by exists e.
Qed.

(** ** Expiry *)

(** No stored node is so old that [MarkExpiredNodes] would mark it now. *)
Definition nothing_expires (ttl : Duration) (m : Disk) : Prop :=
  map_Forall (λ _ n, TimeAdd (now (ds_now m)).1 (wrap_s64 (- ttl)) ≤ nm_LastHeartbeat n)%Z
    (stored_nodes (disk_data m)).

Lemma expire_idle (cutoff : Time) tx (ck : Clock) :
  nodes_ok (tx_data tx) → map_Forall (λ _ n, cutoff ≤ nm_LastHeartbeat n)%Z (stored_nodes (tx_data tx)) →
  b_ForEach metadataNodesBucket (expire_stored_node cutoff) (tx, (ck, tt)) = (Ok tt, (tx, (ck, tt))).
Proof.
  intros Hok Hfresh. apply (foreach_idle c_NodeMetadata node_good); [done|]. intros k v n y Hv Hn.
  unfold expire_stored_node. rewrite Hv. specialize (Hfresh k n Hn). cbn in Hfresh.
  unfold Before. by rewrite (proj2 (Z.ltb_ge _ _)).
Qed.

Lemma MarkExpiredNodes_simulates ttl m r m' :
  disk_ok m → nothing_expires ttl m → dm_MarkExpiredNodes ttl m = (r, m') →
  disk_ok m' ∧ meta_frame (disk_data m) (disk_data m') ∧
  ((∃ t, cat_expire ttl t (disk_catalog m) = (r, disk_catalog m')) ∨
   (disk_catalog m' = disk_catalog m ∧ ∃ e, r = Err e ∧ (db_fault (ds_db m) ∨ e = ErrValueTooLarge))).
Proof.
  intros [Hd Hc] Hfresh Hrun. unfold dm_MarkExpiredNodes, ds_clock in Hrun. autounfold with go in Hrun.
  unfold nothing_expires, now in Hfresh. cbn [fst] in Hfresh.
  set (t := readings (ds_now m) (taken (ds_now m))) in *.
  set (cutoff := TimeAdd t (wrap_s64 (- ttl))) in *.
  set (fresh := λ d, data_ok d ∧ map_Forall (λ _ n, cutoff ≤ nm_LastHeartbeat n)%Z (stored_nodes d)).
  destruct (Update_refines (ok := fresh) (abs := data_catalog) (frame := meta_frame)
    (b_ForEach metadataNodesBucket (expire_stored_node cutoff)) (λ _, cat_expire ttl t)
    ) with (3 := Hrun) as ([[Hd' _] Hc'] & Hfr & Hcase).
  - intros tx c r1 tx1 c1 [] [[Hf Hn] Hfr] Hcl Hb. rewrite (expire_idle cutoff) in Hb by done.
    injection Hb as <- <- <-. split; [done|]. split; [done|]. split; [done|]. exists t.
    unfold cat_expire. do 2 f_equal. unfold cat_set_nodes, data_catalog. cbn. f_equal.
    rewrite <-(map_fmap_id (stored_nodes (tx_data tx))) at 2. apply map_fmap_ext. intros k n Hk.
    specialize (Hfr k n Hk). cbn in Hfr. unfold expire_node, Before. fold cutoff.
    by rewrite (proj2 (Z.ltb_ge _ _)).
  - by split.
  - split; [by split|]. split; [done|]. destruct Hcase as [[_ Hs]|Hf]; [left; by exists t|by right].
Qed.

(** ** All calls *)

(** What a call needs: arguments that JSON can carry, and that it does not modify
    a bucket inside [ForEach], where bbolt promises nothing: [MarkExpiredNodes]
    finds no node to mark. *)
Definition call_ok {A} (call : MetaCall A) (m : Disk) : Prop :=
  match call with
  | CUpsertNode id addr => key_ok id ∧ utf8_ok addr
  | CMarkExpiredNodes ttl => nothing_expires ttl m
  | CBeginFileVersion key size checksum chunks primary replicas =>
      key_ok key ∧ in_s64 size ∧ utf8_ok checksum ∧ Forall chunk_json chunks ∧
      utf8_ok primary ∧ Forall utf8_ok replicas
  | CAddReplica _ nodeID _ => utf8_ok nodeID
  | _ => True
  end.

Lemma call_simulates {A} (call : MetaCall A) m r m' :
  call_ok call m → disk_ok m → backend_call call m = (r, m') →
  disk_ok m' ∧ meta_frame (disk_data m) (disk_data m') ∧
  ((∃ t, catalog_call call t (disk_catalog m) = (r, disk_catalog m')) ∨
   (disk_catalog m' = disk_catalog m ∧ ∃ e, r = Err e ∧ (db_fault (ds_db m) ∨ e = ErrValueTooLarge))).
Proof.
  destruct call; cbn; intros Hok Hm Hrun.
  - destruct Hok. by apply (UpsertNode_refines id addr).
  - by apply MarkExpiredNodes_simulates.
  - by apply HealthyNodes_refines.
  - by apply Nodes_refines.
  - destruct Hok as (? & ? & ? & ? & ? & ?). by eapply BeginFileVersion_refines.
  - by eapply NextVersion_refines.
  - by eapply MarkReplica_refines.
  - by eapply Tombstone_refines.
  - by eapply GetFile_refines.
  - by eapply ListFiles_refines.
  - by eapply AddReplica_refines.
Qed.

(** Histories of calls on the disk store, each with what it needs. *)
Inductive disk_history : Disk → list MetaEvent → Disk → Prop :=
  | dh_nil m : disk_history m [] m
  | dh_call A (call : MetaCall A) r m m1 evs m2 :
      call_ok call m → backend_call call m = (r, m1) → disk_history m1 evs m2 →
      disk_history m (Ev call r :: evs) m2.

(** The failures that are not the specification's. *)
Definition disk_failure (e : GoError) : Prop := (∃ db : DB, db_fault db) ∨ e = ErrValueTooLarge.

Lemma disk_history_simulates evs (m m' : Disk) :
  disk_ok m → disk_history m evs m' →
  disk_ok m' ∧ meta_frame (disk_data m) (disk_data m') ∧
  catalog_trace disk_failure (disk_catalog m) evs (disk_catalog m').
Proof.
  intros Hok Htr. induction Htr as [m|A call r m m1 evs m2 Hcall Hrun Htr IH].
  { split_and!; [done|done|constructor]. }
  destruct (call_simulates call m r m1 Hcall Hok Hrun) as (Hok1 & Hfr1 & Hcase).
  destruct (IH Hok1) as (Hok2 & Hfr2 & Htr2). split_and!; [done| |].
  - intros b Hb1 Hb2. by rewrite Hfr2, Hfr1.
  - econstructor; [|done]. destruct Hcase as [Hspec|(Hsame & e & -> & He)]; [by left|right].
    split; [done|]. exists e. split; [done|]. destruct He as [?|?]; [left; eauto|by right].
Qed.

(** ** Opening *)

(** A bucket that is missing or good. *)
Definition openable (d : BoltData) : Prop :=
  (d !! metadataFilesBucket = None ∨ files_ok d) ∧ (d !! metadataNodesBucket = None ∨ nodes_ok d).

Lemma Open_run db clock r :
  openable (db_data db) → clock_ok (readings clock) → OpenDiskMetadataStore (Ok db) clock = r →
  match r with
  | Ok m => disk_ok m ∧ disk_catalog m = data_catalog (db_data db) ∧
      meta_frame (db_data db) (disk_data m)
  | Err _ => db_fault db
  | Panic => False
  end.
Proof.
  intros [Hf Hn] Hc <-. cbn. destruct (dm_init _) as [r m] eqn:Hrun.
  unfold dm_init, Update, on_db in Hrun. autounfold with go in Hrun.
  match type of Hrun with context [db_Update ?f ?s] => destruct (db_Update f s) as [r0 [db' [c' []]]] eqn:Hu end.
  cbn in Hu. apply db_Update_law in Hu as [(tx & tx' & Htx & Hbody & Hdata)|(Hfault & [e ->] & _)];
    [|cbn in Hrun; by inv Hrun].
  unfold in_tx, zoom in Hbody. cbn in Hbody.
  destruct (tx_CreateBucket_law metadataFilesBucket tx) as (tx1 & Hc1 & Hd1); [done|].
  destruct (tx_CreateBucket_law metadataNodesBucket tx1) as (tx2 & Hc2 & Hd2); [done|].
  rewrite Hc1 in Hbody. cbn in Hbody. rewrite Hc2 in Hbody. simplify_eq.
  cbn in Hdata. unfold disk_ok, disk_catalog, disk_data, store_ok, store_abs, store_data. cbn. rewrite Hdata, Hd2, Hd1, Htx.
  destruct (create_ok c_FileMetadata file_good _ _ Hf) as (Hf1 & HT1 & Hb1).
  set (d1 := <[metadataFilesBucket := _]> (db_data db)) in *.
  assert (Hn1 : d1 !! metadataNodesBucket = None ∨ nodes_ok d1).
  { destruct Hn as [Hn|Hn]; [left; by rewrite Hb1|right; by eapply table_ok_frame]. }
  destruct (create_ok c_NodeMetadata node_good _ _ Hn1) as (Hn2 & HT2 & Hb2).
  split_and!; try done.
  - split; [by eapply table_ok_frame|done].
  - unfold data_catalog. f_equal.
    + rewrite (table_frame _ _ _ _ _ Hb2) by done. done.
    + rewrite HT2. by eapply table_frame.
  - intros b Hb Hb'. by rewrite Hb2, Hb1.
Qed.
End disk.

(** A new database is an empty catalog. *)
Lemma openable_empty : openable ∅ ∧ data_catalog ∅ = {| cat_files := ∅; cat_nodes := ∅ |}.
Proof. split; [split; by left|]. unfold data_catalog, table. by rewrite !lookup_empty. Qed.
