(* ===== verification/DiskQueue.v ===== *)
(** * The disk task queue: [replication_disk.go].

    Every method of [DiskReplicationTaskQueue], over the same database handle as
    the metadata store, in a bucket of its own.  [NewDiskReplicationTaskQueue]
    puts the tasks that were running when the process stopped back to
    pending. *)

From S2P Require Import Prelude Metadata Replication Backend Utf8 Json Times Codec Records Bolt DiskStore DiskMetadata.
From stdpp Require Import options.

Definition replicationTasksBucket : string := "replication_tasks".

(** The struct: the database and the clock. *)
Abbreviation DiskReplicationTaskQueue := DiskStore.

Section disk_queue.
Context {DB Tx : Type} `{!Bolt DB Tx}.
Abbreviation Queue := (DiskReplicationTaskQueue DB).

(** ** Helpers *)

Definition decodeReplicationTask {S} (raw : string) : GoM S ReplicationTask :=
  match json_Unmarshal c_ReplicationTask raw with
  | None => fail errUnmarshal
  | Some task => mret task
  end.

Definition putReplicationTask {X} (b id : string) (task : ReplicationTask) : GoM (Tx * X) unit :=
  match json_Marshal c_ReplicationTask task with
  | None => fail errMarshal
  | Some raw => in_tx (b_Put b id raw)
  end.

(** ** Opening *)

Definition dq_init : GoM Queue unit :=
  Update (in_tx (tx_CreateBucketIfNotExists replicationTasksBucket)).

(** Tasks that [restoreRetryableTasks] resets, and what they become. *)
Definition retryable (task : ReplicationTask) : bool :=
  bool_decide (rt_State task = ReplicationTaskRunning) ||
  bool_decide (rt_State task = ReplicationTaskFailed).
Definition restored (task : ReplicationTask) (t : Time) : ReplicationTask :=
  set_task task ReplicationTaskPending (rt_Attempts task) (rt_LastError task) zero_time zero_time t.

(** The callback of [restoreRetryableTasks]. *)
Definition restore_task (k v : string) : GoM (Tx * (Clock * unit)) unit :=
  task ← decodeReplicationTask v;
  if negb (retryable task) then mret tt
  else
    t ← tx_clock;
    putReplicationTask replicationTasksBucket k (restored task t).

Definition restoreRetryableTasks : GoM Queue unit :=
  Update (b_ForEach replicationTasksBucket restore_task).

Definition NewDiskReplicationTaskQueue (db : DB) (clock : Clock) : Res unit * Queue :=
  (dq_init;; restoreRetryableTasks) {| ds_db := db; ds_now := clock |}.

(** ** Operations *)

(** The body of the loop of [Enqueue]. *)
Definition enqueue_stored {X} (task : ReplicationTask) : GoM (Tx * X) unit :=
  raw ← in_tx (b_Get replicationTasksBucket (rt_ID task));
  match raw with
  | Some _ => mret tt
  | None => putReplicationTask replicationTasksBucket (rt_ID task) task
  end.

Definition dq_Enqueue (tasks : list ReplicationTask) : GoM Queue unit :=
  Update (for_each tasks enqueue_stored).

(** The callback of [Pending]. *)
Definition collect_runnable (t : Time) (k v : string) :
    GoM (Tx * (Clock * list ReplicationTask)) unit :=
  task ← decodeReplicationTask v;
  if bool_decide (rt_State task = ReplicationTaskPending) && readyToRun task t
  then s ← captured; capture (s.1, s.2 ++ [task])
  else mret tt.

Definition dq_Pending : GoM Queue (list ReplicationTask) :=
  t ← ds_clock;
  '(_, tasks) ← on_db (db_View (b_ForEach replicationTasksBucket (collect_runnable t))) [];
  mret (sortReplicationTasks tasks).

Definition updateTask (id : string)
    (update : ReplicationTask → GoM (Tx * (Clock * unit)) ReplicationTask) :
    GoM Queue ReplicationTask :=
  Update (
    raw ← in_tx (b_Get replicationTasksBucket id);
    match raw with
    | None => fail ErrTaskNotFound
    | Some raw =>
        task ← decodeReplicationTask raw;
        task ← update task;
        putReplicationTask replicationTasksBucket id task;;
        mret task
    end).

Definition dq_MarkRunning (id : string) : GoM Queue ReplicationTask :=
  updateTask id (λ task, t ← tx_clock; mret (runReplicationTask task t)).

Definition dq_MarkDone (id : string) : GoM Queue ReplicationTask :=
  updateTask id (λ task, t ← tx_clock; mret (doneReplicationTask task t)).

Definition dq_MarkFailed (id : string) (cause : option GoError) : GoM Queue ReplicationTask :=
  updateTask id (λ task, t ← tx_clock; mret (failReplicationTask task t cause)).

(** The callback of [RequeueExpiredRunning]. *)
Definition requeue_stored (t : Time) (k v : string) :
    GoM (Tx * (Clock * list ReplicationTask)) unit :=
  task ← decodeReplicationTask v;
  if negb (bool_decide (rt_State task = ReplicationTaskRunning)) || IsZero (rt_LeaseUntil task)
     || After (rt_LeaseUntil task) t
  then mret tt
  else
    let task := expireReplicationTask task t in
    putReplicationTask replicationTasksBucket k task;;
    s ← captured;
    capture (s.1, s.2 ++ [task]).

Definition dq_RequeueExpiredRunning : GoM Queue (list ReplicationTask) :=
  t ← ds_clock;
  '(_, requeued) ← on_db (db_Update (b_ForEach replicationTasksBucket (requeue_stored t))) [];
  mret (sortReplicationTasks requeued).

(** The callback of [Stats]. *)
Definition count_stored (k v : string) :
    GoM (Tx * (Clock * gmap ReplicationTaskState Z)) unit :=
  task ← decodeReplicationTask v;
  s ← captured;
  capture (s.1, <[rt_State task := (default 0 (s.2 !! rt_State task) + 1)%Z]> s.2).

Definition dq_Stats : GoM Queue (gmap ReplicationTaskState Z) :=
  '(_, stats) ← on_db (db_View (b_ForEach replicationTasksBucket count_stored)) ∅;
  mret stats.

(** The queue implements the interface the coordinator uses. *)
#[export] Instance DiskReplicationTaskQueue_queue : ReplicationTaskQueue Queue := {|
  rq_Enqueue := dq_Enqueue;
  rq_Pending := dq_Pending;
  rq_MarkRunning := dq_MarkRunning;
  rq_MarkDone := dq_MarkDone;
  rq_MarkFailed := dq_MarkFailed;
  rq_RequeueExpiredRunning := dq_RequeueExpiredRunning;
  rq_Stats := dq_Stats
|}.
End disk_queue.
