(* ===== verification/DiskQueueSpec.v ===== *)
(** * The disk task queue implements the task table.

    Read through its codec the bucket of the queue is a [TaskTable], the
    specification state of [Backend].  Every call, on arguments that JSON can
    carry, answers and changes the table like the specification, or fails
    without an effect, and touches no other bucket.  Where a call would modify the
    bucket inside [ForEach] nothing is claimed. *)

From Stdlib Require Import ZifyBool.
From S2P Require Import Prelude Metadata Replication Backend MetadataSpec ReplicationSpec Lifecycle Names Utf8 Json Times Codec Records Bolt DiskStore DiskMetadata DiskTable DiskQueue.
From stdpp Require Import options.

Definition task_good (k : string) (task : ReplicationTask) : Prop :=
  key_ok k ∧ rt_ID task = k ∧ task_json task.

Abbreviation tasks_ok := (table_ok c_ReplicationTask task_good replicationTasksBucket).
Abbreviation stored_tasks := (table c_ReplicationTask replicationTasksBucket).
Abbreviation tasks_frame := (only_bucket replicationTasksBucket).

#[export] Instance only_bucket_reflexive b : Reflexive (only_bucket b).
Proof. intros d. apply only_bucket_refl. Qed.

Lemma task_stored k task : task_good k task → key_ok k ∧ survives c_ReplicationTask 3 task.
Proof. intros (Hk & _ & Ht). split; [done|by apply survives_task]. Qed.

Lemma task_good_id k task : task_good k task → rt_ID task = k.
Proof. by intros (_ & ? & _). Qed.

(** ** The life cycle keeps tasks storable *)

Lemma time_zero_ok : time_ok zero_time.
Proof. done. Qed.

Lemma time_add_ok rs n d : clock_ok rs → (0 ≤ d ≤ Minute)%Z → time_ok (TimeAdd (rs n) d).
Proof.
  intros Hc Hd. specialize (Hc n). unfold time_ok, TimeAdd. apply andb_True.
  rewrite !Is_true_true, Z.leb_le, Z.ltb_lt. lia.
Qed.

Lemma set_task_good k task st attempts lastError runAfter leaseUntil t :
  task_good k task → in_s64 attempts → utf8_ok lastError → time_ok runAfter → time_ok leaseUntil →
  time_ok t → task_good k (set_task task st attempts lastError runAfter leaseUntil t).
Proof.
  intros (Hk & Hid & Hj) Ha He Hr Hl Ht. split_and!; [done|done|].
  unfold task_json in *. cbn. naive_solver.
Qed.

Lemma wrap_s64_in z : in_s64 (wrap_s64 z).
Proof.
  unfold in_s64, wrap_s64. pose proof (Z.mod_pos_bound (z + 2 ^ 63) (2 ^ 64)). lia.
Qed.

Section good.
Context (rs : nat → Time) (n : nat) (k : string) (task : ReplicationTask).
Context (Hc : clock_ok rs) (Hg : task_good k task).

Lemma task_attempts : in_s64 (rt_Attempts task).
Proof using Hg. destruct Hg as (_ & _ & Hj). unfold task_json in Hj. naive_solver. Qed.
Lemma task_error : utf8_ok (rt_LastError task).
Proof using Hg. destruct Hg as (_ & _ & Hj). unfold task_json in Hj. naive_solver. Qed.
Lemma task_run_after : time_ok (rt_RunAfter task).
Proof using Hg. destruct Hg as (_ & _ & Hj). unfold task_json in Hj. naive_solver. Qed.

Lemma run_good : task_good k (runReplicationTask task (rs n)).
Proof using Hc Hg.
  apply set_task_good; try done; [apply wrap_s64_in|apply task_error|apply task_run_after| |].
  - by apply time_add_ok.
  - by apply clock_time_ok.
Qed.

Lemma done_good : task_good k (doneReplicationTask task (rs n)).
Proof using Hc Hg.
  apply set_task_good; try done; [apply task_attempts|by apply clock_time_ok].
Qed.

Lemma fail_good cause :
  utf8_ok (match cause with Some e => error_string e | None => "" end) →
  task_good k (failReplicationTask task (rs n) cause).
Proof using Hc Hg.
  intros He. unfold failReplicationTask.
  destruct (Z.leb_spec defaultReplicationTaskMaxAttempts (rt_Attempts task)) as [Ha|Ha].
  - apply set_task_good; try done; [apply task_attempts|by apply clock_time_ok].
  - apply set_task_good; try done; [apply task_attempts| |by apply clock_time_ok].
    apply time_add_ok; [done|]. pose proof (backoff_range (rt_Attempts task) Ha).
    unfold Minute, Second in *. lia.
Qed.

End good.

(** ** The tasks of a storable file are storable *)

Lemma digit_ascii c : is_digit c → is_rune1 c.
Proof. rewrite !Is_true_true. unfold is_digit, between, is_rune1. lia. Qed.

Lemma pretty_utf8 (z : Z) : utf8_ok (pretty z).
Proof. by apply ascii_utf8_ok, pretty_chars; [apply digit_ascii|]. Qed.

Lemma pending_task_good meta source target created updated :
  file_json meta → utf8_ok source → utf8_ok target → time_ok created → time_ok updated →
  (zslen (replicationTaskID (fm_Key meta) (fm_Version meta) source target) ≤ MaxKeySize)%Z →
  let task := pending_task meta source target created updated in task_good (rt_ID task) task.
Proof.
  intros (Hk & Hv & _ & Hsum & _ & Hch & _) Hs Ht Hcr Hup Hlen task.
  assert (Hid : utf8_ok (rt_ID task)).
  { cbn. unfold replicationTaskID. repeat apply utf8_ok_app; try done. apply pretty_utf8. }
  split; [|split; [done|]].
  - split; [|done]. cbn. unfold replicationTaskID. by destruct (fm_Key meta).
  - subst task. unfold task_json, pending_task.
    cbn [rt_ID rt_Key rt_Version rt_Checksum rt_Chunks rt_Source rt_Target rt_Attempts rt_LastError
      rt_RunAfter rt_LeaseUntil rt_CreatedAt rt_UpdatedAt] in *.
    rewrite cloneChunkMetadata_id. split_and!; try done.
Qed.

(** ** Calls of the interface as data *)

Inductive QueueCall : Type → Type :=
  | QEnqueue (tasks : list ReplicationTask) : QueueCall unit
  | QPending : QueueCall (list ReplicationTask)
  | QMarkRunning (id : string) : QueueCall ReplicationTask
  | QMarkDone (id : string) : QueueCall ReplicationTask
  | QMarkFailed (id : string) (cause : option GoError) : QueueCall ReplicationTask
  | QRequeueExpiredRunning : QueueCall (list ReplicationTask)
  | QStats : QueueCall (gmap ReplicationTaskState Z).

Definition queue_call {Q} `{ReplicationTaskQueue Q} {A} (call : QueueCall A) : GoM Q A :=
  match call with
  | QEnqueue tasks => rq_Enqueue tasks
  | QPending => rq_Pending
  | QMarkRunning id => rq_MarkRunning id
  | QMarkDone id => rq_MarkDone id
  | QMarkFailed id cause => rq_MarkFailed id cause
  | QRequeueExpiredRunning => rq_RequeueExpiredRunning
  | QStats => rq_Stats
  end.

Definition table_call {A} (call : QueueCall A) : Time → GoM TaskTable A :=
  match call with
  | QEnqueue tasks => tab_enqueue tasks
  | QPending => tab_pending
  | QMarkRunning id => tab_update id runReplicationTask
  | QMarkDone id => tab_update id doneReplicationTask
  | QMarkFailed id cause => tab_update id (λ task t, failReplicationTask task t cause)
  | QRequeueExpiredRunning => tab_requeue
  | QStats => tab_stats
  end.

Section disk_queue.
Context {DB Tx : Type} `{BoltLaws DB Tx}.
Abbreviation Queue := (DiskReplicationTaskQueue DB).
Abbreviation queue_refines := (store_refines tasks_ok stored_tasks tasks_frame).

Lemma put_task_run {X} tx (x : X) k task :
  tasks_ok (tx_data tx) → task_good k task →
  ∃ r tx', putReplicationTask replicationTasksBucket k task (tx, x) = (r, (tx', x)) ∧
    ((r = Ok tt ∧ tasks_ok (tx_data tx') ∧
      stored_tasks (tx_data tx') = <[k := task]> (stored_tasks (tx_data tx)) ∧
      tasks_frame (tx_data tx) (tx_data tx')) ∨ r = Err ErrValueTooLarge).
Proof.
  intros Hok Hg. destruct (put_run _ _ _ task_stored tx x k task Hok Hg) as (r & tx' & Hput & Hcase).
  exists r, tx'. split; [exact Hput|]. destruct Hcase as [(? & ? & ? & ? & _)|[? _]]; [left|by right].
  by split_and!.
Qed.

(** ** Enqueue *)

Lemma enqueue_run tasks : ∀ tx (ck : Clock) r tx' ck',
  Forall (λ task, task_good (rt_ID task) task) tasks → tasks_ok (tx_data tx) →
  for_each tasks enqueue_stored (tx, (ck, tt)) = (r, (tx', (ck', tt))) →
  ck' = ck ∧
  ((r = Ok tt ∧ tasks_ok (tx_data tx') ∧ tasks_frame (tx_data tx) (tx_data tx') ∧
    stored_tasks (tx_data tx') = enqueue_all (stored_tasks (tx_data tx)) tasks) ∨
   r = Err ErrValueTooLarge).
Proof.
  induction tasks as [|task tasks IH]; intros tx ck r tx' ck' Hall Hok Hrun.
  { inv Hrun. split; [done|]. left. by split_and!. }
  apply Forall_cons in Hall as [Hg Hall]. cbn [for_each] in Hrun.
  destruct (get_run _ _ _ tx (ck, tt) (rt_ID task) Hok) as (raw & Hget & Hdec & Hsome).
  assert (Hlook : is_Some (stored_tasks (tx_data tx) !! rt_ID task) ↔ is_Some raw).
  { rewrite <-Hdec. destruct raw as [s|]; cbn [mbind option_bind]; [|done].
    split; [by eexists|]. intros _. by apply Hsome. }
  cbn [enqueue_all foldl]. unfold enqueue_all in IH. cbn [foldl].
  destruct raw as [s|].
  - rewrite (gom_bind_ok _ _ _ tt (tx, (ck, tt))) in Hrun
      by (unfold enqueue_stored; by erewrite gom_bind_ok by exact Hget).
    assert (enqueue_task (stored_tasks (tx_data tx)) task = stored_tasks (tx_data tx)) as ->.
    { unfold enqueue_task. destruct Hlook as [_ Hlook]. destruct Hlook as [x Hx]; [by eexists|].
      by rewrite Hx. }
    by apply IH.
  - destruct (put_task_run tx (ck, tt) (rt_ID task) task Hok Hg) as (r0 & tx1 & Hput & Hcase).
    assert (Hbody : enqueue_stored task (tx, (ck, tt)) = (r0, (tx1, (ck, tt)))).
    { unfold enqueue_stored. by erewrite gom_bind_ok by exact Hget. }
    destruct Hcase as [(-> & Hok1 & HT1 & Hfr1)| ->].
    + erewrite gom_bind_ok in Hrun by exact Hbody.
      destruct (IH _ _ _ _ _ Hall Hok1 Hrun) as [-> Hcase]. split; [done|].
      destruct Hcase as [(-> & Hok2 & Hfr2 & HT2)| ->]; [left|by right].
      split_and!; [done|done|by eapply only_bucket_trans|]. rewrite HT2, HT1. f_equal.
      unfold enqueue_task. rewrite <-Hdec. done.
    + erewrite gom_bind_err in Hrun by exact Hbody. simplify_eq. split; [done|by right].
Qed.

Lemma Enqueue_refines tasks :
  Forall (λ task, task_good (rt_ID task) task) tasks →
  queue_refines (dq_Enqueue tasks) (tab_enqueue tasks).
Proof.
  intros Hall. apply Update_refines. intros tx ck r tx' ck' [] Hok Hc Hrun.
  destruct (enqueue_run tasks _ _ _ _ _ Hall Hok Hrun) as [-> Hcase]. split; [done|].
  destruct Hcase as [(-> & Hok' & Hfr & HT)| ->]; [|by right].
  split_and!; [done|done|]. exists zero_time. unfold tab_enqueue. by rewrite HT.
Qed.

(** ** Marking *)

Lemma updateTask_refines id update (f : ReplicationTask → Time → ReplicationTask) :
  (∀ task tx ck, update task (tx, (ck, tt)) =
     (Ok (f task (readings ck (taken ck))), (tx, ({| readings := readings ck; taken := S (taken ck) |}, tt)))) →
  (∀ task ck, clock_ok (readings ck) → task_good id task →
     task_good id (f task (readings ck (taken ck)))) →
  queue_refines (updateTask id update) (tab_update id f).
Proof.
  intros Hupd Hgood. apply Update_refines. intros tx ck r tx' ck' [] Hok Hc Hrun.
  destruct (get_run _ _ _ tx (ck, tt) id Hok) as (raw & Hget & Hdec & Hsome).
  erewrite gom_bind_ok in Hrun by exact Hget. unfold tab_update.
  destruct raw as [s|].
  2:{ cbn [mbind option_bind] in Hdec. inv Hrun. split; [done|]. left. exists zero_time. by rewrite <-Hdec. }
  destruct (Hsome s) as [task Hs]; [done|]. cbn [mbind option_bind] in Hdec.
  rewrite (gom_bind_ok _ _ _ task (tx, (ck, tt))) in Hrun
    by (unfold decodeReplicationTask; by rewrite Hs).
  erewrite gom_bind_ok in Hrun by apply Hupd.
  rewrite Hs in Hdec. symmetry in Hdec.
  assert (Hg : task_good id task) by (by eapply table_good).
  match type of Hrun with _ (tx, ?x) = _ =>
    destruct (put_task_run tx x id _ Hok (Hgood task ck Hc Hg)) as (r0 & tx1 & Hput & Hcase) end.
  destruct Hcase as [(-> & Hok1 & HT1 & Hfr1)| ->].
  - erewrite gom_bind_ok in Hrun by exact Hput. inv Hrun. split; [done|]. split_and!; [done|done|].
    exists (readings ck (taken ck)). by rewrite Hdec, HT1.
  - erewrite gom_bind_err in Hrun by exact Hput. inv Hrun. split; [done|by right].
Qed.

Lemma MarkRunning_refines id : queue_refines (dq_MarkRunning id) (tab_update id runReplicationTask).
Proof. apply updateTask_refines; [done|]. intros task ck Hc Hg. by apply run_good. Qed.

Lemma MarkDone_refines id : queue_refines (dq_MarkDone id) (tab_update id doneReplicationTask).
Proof. apply updateTask_refines; [done|]. intros task ck Hc Hg. by apply done_good. Qed.

Lemma MarkFailed_refines id cause :
  utf8_ok (match cause with Some e => error_string e | None => "" end) →
  queue_refines (dq_MarkFailed id cause)
    (tab_update id (λ task t, failReplicationTask task t cause)).
Proof. intros He. apply updateTask_refines; [done|]. intros task ck Hc Hg. by apply fail_good. Qed.

(** ** Queries *)

Lemma fold_filter_snoc {A} (Q : A → Prop) `{!∀ x, Decision (Q x)} (l acc : list A) :
  foldl (λ acc x, if decide (Q x) then acc ++ [x] else acc) acc l = acc ++ filter Q l.
Proof.
  revert acc. induction l as [|x l IH]; intros acc; cbn [foldl]; [by rewrite app_nil_r|].
  rewrite IH, filter_cons. case_decide; [by rewrite <-app_assoc|done].
Qed.

Lemma Pending_refines : queue_refines dq_Pending tab_pending.
Proof.
  unfold dq_Pending. apply clock_refines. intros t Ht.
  apply (on_View_refines _ [] (λ ts _ xs, ∃ ys, NoDup (rt_ID <$> ys) ∧ ys ≡ₚ range_values ts ∧
    xs = filter (runnable t) ys)).
  - intros tx ck r tx' ck' xs Hok Hc Hrun.
    destruct (foreach_fold c_ReplicationTask task_good replicationTasksBucket
      (λ acc task, if decide (runnable t task) then acc ++ [task] else acc) rt_ID
      (collect_runnable t) tx ck []) as (ys & Hys & Hnd & Hp);
      [apply task_good_id| | |done|].
    + intros k v a tx1 ck1 x Ha. unfold collect_runnable, decodeReplicationTask. rewrite Ha.
      rewrite (gom_bind_ok _ _ _ a (tx1, (ck1, x))) by done.
      destruct (decide (runnable t a)) as [[Hs Hr]|Hn].
      * by rewrite bool_decide_eq_true_2, Hr by done.
      * destruct (bool_decide _ && _) eqn:Hb; [|done]. exfalso. apply Hn.
        apply andb_prop in Hb as [Hs%bool_decide_eq_true Hr]. by split.
    + intros k v tx1 s1 r1 tx2 s2 Hcb. unfold collect_runnable, decodeReplicationTask in Hcb.
      destruct (json_Unmarshal c_ReplicationTask v) as [a|]; autounfold with go in Hcb; [|by inv Hcb].
      destruct (_ && _); unfold captured, capture in Hcb; autounfold with go in Hcb; by inv Hcb.
    + rewrite Hys, fold_filter_snoc in Hrun. simplify_eq/=. split; [done|]. exists tt.
      split; [done|]. by exists ys.
  - intros ts [] xs (ys & Hnd & Hp & ->). eexists _, t. split; [done|]. unfold tab_pending, pending_tasks.
    do 2 f_equal. symmetry. apply sortReplicationTasks_unique; [|by rewrite Hp].
    eapply sublist_NoDup; [exact Hnd|]. apply fmap_sublist, sublist_filter.
Qed.

(** Counting does not depend on the order. *)
Lemma count_states_lookup l (acc : gmap ReplicationTaskState Z) st :
  let count := foldl (λ stats task,
    <[rt_State task := (default 0 (stats !! rt_State task) + 1)%Z]> stats) acc l in
  default 0%Z (count !! st) =
    (default 0 (acc !! st) + zlen (filter (λ task, rt_State task = st) l))%Z ∧
  (is_Some (count !! st) ↔ is_Some (acc !! st) ∨ ∃ task, task ∈ l ∧ rt_State task = st).
Proof.
  revert acc. induction l as [|task l IH]; intros acc; cbn [foldl].
  { split; [unfold zlen; cbn; lia|]. split; [by left|]. intros [?|(? & ?%elem_of_nil & _)]; done. }
  destruct (IH (<[rt_State task := (default 0 (acc !! rt_State task) + 1)%Z]> acc)) as [IH1 IH2].
  rewrite IH1, IH2, filter_cons. destruct (decide (rt_State task = st)) as [<-|Hst].
  - rewrite lookup_insert_eq. unfold zlen. cbn [default length]. split; [cbn; lia|].
    split; [intros _; right; exists task; split; [left|done]|intros _; left; by eexists].
  - rewrite lookup_insert_ne by done. split; [done|]. set_solver.
Qed.

Lemma count_states_perm l l' : l ≡ₚ l' → count_states l = count_states l'.
Proof.
  intros Hp. apply map_eq. intros st. unfold count_states.
  destruct (count_states_lookup l ∅ st) as [H1 H2], (count_states_lookup l' ∅ st) as [H1' H2'].
  assert (Heq : zlen (filter (λ task, rt_State task = st) l) =
                zlen (filter (λ task, rt_State task = st) l'))
    by (unfold zlen; by rewrite Hp).
  assert (Hex : (∃ task, task ∈ l ∧ rt_State task = st) ↔ (∃ task, task ∈ l' ∧ rt_State task = st))
    by (by setoid_rewrite Hp).
  rewrite Heq in H1. rewrite Hex in H2.
  set (x := foldl _ ∅ l !! st) in *. set (y := foldl _ ∅ l' !! st) in *. clearbody x y.
  destruct x as [x|], y as [y|]; [|exfalso; naive_solver..|done].
  cbn in H1, H1'. by rewrite H1, H1'.
Qed.

Lemma Stats_refines : queue_refines dq_Stats tab_stats.
Proof.
  apply (on_View_refines _ ∅ (λ ts _ x, x = count_states (range_values ts))).
  - intros tx ck r tx' ck' x' Hok Hc Hrun.
    destruct (foreach_fold c_ReplicationTask task_good replicationTasksBucket
      (λ stats task, <[rt_State task := (default 0 (stats !! rt_State task) + 1)%Z]> stats) rt_ID
      count_stored tx ck ∅) as (ys & Hys & Hnd & Hp); [apply task_good_id| | |done|].
    + intros k v a tx1 ck1 x Ha. unfold count_stored, decodeReplicationTask. by rewrite Ha.
    + intros k v tx1 s1 r1 tx2 s2 Hcb. unfold count_stored, decodeReplicationTask in Hcb.
      destruct (json_Unmarshal c_ReplicationTask v) as [a|]; autounfold with go in Hcb; [|by inv Hcb].
      unfold captured, capture in Hcb. autounfold with go in Hcb. by inv Hcb.
    + rewrite Hys in Hrun. simplify_eq/=. split; [done|]. exists tt. split; [done|].
      by apply count_states_perm.
  - intros ts [] x ->. by eexists _, zero_time.
Qed.

(** ** Requeueing *)

(** No stored task is running with a lease that is over, so that
    [RequeueExpiredRunning] would change it. *)
Definition leases_hold (t : Time) (ts : TaskTable) : Prop :=
  map_Forall (λ _ task, rt_State task ≠ ReplicationTaskRunning ∨ rt_LeaseUntil task = zero_time ∨
    (t < rt_LeaseUntil task)%Z) ts.

Lemma leases_hold_expired t ts id task : leases_hold t ts → ts !! id = Some task → lease_expired task t = false.
Proof.
  intros Hh Hid. specialize (Hh id task Hid). cbn in Hh. destruct (lease_expired task t) eqn:E; [|done].
  apply lease_expired_spec in E as (? & ? & ?). unfold zero_time in Hh. lia || naive_solver lia.
Qed.

Lemma requeue_idle t tx (ck : Clock) :
  tasks_ok (tx_data tx) → leases_hold t (stored_tasks (tx_data tx)) →
  b_ForEach replicationTasksBucket (requeue_stored t) (tx, (ck, [])) = (Ok tt, (tx, (ck, []))).
Proof.
  intros Hok Hh. apply (foreach_idle c_ReplicationTask task_good); [done|]. intros k v task y Hv Hk.
  pose proof (leases_hold_expired _ _ _ _ Hh Hk) as Hl. unfold lease_expired in Hl.
  unfold requeue_stored, decodeReplicationTask. rewrite Hv, (gom_bind_ok _ _ _ task (tx, y)) by done.
  apply negb_false_iff in Hl. by rewrite Hl.
Qed.

Lemma requeue_none t ts : leases_hold t ts → requeued_tasks t ts = [] ∧ requeue_all t ts = ts.
Proof.
  intros Hh. split.
  - unfold requeued_tasks. replace (filter _ (range_values ts)) with (@nil ReplicationTask); [done|].
    symmetry. apply list_filter_none. intros task [id Hid]%elem_of_range_values.
    by rewrite (leases_hold_expired _ _ _ _ Hh Hid).
  - unfold requeue_all. rewrite <-(map_fmap_id ts) at 2. apply map_fmap_ext. intros id task Hid.
    by rewrite (leases_hold_expired _ _ _ _ Hh Hid).
Qed.

(** What a call did to the queue, compared with the specification. *)
Definition queue_simulated {A} (spec : Time → GoM TaskTable A) (q : Queue) (r : Res A) (q' : Queue) : Prop :=
  store_ok tasks_ok q' ∧ tasks_frame (store_data q) (store_data q') ∧
  ((∃ t, spec t (stored_tasks (store_data q)) = (r, stored_tasks (store_data q'))) ∨
   (stored_tasks (store_data q') = stored_tasks (store_data q) ∧
    ∃ e, r = Err e ∧ (db_fault (ds_db q) ∨ e = ErrValueTooLarge))).

Lemma RequeueExpiredRunning_simulates q r q' :
  store_ok tasks_ok q → leases_hold (now (ds_now q)).1 (stored_tasks (store_data q)) →
  dq_RequeueExpiredRunning q = (r, q') → queue_simulated tab_requeue q r q'.
Proof.
  intros [Hd Hc] Hh Hrun. unfold dq_RequeueExpiredRunning, ds_clock in Hrun. autounfold with go in Hrun.
  unfold now in Hh. cbn [fst] in Hh. set (t := readings (ds_now q) (taken (ds_now q))) in *.
  set (held := λ d, tasks_ok d ∧ leases_hold t (stored_tasks d)).
  destruct (on_Update_refines (ok := held) (abs := stored_tasks) (frame := tasks_frame)
    (b_ForEach replicationTasksBucket (requeue_stored t)) [] (λ _ xs, sortReplicationTasks xs)
    (λ '(_, requeued), mret (sortReplicationTasks requeued)) (λ _, tab_requeue t)
    ) with (4 := Hrun) as ([[Hd' _] Hc'] & Hfr & Hcase).
  - intros tx c r1 tx1 c1 xs [Hok Hl] Hcl Hb. rewrite requeue_idle in Hb by done. injection Hb as <- <- <- <-.
    split; [done|]. split; [done|]. split; [done|]. exists t. unfold tab_requeue.
    by destruct (requeue_none _ _ Hl) as [-> ->].
  - done.
  - by split.
  - split; [by split|]. split; [done|]. destruct Hcase as [[_ Hs]|Hf]; [left; by exists t|by right].
Qed.

(** ** Restoring *)

(** No stored task is running or failed, so that opening the queue has none to
    restore. *)
Definition settled (ts : TaskTable) : Prop :=
  map_Forall (λ _ task, rt_State task ≠ ReplicationTaskRunning ∧ rt_State task ≠ ReplicationTaskFailed) ts.

Lemma restore_simulates (q : Queue) r q' :
  store_ok tasks_ok q → settled (stored_tasks (store_data q)) → restoreRetryableTasks q = (r, q') →
  queue_simulated (λ _ ts, (Ok tt, ts)) q r q'.
Proof.
  intros [Hd Hc] Hset Hrun. set (quiet := λ d, tasks_ok d ∧ settled (stored_tasks d)).
  destruct (Update_refines (ok := quiet) (abs := stored_tasks) (frame := tasks_frame)
    (b_ForEach replicationTasksBucket restore_task) (λ _ ts, (Ok tt, ts))
    ) with (3 := Hrun) as ([[Hd' _] Hc'] & Hfr & Hcase); [|by split|by split_and!].
  intros tx c r1 tx1 c1 [] [Hok Hs] Hcl Hb.
  rewrite (foreach_idle c_ReplicationTask task_good) in Hb; [|done|].
  - injection Hb as <- <- <-. split; [done|]. split; [done|]. split; [done|]. by exists zero_time.
  - intros k v task y Hv Hk. destruct (Hs k task Hk) as [Hr Hf].
    unfold restore_task, decodeReplicationTask. rewrite Hv, (gom_bind_ok _ _ _ task (tx, y)) by done.
    unfold retryable. by rewrite !bool_decide_eq_false_2.
Qed.

(** ** All calls *)

(** What a call needs: arguments that JSON can carry, and that it does not modify
    the bucket inside [ForEach], where bbolt promises nothing:
    [RequeueExpiredRunning] finds no task whose lease is over. *)
Definition queue_call_ok {A} (call : QueueCall A) (q : Queue) : Prop :=
  match call with
  | QEnqueue tasks => Forall (λ task, task_good (rt_ID task) task) tasks
  | QMarkFailed _ cause => utf8_ok (match cause with Some e => error_string e | None => "" end)
  | QRequeueExpiredRunning => leases_hold (now (ds_now q)).1 (stored_tasks (store_data q))
  | _ => True
  end.

Lemma queue_call_simulates {A} (call : QueueCall A) q r q' :
  queue_call_ok call q → store_ok tasks_ok q → queue_call call q = (r, q') →
  queue_simulated (table_call call) q r q'.
Proof.
  destruct call; cbn; intros Hok Hq Hrun.
  - by apply (Enqueue_refines tasks).
  - by apply Pending_refines.
  - by eapply MarkRunning_refines.
  - by eapply MarkDone_refines.
  - by eapply MarkFailed_refines.
  - by apply RequeueExpiredRunning_simulates.
  - by apply Stats_refines.
Qed.

(** ** Opening *)

Definition tasks_openable (d : BoltData) : Prop :=
  d !! replicationTasksBucket = None ∨ tasks_ok d.

Lemma init_run db clock r q :
  tasks_openable (db_data db) → clock_ok (readings clock) →
  dq_init {| ds_db := db; ds_now := clock |} = (r, q) →
  match r with
  | Ok _ => store_ok tasks_ok q ∧ tasks_frame (db_data db) (store_data q) ∧
      stored_tasks (store_data q) = stored_tasks (db_data db) ∧ readings (ds_now q) = readings clock
  | Err _ => db_fault db
  | Panic => False
  end.
Proof.
  intros Hd Hc Hrun. unfold dq_init, Update, on_db in Hrun. autounfold with go in Hrun.
  destruct (db_Update _ _) as [r0 [db' [c' []]]] eqn:Hu. cbn in Hu.
  apply db_Update_law in Hu as [(tx & tx' & Htx & Hbody & Hdata)|(Hfault & [e ->] & _)];
    [|cbn in Hrun; by inv Hrun].
  destruct (tx_CreateBucket_law replicationTasksBucket tx) as (tx1 & Hc1 & Hd1); [done|].
  rewrite (in_tx_run _ _ _ _ _ Hc1) in Hbody. simplify_eq. cbn.
  destruct (create_ok c_ReplicationTask task_good _ _ Hd) as (Hok & HT & Hb).
  unfold store_ok, store_data. cbn. rewrite Hdata, Hd1, Htx. by split_and!.
Qed.
End disk_queue.
