(* ===== verification/DiskProps.v ===== *)
(** * What the disk backends guarantee.

    Histories of calls on the disk metadata store and on the disk queue are
    histories of their specifications; a manager that restarts on the same
    database finds the catalog and the tasks it left; records survive the disk.
    Calls that would modify a bucket inside [ForEach] are not covered.  The theorems are about every bbolt that keeps the
    promises of [Bolt]; the instances run on [MapBolt]. *)

From Stdlib Require Import Ascii.
From S2P Require Import Prelude Metadata Replication Backend MetadataSpec ReplicationSpec Lifecycle Utf8 Json Times Codec Records Bolt DiskStore DiskMetadata DiskTable DiskMetadataSpec DiskQueue DiskQueueSpec.
From stdpp Require Import options.

(** ** Histories of the queue *)

Inductive QueueEvent :=
  | QEv {A : Type} (call : QueueCall A) (answer : Res A).

Inductive table_trace (fails : GoError → Prop) : TaskTable → list QueueEvent → TaskTable → Prop :=
  | tt_nil ts : table_trace fails ts [] ts
  | tt_call A (call : QueueCall A) r ts ts1 evs ts2 :
      (∃ t, table_call call t ts = (r, ts1)) ∨ (ts1 = ts ∧ ∃ e, r = Err e ∧ fails e) →
      table_trace fails ts1 evs ts2 →
      table_trace fails ts (QEv call r :: evs) ts2.

(** The history a list of calls produces. *)
Fixpoint run_calls {B} `{MetadataBackend B} (calls : list {A & MetaCall A}) (b : B) :
    list MetaEvent * B :=
  match calls with
  | [] => ([], b)
  | existT A call :: calls =>
      let '(r, b1) := backend_call call b in
      let '(evs, b2) := run_calls calls b1 in (Ev call r :: evs, b2)
  end.

Fixpoint run_queue_calls {Q} `{ReplicationTaskQueue Q} (calls : list {A & QueueCall A}) (q : Q) :
    list QueueEvent * Q :=
  match calls with
  | [] => ([], q)
  | existT A call :: calls =>
      let '(r, q1) := queue_call call q in
      let '(evs, q2) := run_queue_calls calls q1 in (QEv call r :: evs, q2)
  end.

Section disk.
Context {DB Tx : Type} `{BoltLaws DB Tx}.
Abbreviation Queue := (DiskReplicationTaskQueue DB).

(** Histories of calls on the disk queue, each with what it needs. *)
Inductive queue_history : Queue → list QueueEvent → Queue → Prop :=
  | qh_nil q : queue_history q [] q
  | qh_call A (call : QueueCall A) r q q1 evs q2 :
      queue_call_ok call q → queue_call call q = (r, q1) → queue_history q1 evs q2 →
      queue_history q (QEv call r :: evs) q2.

(** Calls each of which has what it needs when its turn comes. *)
Fixpoint calls_ok (calls : list {A & MetaCall A}) (m : DiskMetadataStore DB) : Prop :=
  match calls with
  | [] => True
  | existT A call :: calls => call_ok call m ∧ calls_ok calls (backend_call call m).2
  end.
Fixpoint queue_calls_ok (calls : list {A & QueueCall A}) (q : Queue) : Prop :=
  match calls with
  | [] => True
  | existT A call :: calls => queue_call_ok call q ∧ queue_calls_ok calls (queue_call call q).2
  end.

Lemma run_calls_history calls m :
  calls_ok calls m → disk_history m (run_calls calls m).1 (run_calls calls m).2.
Proof.
  revert m. induction calls as [|[A call] calls IH]; intros m; cbn; [constructor|]. intros [Hc Hok].
  destruct (backend_call call m) as [r m1] eqn:Hrun. specialize (IH m1 Hok).
  destruct (run_calls calls m1) as [evs m2]. cbn in *. by econstructor.
Qed.
Lemma run_queue_calls_history calls q :
  queue_calls_ok calls q → queue_history q (run_queue_calls calls q).1 (run_queue_calls calls q).2.
Proof.
  revert q. induction calls as [|[A call] calls IH]; intros q; cbn; [constructor|]. intros [Hc Hok].
  destruct (queue_call call q) as [r q1] eqn:Hrun. specialize (IH q1 Hok).
  destruct (run_queue_calls calls q1) as [evs q2]. cbn in *. by econstructor.
Qed.

(** C21: the disk metadata store refines the metadata catalog, as far as bbolt's
    documentation goes.  In any history of calls whose arguments JSON can carry
    (UTF-8 text, integers of the width of their field, non-empty keys of at most
    32768 bytes, a clock within the years 1 to 9999), and in which each
    [MarkExpiredNodes] finds no node to mark, every answer is the specification's
    answer at some instant and the stored records are the specification's records,
    except that a call may fail without an effect because of an I/O error or
    because a record has outgrown a bbolt value; the buckets of other components
    are untouched.  A [MarkExpiredNodes] that marks a node writes to the bucket
    inside [ForEach], where bbolt promises nothing, and is not covered. *)
Theorem disk_metadata_refines (evs : list MetaEvent) (m m' : DiskMetadataStore DB) :
  disk_ok m → disk_history m evs m' →
  disk_ok m' ∧ meta_frame (disk_data m) (disk_data m') ∧
  catalog_trace (disk_failure (DB := DB)) (disk_catalog m) evs (disk_catalog m').
Proof. apply disk_history_simulates. Qed.

Lemma queue_history_simulates (evs : list QueueEvent) (q q' : Queue) :
  store_ok tasks_ok q → queue_history q evs q' →
  store_ok tasks_ok q' ∧ tasks_frame (store_data q) (store_data q') ∧
  table_trace (disk_failure (DB := DB)) (stored_tasks (store_data q)) evs
    (stored_tasks (store_data q')).
Proof.
  intros Hok Htr. induction Htr as [q|A call r q q1 evs q2 Hcall Hrun Htr IH].
  { split_and!; [done|done|constructor]. }
  destruct (queue_call_simulates call q r q1 Hcall Hok Hrun) as (Hok1 & Hfr1 & Hcase).
  destruct (IH Hok1) as (Hok2 & Hfr2 & Htr2).
  split_and!; [done|by eapply only_bucket_trans|].
  econstructor; [|done]. destruct Hcase as [Hspec|(Hsame & e & -> & He)]; [by left|right].
  split; [done|]. exists e. split; [done|]. destruct He as [?|?]; [left; eauto|by right].
Qed.

(** C22: the disk queue refines the task table, as far as bbolt's documentation
    goes.  In any history of calls whose arguments JSON can carry, and in which
    each [RequeueExpiredRunning] finds no task whose lease is over, every answer
    (the order of [Pending] and the counts of [Stats] included) is the
    specification's answer at some instant and the stored tasks are the
    specification's tasks, up to the same failures without effect, and no other
    bucket is touched.  A [RequeueExpiredRunning] with a task to requeue writes to
    the bucket inside [ForEach], where bbolt promises nothing, and is not covered. *)
Theorem disk_queue_refines (evs : list QueueEvent) (q q' : Queue) :
  store_ok tasks_ok q → queue_history q evs q' →
  store_ok tasks_ok q' ∧ tasks_frame (store_data q) (store_data q') ∧
  table_trace (disk_failure (DB := DB)) (stored_tasks (store_data q)) evs
    (stored_tasks (store_data q')).
Proof. apply queue_history_simulates. Qed.

(** Opening the manager's database: [OpenDiskMetadataStore] followed by
    [NewDiskReplicationTaskQueue] on the same handle, for a database in which no
    task is running or failed, never panics and, unless the database fails or a
    record no longer fits, finds exactly the catalog and the tasks that were
    stored. *)
Theorem manager_restart (db : DB) (clock1 clock2 : Clock) :
  openable (db_data db) → tasks_openable (db_data db) → settled (stored_tasks (db_data db)) →
  clock_ok (readings clock1) → clock_ok (readings clock2) →
  match OpenDiskMetadataStore (Ok db) clock1 with
  | Ok m =>
      match NewDiskReplicationTaskQueue (ds_db m) clock2 with
      | (Ok _, q) =>
          data_ok (store_data q) ∧ tasks_ok (store_data q) ∧
          data_catalog (store_data q) = data_catalog (db_data db) ∧
          stored_tasks (store_data q) = stored_tasks (db_data db)
      | (Err e, _) => (∃ db' : DB, db_fault db') ∨ e = ErrValueTooLarge
      | (Panic, _) => False
      end
  | Err e => db_fault db
  | Panic => False
  end.
Proof.
  intros Hop Htop Hset Hc1 Hc2. pose proof (Open_run db clock1 _ Hop Hc1 eq_refl) as Hopen.
  destruct (OpenDiskMetadataStore (Ok db) clock1) as [m|e|]; [|done|done].
  destruct Hopen as ([Hok _] & Hcat & Hfr).
  assert (Htm : store_data m !! replicationTasksBucket = db_data db !! replicationTasksBucket)
    by (by apply Hfr).
  assert (Htop' : tasks_openable (db_data (ds_db m))).
  { destruct Htop as [Hn|(ts & Hts & Hall)]; [left; by rewrite <-Hn|right].
    exists ts. split; [by rewrite <-Hts|done]. }
  assert (Htab : stored_tasks (db_data (ds_db m)) = stored_tasks (db_data db)).
  { unfold table. unfold store_data in Htm. by rewrite Htm. }
  unfold NewDiskReplicationTaskQueue.
  destruct (dq_init {| ds_db := ds_db m; ds_now := clock2 |}) as [r1 q1] eqn:Hinit.
  pose proof (init_run _ _ _ _ Htop' Hc2 Hinit) as Hinit'.
  destruct r1 as [[]|e|]; [|erewrite gom_bind_err by exact Hinit; left; by eexists|done].
  destruct Hinit' as (Hok1 & Hfr1 & HT1 & Hrd1). erewrite gom_bind_ok by exact Hinit.
  destruct (restoreRetryableTasks q1) as [r2 q2] eqn:Hres.
  destruct (restore_simulates q1 r2 q2) as (Hok2 & Hfr2 & Hcase); [done|by rewrite HT1, Htab|done|].
  assert (stored_tasks (store_data q2) = stored_tasks (db_data db)) as HT2.
  { rewrite <-Htab, <-HT1. by destruct Hcase as [[t [= _ ?]]|[? _]]. }
  destruct r2 as [[]|e|].
  - assert (Hfr12 : only_bucket replicationTasksBucket (store_data m) (store_data q2))
      by (by eapply only_bucket_trans).
    destruct Hok as [Hf Hn], Hok2 as [Ht2 _]. split_and!; [|done| |done].
    + split; by eapply table_ok_frame.
    + rewrite <-Hcat. unfold disk_catalog, store_abs, data_catalog. f_equal; by eapply table_frame.
  - destruct Hcase as [[t ?]|(_ & e' & [= <-] & [?|?])]; [done|left; by eexists|by right].
  - by destruct Hcase as [[t ?]|(_ & e' & ? & _)].
Qed.
End disk.

(** C24: Records survive the disk: what [putMetadataJSON] or [putReplicationTask]
    stores, [getFileFromBucket], [Nodes] or [decodeReplicationTask] reads back
    unchanged: file records with their chunks and replica table, node records and
    task records, when their text is UTF-8, their integers fit their fields and
    their times lie in the years 1 to 9999. *)
Theorem record_roundtrip (f : FileMetadata) (n : NodeMetadata) (task : ReplicationTask) :
  file_json f → node_json n → task_json task →
  (∃ s, json_Marshal c_FileMetadata f = Some s ∧ json_Unmarshal c_FileMetadata s = Some f) ∧
  (∃ s, json_Marshal c_NodeMetadata n = Some s ∧ json_Unmarshal c_NodeMetadata s = Some n) ∧
  (∃ s, json_Marshal c_ReplicationTask task = Some s ∧
        json_Unmarshal c_ReplicationTask s = Some task).
Proof.
  intros Hf Hn Ht. split_and!.
  - by eapply survives_roundtrip; [apply survives_file|].
  - by eapply survives_roundtrip; [apply survives_node|].
  - by eapply survives_roundtrip; [apply survives_task|].
Qed.

(** ** A key that is not UTF-8 *)

(** The one-byte key that PUT /files/%FF names. *)
Definition byte_key : string := String (ascii_of_nat 255) "".

(** A database with its three buckets, and the clock of the tests: noon on 17
    June 2026. *)
Definition test_time : Time := Eval vm_compute in default zero_time (parse_time "2026-06-17T12:00:00Z").
Definition empty_db : BoltData :=
  {[ metadataFilesBucket := ∅; metadataNodesBucket := ∅; replicationTasksBucket := ∅ ]}.
Definition test_store : DiskStore BoltData := {| ds_db := empty_db; ds_now := stopped test_time |}.

(** A file key that is not UTF-8 is lost on disk: [BeginFileVersion] and
    [GetFile] accept it, but the record stored under it names U+FFFD instead, so
    [ListFiles], and the repair loop behind it, see a file that does not exist
    under its name; and a task for the file comes out of the disk queue for the
    wrong key.  The in-memory backend keeps the key. *)
Theorem byte_key_lost :
  let '(_, m) := dm_BeginFileVersion byte_key 0 "" [] "node1" ["node1"] test_store in
  let task := pending_task (new_file_version byte_key 1 0 "" [] "node1" ["node1"] 0 0)
                "node1" "node2" 0 0 in
  let '(_, q) := dq_Enqueue [task] test_store in
  match (dm_ListFiles m).1, (dm_GetFile replacement m).1, (dq_Pending q).1 with
  | Ok [f], Ok g, Ok [t] =>
      fm_Key f = replacement ∧ byte_key ≠ replacement ∧ g = None ∧
      rt_Key task = byte_key ∧ rt_Key t = replacement
  | _, _, _ => False
  end.
Proof. vm_compute. done. Qed.

(** ** Instances *)

Lemma test_clock_ok : clock_ok (readings (stopped test_time)).
Proof. intros n. by vm_compute. Qed.

Lemma empty_table_ok {A} (c : Codec A) good b :
  b = metadataFilesBucket ∨ b = metadataNodesBucket ∨ b = replicationTasksBucket →
  table_ok c good b empty_db.
Proof. intros [-> | [-> | ->]]; exists ∅; by split. Qed.

Lemma test_store_ok : disk_ok test_store ∧ store_ok tasks_ok test_store.
Proof.
  split; (split; [|exact test_clock_ok]); [split|]; apply empty_table_ok; naive_solver.
Qed.

Lemma key_ok_check k :
  negb (bool_decide (k = "")) && (zslen k <=? MaxKeySize)%Z && utf8_ok k = true → key_ok k.
Proof.
  intros [[H1 H2]%andb_prop H3]%andb_prop. split_and!; [|lia|by rewrite H3].
  intros ->. by vm_compute in H1.
Qed.

Definition demo_chunk : ChunkMetadata :=
  {| cm_Index := 0; cm_Offset := 0; cm_Size := 128; cm_Checksum := "chunk-checksum" |}.

Lemma demo_chunk_json : chunk_json demo_chunk.
Proof. by vm_compute. Qed.

(** The history of TestDiskMetadataStorePersistence, and more. *)
Definition demo_calls : list {A & MetaCall A} := [
  existT _ (CUpsertNode "node1" ":3000");
  existT _ (CUpsertNode "node2" ":5000");
  existT _ (CBeginFileVersion "picture.png" 128 "checksum" [demo_chunk] "node1" ["node1"; "node2"]);
  existT _ (CMarkReplica "picture.png" "node2" ReplicaHealthy);
  existT _ (CMarkExpiredNodes (10 * Second));
  existT _ (CGetFile "picture.png")
].

Lemma demo_calls_ok : calls_ok (Tx := BoltData) demo_calls test_store.
Proof.
  pose proof demo_chunk_json. assert (in_s64 128) by (unfold in_s64; lia).
  unfold demo_calls. cbn [calls_ok call_ok].
  split; [by split; [apply key_ok_check|]|]. split; [by split; [apply key_ok_check|]|].
  split; [|split; [done|split; [|done]]].
  - split; [by apply key_ok_check|]. split; [done|]. split; [done|].
    split; [by apply Forall_singleton|]. split; [done|]. by rewrite !Forall_cons, Forall_nil.
  - apply (bool_decide_eq_true_1 _). by vm_compute.
Qed.

Lemma disk_metadata_refines_witness :
  let evs := (run_calls demo_calls test_store).1 in
  let m := (run_calls demo_calls test_store).2 in
  (replica ← fm_Replicas <$> match (dm_GetFile "picture.png" m).1 with Ok f => f | _ => None end;
   rm_State <$> replica !! "node2") = Some ReplicaHealthy ∧
  catalog_trace (disk_failure (DB := BoltData)) (disk_catalog test_store) evs (disk_catalog m).
Proof.
  split; [by vm_compute|].
  apply (disk_metadata_refines (run_calls demo_calls test_store).1 test_store
    (run_calls demo_calls test_store).2); [apply test_store_ok|apply run_calls_history, demo_calls_ok].
Defined.

Definition demo_file : FileMetadata :=
  new_file_version "picture.png" 1 128 "checksum" [demo_chunk] "node1" ["node1"; "node2"]
    test_time test_time.

Lemma demo_file_json : file_json demo_file.
Proof.
  pose proof demo_chunk_json. assert (in_s64 128) by (unfold in_s64; lia).
  assert (in_u64 1) by (unfold in_u64; lia).
  apply (new_version_good "picture.png"); try done.
  - by apply Forall_singleton.
  - by rewrite !Forall_cons, Forall_nil.
Qed.

Definition demo_task : ReplicationTask := pending_task demo_file "node1" "node2" test_time test_time.

Lemma demo_task_good : task_good (rt_ID demo_task) demo_task.
Proof.
  apply pending_task_good; [apply demo_file_json|done|done|done|done|]. by vm_compute.
Qed.

Definition demo_queue_calls : list {A & QueueCall A} := [
  existT _ (QEnqueue [demo_task]);
  existT _ (QMarkRunning (rt_ID demo_task));
  existT _ QRequeueExpiredRunning;
  existT _ (QMarkFailed (rt_ID demo_task) (Some ErrChecksumMismatch));
  existT _ QStats
].

Lemma demo_queue_calls_ok : queue_calls_ok (Tx := BoltData) demo_queue_calls test_store.
Proof.
  unfold demo_queue_calls. cbn [queue_calls_ok queue_call_ok].
  split; [apply Forall_singleton, demo_task_good|]. split; [done|].
  split; [apply (bool_decide_eq_true_1 _); by vm_compute|]. by split.
Qed.

Lemma disk_queue_refines_witness :
  let evs := (run_queue_calls demo_queue_calls test_store).1 in
  let q := (run_queue_calls demo_queue_calls test_store).2 in
  (stats ← match (dq_Stats q).1 with Ok stats => Some stats | _ => None end;
   stats !! ReplicationTaskPending) = Some 1%Z ∧
  table_trace (disk_failure (DB := BoltData)) (stored_tasks (store_data test_store)) evs
    (stored_tasks (store_data q)).
Proof.
  split; [by vm_compute|].
  apply (disk_queue_refines (run_queue_calls demo_queue_calls test_store).1 test_store
    (run_queue_calls demo_queue_calls test_store).2);
    [apply test_store_ok|apply run_queue_calls_history, demo_queue_calls_ok].
Defined.

(** What a manager left that stopped with a copy still waiting. *)
Definition waiting_calls : list {A & QueueCall A} := [existT _ (QEnqueue [demo_task])].
Definition waiting_db : BoltData := ds_db (run_queue_calls waiting_calls test_store).2.

Lemma waiting_db_ok :
  openable (db_data waiting_db) ∧ tasks_openable (db_data waiting_db) ∧
  settled (stored_tasks (db_data waiting_db)).
Proof.
  destruct test_store_ok as [[[Hf Hn] _] Hq].
  assert (queue_calls_ok (Tx := BoltData) waiting_calls test_store) as Hcalls
    by (split; [apply Forall_singleton, demo_task_good|done]).
  destruct (queue_history_simulates _ _ _ Hq (run_queue_calls_history _ _ Hcalls)) as ([Ht _] & Hfr & _).
  assert (settled (stored_tasks (db_data waiting_db))) as Hs by (apply (bool_decide_eq_true_1 _); by vm_compute).
  change (db_data waiting_db) with (store_data (run_queue_calls waiting_calls test_store).2) in *.
  revert Ht Hfr Hs. generalize (store_data (run_queue_calls waiting_calls test_store).2).
  intros d Ht Hfr Hs. split; [split; right; by eapply table_ok_frame|]. split; [by right|done].
Qed.

Definition demo_node : NodeMetadata :=
  {| nm_ID := "node1"; nm_Addr := ":3000"; nm_State := NodeDown; nm_LastHeartbeat := test_time + 1 |}.

Lemma record_roundtrip_witness :
  (∃ s, json_Marshal c_FileMetadata demo_file = Some s ∧
        json_Unmarshal c_FileMetadata s = Some demo_file) ∧
  (∃ s, json_Marshal c_NodeMetadata demo_node = Some s ∧
        json_Unmarshal c_NodeMetadata s = Some demo_node) ∧
  (∃ s, json_Marshal c_ReplicationTask demo_task = Some s ∧
        json_Unmarshal c_ReplicationTask s = Some demo_task).
Proof.
  apply record_roundtrip; [apply demo_file_json|by vm_compute|apply demo_task_good].
Defined.
