(* ===== verification/Float64.v ===== *)
(** * Numbers decoded into [any]: [float64] of the Go library.

    [encoding/json] reads a number of an [any] with [strconv.ParseFloat] and
    writes it with [strconv.AppendFloat] in the shortest form that reads back.
    A finite float is a sign and [mant * 2 ^ exp], with 53 bits of mantissa
    unless it is subnormal.  The definitions are exact on rationals: the nearest
    float with ties to even, and the decimal with the fewest digits in the
    interval that rounds to the float, the nearest one if there are two. *)

From Stdlib Require Import ZArith Ascii ZifyBool.
From S2P Require Import Prelude Names Utf8 Json Codec.
From stdpp Require Import options.

Local Open Scope Z_scope.

Record Float64 := {
  fl_neg : bool;
  fl_mant : Z;
  fl_exp : Z
}.

#[export] Instance Float64_eq_dec : EqDecision Float64.
Proof. solve_decision. Defined.

(** ** Rounding *)

(** [n / d], to the nearest integer, ties to even. *)
Definition div_even (n d : Z) : Z :=
  let q := n / d in
  match 2 * (n mod d) ?= d with
  | Lt => q
  | Gt => q + 1
  | Eq => if Z.even q then q else q + 1
  end.

(** [num / den / b ^ e] as a fraction. *)
Definition scale (b num den e : Z) : Z * Z :=
  if 0 <=? e then (num, den * b ^ e) else (num * b ^ (- e), den).

Definition min_exp : Z := -1074.
Definition max_exp : Z := 971.

(** The mantissa and the exponent of the float nearest to [num / den]; [None] for
    a number that is out of range. *)
Definition round_ratio (num den : Z) : option (Z * Z) :=
  if num =? 0 then Some (0, min_exp)
  else
    let k := Z.log2 num - Z.log2 den in
    let '(n, d) := scale 2 num den k in
    let e := Z.max min_exp (if d <=? n then k - 52 else k - 53) in
    let '(n, d) := scale 2 num den e in
    let m := div_even n d in
    let '(m, e) := if m =? 2 ^ 53 then (2 ^ 52, e + 1) else (m, e) in
    if max_exp <? e then None else Some (m, e).

(** ** [strconv.ParseFloat] on a number literal of JSON *)

Definition split_sign (s : string) : bool * string :=
  match s with
  | String c r => if is_char 45 c then (true, r) else (false, s)
  | "" => (false, s)
  end%string.

(** The exponent after its letter. *)
Definition exponent_value (s : string) : Z :=
  match s with
  | String _ (String c r) =>
      if is_char 45 c then - Z.of_N (dec_value 0 r)
      else if is_char 43 c then Z.of_N (dec_value 0 r)
      else Z.of_N (dec_value 0 (String c r))
  | _ => 0
  end%string.

Definition ParseFloat (lit : string) : option Float64 :=
  let '(neg, s) := split_sign lit in
  let '(int, s) := take_digits s in
  let '(frac, s) :=
    match s with
    | String c r => if is_char 46 c then take_digits r else ("", s)
    | "" => ("", s)
    end%string in
  let digits := Z.of_N (dec_value 0 (int +:+ frac)) in
  let exp := exponent_value s - Z.of_nat (String.length frac) in
  let '(num, den) := scale 10 digits 1 (- exp) in
  '(m, e) ← round_ratio num den;
  Some {| fl_neg := neg; fl_mant := m; fl_exp := e |}.

(** ** The shortest decimal *)

Definition float_ratio (f : Float64) : Z * Z := scale 2 (fl_mant f) 1 (- fl_exp f).

(** How many times [num] is multiplied by ten until it reaches [den]. *)
Fixpoint lead_zeros (fuel : nat) (num den : Z) : Z :=
  match fuel with
  | O => 0
  | S fuel => if den <=? num then 0 else 1 + lead_zeros fuel (num * 10) den
  end.

Definition dec_length (n : Z) : Z := Z.of_nat (String.length (pretty n)).

(** The position of the decimal point: [10 ^ (pos - 1) <= num / den < 10 ^ pos]. *)
Definition point_pos (num den : Z) : Z :=
  if den <=? num then dec_length (num / den) else 1 - lead_zeros 400 num den.

(** Whether [c * 10 ^ p] is read as the float [f]. *)
Definition reads_as (f : Float64) (c p : Z) : bool :=
  let '(num, den) := scale 10 c 1 (- p) in
  bool_decide (round_ratio num den = Some (fl_mant f, fl_exp f)).

(** The decimal with [n] digits that reads as [f], if there is one. *)
Definition decimal_with (f : Float64) (n : nat) : option (Z * Z) :=
  let '(num, den) := float_ratio f in
  let p := point_pos num den - Z.of_nat n in
  let '(a, b) := scale 10 num den p in
  let c := a / b in
  match reads_as f c p, negb (a mod b =? 0) && reads_as f (c + 1) p with
  | true, true => Some (div_even a b, p)
  | true, false => Some (c, p)
  | false, true => Some (c + 1, p)
  | false, false => None
  end.

Fixpoint first_some {A} (f : nat → option A) (fuel n : nat) : option A :=
  match fuel with
  | O => None
  | S fuel => match f n with Some a => Some a | None => first_some f fuel (S n) end
  end.

(** The decimal with seventeen digits nearest to [f], which reads as every float;
    the search ends there at the latest. *)
Definition decimal_17 (f : Float64) : Z * Z :=
  let '(num, den) := float_ratio f in
  let p := point_pos num den - 17 in
  let '(a, b) := scale 10 num den p in
  (div_even a b, p).

Definition shortest (f : Float64) : Z * Z :=
  if fl_mant f =? 0 then (0, 0) else default (decimal_17 f) (first_some (decimal_with f) 17 1).

(** ** The text: [floatEncoder] of encoding/json *)

(** The digits without their trailing zeros, of which there are [k]. *)
Fixpoint strip_zeros (fuel : nat) (c k : Z) : Z * Z :=
  match fuel with
  | O => (c, k)
  | S fuel => if (c mod 10 =? 0) && negb (c =? 0) then strip_zeros fuel (c / 10) (k + 1) else (c, k)
  end.

(** The format [%f]: no exponent. *)
Definition format_f (c p : Z) : string :=
  if 0 <=? p then pretty (c * 10 ^ p)
  else
    let q := 10 ^ (- p) in
    pretty (c / q) +:+ "." +:+ zeros (Z.to_nat (- p - dec_length (c mod q))) +:+ pretty (c mod q).

(** The format [%e], with the exponent as JSON cleans it. *)
Definition format_e (c p : Z) : string :=
  let ds := pretty c in
  let x := p + dec_length c - 1 in
  match ds with
  | String d r => String d ((if bool_decide (r = "") then "" else "." +:+ r) +:+ "e" +:+
                            (if (x <? 0)%Z then "-" else "+") +:+ pretty (Z.abs x))
  | "" => ""
  end%string.

(** [abs < 1e-6 || abs >= 1e21], on floats. *)
Definition uses_exponent (f : Float64) : bool :=
  let '(num, den) := float_ratio f in
  let small := match round_ratio 1 (10 ^ 6) with
               | Some (m, e) => float_ratio {| fl_neg := false; fl_mant := m; fl_exp := e |}
               | None => (0, 1)
               end in
  negb (fl_mant f =? 0) && ((num * small.2 <? small.1 * den) || (10 ^ 21 * den <=? num)).

Definition format_float (f : Float64) : string :=
  let '(c, p) := shortest f in
  let '(c, k) := strip_zeros 17 c 0 in
  let text := if uses_exponent f then format_e c (p + k) else format_f c (p + k) in
  if fl_neg f then String "-" text else text.

(** ** Examples of the Go library *)

Definition through_float (lit : string) : option string := format_float <$> ParseFloat lit.

Example floats_printed :
  through_float <$> ["0"; "-0"; "1"; "100"; "-12.50"; "0.1"; "1e21"; "1e20"; "123456789012345678";
    "1e-6"; "1e-7"; "0.000001234"; "5e-324"; "1.7976931348623157e308"; "1e309"; "2.2250738585072011e-308";
    "9007199254740993"; "18446744073709551615"; "1e23"; "9.5E+2"; "4.35"; "0.3"] =
  [Some "0"; Some "-0"; Some "1"; Some "100"; Some "-12.5"; Some "0.1"; Some "1e+21";
   Some "100000000000000000000"; Some "123456789012345680"; Some "0.000001"; Some "1e-7"; Some "0.000001234";
   Some "5e-324"; Some "1.7976931348623157e+308"; None; Some "2.225073858507201e-308";
   Some "9007199254740992"; Some "18446744073709552000"; Some "1e+23"; Some "950"; Some "4.35"; Some "0.3"].
Proof. by vm_compute. Qed.

(** ** Integers survive *)

Lemma div_even_exact q d : 0 < d → div_even (q * d) d = q.
Proof. intros Hd. unfold div_even. rewrite Z_div_mult, Z_mod_mult by lia. by destruct d. Qed.

Lemma div_even_lower n d : n / d ≤ div_even n d.
Proof. unfold div_even. case_match; [case_match|..]; lia. Qed.

Lemma scale_nonneg b num den e : 0 ≤ e → scale b num den e = (num, den * b ^ e).
Proof. intros He. unfold scale. by rewrite (proj2 (Z.leb_le 0 e) He). Qed.

Lemma scale_neg b num den e : 0 < e → scale b num den (- e) = (num * b ^ e, den).
Proof. intros He. unfold scale. by rewrite (proj2 (Z.leb_gt 0 (- e))), Z.opp_involutive by lia. Qed.

Lemma scale_1 b c p : 0 ≤ p → scale b c 1 (- p) = (c * b ^ p, 1).
Proof.
  intros [Hp|<-]%Z.le_lteq; [by apply scale_neg|]. rewrite scale_nonneg by done. f_equal. lia.
Qed.

(** The nearest float to a positive integer, before the check of the range. *)
Lemma round_int_shape n : 0 < n →
  let k := Z.log2 n in
  let '(a, d) := scale 2 n 1 (k - 52) in
  let m := div_even a d in
  round_ratio n 1 =
  let '(m, e) := if m =? 2 ^ 53 then (2 ^ 52, k - 52 + 1) else (m, k - 52) in
  if max_exp <? e then None else Some (m, e).
Proof.
  intros Hn k. unfold round_ratio. rewrite (proj2 (Z.eqb_neq n 0)) by lia.
  change (Z.log2 1) with 0. rewrite Z.sub_0_r. fold k. pose proof (Z.log2_nonneg n).
  rewrite (scale_nonneg 2 n 1 k), Z.mul_1_l by lia.
  rewrite (proj2 (Z.leb_le (2 ^ k) n)) by (apply Z.log2_spec; lia).
  unfold min_exp. rewrite Z.max_r by lia. by destruct (scale 2 n 1 (k - 52)).
Qed.

Lemma round_small n : 0 < n < 2 ^ 53 →
  round_ratio n 1 = Some (n * 2 ^ (52 - Z.log2 n), Z.log2 n - 52).
Proof.
  intros Hn. pose proof (round_int_shape n ltac:(lia)) as Hs. cbv zeta in Hs.
  pose proof (Z.log2_spec n ltac:(lia)) as [Hlo Hhi]. pose proof (Z.log2_nonneg n).
  assert (Z.log2 n < 53) as Hk by (apply Z.log2_lt_pow2; lia).
  replace (Z.log2 n - 52) with (- (52 - Z.log2 n)) in Hs by lia. rewrite scale_1 in Hs by lia.
  rewrite <-(Z.mul_1_r (n * _)), div_even_exact in Hs by lia.
  assert (n * 2 ^ (52 - Z.log2 n) < 2 ^ 53) as Hm.
  { replace (2 ^ 53) with (2 ^ Z.succ (Z.log2 n) * 2 ^ (52 - Z.log2 n))
      by (rewrite <-Z.pow_add_r by lia; f_equal; lia).
    by apply Z.mul_lt_mono_pos_r; [apply Z.pow_pos_nonneg; lia|]. }
  rewrite (proj2 (Z.eqb_neq _ (2 ^ 53))) in Hs by lia.
  rewrite Hs, (proj2 (Z.ltb_ge max_exp _)) by (unfold max_exp; lia). do 2 f_equal. lia.
Qed.

Lemma round_large n m e : 2 ^ 53 ≤ n → round_ratio n 1 = Some (m, e) → 1 ≤ e.
Proof.
  intros Hn Hr. pose proof (round_int_shape n ltac:(lia)) as Hs. cbv zeta in Hs.
  assert (53 ≤ Z.log2 n) as Hk by (apply Z.log2_le_pow2; lia).
  rewrite Hr in Hs. destruct (scale _ _ _ _) as [a d]. destruct (div_even a d =? 2 ^ 53);
    (destruct (max_exp <? _); [done|]; injection Hs as -> ->; lia).
Qed.

(** Only [n] is read as the float [n]. *)
Lemma round_inj n c : 0 < n < 2 ^ 53 → 0 ≤ c → round_ratio c 1 = round_ratio n 1 → c = n.
Proof.
  intros Hn Hc. rewrite (round_small n Hn). intros Hr.
  pose proof (Z.pow_pos_nonneg 2 (52 - Z.log2 n)) as Hpos.
  assert (Z.log2 n < 53) as Hk by (apply Z.log2_lt_pow2; lia).
  destruct (decide (c = 0)) as [->|Hc0].
  { injection Hr as Hr _. nia. }
  destruct (decide (c < 2 ^ 53)) as [Hlt|Hge].
  - rewrite round_small in Hr by lia. injection Hr as Hm He.
    replace (Z.log2 c) with (Z.log2 n) in Hm by lia. nia.
  - apply round_large in Hr; lia.
Qed.

Lemma dec_length_bound (n : Z) (k : nat) :
  0 < n < 10 ^ Z.of_nat k → 1 ≤ dec_length n ≤ Z.of_nat k.
Proof.
  intros Hn. unfold dec_length. rewrite pretty_nonneg by lia. split.
  { pose proof (nat_literal_pretty (Z.to_N n)) as Hl. destruct (pretty (Z.to_N n)); [done|cbn; lia]. }
  assert (∀ k x s, (x < 10 ^ N.of_nat k)%N →
    (String.length (pretty_N_go x s) ≤ k + String.length s)%nat) as Hgo.
  { clear. induction k as [|k IH]; intros x s Hx.
    - assert (x = 0)%N as -> by (cbn in Hx; lia). by rewrite pretty_N_go_0.
    - destruct (decide (x = 0)%N) as [->|Hne]; [rewrite pretty_N_go_0; lia|].
      rewrite pretty_N_go_step by lia. etrans; [apply IH|cbn; lia].
      apply N.Div0.div_lt_upper_bound. rewrite Nat2N.inj_succ, N.pow_succ_r' in Hx. lia. }
  pose proof (Hgo k (Z.to_N n) "") as Hk. unfold pretty, pretty_N. rewrite decide_False by lia.
  cbn [String.length] in Hk. rewrite Nat.add_0_r in Hk.
  assert (Z.to_N n < 10 ^ N.of_nat k)%N as Hlt; [|specialize (Hk Hlt); lia].
  rewrite <-nat_N_Z in Hn. change 10 with (Z.of_N 10) in Hn. rewrite <-N2Z.inj_pow in Hn. lia.
Qed.

(** The float of a positive integer below [2 ^ 53]. *)
Definition int_float (n : Z) : Float64 :=
  {| fl_neg := false; fl_mant := n * 2 ^ (52 - Z.log2 n); fl_exp := Z.log2 n - 52 |}.

Section integer.
Context (n : Z) (Hn : 0 < n < 2 ^ 53).

Lemma int_log : 0 ≤ 52 - Z.log2 n.
Proof using Hn. assert (Z.log2 n < 53) by (apply Z.log2_lt_pow2; lia). lia. Qed.

Lemma int_float_ratio neg :
  float_ratio {| fl_neg := neg; fl_mant := fl_mant (int_float n); fl_exp := fl_exp (int_float n) |} =
  (n * 2 ^ (52 - Z.log2 n), 2 ^ (52 - Z.log2 n)).
Proof using Hn.
  unfold float_ratio, int_float. cbn [fl_mant fl_exp].
  rewrite scale_nonneg by (pose proof int_log; lia). f_equal. rewrite Z.mul_1_l. f_equal. lia.
Qed.

Lemma int_length : 1 ≤ dec_length n ≤ 16.
Proof using Hn. apply (dec_length_bound n 16). lia. Qed.

Lemma reads_as_int neg c p : 0 ≤ c → 0 ≤ p →
  reads_as {| fl_neg := neg; fl_mant := fl_mant (int_float n); fl_exp := fl_exp (int_float n) |} c p =
  bool_decide (c * 10 ^ p = n).
Proof using Hn.
  intros Hc Hp. unfold reads_as. rewrite scale_1 by done. cbn [fl_mant fl_exp int_float].
  rewrite <-(round_small n Hn). apply bool_decide_ext. split; [|by intros ->].
  apply round_inj; [done|]. pose proof (Z.pow_pos_nonneg 10 p). nia.
Qed.

(** With as many digits as the integer has or fewer, a decimal reads as the
    integer only if it is the integer. *)
Lemma decimal_with_int neg i : 1 ≤ Z.of_nat i ≤ dec_length n →
  let p := dec_length n - Z.of_nat i in
  decimal_with {| fl_neg := neg; fl_mant := fl_mant (int_float n); fl_exp := fl_exp (int_float n) |} i =
  if n mod 10 ^ p =? 0 then Some (n / 10 ^ p, p) else None.
Proof using Hn.
  intros Hi p. unfold decimal_with. rewrite int_float_ratio.
  set (j := 2 ^ (52 - Z.log2 n)). assert (0 < j) as Hj by (apply Z.pow_pos_nonneg; [lia|apply int_log]).
  assert (point_pos (n * j) j = dec_length n) as ->.
  { unfold point_pos. rewrite (proj2 (Z.leb_le _ _)), Z_div_mult by nia. done. }
  fold p. assert (0 ≤ p) as Hp by lia. rewrite scale_nonneg by done.
  pose proof (Z.pow_pos_nonneg 10 p ltac:(lia) Hp) as H10.
  rewrite (Z.mul_comm n j), Z.div_mul_cancel_l, Zmult_mod_distr_l by lia.
  pose proof (Z.div_mod n (10 ^ p) ltac:(lia)) as Hdm. pose proof (Z.mod_pos_bound n (10 ^ p) H10).
  assert (0 ≤ n / 10 ^ p) as Hq by (apply Z.div_pos; lia).
  rewrite !reads_as_int by lia. rewrite (bool_decide_eq_false_2 ((n / 10 ^ p + 1) * 10 ^ p = n)) by nia.
  rewrite andb_false_r. case_bool_decide as E.
  - by rewrite (proj2 (Z.eqb_eq _ 0)) by nia.
  - by rewrite (proj2 (Z.eqb_neq _ 0)) by nia.
Qed.

Lemma first_some_spec {A} (f : nat → option A) (P : A → Prop) fuel i j :
  (i ≤ j)%nat → (j < i + fuel)%nat → is_Some (f j) →
  (∀ k a, (i ≤ k ≤ j)%nat → f k = Some a → P a) → ∃ a, first_some f fuel i = Some a ∧ P a.
Proof using.
  revert i. induction fuel as [|fuel IH]; intros i Hij Hj Hs HP; [lia|]. cbn [first_some].
  destruct (f i) as [a|] eqn:Ef; [exists a; split; [done|]; by apply (HP i); [lia|]|].
  destruct (decide (i = j)) as [->|Hne]; [rewrite Ef in Hs; by destruct Hs|].
  apply IH; [lia|lia|done|]. intros k a Hk. apply HP. lia.
Qed.

Lemma shortest_int neg : ∃ c p,
  shortest {| fl_neg := neg; fl_mant := fl_mant (int_float n); fl_exp := fl_exp (int_float n) |} = (c, p) ∧
  0 ≤ p ∧ c * 10 ^ p = n.
Proof using Hn.
  unfold shortest. cbn [fl_mant]. pose proof (Z.pow_pos_nonneg 2 (52 - Z.log2 n) ltac:(lia) int_log) as Hj.
  rewrite (proj2 (Z.eqb_neq _ 0)) by (cbn; nia). pose proof int_length as Hlen.
  destruct (first_some_spec (decimal_with {| fl_neg := neg; fl_mant := fl_mant (int_float n);
    fl_exp := fl_exp (int_float n) |}) (λ cp, 0 ≤ cp.2 ∧ cp.1 * 10 ^ cp.2 = n) 17 1 (Z.to_nat (dec_length n)))
    as ([c p] & -> & Hp); [lia|lia| | |by exists c, p].
  - rewrite decimal_with_int by lia. rewrite Z2Nat.id, Z.sub_diag by lia.
    rewrite Z.pow_0_r, Z.mod_1_r. by eexists.
  - intros k [c p] Hk. rewrite decimal_with_int by lia. set (p' := dec_length n - Z.of_nat k).
    destruct (n mod 10 ^ p' =? 0) eqn:E; [|done]. intros [= <- <-]. cbn [fst snd]. split; [lia|].
    pose proof (Z.pow_pos_nonneg 10 p' ltac:(lia) ltac:(lia)).
    pose proof (Z.div_mod n (10 ^ p') ltac:(lia)). lia.
Qed.

Lemma strip_zeros_value fuel c k c' k' :
  0 ≤ k → strip_zeros fuel c k = (c', k') → k ≤ k' ∧ c' * 10 ^ k' = c * 10 ^ k.
Proof using.
  revert c k. induction fuel as [|fuel IH]; intros c k Hk; cbn [strip_zeros]; [intros [= <- <-]; lia|].
  destruct ((c mod 10 =? 0) && negb (c =? 0)) eqn:E; [|intros [= <- <-]; lia].
  intros (H1 & H2)%IH; [|lia]. split; [lia|]. rewrite H2, Z.pow_add_r by lia.
  pose proof (Z.div_mod c 10 ltac:(lia)). nia.
Qed.

Lemma uses_exponent_int neg :
  uses_exponent {| fl_neg := neg; fl_mant := fl_mant (int_float n); fl_exp := fl_exp (int_float n) |} = false.
Proof using Hn.
  unfold uses_exponent. rewrite int_float_ratio.
  set (j := 2 ^ (52 - Z.log2 n)). assert (0 < j) as Hj by (apply Z.pow_pos_nonneg; [lia|apply int_log]).
  set (small := match _ with Some _ => _ | None => _ end). vm_compute in small.
  apply andb_false_iff. right. apply orb_false_iff. subst small. cbn [fst snd]. nia.
Qed.

Lemma format_int neg :
  format_float {| fl_neg := neg; fl_mant := fl_mant (int_float n); fl_exp := fl_exp (int_float n) |} =
  if neg then String "-" (pretty n) else pretty n.
Proof using Hn.
  unfold format_float. destruct (shortest_int neg) as (c & p & -> & Hp & Hc).
  destruct (strip_zeros 17 c 0) as [c' k] eqn:Es. apply strip_zeros_value in Es as [Hk Hck]; [|done].
  rewrite uses_exponent_int. unfold format_f. rewrite (proj2 (Z.leb_le 0 (p + k))) by lia.
  assert (c' * 10 ^ (p + k) = n) as ->; [|done].
  rewrite Z.pow_add_r, Z.pow_0_r in * by lia. rewrite <-Hc. lia.
Qed.
End integer.

Lemma ParseFloat_digits (x : N) :
  take_digits (pretty x) = (pretty x, "").
Proof.
  pose proof (take_digits_app (pretty x) "") as H. rewrite app_nil_s in H. apply H; [|done].
  apply nat_literal_chars; [done|apply nat_literal_pretty].
Qed.

(** The integers of JSON below [2 ^ 53] are printed as they were. *)
Lemma through_float_int z : - 2 ^ 53 < z < 2 ^ 53 → through_float (pretty z) = Some (pretty z).
Proof.
  intros Hz. destruct z as [|q|q]; [by vm_compute|..]; unfold through_float, ParseFloat.
  - change (pretty (Z.pos q)) with (pretty (N.pos q)).
    pose proof (nat_literal_pretty (N.pos q)) as Hl. unfold split_sign.
    destruct (pretty (N.pos q)) as [|c r] eqn:E; [done|]. rewrite (nat_literal_sign _ _ Hl), <-E.
    rewrite ParseFloat_digits, app_nil_s, dec_value_pretty. change (- (_ - _)) with (-0).
    rewrite scale_1, Z.pow_0_r, Z.mul_1_r by lia. change (Z.of_N (N.pos q)) with (Z.pos q).
    rewrite round_small by lia. cbn. f_equal. exact (format_int (Z.pos q) ltac:(lia) false).
  - change (pretty (Z.neg q)) with (String "-" (pretty (N.pos q))). unfold split_sign.
    change (is_char 45 "-") with true. cbn iota.
    rewrite ParseFloat_digits, app_nil_s, dec_value_pretty. change (- (_ - _)) with (-0).
    rewrite scale_1, Z.pow_0_r, Z.mul_1_r by lia. change (Z.of_N (N.pos q)) with (Z.pos q).
    rewrite round_small by lia. cbn. f_equal. exact (format_int (Z.pos q) ltac:(lia) true).
Qed.
