(* ===== verification/JsonAny.v ===== *)
(** * JSON decoded into [any] and printed again: what [printJSON] of [main.go] does.

    [json.Decode] into an [any] makes maps of objects, slices of arrays and
    floats of numbers; [json.MarshalIndent] writes maps in the order of their
    keys.  A record that goes this way comes out with its members in another
    order, and still reads as the same record. *)

From Stdlib Require Import Ascii ZifyBool.
From S2P Require Import Prelude Metadata Replication Names Utf8 Json Times Codec Records Float64.
From stdpp Require Import options.

(** ** Values of type [any] *)

Inductive Any :=
  | ANil
  | ABool (b : bool)
  | AFloat (f : Float64)
  | AString (s : string)
  | ASlice (vs : list Any)
  | AMap (ms : list (string * Any)).

(** [m[k] = v] on the entries of a map. *)
Fixpoint map_set {A} (k : string) (v : A) (m : list (string * A)) : list (string * A) :=
  match m with
  | [] => [(k, v)]
  | (k', v') :: m => if bool_decide (k' = k) then (k, v) :: m else (k', v') :: map_set k v m
  end.

(** [valueInterface]: a number that is out of range is an error. *)
Fixpoint any_of (v : JValue) : option Any :=
  match v with
  | JNull => Some ANil
  | JBool b => Some (ABool b)
  | JNum lit => AFloat <$> ParseFloat lit
  | JStr s => Some (AString s)
  | JArr vs => ASlice <$> mapM any_of vs
  | JObj ms =>
      AMap <$> foldl (λ acc kv, m ← acc; a ← any_of kv.2; Some (map_set kv.1 a m)) (Some []) ms
  end.

(** The tree the encoder writes: maps in the order of their keys. *)
Fixpoint json_of_any (a : Any) : JValue :=
  match a with
  | ANil => JNull
  | ABool b => JBool b
  | AFloat f => JNum (format_float f)
  | AString s => JStr s
  | ASlice vs => JArr (List.map json_of_any vs)
  | AMap ms => JObj (sort_by fst (List.map (λ m, (m.1, json_of_any m.2)) ms))
  end.

Definition through_any (v : JValue) : option JValue := json_of_any <$> any_of v.

(** ** Trees that only change their order *)

Fixpoint sort_tree (v : JValue) : JValue :=
  match v with
  | JArr vs => JArr (List.map sort_tree vs)
  | JObj ms => JObj (sort_by fst (List.map (λ m, (m.1, sort_tree m.2)) ms))
  | _ => v
  end.

(** Numbers that are printed as they were written, no key twice. *)
Fixpoint jexact (v : JValue) : bool :=
  match v with
  | JNull | JBool _ | JStr _ => true
  | JNum lit => bool_decide (through_float lit = Some lit)
  | JArr vs => forallb jexact vs
  | JObj ms => bool_decide (NoDup (List.map fst ms)) && forallb (λ m, jexact m.2) ms
  end.

Lemma map_set_new {A} k (v : A) m : k ∉ List.map fst m → map_set k v m = m ++ [(k, v)].
Proof.
  induction m as [|[k' v'] m IH]; [done|]. cbn. intros [Hne Hm]%not_elem_of_cons.
  rewrite bool_decide_eq_false_2 by done. by rewrite IH.
Qed.

Lemma through_any_members ms :
  NoDup (List.map fst ms) → Forall (λ m, through_any m.2 = Some (sort_tree m.2)) ms →
  ∀ acc, NoDup (List.map fst acc ++ List.map fst ms) → ∃ as_,
    foldl (λ acc kv, m ← acc; a ← any_of kv.2; Some (map_set kv.1 a m)) (Some acc) ms = Some (acc ++ as_) ∧
    List.map (λ m, (m.1, json_of_any m.2)) as_ = List.map (λ m, (m.1, sort_tree m.2)) ms.
Proof.
  intros _ Hms. induction Hms as [|[k v] ms Hv _ IH]; intros acc Hnd.
  { exists []. by rewrite app_nil_r. }
  cbn [foldl List.map fst snd] in *. unfold through_any in Hv.
  destruct (any_of v) as [a|]; [|done]. injection Hv as Hv. cbn [mbind option_bind].
  rewrite map_set_new.
  2: { apply NoDup_app in Hnd as (_ & Hd & _). intros Hk. apply (Hd k Hk). left. }
  destruct (IH (acc ++ [(k, a)])) as (as_ & -> & Has).
  { rewrite List.map_app, <-app_assoc. exact Hnd. }
  exists ((k, a) :: as_). rewrite <-app_assoc. split; [done|]. cbn. by rewrite Hv, Has.
Qed.

Lemma mapM_any vs :
  Forall (λ v, through_any v = Some (sort_tree v)) vs →
  ∃ as_, mapM any_of vs = Some as_ ∧ List.map json_of_any as_ = List.map sort_tree vs.
Proof.
  induction 1 as [|v vs Hv _ (as_ & Hm & Has)]; [by exists []|].
  unfold through_any in Hv. cbn [mapM]. destruct (any_of v) as [a|]; [|done]. injection Hv as Hv.
  exists (a :: as_). cbn. rewrite Hm. cbn. by rewrite Hv, Has.
Qed.

Lemma through_any_exact v : jexact v → through_any v = Some (sort_tree v).
Proof.
  induction v as [|b|lit|s|vs IH|ms IH] using JValue_ind'; intros Hv; [done|done| |done|..].
  - apply bool_decide_unpack in Hv. unfold through_any, through_float in *. cbn [any_of].
    destruct (ParseFloat lit) as [f|]; [|done]. injection Hv as Hv.
    by cbn [fmap option_fmap option_map json_of_any sort_tree]; rewrite Hv.
  - cbn [jexact] in Hv. apply forallb_True in Hv. destruct (mapM_any vs) as (as_ & Hm & Has).
    { rewrite Forall_forall in *. eauto. }
    unfold through_any. cbn [any_of]. rewrite Hm. cbn. by rewrite Has.
  - cbn [jexact] in Hv. apply andb_True in Hv as [Hnd%bool_decide_unpack Hv%forallb_True].
    destruct (through_any_members ms Hnd) with (acc := @nil (string * Any)) as (as_ & Hm & Has);
      [rewrite Forall_forall in *; intros m Hin; by apply IH, Hv|done|].
    unfold through_any. cbn [any_of]. rewrite Hm. cbn. by rewrite Has.
Qed.

Lemma sort_tree_valid v : jvalid v → jvalid (sort_tree v).
Proof.
  induction v as [|b|lit|s|vs IH|ms IH] using JValue_ind'; intros Hv; try done; cbn in *.
  - apply forallb_True in Hv. apply forallb_True, Forall_forall.
    intros x (v & <- & Hin)%list_elem_of_In%in_map_iff. apply list_elem_of_In in Hin.
    rewrite Forall_forall in *. eauto.
  - apply forallb_True in Hv. apply forallb_True, Forall_forall.
    intros x Hx%elem_of_sort_by%list_elem_of_In. apply in_map_iff in Hx as (m & <- & Hin).
    apply list_elem_of_In in Hin. rewrite Forall_forall in *. cbn.
    destruct (proj1 (andb_True _ _) (Hv m Hin)) as [Hk Hm]. apply andb_True. split; [done|].
    by apply (IH m Hin).
Qed.

Lemma foldr_max_perm (l l' : list N) : l ≡ₚ l' → foldr N.max 0%N l = foldr N.max 0%N l'.
Proof. induction 1; cbn; lia. Qed.

Lemma sort_tree_depth v : jdepth (sort_tree v) = jdepth v.
Proof.
  induction v as [|b|lit|s|vs IH|ms IH] using JValue_ind'; try done; cbn [sort_tree jdepth]; f_equal.
  - f_equal. rewrite List.map_map. apply List.map_ext_in. intros v Hv%list_elem_of_In.
    rewrite Forall_forall in IH. eauto.
  - etrans; [apply foldr_max_perm; change (@List.map) with (@fmap list _); by rewrite sort_by_Permutation|].
    f_equal. unfold fmap. cbn. rewrite List.map_map. apply List.map_ext_in. intros m Hm%list_elem_of_In.
    rewrite Forall_forall in IH. cbn. by apply (IH m).
Qed.

(** ** Records do not depend on the order of their members *)

(** What is written for [x] is exact, and sorted it reads as before. *)
Definition unordered {A} (c : Codec A) (x : A) : Prop :=
  ∀ v, c_enc c x = Some v → jexact v ∧ ∀ cur, c_dec c cur (sort_tree v) = c_dec c cur v.

Lemma unordered_string s : unordered c_string s.
Proof. by intros v [= <-]. Qed.
Lemma unordered_bool b : unordered c_bool b.
Proof. by intros v [= <-]. Qed.
Lemma unordered_time t : unordered c_time t.
Proof. intros v. cbn [c_enc c_time]. destruct (format_time t); by intros [= <-]. Qed.
Lemma unordered_enum {A} (zero : A) name of_name x : unordered (c_enum zero name of_name) x.
Proof. by intros v [= <-]. Qed.

(** Integers that a float carries exactly. *)
Definition float_int (z : Z) : Prop := (- 2 ^ 53 < z < 2 ^ 53)%Z.

Lemma unordered_number parse z : float_int z → unordered (c_number parse) z.
Proof.
  intros Hz v [= <-]. split; [|done]. apply bool_decide_pack. by apply through_float_int.
Qed.

Lemma unordered_list {A} (c : Codec A) xs : Forall (unordered c) xs → unordered (c_list c) xs.
Proof.
  intros Hxs v. cbn. destruct (mapM (c_enc c) xs) as [vs|] eqn:Hm; [|done]. intros [= <-].
  apply mapM_Some in Hm. cbn.
  assert (forallb jexact vs ∧ ∀ cur, mapM (c_dec c cur) (List.map sort_tree vs) = mapM (c_dec c cur) vs)
    as [He Hd]; [|by split].
  induction Hm as [|x v xs vs Hx _ IH]; [done|]. apply Forall_cons in Hxs as [Hc Hxs].
  destruct (Hc v Hx) as [He Hd]. destruct (IH Hxs) as [Hes Hds]. split; [by apply andb_True|].
  intros cur. cbn [List.map mapM]. by rewrite Hd, Hds.
Qed.

Lemma foldl_perm {A B} (f : B → A → B) (l l' : list A) :
  l ≡ₚ l' → (∀ x y b, x ∈ l → y ∈ l → f (f b x) y = f (f b y) x) → ∀ b, foldl f b l = foldl f b l'.
Proof.
  induction 1 as [|x l l' _ IH|x y l|l l' l'' Hp IH _ IH']; intros Hc b; [done|..]; cbn.
  - apply IH. intros x' y' b' Hx Hy. apply Hc; by right.
  - rewrite Hc; [done|by left|by right; left].
  - rewrite IH by done. apply IH'. intros x y b' Hx Hy. apply Hc; by rewrite Hp.
Qed.

Lemma sort_by_sorted {V} (l : list (string * V)) :
  NoDup (List.map fst l) → StronglySorted String.le (List.map fst l) → sort_by fst l = l.
Proof.
  intros Hnd Hs. apply (StronglySorted_unique_strong (by_key fst));
    [|apply Sorted_sort_by| |apply sort_by_Permutation].
  - intros x y Hx%elem_of_sort_by Hy Hxy Hyx. eapply (NoDup_fmap_elem fst); eauto.
    by apply (anti_symm String.le).
  - induction l as [|x l IH]; constructor; apply StronglySorted_inv in Hs as [Hs Hx].
    + apply NoDup_cons in Hnd as [_ ?]. by apply IH.
    + apply (Forall_fmap fst) in Hx. exact Hx.
Qed.

(** Members of a map are already in the order of their keys. *)
Lemma unordered_map {A} (c : Codec A) (m : gmap string A) :
  map_Forall (λ _ x, unordered c x) m → unordered (c_map c) m.
Proof.
  intros Hm v. cbn. set (l := sort_by fst (map_to_list m)).
  assert (Forall (unordered c ∘ snd) l) as Hl.
  { apply Forall_forall. intros [k x] Hk%elem_of_sort_by%elem_of_map_to_list. by apply (Hm k x). }
  assert (NoDup (List.map fst l)) as Hnd by (apply (sort_by_NoDup fst), NoDup_fst_map_to_list).
  assert (StronglySorted (by_key fst) l) as Hsorted by apply Sorted_sort_by. clearbody l. clear Hm.
  destruct (mapM _ l) as [ms|] eqn:E; [|done]. intros [= <-]. apply mapM_Some in E.
  assert (List.map fst ms = List.map fst l) as Hfst.
  { clear -E. induction E as [|[k x] [k' v] l ms Hx _ IH]; [done|]. cbn in *.
    destruct (c_enc c x); [|done]. injection Hx as -> ->. by rewrite IH. }
  assert (Forall (λ kv, jexact kv.2 ∧ ∀ cur, c_dec c cur (sort_tree kv.2) = c_dec c cur kv.2) ms) as Hms.
  { clear -E Hl. induction E as [|[k x] [k' v] l ms Hx _ IH]; [done|].
    apply Forall_cons in Hl as [Hc Hl]. constructor; [|by apply IH]. cbn in *.
    destruct (c_enc c x) as [v'|] eqn:Hv; [|done]. injection Hx as -> ->. by apply Hc. }
  split.
  { cbn. apply andb_True. split; [apply bool_decide_pack; by rewrite Hfst|].
    apply forallb_True. eapply Forall_impl; [exact Hms|]. by intros ? [? _]. }
  intros cur. cbn. set (ms' := List.map (λ m, (m.1, sort_tree m.2)) ms).
  assert (List.map fst ms' = List.map fst ms) as E'
    by (unfold ms'; rewrite List.map_map; by apply List.map_ext).
  rewrite (sort_by_sorted ms').
  2: { by rewrite E', Hfst. }
  2: { rewrite E', Hfst. clear -Hsorted. induction Hsorted as [|x l _ IH Hx]; constructor; [done|].
       by apply Forall_fmap. }
  subst ms'. clear -Hms. generalize (Some cur). induction Hms as [|[k v] ms [_ Hv] _ IH]; intros acc; [done|].
  cbn in *. destruct acc as [m|]; cbn; [rewrite Hv|]; apply IH.
Qed.

(** Two fields of a struct that are set independently of each other. *)
Definition independent {R} (f g : Field R) : Prop :=
  ∀ v w r, (f_dec f v r ≫= f_dec g w) = (f_dec g w r ≫= f_dec f v).

Lemma field_independent {R A B} n1 n2 (c1 : Codec A) (c2 : Codec B) (get1 : R → A) set1 (get2 : R → B) set2 :
  (∀ a r, get2 (set1 a r) = get2 r) → (∀ b r, get1 (set2 b r) = get1 r) →
  (∀ a b r, set2 b (set1 a r) = set1 a (set2 b r)) →
  independent (field n1 c1 get1 set1) (field n2 c2 get2 set2).
Proof.
  intros H1 H2 H3 v w r. cbn.
  destruct (c_dec c1 (get1 r) v) as [a|] eqn:E1, (c_dec c2 (get2 r) w) as [b|] eqn:E2; cbn;
    rewrite ?H1, ?H2, ?E1, ?E2; cbn; by rewrite ?H3.
Qed.

Definition field_unordered {R} (x : R) (f : Field R) : Prop :=
  ∀ v, f_enc f x = Some v → jexact v ∧ ∀ r, f_dec f (sort_tree v) r = f_dec f v r.

Lemma field_unordered_intro {R A} name (c : Codec A) (get : R → A) set x :
  unordered c (get x) → field_unordered x (field name c get set).
Proof.
  intros Hc v Hv. destruct (Hc v Hv) as [He Hd]. split; [done|]. intros r. cbn. by rewrite Hd.
Qed.

Lemma unordered_struct {R} (zero : R) (fs : list (Field R)) x :
  NoDup (f_name <$> fs) → Forall (field_unordered x) fs →
  (∀ f g, f ∈ fs → g ∈ fs → f_name f ≠ f_name g → independent f g) →
  unordered (c_struct zero fs) x.
Proof.
  intros Hnd Hfs Hind v. cbn. destruct (mapM _ fs) as [ms|] eqn:E; [|done]. intros [= <-].
  apply mapM_Some in E.
  assert (List.map fst ms = f_name <$> fs) as Hfst.
  { clear -E. induction E as [|f [k v] fs ms Hx _ IH]; [done|]. cbn in *.
    destruct (f_enc f x); [|done]. injection Hx as <- <-. by rewrite IH. }
  assert (Forall (λ kv, ∃ f, f ∈ fs ∧ kv.1 = f_name f ∧ f_enc f x = Some kv.2) ms) as Hms.
  { clear -E. induction E as [|f [k v] fs ms Hx _ IH]; constructor.
    - exists f. split; [left|]. cbn in *. destruct (f_enc f x); [|done]. by injection Hx as <- <-.
    - eapply Forall_impl; [exact IH|]. intros kv (g & Hg & Hkv). exists g. split; [by right|done]. }
  rewrite Forall_forall in Hfs. rewrite Forall_forall in Hms. split.
  { cbn. apply andb_True. split; [apply bool_decide_pack; by rewrite Hfst|].
    apply forallb_True, Forall_forall. intros kv (f & Hf & _ & Hv)%Hms. by apply (Hfs f). }
  intros cur. cbn. set (step := λ (acc : option R) kv, _). set (ms' := List.map _ ms).
  assert (∀ kv kw b, kv ∈ ms' → kw ∈ ms' → step (step b kv) kw = step (step b kw) kv) as Hcomm.
  { intros kv kw b Hkv Hkw. apply list_elem_of_In, in_map_iff in Hkv as ([k v] & <- & Hv%list_elem_of_In).
    apply list_elem_of_In, in_map_iff in Hkw as ([k' w] & <- & Hw%list_elem_of_In).
    apply Hms in Hv as (f & Hf & Ek & Hv), Hw as (g & Hg & Ek' & Hw). cbn in *. subst k k'.
    destruct b as [r|]; [|done]. unfold step. cbn. rewrite !find_field_exact by done.
    destruct (decide (f_name f = f_name g)) as [Hn|Hn]; [|by apply Hind].
    assert (g = f) as -> by by eapply NoDup_fmap_elem. by rewrite Hv in Hw; injection Hw as ->. }
  rewrite (foldl_perm step (sort_by fst ms') ms');
    [|apply sort_by_Permutation|intros ????%elem_of_sort_by ?%elem_of_sort_by; by apply Hcomm].
  subst ms'. clear Hcomm Hfst E. generalize (Some cur). induction ms as [|[k v] ms IH]; intros acc; [done|].
  cbn. rewrite IH by (intros kv Hkv; apply Hms; by right). f_equal.
  destruct (Hms (k, v)) as (f & Hf & Ek & Hv); [left|]. cbn in *. subst k.
  destruct acc as [r|]; [|done]. unfold step. cbn. rewrite find_field_exact by done. by apply (Hfs f).
Qed.

(** ** The records of the program *)

Ltac solve_independent :=
  let f := fresh "f" in let g := fresh "g" in let Hf := fresh "Hf" in let Hg := fresh "Hg" in
  intros f g Hf Hg;
  repeat (apply elem_of_cons in Hf as [->|Hf]); try (by apply elem_of_nil in Hf);
  repeat (apply elem_of_cons in Hg as [->|Hg]); try (by apply elem_of_nil in Hg);
  intros Hne; first [by destruct Hne | apply field_independent; [intros ? []|intros ? []|intros ? ? []]; reflexivity].

Create HintDb any.
#[export] Hint Resolve unordered_string unordered_bool unordered_time unordered_enum unordered_number
  unordered_list unordered_map : any.

Ltac solve_unordered :=
  apply unordered_struct;
  [apply (bool_decide_unpack _); by vm_compute
  |repeat (apply Forall_cons_2; [apply field_unordered_intro; solve [eauto with any]|]); apply Forall_nil_2
  |solve_independent].

Definition chunk_exact (c : ChunkMetadata) : Prop :=
  float_int (cm_Index c) ∧ float_int (cm_Offset c) ∧ float_int (cm_Size c).
Definition file_exact (f : FileMetadata) : Prop :=
  float_int (fm_Version f) ∧ float_int (fm_Size f) ∧ Forall chunk_exact (fm_Chunks f).

Lemma unordered_node n : unordered c_NodeMetadata n.
Proof. solve_unordered. Qed.
Lemma unordered_replica r : unordered c_ReplicaMetadata r.
Proof. solve_unordered. Qed.
Lemma unordered_chunk c : chunk_exact c → unordered c_ChunkMetadata c.
Proof. intros (? & ? & ?). solve_unordered. Qed.

Lemma unordered_replicas m : unordered (c_map c_ReplicaMetadata) m.
Proof. apply unordered_map. intros k r _. apply unordered_replica. Qed.
Lemma unordered_chunks cs : Forall chunk_exact cs → unordered (c_list c_ChunkMetadata) cs.
Proof. intros H. apply unordered_list. eauto using Forall_impl, unordered_chunk. Qed.
#[export] Hint Resolve unordered_replicas unordered_chunks : any.

Lemma unordered_file f : file_exact f → unordered c_FileMetadata f.
Proof. intros (? & ? & ?). solve_unordered. Qed.

Lemma unordered_nodes ns : unordered (c_list c_NodeMetadata) ns.
Proof. apply unordered_list, Forall_true. apply unordered_node. Qed.

(** What is printed for a record that survives reads as that record. *)
Lemma printed_record {A} (c : Codec A) d x v :
  survives c d x → unordered c x → (d ≤ maxNestingDepth)%N → c_enc c x = Some v →
  through_any v = Some (sort_tree v) ∧
  json_Unmarshal c (MarshalIndent (sort_tree v)) = Some x.
Proof.
  intros (v' & He & Hv & Hd & Hx) Hu Hle Hv'. assert (v' = v) as -> by congruence.
  destruct (Hu v Hv') as [Hex Hdec]. split; [by apply through_any_exact|].
  unfold json_Unmarshal. rewrite Unmarshal_MarshalIndent.
  - cbn. by rewrite Hdec.
  - by apply sort_tree_valid.
  - rewrite sort_tree_depth. lia.
Qed.
