(* ===== verification/Url.v ===== *)
(** * Strings and URLs as the HTTP layer uses them.

    The functions of package strings that the API and its clients call, and the
    part of net/url under them: [PathEscape] and [PathUnescape], and the parsing
    of an absolute URL into scheme, authority, decoded path and query.  A request
    travels as text, so what a handler sees as [r.URL.Path] is the path of the
    URL the client built, unescaped once. *)

From Stdlib Require Import Ascii ZifyBool.
From S2P Require Import Prelude Metadata Replication Names Utf8 Json Codec.
From stdpp Require Import options.

(** ** Package strings *)

Definition has_prefix (s p : string) : bool := bool_decide (is_Some (strip p s)).
(** [strings.TrimPrefix] *)
Definition trim_prefix (s p : string) : string := default s (strip p s).

Fixpoint rev_string (s acc : string) : string :=
  match s with
  | "" => acc
  | String c s => rev_string s (String c acc)
  end%string.
Definition srev (s : string) : string := rev_string s "".

Definition has_suffix (s p : string) : bool := has_prefix (srev s) (srev p).
Definition trim_suffix (s p : string) : string := srev (trim_prefix (srev s) (srev p)).

(** [strings.TrimRight(s, "/")] *)
Fixpoint trim_slashes (s : string) : string :=
  match s with
  | "" => ""
  | String c r =>
      match trim_slashes r with
      | "" => if is_char 47 c then "" else String c ""
      | r => String c r
      end
  end%string.

(** [strings.Contains] *)
Fixpoint contains (s p : string) : bool :=
  has_prefix s p ||
  match s with
  | "" => false
  | String _ s => contains s p
  end%string.

(** The text before the first [c], and what follows it if there is one. *)
Fixpoint cut (c : ascii) (s : string) : string * option string :=
  match s with
  | "" => ("", None)
  | String a r =>
      if bool_decide (a = c) then ("", Some r)
      else let '(before, after) := cut c r in (String a before, after)
  end%string.

(** ** Escaping *)

Definition upper_hex (n : N) : ascii := if (n <? 10)%N then chr (48 + n) else chr (55 + n).

Definition is_alnum (c : ascii) : bool := is_digit c || between 65 90 c || between 97 122 c.

(** [shouldEscape] for a path segment: letters, digits, the marks - _ . ~ and
    the delimiters $ & + : = @ stay. *)
Definition stays (c : ascii) : bool :=
  is_alnum c || is_char 45 c || is_char 95 c || is_char 46 c || is_char 126 c ||
  is_char 36 c || is_char 38 c || is_char 43 c || is_char 58 c || is_char 61 c || is_char 64 c.

Definition escape_byte (c : ascii) : string :=
  if stays c then String c ""
  else String "%" (String (upper_hex (code c / 16)) (String (upper_hex (code c mod 16)) "")).

Fixpoint PathEscape (s : string) : string :=
  match s with
  | "" => ""
  | String c s => escape_byte c +:+ PathEscape s
  end%string.

(** [None] is an EscapeError. *)
Fixpoint PathUnescape (s : string) : option string :=
  match s with
  | "" => Some ""
  | String c s1 =>
      if is_char 37 c then
        match s1 with
        | String a (String b s3) =>
            x ← hex_value a; y ← hex_value b; r ← PathUnescape s3;
            Some (String (chr (x * 16 + y)%N) r)
        | _ => None
        end
      else r ← PathUnescape s1; Some (String c r)
  end%string.

(** ** URLs *)

Record URL := {
  u_scheme : string;
  u_host : string;
  u_path : string;
  u_query : string
}.

Definition is_control (c : ascii) : bool := (code c <? 32)%N || (code c =? 127)%N.

(** [getScheme]: the scheme and the rest, [Some None] when there is no scheme,
    [None] for a text that starts with the colon. *)
Definition is_letter (c : ascii) : bool := between 65 90 c || between 97 122 c.
Fixpoint scan_scheme (first : bool) (s : string) : option (option (string * string)) :=
  match s with
  | "" => Some None
  | String c r =>
      let longer := option_map (option_map (λ '(sc, rest), (String c sc, rest))) (scan_scheme false r) in
      if is_letter c then longer
      else if is_digit c || is_char 43 c || is_char 45 c || is_char 46 c then
        if first then Some None else longer
      else if is_char 58 c then if first then None else Some (Some ("", r))
      else Some None
  end%string.

(** The authorities of the model: a host name or IPv4 address, with an optional
    port.  User information, escapes and IPv6 literals are left out. *)
Definition host_char (c : ascii) : bool :=
  is_alnum c || is_char 45 c || is_char 46 c || is_char 58 c || is_char 95 c.
Definition host_ok (host : string) : bool :=
  all_chars host_char host &&
  match cut ":" host with (_, Some port) => all_chars is_digit port | (_, None) => true end.

(** [url.Parse]; [None] is an error.  The fragment and the rest of an opaque URL
    are not kept, since no request has them. *)
Definition parse_url (s : string) : option URL :=
  if negb (all_chars (λ c, negb (is_control c)) s) then None
  else
    let '(s, fragment) := cut "#" s in
    PathUnescape (default "" fragment);;
    found ← scan_scheme true s;
    let '(scheme, rest) :=
      match found with Some (sc, r) => (fold_name sc, r) | None => ("", s) end in
    let '(rest, query) := cut "?" rest in
    let query := default "" query in
    if negb (has_prefix rest "/") && negb (bool_decide (scheme = "")) then
      Some {| u_scheme := scheme; u_host := ""; u_path := ""; u_query := query |}
    else if negb (has_prefix rest "/") && has_char ":" (cut "/" rest).1 then None
    else if has_prefix rest "//" && (negb (bool_decide (scheme = "")) || negb (has_prefix rest "///")) then
      let '(host, path) := cut "/" (trim_prefix rest "//") in
      if negb (host_ok host) then None
      else
        path ← PathUnescape (match path with None => "" | Some p => String "/" p end);
        Some {| u_scheme := scheme; u_host := host; u_path := path; u_query := query |}
    else
      path ← PathUnescape rest;
      Some {| u_scheme := scheme; u_host := ""; u_path := path; u_query := query |}.

(** ** Unescaping inverts escaping *)

Lemma hex_value_upper n : (n < 16)%N → hex_value (upper_hex n) = Some n.
Proof.
  intros Hn. assert (n = 0 ∨ n = 1 ∨ n = 2 ∨ n = 3 ∨ n = 4 ∨ n = 5 ∨ n = 6 ∨ n = 7 ∨ n = 8
    ∨ n = 9 ∨ n = 10 ∨ n = 11 ∨ n = 12 ∨ n = 13 ∨ n = 14 ∨ n = 15)%N by lia.
  naive_solver.
Qed.

Lemma code_bound c : (code c < 256)%N.
Proof. apply N_ascii_bounded. Qed.

Lemma stays_not_percent c : stays c = true → is_char 37 c = false.
Proof. unfold stays, is_alnum, is_digit, between, is_char. generalize (code c). intros n. lia. Qed.

Lemma unescape_escape_byte c s :
  PathUnescape (escape_byte c +:+ s) = (r ← PathUnescape s; Some (String c r)).
Proof.
  unfold escape_byte. destruct (stays c) eqn:Hc.
  - change (String c "" +:+ s) with (String c s). cbn [PathUnescape].
    by rewrite (stays_not_percent c Hc).
  - set (a := upper_hex _). set (b := upper_hex _).
    change (String "%" (String a (String b "")) +:+ s) with (String "%" (String a (String b s))).
    cbn [PathUnescape]. change (is_char 37 "%") with true. cbn iota. subst a b.
    pose proof (code_bound c). rewrite !hex_value_upper; cbn [mbind option_bind].
    2, 3: (apply N.mod_lt; lia) || (apply N.Div0.div_lt_upper_bound; lia).
    assert (chr (code c / 16 * 16 + code c mod 16) = c) as ->; [|done].
    unfold chr, code. rewrite N.mul_comm, <-N.div_mod by lia. apply ascii_N_embedding.
Qed.

Lemma PathUnescape_PathEscape s : PathUnescape (PathEscape s) = Some s.
Proof.
  induction s as [|c s IH]; [done|]. cbn [PathEscape]. by rewrite unescape_escape_byte, IH.
Qed.

(** Text without percent signs is its own unescaped form. *)
Lemma PathUnescape_plain s : has_char "%" s = false → PathUnescape s = Some s.
Proof.
  induction s as [|c s IH]; [done|]. cbn [has_char PathUnescape]. intros [Hc Hs]%orb_false_iff.
  apply bool_decide_eq_false in Hc. rewrite IH by done.
  assert (is_char 37 c = false) as ->; [|done].
  unfold is_char. apply N.eqb_neq. intros E. apply Hc. by apply code_inj.
Qed.

(** Escaped text has none of the characters that delimit the parts of a URL. *)
Definition url_plain (c : ascii) : bool := stays c || is_char 37 c.

Lemma upper_hex_plain n : (n < 16)%N → url_plain (upper_hex n) = true.
Proof.
  intros Hn. assert (n = 0 ∨ n = 1 ∨ n = 2 ∨ n = 3 ∨ n = 4 ∨ n = 5 ∨ n = 6 ∨ n = 7 ∨ n = 8
    ∨ n = 9 ∨ n = 10 ∨ n = 11 ∨ n = 12 ∨ n = 13 ∨ n = 14 ∨ n = 15)%N by lia.
  naive_solver.
Qed.

Lemma PathEscape_plain s : all_chars url_plain (PathEscape s) = true.
Proof.
  induction s as [|c s IH]; [done|]. cbn [PathEscape]. rewrite all_chars_app, IH, andb_true_r.
  unfold escape_byte. destruct (stays c) eqn:Hc.
  - cbn. unfold url_plain. by rewrite Hc.
  - pose proof (code_bound c). cbn. rewrite !upper_hex_plain; [done|..];
      (apply N.mod_lt; lia) || (apply N.Div0.div_lt_upper_bound; lia).
Qed.

Lemma cut_none c s rest :
  has_char c s = false → cut c (s +:+ String c rest) = (s, Some rest).
Proof.
  induction s as [|a s IH]; intros Hs.
  - change ("" +:+ String c rest) with (String c rest). cbn [cut]. by rewrite bool_decide_eq_true_2.
  - cbn [has_char] in Hs. apply orb_false_iff in Hs as [Ha Hs]. rewrite string_app_cons. cbn [cut].
    apply bool_decide_eq_false in Ha. rewrite bool_decide_eq_false_2 by done. by rewrite IH.
Qed.

Lemma cut_app c s t :
  has_char c s = false → cut c (s +:+ t) = (s +:+ (cut c t).1, (cut c t).2).
Proof.
  induction s as [|a s IH]; intros Hs.
  - change ("" +:+ t) with t. change ("" +:+ (cut c t).1) with (cut c t).1. apply surjective_pairing.
  - cbn [has_char] in Hs. apply orb_false_iff in Hs as [Ha Hs]. rewrite !string_app_cons. cbn [cut].
    apply bool_decide_eq_false in Ha. rewrite bool_decide_eq_false_2 by done. by rewrite IH.
Qed.

Lemma cut_all_chars P c s before after :
  cut c s = (before, Some after) → all_chars P s = true → all_chars P after = true.
Proof.
  revert before. induction s as [|a s IH]; intros before; [done|]. cbn [cut all_chars].
  intros Hc [_ Hs]%andb_prop. case_bool_decide; [by injection Hc as <- <-|].
  destruct (cut c s) as [b [r|]]; [|done]. injection Hc as <- <-. by eapply IH.
Qed.

Lemma cut_absent c s : has_char c s = false → cut c s = (s, None).
Proof.
  induction s as [|a s IH]; intros Hs; [done|]. cbn [has_char] in Hs.
  apply orb_false_iff in Hs as [Ha Hs]. cbn [cut]. apply bool_decide_eq_false in Ha.
  rewrite bool_decide_eq_false_2 by done. by rewrite IH.
Qed.

Lemma all_chars_has_char P c s : P c = false → all_chars P s = true → has_char c s = false.
Proof.
  intros Hc. induction s as [|a s IH]; [done|]. cbn. intros [Ha Hs]%andb_prop.
  rewrite bool_decide_eq_false_2 by congruence. by apply IH.
Qed.

(** Text without percent signs in front is kept, and escaped text is restored. *)
Lemma PathUnescape_app s t :
  has_char "%" s = false → PathUnescape (s +:+ t) = (r ← PathUnescape t; Some (s +:+ r)).
Proof.
  induction s as [|c s IH]; intros Hs.
  - change ("" +:+ t) with t. by destruct (PathUnescape t).
  - cbn [has_char] in Hs. apply orb_false_iff in Hs as [Hc Hs]. rewrite string_app_cons.
    cbn [PathUnescape]. apply bool_decide_eq_false in Hc.
    assert (is_char 37 c = false) as ->.
    { unfold is_char. apply N.eqb_neq. intros E. apply Hc. by apply code_inj. }
    rewrite IH by done. by destruct (PathUnescape t).
Qed.

Lemma PathUnescape_escaped s t :
  PathUnescape (PathEscape s +:+ t) = (r ← PathUnescape t; Some (s +:+ r)).
Proof.
  induction s as [|c s IH].
  - change (PathEscape "" +:+ t) with t. by destruct (PathUnescape t).
  - cbn [PathEscape]. rewrite string_app_assoc, unescape_escape_byte, IH.
    by destruct (PathUnescape t).
Qed.

(** ** Parsing the URLs the program builds *)

(** The characters of an escaped path and of the queries. *)
Definition path_char (c : ascii) : bool := url_plain c || is_char 47 c.
Definition query_char (c : ascii) : bool := is_alnum c || is_char 61 c || is_char 45 c.

Definition query_part (query : option string) : string :=
  match query with None => "" | Some q => String "?" q end.

Lemma PathEscape_path s : all_chars path_char (PathEscape s) = true.
Proof.
  apply Is_true_true, (all_chars_impl url_plain), Is_true_true, PathEscape_plain.
  intros c. rewrite !Is_true_true. unfold path_char. by intros ->.
Qed.

Lemma path_not_control c : path_char c = true → is_control c = false.
Proof.
  unfold path_char, url_plain, stays, is_alnum, is_digit, between, is_char, is_control.
  generalize (code c). intros n. lia.
Qed.
Lemma host_not_control c : host_char c = true → is_control c = false.
Proof.
  unfold host_char, is_alnum, is_digit, between, is_char, is_control.
  generalize (code c). intros n. lia.
Qed.
Lemma query_not_control c : query_char c = true → is_control c = false.
Proof.
  unfold query_char, is_alnum, is_digit, between, is_char, is_control.
  generalize (code c). intros n. lia.
Qed.

Lemma no_control P s :
  (∀ c, P c = true → is_control c = false) → all_chars P s = true →
  all_chars (λ c, negb (is_control c)) s = true.
Proof.
  intros HP Hs. induction s as [|c s IH]; [done|]. cbn in *.
  apply andb_prop in Hs as [Hc Hs]. by rewrite (HP c Hc), IH.
Qed.

(** A text that starts with a slash has no scheme. *)
Lemma parse_url_slash s u : parse_url (String "/" s) = Some u → u_scheme u = "".
Proof.
  unfold parse_url. case_match; [done|].
  assert (cut "#" (String "/" s) = (String "/" (cut "#" s).1, (cut "#" s).2)) as ->.
  { apply (cut_app "#" "/" s). done. }
  destruct (PathUnescape (default "" (cut "#" s).2)); [|done].
  change (scan_scheme true (String "/" (cut "#" s).1)) with (Some (@None (string * string))).
  cbn [mbind option_bind]. destruct (cut "?" _) as [rest query].
  rewrite (bool_decide_eq_true_2 ("" = "")) by done. cbn [negb]. rewrite andb_false_r.
  case_match; [done|]. case_match.
  - destruct (cut "/" (trim_prefix rest "//")) as [host path]. destruct (negb (host_ok host)); [done|].
    destruct (PathUnescape _); [|done]. by intros [= <-].
  - destruct (PathUnescape _); [|done]. by intros [= <-].
Qed.

Lemma parse_http_url auth path query :
  host_ok auth = true → all_chars path_char path = true →
  match query with None => true | Some q => all_chars query_char q end = true →
  parse_url ("http://" +:+ auth +:+ String "/" path +:+ query_part query) =
  (p ← PathUnescape (String "/" path);
   Some {| u_scheme := "http"; u_host := auth; u_path := p; u_query := default "" query |}).
Proof.
  intros Hok Hpath Hquery. pose proof Hok as [Hauth _]%andb_prop. unfold parse_url.
  assert (all_chars (λ c, negb (is_control c)) (query_part query) = true ∧
    has_char "#" (query_part query) = false) as [Hq1 Hq2].
  { destruct query as [q|]; [|done]. cbn. split.
    - apply (no_control query_char), Hquery. apply query_not_control.
    - by apply (all_chars_has_char query_char). }
  rewrite !all_chars_app, (no_control _ _ host_not_control Hauth). cbn [all_chars].
  rewrite (no_control _ _ path_not_control Hpath), Hq1. cbn [andb negb].
  rewrite cut_absent.
  2: { rewrite !has_char_app, (all_chars_has_char host_char "#" auth) by done.
       cbn [has_char]. by rewrite (all_chars_has_char path_char "#" path), Hq2. }
  change (PathUnescape (default "" None)) with (Some ""). cbn [mbind option_bind].
  change (scan_scheme true ("http://" +:+ auth +:+ String "/" path +:+ query_part query)) with
    (Some (Some ("http", "//" +:+ auth +:+ String "/" path +:+ query_part query))).
  cbn [mbind option_bind].
  change (fold_name "http") with "http".
  assert (cut "?" ("//" +:+ auth +:+ String "/" path +:+ query_part query) =
    ("//" +:+ auth +:+ String "/" path, query)) as ->.
  { assert (has_char "?" ("//" +:+ auth +:+ String "/" path) = false) as Hno.
    { rewrite !has_char_app, (all_chars_has_char host_char "?" auth) by done. cbn [has_char].
      by rewrite (all_chars_has_char path_char "?" path). }
    destruct query as [q|]; cbn [query_part].
    - pose proof (cut_none "?" ("//" +:+ auth +:+ String "/" path) q Hno) as Hc.
      by rewrite !string_app_assoc in Hc.
    - rewrite app_nil_s. by apply cut_absent. }
  assert (has_prefix ("//" +:+ auth +:+ String "/" path) "/" = true) as -> by done.
  assert (has_prefix ("//" +:+ auth +:+ String "/" path) "//" = true) as -> by done.
  rewrite bool_decide_eq_false_2 by done. cbn [negb andb orb].
  unfold trim_prefix. rewrite strip_app. cbn [default from_option id].
  rewrite cut_none by by apply (all_chars_has_char host_char).
  by rewrite Hok.
Qed.

(** ** Suffixes *)

Lemma rev_string_acc s acc : rev_string s acc = srev s +:+ acc.
Proof.
  unfold srev. revert acc. induction s as [|c s IH]; intros acc; [done|]. cbn [rev_string].
  rewrite IH, (IH (String c "")), string_app_assoc. done.
Qed.

Lemma srev_cons c s : srev (String c s) = srev s +:+ String c "".
Proof. unfold srev at 1. cbn [rev_string]. apply rev_string_acc. Qed.

Lemma srev_app s t : srev (s +:+ t) = srev t +:+ srev s.
Proof.
  induction s as [|c s IH].
  - change ("" +:+ t) with t. change (srev "") with "". by rewrite app_nil_s.
  - rewrite string_app_cons, !srev_cons, IH, string_app_assoc. done.
Qed.

Lemma srev_srev s : srev (srev s) = s.
Proof. induction s as [|c s IH]; [done|]. by rewrite srev_cons, srev_app, IH. Qed.

Lemma has_suffix_app s p : has_suffix (s +:+ p) p = true.
Proof. unfold has_suffix, has_prefix. rewrite srev_app, strip_app. by apply bool_decide_eq_true_2. Qed.

Lemma trim_suffix_app s p : trim_suffix (s +:+ p) p = s.
Proof. unfold trim_suffix, trim_prefix. rewrite srev_app, strip_app. apply srev_srev. Qed.

(** ** Two dots in a row *)

Definition starts_dot (s : string) : bool := match s with String c _ => is_char 46 c | "" => false end.
Fixpoint ends_dot (s : string) : bool :=
  match s with
  | "" => false
  | String c r => match r with "" => is_char 46 c | _ => ends_dot r end
  end%string.

Lemma dots_cons c s : contains (String c s) ".." = is_char 46 c && starts_dot s || contains s "..".
Proof.
  cbn [contains]. f_equal. unfold has_prefix. cbn [strip].
  assert (∀ a, bool_decide ("."%char = a) = is_char 46 a) as Hdot.
  { intros a. unfold is_char. destruct (N.eqb_spec (code a) 46) as [E|E].
    - apply bool_decide_eq_true_2. by apply code_inj.
    - apply bool_decide_eq_false_2. by intros <-. }
  rewrite Hdot. destruct (is_char 46 c); [|done]. destruct s as [|a s]; [done|].
  cbn [starts_dot]. rewrite Hdot. by destruct (is_char 46 a).
Qed.

Lemma dots_app s t :
  contains (s +:+ t) ".." = contains s ".." || ends_dot s && starts_dot t || contains t "..".
Proof.
  induction s as [|c s IH]; [done|]. rewrite string_app_cons, !dots_cons, IH.
  destruct s as [|a s].
  - change ("" +:+ t) with t. cbn. by destruct (is_char 46 c), (starts_dot t).
  - rewrite string_app_cons. cbn [starts_dot ends_dot]. by rewrite !orb_assoc.
Qed.

Lemma no_dots s : has_char "." s = false → contains s ".." = false ∧ starts_dot s = false.
Proof.
  induction s as [|c s IH]; [done|]. cbn [has_char]. intros [Hc Hs]%orb_false_iff.
  apply bool_decide_eq_false in Hc. rewrite dots_cons. cbn [starts_dot].
  assert (is_char 46 c = false) as ->.
  { unfold is_char. apply N.eqb_neq. intros E. apply Hc. by apply code_inj. }
  split; [|done]. by apply IH.
Qed.
