(* ===== verification/Http.v ===== *)
(** * Requests and responses, and the storage node's API of [http_api.go].

    A handler is a function from a request to a response on the state it
    serves.  [StorageHTTPHandler] is the API of one storage node over an
    [ObjectStore]. *)

From Stdlib Require Import Ascii ZifyBool.
From S2P Require Import Prelude Metadata Replication Names Hash Objects Paths Utf8 Json Times Codec Url.
From stdpp Require Import options.

(** ** Messages *)

(** [*http.Request]: the URL has been parsed, so its path is unescaped. *)
Record Request := {
  req_Method : string;
  req_Path : string;
  req_RawQuery : string;
  req_Body : Reader
}.

Record Response := {
  resp_Status : Z;
  resp_Header : list (string * string);
  resp_Body : bytes
}.

Definition StatusOK : Z := 200.
Definition StatusCreated : Z := 201.
Definition StatusNoContent : Z := 204.
Definition StatusBadRequest : Z := 400.
Definition StatusNotFound : Z := 404.
Definition StatusMethodNotAllowed : Z := 405.
Definition StatusInternalServerError : Z := 500.
Definition StatusServiceUnavailable : Z := 503.

(** [w.WriteHeader(status)] and nothing else. *)
Definition write_status (status : Z) : Response :=
  {| resp_Status := status; resp_Header := []; resp_Body := [] |}.

(** The encoder ends a value with a newline; an encoding error leaves the body
    empty.  A response with status 204 has no body. *)
Definition newline : string := String (chr 10) "".
Definition writeAPIJSON (status : Z) (v : option JValue) : Response := {|
  resp_Status := status;
  resp_Header := [("Content-Type", "application/json")];
  resp_Body :=
    if (status =? StatusNoContent)%Z then []
    else match v with
         | Some v => bytes_of_string (Marshal v +:+ newline)
         | None => []
         end
|}.

Definition writeAPIError (status : Z) (msg : string) : Response :=
  writeAPIJSON status (Some (JObj [("error", JStr msg)])).

(** [http.NotFound] *)
Definition NotFound : Response := {|
  resp_Status := StatusNotFound;
  resp_Header := [("Content-Type", "text/plain; charset=utf-8")];
  resp_Body := bytes_of_string ("404 page not found" +:+ newline)
|}.

(** ** Queries *)

Fixpoint plus_to_space (s : string) : string :=
  match s with
  | "" => ""
  | String c s => String (if is_char 43 c then " "%char else c) (plus_to_space s)
  end%string.
Definition QueryUnescape (s : string) : option string := PathUnescape (plus_to_space s).

(** [r.URL.Query().Get(key)]: pairs that are malformed or contain a semicolon are
    dropped, and a missing key is the empty string. *)
Definition query_pair (s : string) : option (string * string) :=
  if has_char ";" s || bool_decide (s = "") then None
  else
    let '(k, v) := cut "=" s in
    k ← QueryUnescape k; v ← QueryUnescape (default "" v); Some (k, v).
Definition query_get (query key : string) : string :=
  match list_find (λ kv, kv.1 = key) (omap query_pair (split_on "&" query)) with
  | Some (_, kv) => kv.2
  | None => ""
  end.

(** [strconv.ParseUint(s, 10, 64)] *)
Definition ParseUint (s : string) : option Z :=
  let n := Z.of_N (dec_value 0 s) in
  if negb (bool_decide (s = "")) && all_chars is_digit s && (n <? 2 ^ 64)%Z then Some n else None.

(** ** The storage node *)

(** Key and version of an object request, or the message of the error. *)
Definition objectRequest (r : Request) : string * Z + string :=
  let raw := trim_prefix (req_Path r) "/objects/" in
  match PathUnescape raw with
  | None => inr "invalid URL escape"
  | Some key =>
      if bool_decide (key = "") || contains key ".." then inr "invalid object key"
      else
        match ParseUint (query_get (req_RawQuery r) "version") with
        | None => inr "version is required"
        | Some version =>
            if (version =? 0)%Z then inr "version is required" else inl (key, version)
        end
  end.

Record StorageHTTPHandler (OS : Type) := {
  sh_nodeID : string;
  sh_objects : OS
}.
Arguments sh_nodeID {OS}.
Arguments sh_objects {OS}.

Section storage.
Context {OS : Type} `{ObjectStore OS}.
Abbreviation Handler := (StorageHTTPHandler OS).

Definition NewStorageHTTPHandler (nodeID : string) (objects : OS) : Handler :=
  {| sh_nodeID := nodeID; sh_objects := objects |}.

Definition sh_call {A} (c : GoM OS A) : GoM Handler A :=
  zoom sh_objects (λ o h, {| sh_nodeID := sh_nodeID h; sh_objects := o |}) c.

(** The body [io.Copy] produces is what the reader delivers before its end; the
    declared length tells the client when that was not all of it. *)
Definition storage_object (nodeID key : string) (version : Z) (r : Request) :
    GoM Handler Response :=
  let method := req_Method r in
  if bool_decide (method = "PUT") then
    written ← try (sh_call (WriteObject nodeID key version (req_Body r)));
    match written with
    | Ok n => mret (writeAPIJSON StatusCreated (Some (JObj [("bytes", JNum (pretty n))])))
    | Err err => mret (writeAPIError StatusInternalServerError (error_string err))
    | Panic => panic
    end
  else if bool_decide (method = "GET") then
    found ← try (sh_call (ReadObject nodeID key version));
    match found with
    | Ok (size, data) => mret {|
        resp_Status := StatusOK;
        resp_Header := [("Content-Length", pretty size)];
        resp_Body := (drain (r_reads data)).1
      |}
    | Err err => mret (writeAPIError StatusNotFound (error_string err))
    | Panic => panic
    end
  else if bool_decide (method = "HEAD") then
    has ← sh_call (HasObject nodeID key version);
    mret (write_status (if (has : bool) then StatusOK else StatusNotFound))
  else if bool_decide (method = "DELETE") then
    deleted ← try (sh_call (DeleteObject nodeID key version));
    match deleted with
    | Ok _ => mret (write_status StatusNoContent)
    | Err err => mret (writeAPIError StatusNotFound (error_string err))
    | Panic => panic
    end
  else mret (write_status StatusMethodNotAllowed).

Definition StorageServeHTTP (r : Request) : GoM Handler Response :=
  if bool_decide (req_Path r = "/healthz") then mret (write_status StatusOK)
  else if negb (has_prefix (req_Path r) "/objects/") then mret NotFound
  else
    match objectRequest r with
    | inr msg => mret (writeAPIError StatusBadRequest msg)
    | inl (key, version) =>
        nodeID ← gets sh_nodeID;
        storage_object nodeID key version r
    end.
End storage.
