(* ===== verification/HttpNet.v ===== *)
(** * HTTP exchanges: [http.Client] and the network between processes.

    A network maps authorities (host:port) to servers.  Each exchange consumes
    one event of a script, which says how far it gets: the request may not be
    delivered, may be delivered in part, the answer may be lost after the server
    has acted, or may be cut while the body is read.  A time-out of the client
    is one of these.  The body of a request arrives in pieces of any size. *)

From Stdlib Require Import Ascii ZifyBool.
From S2P Require Import Prelude Metadata Replication Names Hash Objects Utf8 Json Times Codec Url Http.
From stdpp Require Import options.

(** [http.Handler] *)
Class HTTPServer (H : Type) := {
  ServeHTTP : Request → GoM H Response
}.

#[export] Instance StorageHTTPHandler_server `{ObjectStore OS} : HTTPServer (StorageHTTPHandler OS) :=
  {| ServeHTTP := StorageServeHTTP |}.

Inductive NetEvent :=
  | Delivered (pieces : list nat)
  | Refused (msg : string)
  | RequestCut (pieces : list nat) (n : nat) (msg : string)
  | AnswerLost (pieces : list nat) (msg : string)
  | AnswerCut (pieces : list nat) (n : nat) (msg : string).

Record Network (H : Type) := {
  net_servers : gmap string H;
  net_script : nat → NetEvent;
  net_used : nat
}.
Arguments net_servers {H}.
Arguments net_script {H}.
Arguments net_used {H}.

(** [*http.Response] as the client sees it. *)
Record ClientResponse := {
  cr_StatusCode : Z;
  cr_ContentLength : Z;
  cr_Body : Reader
}.

(** ** Bodies *)

(** The [Read] calls on a body that arrives in pieces and ends with [fin]. *)
Fixpoint arrive (pieces : list nat) (data : bytes) (fin : ReadEnd) : list ReadResult :=
  match pieces with
  | [] => [(data, Some fin)]
  | n :: pieces => (take n data, None) :: arrive pieces (drop n data) fin
  end.

Definition unexpected_EOF : GoError := ErrOther "unexpected EOF".

(** What the server reads of a body that the client could send up to [e]. *)
Definition sent_body (pieces : list nat) (data : bytes) (e : option GoError) : Reader := {|
  r_reads := arrive pieces data (match e with None => EOF | Some _ => ReadErr unexpected_EOF end);
  r_close := None
|}.

(** The length a handler declared; the server drops a header that is not a
    number of bytes. *)
Definition declared_length (resp : Response) : option Z :=
  match list_find (λ h, h.1 = "Content-Length") (resp_Header resp) with
  | Some (_, (_, v)) =>
      if int_literal v && (0 <=? literal_value v)%Z then Some (literal_value v) else None
  | None => None
  end.

(** The body of an answer: never more than the declared length, and an error
    when it is less.  A short body without a declared length gets one. *)
Definition client_response (method : string) (resp : Response) : ClientResponse :=
  let body := if bool_decide (method = "HEAD") then [] else resp_Body resp in
  match declared_length resp with
  | Some n => {|
      cr_StatusCode := resp_Status resp;
      cr_ContentLength := n;
      cr_Body := {|
        r_reads := arrive [] (take (Z.to_nat n) body)
          (if (zlen body <? n)%Z && negb (bool_decide (method = "HEAD"))
           then ReadErr unexpected_EOF else EOF);
        r_close := None |} |}
  | None => {|
      cr_StatusCode := resp_Status resp;
      cr_ContentLength := if (zlen body <=? 2048)%Z then zlen body else (-1)%Z;
      cr_Body := {| r_reads := arrive [] body EOF; r_close := None |} |}
  end.

(** An answer whose body breaks off after [n] bytes. *)
Definition cut_response (n : nat) (msg : string) (resp : ClientResponse) : ClientResponse := {|
  cr_StatusCode := cr_StatusCode resp;
  cr_ContentLength := cr_ContentLength resp;
  cr_Body := {|
    r_reads := arrive [] (take n (drain (r_reads (cr_Body resp))).1) (ReadErr (ErrOther msg));
    r_close := None |}
|}.

(** ** The client *)

Section client.
Context {H : Type} `{HTTPServer H}.

Definition net_event : GoM (Network H) NetEvent := λ net,
  (Ok (net_script net (net_used net)),
   {| net_servers := net_servers net; net_script := net_script net; net_used := S (net_used net) |}).

(** A handler that panics closes the connection. *)
Definition net_serve (host : string) (r : Request) : GoM (Network H) Response := λ net,
  match net_servers net !! host with
  | None => (Err (ErrOther "dial tcp: no such host"), net)
  | Some h =>
      let '(res, h') := ServeHTTP r h in
      (match res with Ok resp => Ok resp | _ => Err (ErrOther "EOF") end,
       {| net_servers := <[host := h']> (net_servers net); net_script := net_script net;
          net_used := net_used net |})
  end.

(** [client.Do(req)] for a request made by [http.NewRequest(method, url, body)];
    a URL that does not parse, has another scheme or has no host is an error.  When the body
    cannot be read to its end the exchange fails with that error. *)
Definition client_Do (method url : string) (body : Reader) : GoM (Network H) ClientResponse :=
  match parse_url url with
  | None => fail (ErrOther "invalid URL")
  | Some u =>
      if negb (bool_decide (u_scheme u = "http")) then
        fail (ErrOther "unsupported protocol scheme")
      else if bool_decide (u_host u = "") then fail (ErrOther "no Host in request URL")
      else
        let '(data, readErr) := drain (r_reads body) in
        let request b := {|
          req_Method := method; req_Path := u_path u; req_RawQuery := u_query u; req_Body := b |} in
        event ← net_event;
        match event with
        | Refused msg => fail (ErrOther msg)
        | RequestCut pieces n msg =>
            ignore (net_serve (u_host u)
              (request (sent_body pieces (take n data) (Some unexpected_EOF))));;
            fail (ErrOther msg)
        | AnswerLost pieces msg =>
            ignore (net_serve (u_host u) (request (sent_body pieces data readErr)));;
            fail (ErrOther msg)
        | Delivered pieces =>
            resp ← net_serve (u_host u) (request (sent_body pieces data readErr));
            match readErr with
            | Some e => fail e
            | None => mret (client_response method resp)
            end
        | AnswerCut pieces n msg =>
            resp ← net_serve (u_host u) (request (sent_body pieces data readErr));
            match readErr with
            | Some e => fail e
            | None => mret (cut_response n msg (client_response method resp))
            end
        end
  end.

(** The nil body of a request without one. *)
Definition no_body : Reader := {| r_reads := []; r_close := None |}.
End client.

(** [http.StatusText] of the codes the handlers use. *)
Definition StatusText (code : Z) : string :=
  if (code =? 200)%Z then "OK"
  else if (code =? 201)%Z then "Created"
  else if (code =? 204)%Z then "No Content"
  else if (code =? 400)%Z then "Bad Request"
  else if (code =? 404)%Z then "Not Found"
  else if (code =? 405)%Z then "Method Not Allowed"
  else if (code =? 500)%Z then "Internal Server Error"
  else if (code =? 503)%Z then "Service Unavailable"
  else "".

(** [resp.Status] *)
Definition status_line (code : Z) : string := pretty code +:+ " " +:+ StatusText code.

(** ** Bodies arrive whole *)

Lemma drain_arrive pieces data fin :
  drain (arrive pieces data fin) =
  (data, match fin with EOF => None | ReadErr e => Some e end).
Proof.
  revert data. induction pieces as [|n pieces IH]; intros data; cbn.
  - by destruct fin.
  - by rewrite IH, take_drop.
Qed.

Lemma drain_sent pieces data e :
  drain (r_reads (sent_body pieces data e)) = (data, match e with None => None | Some _ => Some unexpected_EOF end).
Proof. cbn. rewrite drain_arrive. by destruct e. Qed.

(** The declared length is read back. *)
Lemma declared_size size body code :
  (0 ≤ size)%Z →
  declared_length {| resp_Status := code; resp_Header := [("Content-Length", pretty size)];
                     resp_Body := body |} = Some size.
Proof.
  intros Hs. unfold declared_length. cbn [resp_Header list_find].
  rewrite decide_True by done. cbn [fmap option_fmap option_map prod_map].
  destruct (pretty_literal size) as [->%Is_true_true ->]. by rewrite (proj2 (Z.leb_le _ _) Hs).
Qed.

Lemma client_status method resp : cr_StatusCode (client_response method resp) = resp_Status resp.
Proof. unfold client_response. by case_match. Qed.

(** A complete body of an answer with a declared length is that long. *)
Lemma client_body_whole method resp n data :
  declared_length resp = Some n → (0 ≤ n)%Z → method ≠ "HEAD" →
  drain (r_reads (cr_Body (client_response method resp))) = (data, None) →
  (n ≤ zlen (resp_Body resp))%Z ∧ data = take (Z.to_nat n) (resp_Body resp).
Proof.
  intros Hd Hn Hm. unfold client_response. rewrite Hd, bool_decide_eq_false_2 by done.
  cbn [r_reads cr_Body]. rewrite drain_arrive, andb_true_r.
  destruct (Z.ltb_spec (zlen (resp_Body resp)) n) as [Hlt|Hge]; cbn; [done|].
  intros [= <-]. done.
Qed.

(** ** What an exchange does *)

Section exchange.
Context {H : Type} `{HS : HTTPServer H}.
Implicit Types (net : Network H).

Definition request_of (method : string) (u : URL) (body : Reader) : Request := {|
  req_Method := method; req_Path := u_path u; req_RawQuery := u_query u; req_Body := body |}.

(** The server at [host] handled [r]. *)
Definition served (host : string) (r : Request) (r0 : Res Response) net net' : Prop :=
  ∃ h h', net_servers net !! host = Some h ∧ ServeHTTP r h = (r0, h') ∧
    net_servers net' = <[host := h']> (net_servers net).

Lemma net_serve_inv host r net res net' :
  net_serve host r net = (res, net') →
  (net_servers net' = net_servers net ∧ ∃ e, res = Err e) ∨
  ∃ r0, served host r r0 net net' ∧ ((∃ e, res = Err e) ∨ ∃ resp, r0 = Ok resp ∧ res = Ok resp).
Proof.
  unfold net_serve. destruct (net_servers net !! host) as [h|] eqn:Eh; [|intros [= <- <-]; left; eauto].
  destruct (ServeHTTP r h) as [r0 h'] eqn:Er. intros [= <- <-]. right. exists r0. split.
  - by exists h, h'.
  - destruct r0 as [resp| |]; [right|left..]; eauto.
Qed.

(** The server handled the request; if the client has an answer, the server had
    the whole body and the answer is the one the server gave. *)
Definition exchanged (method : string) (u : URL) (data : bytes) (readErr : option GoError)
    (res : Res ClientResponse) net net' : Prop :=
  ∃ rd r0, served (u_host u) (request_of method u rd) r0 net net' ∧
    ((∃ e, res = Err e) ∨
     ∃ resp cr, r0 = Ok resp ∧ res = Ok cr ∧ readErr = None ∧ drain (r_reads rd) = (data, None) ∧
       cr_StatusCode cr = resp_Status resp ∧
       (∀ d, drain (r_reads (cr_Body cr)) = (d, None) →
          drain (r_reads (cr_Body (client_response method resp))) = (d, None))).

Lemma exchange method url u body net res net' :
  parse_url url = Some u → client_Do method url body net = (res, net') →
  (net_servers net' = net_servers net ∧ ∃ e, res = Err e) ∨
  exchanged method u (drain (r_reads body)).1 (drain (r_reads body)).2 res net net'.
Proof.
  intros Hu. unfold client_Do. rewrite Hu. do 2 (case_match; [intros [= <- <-]; left; eauto|]).
  destruct (drain (r_reads body)) as [data readErr] eqn:Hbody. cbn [fst snd].
  rewrite (gom_bind_ok net_event _ net _ _ eq_refl).
  set (net1 := {| net_servers := net_servers net |}).
  assert (∀ rd res1 net2, net_serve (u_host u) (request_of method u rd) net1 = (res1, net2) →
    (net_servers net2 = net_servers net ∧ ∃ e, res1 = Err e) ∨
    ∃ r0, served (u_host u) (request_of method u rd) r0 net net2 ∧
      ((∃ e, res1 = Err e) ∨ ∃ resp, r0 = Ok resp ∧ res1 = Ok resp)) as Hserve.
  { intros rd res1 net2 Hrun. by apply net_serve_inv in Hrun. }
  assert (∀ rd e, (ignore (net_serve (u_host u) (request_of method u rd));; fail e) net1 = (res, net') →
    (net_servers net' = net_servers net ∧ ∃ e, res = Err e) ∨
    exchanged method u data readErr res net net') as Hlost.
  { intros rd e. destruct (net_serve (u_host u) (request_of method u rd) net1) as [res1 net2] eqn:E.
    apply Hserve in E as Hcase. unfold mbind, gom_bind, ignore. rewrite E.
    destruct res1; [..|by destruct Hcase as [(_ & ? & ?)|(? & _ & [[? ?]|(? & _ & ?)])]];
      intros [= <- <-]; (destruct Hcase as [[-> _]|(r0 & Hs & _)]; [left|right]; [by eauto|]);
      (eexists _, _; split; [done|]; left; eauto). }
  assert (∀ pieces (f : Response → ClientResponse),
    (∀ resp, cr_StatusCode (f resp) = resp_Status resp ∧
       ∀ d, drain (r_reads (cr_Body (f resp))) = (d, None) →
         drain (r_reads (cr_Body (client_response method resp))) = (d, None)) →
    (resp ← net_serve (u_host u) (request_of method u (sent_body pieces data readErr));
     match readErr with Some e => fail e | None => mret (f resp) end) net1 = (res, net') →
    (net_servers net' = net_servers net ∧ ∃ e, res = Err e) ∨
    exchanged method u data readErr res net net') as Hdeliver.
  { intros pieces f Hf Hrun. go_step Hrun.
    - apply Hserve in Hc as [(_ & ? & ?)|(r0 & Hs & [[? ?]|(resp & -> & [= ->])])]; [done|done|].
      right. exists (sent_body pieces data readErr), (Ok resp).
      destruct readErr as [e|]; injection Hrun as <- <-; (split; [done|]); [left; eauto|right].
      destruct (Hf resp) as [Hst Hd]. exists resp, (f resp). by rewrite drain_sent.
    - apply Hserve in Hc as [(-> & ?)|(r0 & Hs & _)]; [left|right]; [eauto|].
      eexists _, _. split; [done|]. left. eauto.
    - by apply Hserve in Hc as [(_ & ? & ?)|(? & _ & [[? ?]|(? & _ & ?)])]. }
  destruct (net_script net (net_used net)) as [pieces|msg|pieces n msg|pieces msg|pieces n msg].
  - apply (Hdeliver pieces (client_response method)). by split; [apply client_status|].
  - intros [= <- <-]. left. eauto.
  - apply Hlost.
  - apply Hlost.
  - apply (Hdeliver pieces (λ resp, cut_response n msg (client_response method resp))).
    by split; [apply client_status|].
Qed.

(** An exchange on a working network. *)
Lemma exchange_delivered method url u body data h resp h' net pieces :
  parse_url url = Some u → u_scheme u = "http" → u_host u ≠ "" → drain (r_reads body) = (data, None) →
  net_script net (net_used net) = Delivered pieces → net_servers net !! u_host u = Some h →
  ServeHTTP (request_of method u (sent_body pieces data None)) h = (Ok resp, h') →
  client_Do method url body net = (Ok (client_response method resp), {|
    net_servers := <[u_host u := h']> (net_servers net);
    net_script := net_script net; net_used := S (net_used net) |}).
Proof.
  intros Hu Hs Hne Hd He Hh Hserve. unfold client_Do. rewrite Hu, Hs.
  rewrite bool_decide_eq_true_2, bool_decide_eq_false_2, Hd by done. cbn [negb].
  rewrite (gom_bind_ok net_event _ net _ _ eq_refl), He.
  assert (net_serve (u_host u) (request_of method u (sent_body pieces data None)) {|
    net_servers := net_servers net; net_script := net_script net; net_used := S (net_used net) |}
    = (Ok resp, {| net_servers := <[u_host u := h']> (net_servers net);
         net_script := net_script net; net_used := S (net_used net) |})) as Hrun.
  { unfold net_serve. cbn [net_servers net_script net_used]. by rewrite Hh, Hserve. }
  by rewrite (gom_bind_ok _ _ _ _ _ Hrun).
Qed.
End exchange.
