(* ===== verification/HttpObjects.v ===== *)
(** * The remote object store: [http_object_store.go].

    [HTTPObjectStore] implements [ObjectStore] by requests to the storage nodes
    of a [Network].  Its methods keep the set of nodes, which only [SetNode]
    changes, so between two registrations it is a store on a fixed topology;
    there it satisfies the laws of [ObjectStore] if the stores of the nodes do,
    and it is reliable if the network and the stores of the nodes are. *)

From Stdlib Require Import Ascii ZifyBool.
From S2P Require Import Prelude Metadata Replication Names Hash Objects Utf8 Json Times Codec Url Http HttpNet.
From stdpp Require Import options.

Record HTTPObjectStore (H : Type) := {
  hs_nodes : gmap string string;
  hs_client : Network H
}.
Arguments hs_nodes {H}.
Arguments hs_client {H}.

(** [countingReader]: the bytes its [Read] calls returned once the transport has
    read the body to its end. *)
Definition countingReader_n (r : Reader) : Z := zlen (drain (r_reads r)).1.

Definition object_url (nodes : gmap string string) (nodeID key : string) (version : Z) : string :=
  let base := trim_slashes (default "" (nodes !! nodeID)) in
  base +:+ "/objects/" +:+ PathEscape key +:+ "?version=" +:+ pretty version.

Section client.
Context {H : Type} `{HTTPServer H}.
Abbreviation Store := (HTTPObjectStore H).

Definition NewHTTPObjectStore (nodes : gmap string string) (client : Network H) : Store :=
  {| hs_nodes := nodes; hs_client := client |}.

Definition SetNode (nodeID address : string) : GoM Store unit :=
  modify (λ s, {| hs_nodes := <[nodeID := address]> (hs_nodes s); hs_client := hs_client s |}).

Definition objectURL (nodeID key : string) (version : Z) : GoM Store string :=
  gets (λ s, object_url (hs_nodes s) nodeID key version).

(** [s.client.Do(req)] *)
Definition hs_Do (method url : string) (body : Reader) : GoM Store ClientResponse :=
  zoom hs_client (λ c s, {| hs_nodes := hs_nodes s; hs_client := c |}) (client_Do method url body).

Definition hs_WriteObject (nodeID key : string) (version : Z) (r : Reader) : GoM Store Z :=
  url ← objectURL nodeID key version;
  resp ← hs_Do "PUT" url r;
  if negb (cr_StatusCode resp / 100 =? 2)%Z then
    fail (ErrOther ("storage write failed: " +:+ status_line (cr_StatusCode resp)))
  else mret (countingReader_n r).

Definition hs_ReadObject (nodeID key : string) (version : Z) : GoM Store (Z * Reader) :=
  url ← objectURL nodeID key version;
  resp ← hs_Do "GET" url no_body;
  if negb (cr_StatusCode resp =? StatusOK)%Z then
    fail (ErrOther ("storage read failed: " +:+ status_line (cr_StatusCode resp)))
  else mret (cr_ContentLength resp, cr_Body resp).

Definition hs_DeleteObject (nodeID key : string) (version : Z) : GoM Store unit :=
  url ← objectURL nodeID key version;
  resp ← hs_Do "DELETE" url no_body;
  if negb (cr_StatusCode resp / 100 =? 2)%Z && negb (cr_StatusCode resp =? StatusNotFound)%Z then
    fail (ErrOther ("storage delete failed: " +:+ status_line (cr_StatusCode resp)))
  else mret tt.

Definition hs_HasObject (nodeID key : string) (version : Z) : GoM Store bool :=
  url ← objectURL nodeID key version;
  answer ← try (hs_Do "HEAD" url no_body);
  match answer with
  | Ok resp => mret (cr_StatusCode resp =? StatusOK)%Z
  | Err _ => mret false
  | Panic => panic
  end.

#[export] Instance HTTPObjectStore_store : ObjectStore Store := {|
  WriteObject := hs_WriteObject;
  ReadObject := hs_ReadObject;
  DeleteObject := hs_DeleteObject;
  HasObject := hs_HasObject
|}.
End client.

(** ** A store in the states that satisfy an invariant *)

Class KeepsInv {OS} `{ObjectStore OS} (P : OS → Prop) := {
  keeps_write n k v r s : P s → P (WriteObject n k v r s).2;
  keeps_read n k v s : P s → P (ReadObject n k v s).2;
  keeps_delete n k v s : P s → P (DeleteObject n k v s).2;
  keeps_has n k v s : P s → P (HasObject n k v s).2
}.

Section restrict.
Context {OS : Type} (P : OS → Prop) `{∀ s, Decision (P s)}.

Definition restrict {A} (c : GoM OS A) (Hc : ∀ s, P s → P (c s).2) : GoM (dsig P) A := λ s,
  let out := c (`s) in (out.1, dexist out.2 (Hc _ (proj2_dsig s))).

Lemma restrict_inv {A} (c : GoM OS A) Hc s r s' : restrict c Hc s = (r, s') → c (`s) = (r, `s').
Proof. intros [= <- <-]. apply surjective_pairing. Qed.

#[export] Instance restricted_store `{KeepsInv OS P} : ObjectStore (dsig P) := {|
  WriteObject n k v r := restrict (WriteObject n k v r) (keeps_write n k v r);
  ReadObject n k v := restrict (ReadObject n k v) (keeps_read n k v);
  DeleteObject n k v := restrict (DeleteObject n k v) (keeps_delete n k v);
  HasObject n k v := restrict (HasObject n k v) (keeps_has n k v)
|}.
End restrict.

(** ** Exchanges with a storage node *)

(** The authority of a node's base URL, which has to be http://host:port. *)
Definition host_of (base : string) : option string :=
  host ← strip "http://" (trim_slashes base);
  if negb (bool_decide (host = "")) && host_ok host then Some host else None.

(** The request a storage node gets for an object. *)
Definition object_query (method key : string) (version : Z) (body : Reader) : Request := {|
  req_Method := method; req_Path := "/objects/" +:+ key;
  req_RawQuery := "version=" +:+ pretty version; req_Body := body
|}.

(** The object the node takes it to be about. *)
Definition object_of (key : string) (version : Z) : option (string * Z) :=
  match objectRequest (object_query "GET" key version no_body) with
  | inl kv => Some kv
  | inr _ => None
  end.

Lemma strip_Some p s t : strip p s = Some t → s = p +:+ t.
Proof.
  revert s. induction p as [|c p IH]; intros s; [by intros [= ->]|].
  destruct s as [|c' s]; cbn [strip]; [done|]. rewrite string_app_cons.
  destruct (bool_decide_reflect (c = c')) as [->|]; [|done]. by intros ->%IH.
Qed.

Lemma pretty_query (z : Z) : all_chars query_char (pretty z) = true.
Proof.
  apply Is_true_true, pretty_chars; [|done]. intros c. rewrite !Is_true_true.
  unfold query_char, is_alnum. by intros ->.
Qed.

Lemma host_of_Some base host :
  host_of base = Some host → trim_slashes base = "http://" +:+ host ∧ host ≠ "" ∧ host_ok host = true.
Proof.
  unfold host_of. destruct (strip "http://" (trim_slashes base)) as [a|] eqn:Hs; [|done].
  apply strip_Some in Hs. cbn [mbind option_bind].
  destruct (bool_decide_reflect (a = "")) as [|Hne]; [done|]. cbn [negb andb].
  destruct (host_ok a) eqn:Ha; [|done]. by intros [= <-].
Qed.

Lemma objectURL_parses nodes n base host k v :
  nodes !! n = Some base → host_of base = Some host →
  parse_url (object_url nodes n k v) = Some {|
    u_scheme := "http"; u_host := host; u_path := "/objects/" +:+ k;
    u_query := "version=" +:+ pretty v |}.
Proof.
  intros Hn (Hb & Hne & Hok)%host_of_Some. unfold object_url. rewrite Hn. cbn [default from_option id].
  rewrite Hb.
  pose proof (parse_http_url host ("objects/" +:+ PathEscape k) (Some ("version=" +:+ pretty v)) Hok) as Hp.
  rewrite string_app_assoc. rewrite <-string_app_cons, !string_app_assoc in Hp.
  etrans; [apply Hp|].
  - rewrite all_chars_app. apply PathEscape_path.
  - rewrite all_chars_app. apply pretty_query.
  - rewrite PathUnescape_app by done. by rewrite PathUnescape_PathEscape.
Qed.

(** A node that is not known has no base URL, so no request is made. *)
Lemma unknown_node `{HTTPServer H} method nodes n k v body (net : Network H) :
  nodes !! n = None → ∃ e, client_Do method (object_url nodes n k v) body net = (Err e, net).
Proof.
  intros Hn. unfold object_url, client_Do. rewrite Hn.
  change (trim_slashes (default "" None) +:+ ?t) with t.
  destruct (parse_url _) as [u|] eqn:Hu; [|by eexists].
  apply parse_url_slash in Hu. rewrite Hu. by eexists.
Qed.

Lemma objectRequest_query method k v body :
  objectRequest (object_query method k v body) = objectRequest (object_query "GET" k v no_body).
Proof. done. Qed.
