(* ===== verification/HttpObjectsSpec.v ===== *)
(** * The remote object store satisfies the laws of [ObjectStore].

    First what one exchange with a storage node does to the objects of the node,
    then the laws on a fixed topology, with the resolved object as the address:
    the authority that the node's base URL names, and the address of the object
    in the store behind it. *)

From Stdlib Require Import Ascii ZifyBool.
From S2P Require Import Prelude Metadata Replication Names Hash Objects Paths Utf8 Json Times Codec Url Http HttpNet HttpObjects.
From stdpp Require Import options.

(** ** The storage node *)

Section node.
Context {OS : Type} `{HL : ObjectStoreLaws OS}.
Abbreviation Handler := (StorageHTTPHandler OS).
Implicit Types (h : Handler).

Lemma sh_call_inv {A} (c : GoM OS A) h r h' :
  sh_call c h = (r, h') → sh_nodeID h' = sh_nodeID h ∧ c (sh_objects h) = (r, sh_objects h').
Proof. by intros (o & Hc & ->)%zoom_inv. Qed.

(** The node acts on the object the request names, and rejects other requests. *)
Lemma serve_object method k v body h :
  StorageServeHTTP (object_query method k v body) h =
  match object_of k v with
  | Some (k', v') => storage_object (sh_nodeID h) k' v' (object_query method k v body) h
  | None =>
      (Ok (writeAPIError StatusBadRequest
        (match objectRequest (object_query "GET" k v no_body) with inr msg => msg | inl _ => "" end)), h)
  end.
Proof.
  unfold StorageServeHTTP, object_of. rewrite objectRequest_query.
  rewrite bool_decide_eq_false_2 by done.
  change (req_Path (object_query method k v body)) with ("/objects/" +:+ k).
  unfold has_prefix. rewrite strip_app, bool_decide_eq_true_2 by done. cbn [negb].
  by destruct (objectRequest (object_query "GET" k v no_body)) as [[k' v']|msg].
Qed.

(** Handlers with the same objects at the addresses [K]. *)
Definition same_at (K : Address → Prop) h h' : Prop :=
  sh_nodeID h' = sh_nodeID h ∧ ∀ a, K a → object_at (sh_objects h') a = object_at (sh_objects h) a.

#[export] Instance same_at_preorder K : PreOrder (same_at K).
Proof.
  split; [by intros h|]. intros h1 h2 h3 [E1 H1] [E2 H2]. split; [congruence|].
  intros a Ha. by rewrite H2, H1.
Qed.

Lemma sh_call_same {A} (c : GoM OS A) (K : Address → Prop) :
  (∀ s r s' a, c s = (r, s') → K a → object_at s' a = object_at s a) → respects (same_at K) (sh_call c).
Proof. intros Hc h r h' [En Hr]%sh_call_inv. split; [done|]. intros a. by eapply Hc. Qed.

(** Whatever the request, only the object it names can change, and only [PUT]
    and [DELETE] change it. *)
Lemma storage_frame n k v r :
  respects (same_at (λ a, a ≠ addr n k v ∨ req_Method r = "GET" ∨ req_Method r = "HEAD"))
    (storage_object n k v r).
Proof using HL.
  unfold storage_object. repeat case_bool_decide;
    respects_step ltac:(apply sh_call_same; intros s1 r1 s1' a Hrun Ha).
  - apply write_law in Hrun as (_ & Hf & _). naive_solver congruence.
  - by apply read_law in Hrun as (_ & Hf & _).
  - by apply has_law in Hrun as (_ & Hf).
  - apply delete_law in Hrun as (_ & Hf). naive_solver congruence.
Qed.

Lemma storage_put n k v r h resp h' :
  req_Method r = "PUT" → storage_object n k v r h = (Ok resp, h') →
  (resp_Status resp / 100 = 2)%Z →
  ∃ data, drain (r_reads (req_Body r)) = (data, None) ∧
    object_at (sh_objects h') (addr n k v) = Some data.
Proof using HL.
  intros Em. unfold storage_object. rewrite bool_decide_eq_true_2 by done. intros Hrun Hst.
  go_step Hrun; [|done..]. go_step Hc; [|done]. apply sh_call_inv in Hc as [_ Hw].
  apply write_law in Hw as (_ & _ & Hok). injection Hr as ->.
  destruct r0 as [cnt|e|]; [..|done]; injection Hrun as <- <-; [|by cbn in Hst].
  destruct (Hok cnt eq_refl) as (data & Hd & _ & Hat). by exists data.
Qed.

Lemma storage_get n k v r h resp h' :
  req_Method r = "GET" → storage_object n k v r h = (Ok resp, h') →
  resp_Status resp = StatusOK →
  ∃ size rd o', ReadObject n k v (sh_objects h) = (Ok (size, rd), o') ∧
    resp = {| resp_Status := StatusOK; resp_Header := [("Content-Length", pretty size)];
              resp_Body := (drain (r_reads rd)).1 |}.
Proof.
  intros Em. unfold storage_object. rewrite Em, bool_decide_eq_false_2, bool_decide_eq_true_2 by done.
  intros Hrun Hst.
  go_step Hrun; [|done..]. go_step Hc; [|done]. apply sh_call_inv in Hc as [_ Hw]. injection Hr as ->.
  destruct r0 as [[size rd]|e|]; [..|done]; injection Hrun as <- <-; [|by cbn in Hst]. eauto.
Qed.
End node.

(** ** The store on a fixed topology *)

(** Which base URL each node is registered with, and which node ID the server
    at each authority runs with. *)
Record Topology := { tp_nodes : gmap string string; tp_ids : gmap string string }.

#[export] Instance Topology_eq_dec : EqDecision Topology.
Proof. solve_decision. Defined.

(** Every registered base URL is http://host:port, with any number of slashes
    after it. *)
Class TopologyOk (topo : Topology) : Prop :=
  topology_ok : map_Forall (λ _ base, is_Some (host_of base)) (tp_nodes topo).

Section topology.
Context {OS : Type} `{HL : ObjectStoreLaws OS}.
Abbreviation Store := (HTTPObjectStore (StorageHTTPHandler OS)).

Definition topology (s : Store) : Topology :=
  {| tp_nodes := hs_nodes s; tp_ids := sh_nodeID <$> net_servers (hs_client s) |}.

Definition on_topology (topo : Topology) (s : Store) : Prop := topology s = topo.
#[export] Instance on_topology_dec topo s : Decision (on_topology topo s).
Proof. unfold on_topology. apply _. Defined.

(** A handler keeps its node ID, so the exchanges keep the topology. *)
Lemma serve_nodeID r (h : StorageHTTPHandler OS) res h' :
  StorageServeHTTP r h = (res, h') → sh_nodeID h' = sh_nodeID h.
Proof using HL.
  unfold StorageServeHTTP. repeat case_match; try (by intros [= <- <-]). subst.
  intros Hrun. go_step Hrun; [|done..]. injection Hc as <- <-. by apply storage_frame in Hrun as [? _].
Qed.

Lemma served_topology host r r0 (net net' : Network (StorageHTTPHandler OS)) :
  served host r r0 net net' → sh_nodeID <$> net_servers net' = sh_nodeID <$> net_servers net.
Proof using HL.
  intros (h & h' & Hh & Hs%serve_nodeID & ->). rewrite fmap_insert, Hs. apply insert_id.
  by rewrite lookup_fmap, Hh.
Qed.

Lemma client_topology method url body (net net' : Network (StorageHTTPHandler OS)) res :
  client_Do method url body net = (res, net') →
  sh_nodeID <$> net_servers net' = sh_nodeID <$> net_servers net.
Proof using HL.
  intros Hrun. destruct (parse_url url) as [u|] eqn:Hu.
  - pose proof (exchange _ _ _ _ _ _ _ Hu Hrun) as [[-> _]|(rd & r0 & Hs & _)]; [done|].
    by eapply served_topology.
  - unfold client_Do in Hrun. rewrite Hu in Hrun. by injection Hrun as <- <-.
Qed.

Definition same_topology (s s' : Store) : Prop := topology s' = topology s.
#[export] Instance same_topology_preorder : PreOrder same_topology.
Proof. split; [done|]. intros s1 s2 s3. unfold same_topology. congruence. Qed.

Lemma hs_Do_topology method url body : respects same_topology (hs_Do (H := StorageHTTPHandler OS) method url body).
Proof using HL.
  intros s r s' (net & Hrun & ->)%zoom_inv. unfold same_topology, topology. cbn.
  by rewrite (client_topology _ _ _ _ _ _ Hrun).
Qed.

#[export] Instance topology_kept topo : KeepsInv (on_topology topo).
Proof using HL.
  assert (∀ {A} (c : GoM Store A) s, respects same_topology c → on_topology topo s → on_topology topo (c s).2)
    as Hkeep.
  { intros A c s Hc Hs. destruct (c s) as [r s'] eqn:E. apply Hc in E. unfold on_topology. cbn.
    by rewrite E. }
  split; intros; (apply Hkeep; [|done]); cbn;
    unfold hs_WriteObject, hs_ReadObject, hs_DeleteObject, hs_HasObject, objectURL;
    respects_step ltac:(apply hs_Do_topology).
Qed.
End topology.

(** ** The laws *)

Section laws.
Context {OS : Type} `{HL : ObjectStoreLaws OS}.
Abbreviation Store := (HTTPObjectStore (StorageHTTPHandler OS)).
Implicit Types (s : Store).

(** Where an object of a node is: the authority of the node, and the address
    that the request names in the store there.  [None] stands for requests
    that no node accepts. *)
Definition remote_addr (topo : Topology) (n k : string) (v : Z) : option (string * Address) :=
  base ← tp_nodes topo !! n;
  host ← host_of base;
  id ← tp_ids topo !! host;
  '(k, v) ← object_of k v;
  Some (host, addr id k v).

Definition remote_object s (a : option (string * Address)) : option bytes :=
  '(host, a) ← a; h ← net_servers (hs_client s) !! host; object_at (sh_objects h) a.

(** An answer to an object request. *)
Definition answered (method k : string) (v : Z) (body : Reader) (n : string) s s' (cr : ClientResponse) : Prop :=
  ∃ k' v' host h h' rd resp, object_of k v = Some (k', v') ∧
    remote_addr (topology s) n k v = Some (host, addr (sh_nodeID h) k' v') ∧
    net_servers (hs_client s) !! host = Some h ∧ net_servers (hs_client s') !! host = Some h' ∧
    storage_object (sh_nodeID h) k' v' (object_query method k v rd) h = (Ok resp, h') ∧
    drain (r_reads body) = ((drain (r_reads rd)).1, None) ∧ (drain (r_reads rd)).2 = None ∧
    cr_StatusCode cr = resp_Status resp ∧
    (∀ d, drain (r_reads (cr_Body cr)) = (d, None) →
       drain (r_reads (cr_Body (client_response method resp))) = (d, None)).

Lemma object_exchange method n k v body s res s' :
  TopologyOk (topology s) →
  hs_Do method (object_url (hs_nodes s) n k v) body s = (res, s') →
  res ≠ Panic ∧
  (∀ a, a ≠ remote_addr (topology s) n k v ∨ method = "GET" ∨ method = "HEAD" →
     remote_object s' a = remote_object s a) ∧
  (∀ cr, res = Ok cr → cr_StatusCode cr = StatusBadRequest ∨ answered method k v body n s s' cr).
Proof using HL.
  intros Htopo (net & Hrun & ->)%zoom_inv.
  destruct (hs_nodes s !! n) as [base|] eqn:Hn.
  2: { destruct (unknown_node method _ n k v body (hs_client s) Hn) as [e He].
       rewrite He in Hrun. injection Hrun as <- <-. done. }
  destruct (Htopo n base Hn) as [host Hhost].
  pose proof (objectURL_parses _ _ _ _ k v Hn Hhost) as Hu.
  pose proof (exchange _ _ _ _ _ _ _ Hu Hrun) as [[Hsame (e & ->)]|(rd & r0 & Hserved & Hres)].
  { split; [done|]. split; [|done]. intros [[host' a]|] _; [|done]. cbn. by rewrite Hsame. }
  destruct Hserved as (h & h' & Hh & Hserve & Hs'). cbn [u_host] in *.
  change (request_of _ _ rd) with (object_query method k v rd) in Hserve.
  assert (remote_addr (topology s) n k v =
    '(k, v) ← object_of k v; Some (host, addr (sh_nodeID h) k v)) as Haddr.
  { unfold remote_addr, topology. cbn [tp_nodes tp_ids]. rewrite Hn. cbn [mbind option_bind].
    rewrite Hhost. cbn [mbind option_bind]. by rewrite lookup_fmap, Hh. }
  change (StorageServeHTTP (object_query method k v rd) h = (r0, h')) in Hserve.
  rewrite serve_object in Hserve. split; [|split].
  - destruct Hres as [(e & ->)|(? & ? & _ & -> & _)]; done.
  - intros [[host' a]|] Ha; [|done]. cbn. rewrite Hs', Haddr in *.
    destruct (decide (host' = host)) as [->|Hne]; [|by rewrite lookup_insert_ne].
    rewrite lookup_insert_eq, Hh. cbn. destruct (object_of k v) as [[k' v']|]; [|by injection Hserve as _ <-].
    apply storage_frame in Hserve as [_ Hf]. apply Hf. cbn in Ha. naive_solver congruence.
  - intros cr ->. destruct Hres as [(e & ?)|(resp & cr' & -> & [= <-] & Hb & Hrd & Hst & Hbody)]; [done|].
    destruct (object_of k v) as [[k' v']|] eqn:Ho.
    2: { left. injection Hserve as <- _. by rewrite Hst. }
    right. exists k', v', host, h, h', rd, resp. split; [done|]. split; [by rewrite Haddr|].
    split; [done|]. split; [cbn; rewrite Hs'; apply lookup_insert_eq|]. split; [done|].
    rewrite Hrd. cbn. split; [by rewrite <-Hb, <-surjective_pairing|done].
Qed.

Lemma hs_WriteObject_spec n k v r s res s' :
  TopologyOk (topology s) → hs_WriteObject n k v r s = (res, s') →
  res ≠ Panic ∧
  (∀ a, a ≠ remote_addr (topology s) n k v → remote_object s' a = remote_object s a) ∧
  (∀ cnt, res = Ok cnt → ∃ data, drain (r_reads r) = (data, None) ∧ cnt = zlen data ∧
     remote_object s' (remote_addr (topology s) n k v) = Some data).
Proof using HL.
  intros Ht Hrun. unfold hs_WriteObject in Hrun.
  rewrite (gom_bind_ok (objectURL n k v) _ s _ s eq_refl) in Hrun.
  go_step Hrun; apply (object_exchange _ _ _ _ _ _ _ _ Ht) in Hc as (Hp & Hf & Hok); subst;
    [|by split; [|split; [auto|]]|done].
  assert (s' = s0) as -> by by revert Hrun; case_match; intros [= <- <-].
  split; [by revert Hrun; case_match; intros [= <-]|]. split; [by auto|].
  intros cnt ->. destruct (Z.eqb_spec (cr_StatusCode a / 100) 2) as [Hst|]; [|done].
  injection Hrun as <-. destruct (Hok a eq_refl) as [Hbad|Hans]; [by rewrite Hbad in Hst|].
  destruct Hans as (k' & v' & host & h & h' & rd & resp & _ & Ha & _ & Hh' & Hput & Hd & He & Hcode & _).
  rewrite Hcode in Hst. destruct (storage_put _ _ _ (object_query "PUT" k v rd) _ _ _ eq_refl Hput Hst) as (data & Hdata & Hat).
  cbn in Hdata. rewrite Hdata in Hd. exists data. split; [done|].
  unfold countingReader_n. rewrite Hd. split; [done|]. rewrite Ha. cbn. by rewrite Hh'.
Qed.

Lemma hs_ReadObject_spec `{!SizedReads OS} n k v s res s' :
  TopologyOk (topology s) → hs_ReadObject n k v s = (res, s') →
  res ≠ Panic ∧
  (∀ a, remote_object s' a = remote_object s a) ∧
  (∀ size r data, res = Ok (size, r) → drain (r_reads r) = (data, None) →
     remote_object s (remote_addr (topology s) n k v) = Some data).
Proof using HL.
  intros Ht Hrun. unfold hs_ReadObject in Hrun.
  rewrite (gom_bind_ok (objectURL n k v) _ s _ s eq_refl) in Hrun.
  go_step Hrun; apply (object_exchange _ _ _ _ _ _ _ _ Ht) in Hc as (Hp & Hf & Hok); subst;
    [|by split; [|split; [auto|]]|done].
  assert (s' = s0) as -> by by revert Hrun; case_match; intros [= <- <-].
  split; [by revert Hrun; case_match; intros [= <-]|]. split; [by auto|].
  intros size r data ->. destruct (Z.eqb_spec (cr_StatusCode a) StatusOK) as [Hst|]; [|done].
  injection Hrun as <- <-. destruct (Hok a eq_refl) as [Hbad|Hans]; [by rewrite Hbad in Hst|].
  destruct Hans as (k' & v' & host & h & h' & rd & resp & _ & Ha & Hh & _ & Hget & _ & _ & Hcode & Hbody).
  rewrite Hcode in Hst. intros Hd%Hbody.
  destruct (storage_get _ _ _ (object_query "GET" k v rd) _ _ _ eq_refl Hget Hst) as (size & rd' & o' & Hread & ->).
  pose proof (sized_nonneg _ _ _ _ _ _ _ Hread) as Hnn.
  destruct (client_body_whole "GET" _ size data (declared_size _ _ _ Hnn) Hnn ltac:(done) Hd)
    as [Hle ->].
  rewrite Ha. cbn. rewrite Hh. by apply (sized_prefix _ _ _ _ _ _ _ Hread).
Qed.

Lemma hs_DeleteObject_spec n k v s res s' :
  TopologyOk (topology s) → hs_DeleteObject n k v s = (res, s') →
  res ≠ Panic ∧
  (∀ a, a ≠ remote_addr (topology s) n k v → remote_object s' a = remote_object s a).
Proof using HL.
  intros Ht Hrun. unfold hs_DeleteObject in Hrun.
  rewrite (gom_bind_ok (objectURL n k v) _ s _ s eq_refl) in Hrun.
  go_step Hrun; apply (object_exchange _ _ _ _ _ _ _ _ Ht) in Hc as (Hp & Hf & _); subst;
    [|by split; [|auto]|done].
  revert Hrun. case_match; intros [= <- <-]; (split; [done|auto]).
Qed.

Lemma hs_HasObject_spec n k v s res s' :
  TopologyOk (topology s) → hs_HasObject n k v s = (res, s') →
  res ≠ Panic ∧ (∀ a, remote_object s' a = remote_object s a).
Proof using HL.
  intros Ht Hrun. unfold hs_HasObject in Hrun.
  rewrite (gom_bind_ok (objectURL n k v) _ s _ s eq_refl) in Hrun.
  go_step Hrun; go_step Hc; try done;
    apply (object_exchange _ _ _ _ _ _ _ _ Ht) in Hc as (Hp' & Hf & _); subst; try done.
  injection Hr as ->. destruct r as [resp|e|]; [..|done]; injection Hrun as <- <-; auto.
Qed.
End laws.

(** The remote store between two registrations. *)
Abbreviation Remote OS topo := (dsig (on_topology (OS := OS) topo)).

#[export] Instance Remote_laws `{HL : ObjectStoreLaws OS} `{!SizedReads OS} topo `{Ht : !TopologyOk topo} :
  ObjectStoreLaws (Remote OS topo).
Proof.
  refine {| Address := option (string * Address); addr := remote_addr topo;
            object_at s := remote_object (`s) |}; intros n k v.
  - intros r s res s' Hrun%restrict_inv. pose proof (hs_WriteObject_spec n k v r (`s) res (`s')) as Hspec.
    rewrite (proj2_dsig s : topology _ = _) in Hspec. by apply Hspec.
  - intros s res s' Hrun%restrict_inv. pose proof (hs_ReadObject_spec n k v (`s) res (`s')) as Hspec.
    rewrite (proj2_dsig s : topology _ = _) in Hspec. by apply Hspec.
  - intros s res s' Hrun%restrict_inv. pose proof (hs_DeleteObject_spec n k v (`s) res (`s')) as Hspec.
    rewrite (proj2_dsig s : topology _ = _) in Hspec. by apply Hspec.
  - intros s res s' Hrun%restrict_inv. pose proof (hs_HasObject_spec n k v (`s) res (`s')) as Hspec.
    rewrite (proj2_dsig s : topology _ = _) in Hspec. by apply Hspec.
Defined.

(** ** A working network of reliable nodes is a reliable store *)

Section reliable.
Context {OS : Type} `{HR : ReliableObjectStore OS} `{!SizedReads OS}.
Abbreviation Store := (HTTPObjectStore (StorageHTTPHandler OS)).
Implicit Types (s : Store).

(** Every exchange is delivered, and every node is ready. *)
Definition remote_ready s : Prop :=
  (∀ i, ∃ pieces, net_script (hs_client s) i = Delivered pieces) ∧
  map_Forall (λ _ h, os_ready (sh_objects h)) (net_servers (hs_client s)).

Definition remote_serves (topo : Topology) (n k : string) (v : Z) : Prop :=
  ∃ base host id k' v', tp_nodes topo !! n = Some base ∧ host_of base = Some host ∧
    tp_ids topo !! host = Some id ∧ object_of k v = Some (k', v') ∧ os_serves id k' v'.

Lemma object_delivered n k v s :
  remote_serves (topology s) n k v → remote_ready s →
  ∃ k' v' host h pieces,
    remote_addr (topology s) n k v = Some (host, addr (sh_nodeID h) k' v') ∧
    net_servers (hs_client s) !! host = Some h ∧
    os_serves (sh_nodeID h) k' v' ∧ os_ready (sh_objects h) ∧
    ∀ method body data resp h', drain (r_reads body) = (data, None) →
      storage_object (sh_nodeID h) k' v' (object_query method k v (sent_body pieces data None)) h = (Ok resp, h') →
      os_ready (sh_objects h') →
      ∃ s', hs_Do method (object_url (hs_nodes s) n k v) body s = (Ok (client_response method resp), s') ∧
        remote_ready s' ∧ net_servers (hs_client s') !! host = Some h'.
Proof.
  intros (base & host & id & k' & v' & Hn & Hhost & Hid & Ho & Hserv) [Hscript Hready].
  cbn in Hn, Hid. rewrite lookup_fmap in Hid.
  destruct (net_servers (hs_client s) !! host) as [h|] eqn:Hh; [|done]. injection Hid as <-.
  destruct (Hscript (net_used (hs_client s))) as [pieces Hev].
  exists k', v', host, h, pieces. split.
  { unfold remote_addr, topology. cbn [tp_nodes tp_ids]. rewrite Hn. cbn [mbind option_bind].
    rewrite Hhost. cbn [mbind option_bind]. rewrite lookup_fmap, Hh. cbn [fmap option_fmap option_map mbind option_bind].
    by rewrite Ho. }
  split; [done|]. split; [done|]. split; [by apply (Hready host)|].
  intros method body data resp h' Hd Hserve Hr'.
  pose proof (objectURL_parses _ _ _ _ k v Hn Hhost) as Hu.
  pose proof (host_of_Some _ _ Hhost) as (_ & Hne & _).
  assert (StorageServeHTTP (object_query method k v (sent_body pieces data None)) h = (Ok resp, h')) as Hsrv.
  { by rewrite serve_object, Ho. }
  pose proof (exchange_delivered method _ _ body data h resp h' (hs_client s) pieces Hu eq_refl Hne Hd Hev Hh Hsrv)
    as Hrun.
  eexists. split; [unfold hs_Do; by rewrite (zoom_run _ _ _ _ _ _ Hrun)|]. cbn. split.
  - split; [done|]. by apply map_Forall_insert_2.
  - apply lookup_insert_eq.
Qed.

Lemma sh_call_run {A} (c : GoM OS A) (h : StorageHTTPHandler OS) r o :
  c (sh_objects h) = (r, o) →
  sh_call c h = (r, {| sh_nodeID := sh_nodeID h; sh_objects := o |}).
Proof. intros Hc. unfold sh_call. by rewrite (zoom_run _ _ _ _ _ _ Hc). Qed.

Lemma remote_write n k v r s data :
  remote_serves (topology s) n k v → remote_ready s → drain (r_reads r) = (data, None) →
  ∃ s', hs_WriteObject n k v r s = (Ok (zlen data), s') ∧ remote_ready s'.
Proof using HR.
  intros Hn Hs Hd.
  destruct (object_delivered n k v s Hn Hs) as (k' & v' & host & h & pieces & _ & Hh & Hserv & Hr & Hdo).
  destruct (reliable_write (sh_nodeID h) k' v' (sent_body pieces data None) (sh_objects h) data)
    as (o & Hw & Ho); [done|done|by rewrite drain_sent|].
  apply sh_call_run in Hw.
  edestruct (Hdo "PUT" r data) as (s' & Hrun & Hs' & _); [done|..].
  - unfold storage_object. rewrite bool_decide_eq_true_2 by done.
    rewrite (gom_bind_ok _ _ _ _ _ (try_run _ _ _ _ Hw ltac:(done))). done.
  - done.
  - exists s'. split; [|done]. unfold hs_WriteObject.
    rewrite (gom_bind_ok (objectURL n k v) _ s _ s eq_refl), (gom_bind_ok _ _ _ _ _ Hrun).
    rewrite client_status. unfold countingReader_n. by rewrite Hd.
Qed.

Lemma remote_read n k v s data :
  remote_serves (topology s) n k v → remote_ready s →
  remote_object s (remote_addr (topology s) n k v) = Some data →
  ∃ size r s', hs_ReadObject n k v s = (Ok (size, r), s') ∧
    drain (r_reads r) = (data, None) ∧ r_close r = None ∧ remote_ready s'.
Proof using All.
  intros Hn Hs.
  destruct (object_delivered n k v s Hn Hs) as (k' & v' & host & h & pieces & Ha & Hh & Hserv & Hr & Hdo).
  rewrite Ha. cbn. rewrite Hh. cbn. intros Hat.
  destruct (reliable_read (sh_nodeID h) k' v' (sh_objects h) data) as (size & rd & o & Hread & Hd & _ & Ho);
    [done..|].
  pose proof (sized_whole _ _ _ _ _ _ _ _ Hread Hd) as ->. apply sh_call_run in Hread.
  edestruct (Hdo "GET" no_body []) as (s' & Hrun & Hs' & _); [done|..].
  - unfold storage_object. rewrite !bool_decide_eq_false_2, bool_decide_eq_true_2 by done.
    rewrite (gom_bind_ok _ _ _ _ _ (try_run _ _ _ _ Hread ltac:(done))), Hd. done.
  - done.
  - eexists _, _, s'. split; [|split; [|split; [|exact Hs']]].
    + unfold hs_ReadObject.
      rewrite (gom_bind_ok (objectURL n k v) _ s _ s eq_refl), (gom_bind_ok _ _ _ _ _ Hrun).
      by rewrite client_status.
    + unfold client_response. rewrite declared_size by (unfold zlen; lia).
      cbn [cr_Body r_reads resp_Body fst]. rewrite bool_decide_eq_false_2 by done.
      rewrite drain_arrive, Z.ltb_irrefl. unfold zlen. cbn [andb]. by rewrite Nat2Z.id, firstn_all.
    + unfold client_response. by rewrite declared_size by (unfold zlen; lia).
Qed.

Lemma remote_delete n k v s :
  remote_serves (topology s) n k v → remote_ready s →
  ∃ s', hs_DeleteObject n k v s = (Ok tt, s') ∧ remote_ready s' ∧
    remote_object s' (remote_addr (topology s) n k v) = None.
Proof using HR.
  intros Hn Hs.
  destruct (object_delivered n k v s Hn Hs) as (k' & v' & host & h & pieces & Ha & Hh & Hserv & Hr & Hdo).
  destruct (reliable_delete (sh_nodeID h) k' v' (sh_objects h)) as (o & Hw & Ho & Hgone); [done|done|].
  apply sh_call_run in Hw.
  edestruct (Hdo "DELETE" no_body []) as (s' & Hrun & Hs' & Hh'); [done|..].
  - unfold storage_object. rewrite !bool_decide_eq_false_2, bool_decide_eq_true_2 by done.
    rewrite (gom_bind_ok _ _ _ _ _ (try_run _ _ _ _ Hw ltac:(done))). done.
  - done.
  - exists s'. split; [|split; [done|rewrite Ha; cbn; by rewrite Hh']]. unfold hs_DeleteObject.
    rewrite (gom_bind_ok (objectURL n k v) _ s _ s eq_refl), (gom_bind_ok _ _ _ _ _ Hrun).
    by rewrite client_status.
Qed.
End reliable.

#[export] Instance Remote_reliable `{HR : ReliableObjectStore OS} `{!SizedReads OS} topo
  `{Ht : !TopologyOk topo} : ReliableObjectStore (Remote OS topo).
Proof.
  refine {| os_ready s := remote_ready (`s); os_serves := remote_serves topo |}; intros n k v.
  - intros r s data Hn Hs Hd. pose proof (remote_write n k v r (`s) data) as Hspec.
    rewrite (proj2_dsig s : topology _ = _) in Hspec. destruct (Hspec Hn Hs Hd) as (t & Hrun & Hready).
    destruct (WriteObject n k v r s) as [res s'] eqn:E. apply restrict_inv in E.
    pose proof (eq_trans (eq_sym E) Hrun) as [= -> <-]. by exists s'.
  - intros s data Hn Hs Hat. pose proof (remote_read n k v (`s) data) as Hspec.
    rewrite (proj2_dsig s : topology _ = _) in Hspec.
    destruct (Hspec Hn Hs Hat) as (size & rd & t & Hrun & Hd & Hcl & Hready).
    destruct (ReadObject n k v s) as [res s'] eqn:E. apply restrict_inv in E.
    pose proof (eq_trans (eq_sym E) Hrun) as [= -> <-]. by exists size, rd, s'.
  - intros s Hn Hs. pose proof (remote_delete n k v (`s)) as Hspec.
    rewrite (proj2_dsig s : topology _ = _) in Hspec. destruct (Hspec Hn Hs) as (t & Hrun & Hready & Hgone).
    destruct (DeleteObject n k v s) as [res s'] eqn:E. apply restrict_inv in E.
    pose proof (eq_trans (eq_sym E) Hrun) as [= -> <-]. by exists s'.
Defined.

(** ** Names that reach the object they name *)

(** Keys the storage API can name: not empty, without a percent sign and
    without two dots in a row. *)
Definition object_key_ok (k : string) : bool :=
  negb (bool_decide (k = "")) && negb (has_char "%" k) && negb (contains k "..").

Lemma QueryUnescape_plain s : all_chars query_char s = true → QueryUnescape s = Some s.
Proof.
  intros Hs. unfold QueryUnescape.
  assert (plus_to_space s = s) as ->.
  { induction s as [|c s IH]; [done|]. cbn [all_chars] in Hs. apply andb_prop in Hs as [Hc Hs].
    cbn [plus_to_space]. rewrite IH by done.
    assert (is_char 43 c = false) as ->; [|done]. revert Hc.
    unfold query_char, is_alnum, is_digit, between, is_char. generalize (code c). intros m. lia. }
  by apply PathUnescape_plain, (all_chars_has_char query_char).
Qed.

Lemma query_version (v : Z) : query_get ("version=" +:+ pretty v) "version" = pretty v.
Proof.
  unfold query_get. pose proof (pretty_query v) as Hq.
  rewrite split_on_plain by by rewrite has_char_app, (all_chars_has_char query_char "&" (pretty v)).
  cbn [omap list_omap]. unfold query_pair at 1.
  rewrite has_char_app, (all_chars_has_char query_char ";" (pretty v)) by done.
  rewrite bool_decide_eq_false_2 by done. cbn [has_char orb].
  pose proof (cut_none "=" "version" (pretty v) eq_refl) as Hc.
  change ("version" +:+ String "=" (pretty v)) with ("version=" +:+ pretty v) in Hc. rewrite Hc.
  change (QueryUnescape "version") with (Some "version"). cbn [mbind option_bind default from_option id].
  by rewrite QueryUnescape_plain.
Qed.

Lemma ParseUint_pretty v : in_u64 v → ParseUint (pretty v) = Some v.
Proof.
  intros [Hv Hv']. unfold ParseUint. rewrite pretty_nonneg by done.
  pose proof (nat_literal_pretty (Z.to_N v)) as Hl.
  rewrite (proj1 (Is_true_true _) (nat_literal_chars is_digit _ (λ c Hc, Hc) Hl)).
  rewrite dec_value_pretty, Z2N.id by done.
  rewrite bool_decide_eq_false_2 by (intros E; by rewrite E in Hl). cbn [negb andb].
  by rewrite (proj2 (Z.ltb_lt _ _) Hv').
Qed.

Lemma object_of_ok k v : object_key_ok k = true → in_u64 v → v ≠ 0%Z → object_of k v = Some (k, v).
Proof.
  intros [[Hne Hpc]%andb_prop Hdd]%andb_prop Hv Hz.
  apply negb_true_iff in Hne, Hpc, Hdd. unfold object_of, objectRequest.
  change (req_Path (object_query "GET" k v no_body)) with ("/objects/" +:+ k).
  change (req_RawQuery (object_query "GET" k v no_body)) with ("version=" +:+ pretty v).
  unfold trim_prefix. rewrite strip_app. cbn [default from_option id].
  rewrite PathUnescape_plain, Hne, Hdd, query_version, ParseUint_pretty by done. cbn [orb].
  by rewrite (proj2 (Z.eqb_neq _ _) Hz).
Qed.

(** Keys of files whose chunks the storage API can name too: a key that ends in
    a dot meets the dot of ".chunk.". *)
Definition file_key_ok (k : string) : bool := object_key_ok k && negb (ends_dot k).

Lemma chunk_key_ok k i : file_key_ok k = true → object_key_ok (chunkObjectKey k i) = true.
Proof.
  unfold file_key_ok, object_key_ok, chunkObjectKey.
  rewrite !andb_true_iff, !negb_true_iff. intros [[[Hne Hpc] Hdd] He].
  assert (has_char "." (sprintf_06d i) = false) as Hd by apply has_char_06d, not_numeric_dot.
  destruct (no_dots _ Hd) as [Hd1 Hd2]. split; [split|].
  - apply bool_decide_eq_false_2. apply bool_decide_eq_false in Hne. by destruct k.
  - rewrite !has_char_app, Hpc. by rewrite has_char_06d by apply not_numeric_percent.
  - rewrite dots_app, Hdd, He, dots_app, Hd1, Hd2. done.
Qed.

(** The chunks of a key that ends in a dot have no acceptable name. *)
Lemma dotted_chunk k i v : has_char "%" k = false → ends_dot k = true → object_of (chunkObjectKey k i) v = None.
Proof.
  intros Hpc He. unfold object_of, objectRequest.
  change (req_Path (object_query "GET" (chunkObjectKey k i) v no_body)) with ("/objects/" +:+ chunkObjectKey k i).
  unfold trim_prefix. rewrite strip_app. cbn [default from_option id].
  rewrite PathUnescape_plain.
  2: { unfold chunkObjectKey. rewrite !has_char_app, Hpc.
       by rewrite has_char_06d by apply not_numeric_percent. }
  assert (contains (chunkObjectKey k i) ".." = true) as ->.
  { unfold chunkObjectKey. rewrite dots_app, He. cbn [starts_dot andb]. by rewrite orb_true_r. }
  by rewrite orb_true_r.
Qed.

(** A node on the topology whose store serves its own ID serves every version of
    a file with an acceptable key. *)
Lemma remote_serves_file `{HR : ReliableObjectStore OS} `{!SizedReads OS} topo `{!TopologyOk topo}
    n base host nid key v :
  tp_nodes topo !! n = Some base → host_of base = Some host → tp_ids topo !! host = Some nid →
  file_key_ok key = true → in_u64 v → v ≠ 0%Z → (∀ k, os_serves nid k v) →
  serves_file (OS := Remote OS topo) n key v.
Proof.
  intros Hn Hh Hid Hk Hv Hz Hs.
  assert (∀ k, object_key_ok k = true → remote_serves topo n k v) as Hserve.
  { intros k Hk'. exists base, host, nid, k, v. by rewrite object_of_ok. }
  split; [|intros i]; apply Hserve; [by apply andb_prop in Hk as [? _]|by apply chunk_key_ok].
Qed.
