(* ===== verification/ManagerApi.v ===== *)
(** * The manager's API: [ManagerHTTPHandler] of [http_api.go].

    The handler serves the methods of a [ManagedFileService].  It may hold the
    [HTTPObjectStore] that the service uses as its object store, to register the
    address of a node there as well; the handler and the service share that
    object, so registering acts on the objects of the service. *)

From Stdlib Require Import Ascii ZifyBool.
From S2P Require Import Prelude Metadata Replication Backend MetadataSpec Names Hash Objects Staging Coordinator Service Utf8 Json Times Codec Records Url Http HttpNet.
From stdpp Require Import options.

(** ** JSON of the answers *)

Definition enum_counts `{Countable K} (name : K → string) (m : gmap K Z) : gmap string Z :=
  kmap name m.

Definition ServiceMetrics_json (m : ServiceMetrics) : option JValue :=
  tasks ← c_enc (c_map c_int64) (enum_counts ReplicationTaskState_string (me_ReplicationTasks m));
  nodes ← c_enc (c_map c_int64) (enum_counts NodeState_string (me_Nodes m));
  replicas ← c_enc (c_map c_int64) (enum_counts ReplicaState_string (me_Replicas m));
  Some (JObj [
    ("files", JNum (pretty (me_Files m)));
    ("deletedFiles", JNum (pretty (me_DeletedFiles m)));
    ("pendingTasks", JNum (pretty (me_PendingTasks m)));
    ("replicationTasks", tasks); ("nodes", nodes); ("replicas", replicas)]).

(** The anonymous struct of a heartbeat. *)
Definition c_heartbeat : Codec string := c_struct "" [field "addr" c_string id (λ a _, a)].

(** [json.NewDecoder(r).Decode(&v)]: the first value of the stream; what follows
    it is not looked at. *)
Definition json_Decode {A} (c : Codec A) (r : Reader) : option A :=
  let s := String.string_of_list_byte (drain (r_reads r)).1 in
  '(v, _) ← parse_value (S (String.length s)) 0 s; c_dec c (c_zero c) v.

(** ** Keys and status codes *)

Definition fileKeyFromPath (path : string) : string * bool + string :=
  let raw := trim_prefix path "/files/" in
  let metadataOnly := has_suffix raw "/metadata" in
  let raw := if metadataOnly then trim_suffix raw "/metadata" else raw in
  match PathUnescape raw with
  | None => inr "invalid URL escape"
  | Some key =>
      if bool_decide (key = "") || contains key ".." then inr "invalid file key"
      else inl (key, metadataOnly)
  end.

Definition statusForError (err : GoError) : Z :=
  match err with
  | ErrMetadataNotFound | ErrFileDeleted => StatusNotFound
  | ErrNoPendingTasks => StatusNoContent
  | ErrNoHealthyNodes | ErrNoReadableReplicas => StatusServiceUnavailable
  | _ => StatusInternalServerError
  end.

(** ** The handler *)

Record ManagerHTTPHandler (B Q OS : Type) := {
  mh_service : ManagedFileService B Q OS;
  mh_httpStore : option (string → string → GoM OS unit)
}.
Arguments mh_service {B Q OS}.
Arguments mh_httpStore {B Q OS}.

Section handler.
Context {B Q OS : Type} `{MetadataBackend B} `{ReplicationTaskQueue Q} `{ObjectStore OS}.
Abbreviation Handler := (ManagerHTTPHandler B Q OS).

Definition NewManagerHTTPHandler (service : ManagedFileService B Q OS)
    (httpStore : option (string → string → GoM OS unit)) : Handler :=
  {| mh_service := service; mh_httpStore := httpStore |}.

Definition mh_call {A} (c : GoM (ManagedFileService B Q OS) A) : GoM Handler A :=
  zoom mh_service (λ s h, {| mh_service := s; mh_httpStore := mh_httpStore h |}) c.

(** A call whose error becomes a response and whose value goes on. *)
Definition or_error {A} (c : GoM (ManagedFileService B Q OS) A) (status : GoError → Z)
    (k : A → GoM Handler Response) : GoM Handler Response :=
  res ← try (mh_call c);
  match res with
  | Ok a => k a
  | Err err => mret (writeAPIError (status err) (error_string err))
  | Panic => panic
  end.

Definition handleMetadata (r : Request) (key : string) : GoM Handler Response :=
  if negb (bool_decide (req_Method r = "GET")) then mret (write_status StatusMethodNotAllowed)
  else or_error (ServiceMetadata key) (λ _, StatusInternalServerError) (λ found,
    match found with
    | None => mret (writeAPIError StatusNotFound (error_string ErrMetadataNotFound))
    | Some meta => mret (writeAPIJSON StatusOK (c_enc c_FileMetadata meta))
    end).

Definition handleFile (r : Request) : GoM Handler Response :=
  match fileKeyFromPath (req_Path r) with
  | inr msg => mret (writeAPIError StatusBadRequest msg)
  | inl (key, true) => handleMetadata r key
  | inl (key, false) =>
      let method := req_Method r in
      if bool_decide (method = "PUT") then
        or_error (Put key (r_reads (req_Body r))) (λ _, StatusServiceUnavailable) (λ meta,
          mret (writeAPIJSON StatusCreated (c_enc c_FileMetadata meta)))
      else if bool_decide (method = "GET") then
        or_error (Get key) statusForError (λ '(data, meta), mret {|
          resp_Status := StatusOK;
          resp_Header := [("X-DFS-Version", pretty (fm_Version meta));
                          ("X-DFS-Checksum", fm_Checksum meta)];
          resp_Body := data |})
      else if bool_decide (method = "DELETE") then
        or_error (Delete key) statusForError (λ _, mret (write_status StatusNoContent))
      else mret (write_status StatusMethodNotAllowed)
  end.

Definition handleNodes (r : Request) : GoM Handler Response :=
  if negb (bool_decide (req_Method r = "GET")) then mret (write_status StatusMethodNotAllowed)
  else or_error ServiceNodes (λ _, StatusInternalServerError) (λ nodes,
    mret (writeAPIJSON StatusOK (c_enc (c_list c_NodeMetadata) nodes))).

Definition handleMetrics (r : Request) : GoM Handler Response :=
  if negb (bool_decide (req_Method r = "GET")) then mret (write_status StatusMethodNotAllowed)
  else or_error Metrics (λ _, StatusInternalServerError) (λ metrics,
    mret (writeAPIJSON StatusOK (ServiceMetrics_json metrics))).

(** [h.httpStore.SetNode(id, addr)], if there is an [httpStore]. *)
Definition set_node (id address : string) : GoM Handler unit :=
  store ← gets mh_httpStore;
  match store with
  | None => mret tt
  | Some setNode => mh_call (objs (setNode id address))
  end.

Definition handleNodeHeartbeat (r : Request) : GoM Handler Response :=
  if negb (bool_decide (req_Method r = "PUT")) then mret (write_status StatusMethodNotAllowed)
  else
    match PathUnescape (trim_prefix (req_Path r) "/internal/nodes/") with
    | None | Some "" => mret (writeAPIError StatusBadRequest "invalid node id")
    | Some id =>
        match json_Decode c_heartbeat (req_Body r) with
        | None => mret (writeAPIError StatusBadRequest "invalid JSON")
        | Some "" => mret (writeAPIError StatusBadRequest "node addr is required")
        | Some address =>
            or_error (ServiceRegisterNode id address) (λ _, StatusInternalServerError) (λ node,
              set_node id address;;
              mret (writeAPIJSON StatusOK (c_enc c_NodeMetadata node)))
        end
    end%string.

Definition handleReplicationRun (r : Request) : GoM Handler Response :=
  if negb (bool_decide (req_Method r = "POST")) then mret (write_status StatusMethodNotAllowed)
  else or_error RunReplicationOnce statusForError (λ '(task, err),
    match err with
    | Some err => mret (writeAPIError (statusForError err) (error_string err))
    | None => mret (writeAPIJSON StatusOK (c_enc c_ReplicationTask task))
    end).

Definition ManagerServeHTTP (r : Request) : GoM Handler Response :=
  let path := req_Path r in
  if has_prefix path "/files/" then handleFile r
  else if bool_decide (path = "/nodes") then handleNodes r
  else if bool_decide (path = "/metrics") then handleMetrics r
  else if bool_decide (path = "/replication/run") then handleReplicationRun r
  else if has_prefix path "/internal/nodes/" then handleNodeHeartbeat r
  else if bool_decide (path = "/healthz") then mret (write_status StatusOK)
  else mret NotFound.

#[export] Instance ManagerHTTPHandler_server : HTTPServer Handler :=
  {| ServeHTTP := ManagerServeHTTP |}.
End handler.
