(* ===== verification/Cli.v ===== *)
(** * The command line of [main.go]: flags, the client commands and heartbeats.

    A command runs on a terminal: a file system, the network on which it reaches
    the manager, and the lines it has printed.  Paths given on the command line
    are taken as cleaned.  The processes are in [Process]. *)

From Stdlib Require Import Ascii ZifyBool.
From S2P Require Import Prelude Metadata Replication Names Hash Objects Paths Store Utf8 Json Times Codec Records Float64 JsonAny Url Http HttpNet ManagerApi.
From stdpp Require Import options.

(** ** Flags *)

(** [nodeFlags.Set]: [strings.SplitN(v, "=", 2)] *)
Definition nodeFlags_Set (v : string) (n : gmap string string) : gmap string string + string :=
  match cut "=" v with
  | (id, Some url) =>
      if bool_decide (id = "") || bool_decide (url = "") then inr "node must be id=url"
      else inl (<[id := url]> n)
  | (_, None) => inr "node must be id=url"
  end.

(** [flag.FlagSet.Parse] for flags that take a value: the settings and the
    remaining arguments, or [None] when the process exits with the usage. *)
Section flags.
Context {S : Type} (setters : list (string * (string → S → option S))).

Fixpoint set_flag (fs : list (string * (string → S → option S))) (name value : string) (s : S) : option S :=
  match fs with
  | [] => None
  | (n, set) :: fs => if bool_decide (n = name) then set value s else set_flag fs name value s
  end.

(** The text of an argument after its dashes; [None] when it is not a flag. *)
Definition flag_text (arg : string) : option string :=
  match arg with
  | String d1 (String c r) =>
      if is_char 45 d1 then if is_char 45 c then Some r else Some (String c r) else None
  | _ => None
  end%string.

Definition bad_flag (text : string) : bool :=
  match text with
  | "" => true
  | String c _ => is_char 45 c || is_char 61 c
  end%string.

Fixpoint parse_flags (args : list string) (s : S) : option (S * list string) :=
  match args with
  | [] => Some (s, [])
  | arg :: rest =>
      match flag_text arg with
      | None => Some (s, args)
      | Some text =>
          if bool_decide (arg = "--") then Some (s, rest)
          else if bad_flag text then None
          else
            match cut "=" text with
            | (name, Some value) => s ← set_flag setters name value s; parse_flags rest s
            | (name, None) =>
                match rest with
                | [] => None
                | value :: rest => s ← set_flag setters name value s; parse_flags rest s
                end
            end
      end
  end.
End flags.

(** [clientFlags]: the manager URL, 127.0.0.1:9000 by default. *)
Definition clientFlags (args : list string) : option (string * list string) :=
  parse_flags [("manager", λ v _, Some v)] args "http://127.0.0.1:9000".

(** ** Requests *)

Definition fileURL (manager key : string) : string :=
  trim_slashes manager +:+ "/files/" +:+ PathEscape key.

(** The white space [strings.TrimSpace] removes from ASCII text. *)
Definition is_blank (c : ascii) : bool := is_char 32 c || between 9 13 c.
Fixpoint trim_left (s : string) : string :=
  match s with
  | "" => ""
  | String c r => if is_blank c then trim_left r else s
  end%string.
Definition TrimSpace (s : string) : string := srev (trim_left (srev (trim_left s))).

Definition responseError (resp : ClientResponse) : GoError :=
  ErrOther ("request failed: " +:+ status_line (cr_StatusCode resp) +:+ " " +:+
    TrimSpace (String.string_of_list_byte (drain (r_reads (cr_Body resp))).1)).

Definition is_success (resp : ClientResponse) : bool := (cr_StatusCode resp / 100 =? 2)%Z.

Record Terminal (H : Type) := {
  tm_fs : FS;
  tm_net : Network H;
  tm_out : list string
}.
Arguments tm_fs {H}.
Arguments tm_net {H}.
Arguments tm_out {H}.

Section commands.
Context {H : Type} `{HTTPServer H}.

Definition tm_file {A} (c : GoM FS A) : GoM (Terminal H) A :=
  zoom tm_fs (λ fs t, {| tm_fs := fs; tm_net := tm_net t; tm_out := tm_out t |}) c.
Definition tm_http {A} (c : GoM (Network H) A) : GoM (Terminal H) A :=
  zoom tm_net (λ net t, {| tm_fs := tm_fs t; tm_net := net; tm_out := tm_out t |}) c.
Definition print_line (line : string) : GoM (Terminal H) unit :=
  modify (λ t, {| tm_fs := tm_fs t; tm_net := tm_net t; tm_out := tm_out t ++ [line] |}).

(** [http.DefaultClient.Do(mustRequest(method, url, body))]: a URL that does not
    parse panics. *)
Definition must_Do (method url : string) (body : Reader) : GoM (Network H) ClientResponse :=
  match parse_url url with
  | None => panic
  | Some _ => client_Do method url body
  end.

(** [os.Open] *)
Definition os_Open (p : Path) : GoM FS Reader :=
  entry ← at_path "open" p (λ entry,
    match entry with None => path_error "open" p ENOENT | Some entry => mret entry end);
  open_reader p entry.

Definition with_flags {A} (args : list string) (k : string → list string → GoM (Terminal H) A) :
    GoM (Terminal H) A :=
  match clientFlags args with
  | None => fail (ErrOther "exit status 2")
  | Some (manager, rest) => k manager rest
  end.

Definition runPut (args : list string) : GoM (Terminal H) unit :=
  with_flags args (λ manager rest,
    match rest with
    | [key; path] =>
        file ← tm_file (os_Open (Join [path]));
        resp ← tm_http (must_Do "PUT" (fileURL manager key) file);
        if negb (is_success resp) then fail (responseError resp)
        else
          match json_Decode c_FileMetadata (cr_Body resp) with
          | None => fail (ErrOther "invalid JSON")
          | Some meta =>
              print_line ("stored key=" +:+ fm_Key meta +:+ " version=" +:+ pretty (fm_Version meta) +:+
                " size=" +:+ pretty (fm_Size meta) +:+ " checksum=" +:+ fm_Checksum meta)
          end
    | _ => fail (ErrOther "usage: fs put [flags] <key> <path>")
    end).

Definition runGet (args : list string) : GoM (Terminal H) unit :=
  with_flags args (λ manager rest,
    match rest with
    | [key; path] =>
        resp ← tm_http (client_Do "GET" (fileURL manager key) no_body);
        if negb (is_success resp) then fail (responseError resp)
        else
          tm_file (os_Create (Join [path]));;
          copied ← try (tm_file (copy_file (Join [path]) (r_reads (cr_Body resp)) 0));
          closed ← try (tm_file (sys_call "close" (Join [path])));
          match copied, closed with
          | Panic, _ | _, Panic => panic
          | Err copyErr, _ => fail copyErr
          | _, Err closeErr => fail closeErr
          | Ok n, Ok _ => print_line ("fetched key=" +:+ key +:+ " bytes=" +:+ pretty n)
          end
    | _ => fail (ErrOther "usage: fs get [flags] <key> <out>")
    end).

Definition runDelete (args : list string) : GoM (Terminal H) unit :=
  with_flags args (λ manager rest,
    match rest with
    | [key] =>
        resp ← tm_http (must_Do "DELETE" (fileURL manager key) no_body);
        if negb (is_success resp) then fail (responseError resp)
        else print_line ("deleted key=" +:+ key)
    | _ => fail (ErrOther "usage: fs delete [flags] <key>")
    end).

(** [json.NewDecoder(r).Decode(&v)] for a [v] of type [any]. *)
Definition json_Decode_any (r : Reader) : option Any :=
  let s := String.string_of_list_byte (drain (r_reads r)).1 in
  '(v, _) ← parse_value (S (String.length s)) 0 s; any_of v.

Definition printJSON (endpoint : string) : GoM (Terminal H) unit :=
  resp ← tm_http (client_Do "GET" endpoint no_body);
  if negb (is_success resp) then fail (responseError resp)
  else
    match json_Decode_any (cr_Body resp) with
    | None => fail (ErrOther "invalid JSON")
    | Some v => print_line (MarshalIndent (json_of_any v))
    end.

Definition runStat (args : list string) : GoM (Terminal H) unit :=
  with_flags args (λ manager rest,
    match rest with
    | [key] => printJSON (fileURL manager key +:+ "/metadata")
    | _ => fail (ErrOther "usage: fs stat [flags] <key>")
    end).

Definition runNodes (args : list string) : GoM (Terminal H) unit :=
  with_flags args (λ manager rest,
    match rest with
    | [] => printJSON (trim_slashes manager +:+ "/nodes")
    | _ => fail (ErrOther "usage: fs nodes [flags]")
    end).

Definition sendHeartbeat (manager nodeID address : string) : GoM (Network H) unit :=
  let body := Marshal (JObj [("addr", JStr address)]) in
  let endpoint := trim_slashes manager +:+ "/internal/nodes/" +:+ PathEscape nodeID in
  resp ← must_Do "PUT" endpoint (reader_of (bytes_of_string body));
  if negb (is_success resp) then fail (responseError resp) else mret tt.
End commands.
