(* ===== verification/ApiSpec.v ===== *)
(** * The manager's API: routing, keys and status codes.

    Lemmas on the handler of [ManagerApi] and on the URLs of [Cli], used by the
    properties of [HttpProps]. *)

From Stdlib Require Import Ascii ZifyBool.
From S2P Require Import Prelude Metadata Replication Backend MetadataSpec ReplicationSpec Names Hash Objects Staging Coordinator CoordinatorSpec Service ServiceSpec ServiceProps Paths Store Utf8 Json Times Codec Records Url Http HttpNet HttpObjects HttpObjectsSpec ManagerApi Cli.
From stdpp Require Import options.

(** ** URLs of files *)

(** Keys the API can name: as for objects, and not ending in "/metadata". *)
Definition api_key_ok (k : string) : bool := object_key_ok k && negb (has_suffix k "/metadata").

Lemma manager_url manager host path :
  host_of manager = Some host → all_chars path_char path = true →
  parse_url (trim_slashes manager +:+ String "/" path) =
  (p ← PathUnescape (String "/" path);
   Some {| u_scheme := "http"; u_host := host; u_path := p; u_query := "" |}).
Proof.
  intros (-> & _ & Hok)%host_of_Some Hp.
  pose proof (parse_http_url host path None Hok Hp eq_refl) as Hu. cbn [query_part] in Hu.
  rewrite app_nil_s in Hu. by rewrite string_app_assoc.
Qed.

Lemma fileURL_parses manager host key :
  host_of manager = Some host →
  parse_url (fileURL manager key) = Some {|
    u_scheme := "http"; u_host := host; u_path := "/files/" +:+ key; u_query := "" |}.
Proof.
  intros Hh. unfold fileURL.
  change (trim_slashes manager +:+ "/files/" +:+ PathEscape key) with
    (trim_slashes manager +:+ String "/" ("files/" +:+ PathEscape key)).
  rewrite (manager_url _ _ _ Hh).
  - change (String "/" ("files/" +:+ PathEscape key)) with ("/files/" +:+ PathEscape key).
    by rewrite PathUnescape_app, PathUnescape_PathEscape.
  - rewrite all_chars_app. apply PathEscape_path.
Qed.

Lemma statURL_parses manager host key :
  host_of manager = Some host →
  parse_url (fileURL manager key +:+ "/metadata") = Some {|
    u_scheme := "http"; u_host := host; u_path := "/files/" +:+ key +:+ "/metadata"; u_query := "" |}.
Proof.
  intros Hh. unfold fileURL. rewrite !string_app_assoc.
  change (trim_slashes manager +:+ "/files/" +:+ PathEscape key +:+ "/metadata") with
    (trim_slashes manager +:+ String "/" ("files/" +:+ PathEscape key +:+ "/metadata")).
  rewrite (manager_url _ _ _ Hh).
  - change (String "/" ("files/" +:+ PathEscape key +:+ "/metadata")) with
      ("/files/" +:+ PathEscape key +:+ "/metadata").
    by rewrite PathUnescape_app, PathUnescape_escaped.
  - rewrite !all_chars_app, PathEscape_path. done.
Qed.

Lemma object_key_parts k : object_key_ok k = true →
  k ≠ "" ∧ has_char "%" k = false ∧ contains k ".." = false.
Proof.
  unfold object_key_ok. rewrite !andb_true_iff, !negb_true_iff, bool_decide_eq_false. tauto.
Qed.

Lemma fileKey_plain key : api_key_ok key = true → fileKeyFromPath ("/files/" +:+ key) = inl (key, false).
Proof.
  intros [(Hne & Hpc & Hdd)%object_key_parts Hsuf%negb_true_iff]%andb_prop.
  unfold fileKeyFromPath, trim_prefix. rewrite strip_app. cbn [default from_option id].
  rewrite Hsuf, PathUnescape_plain, Hdd by done. by rewrite bool_decide_eq_false_2.
Qed.

Lemma fileKey_metadata key :
  object_key_ok key = true → fileKeyFromPath ("/files/" +:+ key +:+ "/metadata") = inl (key, true).
Proof.
  intros (Hne & Hpc & Hdd)%object_key_parts.
  unfold fileKeyFromPath, trim_prefix. rewrite strip_app. cbn [default from_option id].
  rewrite has_suffix_app, trim_suffix_app, PathUnescape_plain, Hdd by done.
  by rewrite bool_decide_eq_false_2.
Qed.

(** ** The handler *)

Section handler.
Context {B Q OS : Type} `{MetadataBackend B} `{ReplicationTaskQueue Q} `{ObjectStore OS}.
Abbreviation Handler := (ManagerHTTPHandler B Q OS).
Implicit Types (h : Handler).

(** The codes of requests that were rejected before the service was called. *)
Definition rejection (status : Z) : Prop := status = StatusBadRequest ∨ status = StatusMethodNotAllowed.

(** A rejection leaves the handler alone. *)
Definition rejects_cleanly (c : GoM Handler Response) : Prop :=
  ∀ h resp h', c h = (Ok resp, h') → rejection (resp_Status resp) → h' = h.

Lemma statusForError_served e : ¬ rejection (statusForError e).
Proof. unfold rejection. destruct e; cbn; intros [?|?]; discriminate. Qed.

Lemma rejects_ret resp : rejects_cleanly (mret resp).
Proof. by intros h resp' h' [= <- <-]. Qed.

(** A handler that calls the service does not reject afterwards. *)
Lemma or_error_served {A} (c : GoM (ManagedFileService B Q OS) A) status k :
  (∀ e, ¬ rejection (status e)) →
  (∀ a h resp h', k a h = (Ok resp, h') → ¬ rejection (resp_Status resp)) →
  rejects_cleanly (or_error c status k).
Proof.
  intros Hst Hk h resp h' Hrun Hrej. unfold or_error in Hrun. go_step Hrun; [|done..].
  destruct a as [a|e|]; [by apply Hk in Hrun|by injection Hrun as <- <-; apply Hst in Hrej|done].
Qed.

Lemma manager_rejects r : rejects_cleanly (ManagerServeHTTP r).
Proof.
  unfold ManagerServeHTTP, handleFile, handleNodes, handleMetrics, handleReplicationRun,
    handleNodeHeartbeat, handleMetadata.
  repeat first [ apply rejects_ret | apply or_error_served;
      [intros e; first [apply statusForError_served | by intros [?|?]]|] | case_match ];
    intros ? ? resp h' Hrun.
  all: repeat (revert Hrun; case_match; intros Hrun).
  all: try (injection Hrun as <- <-; first [apply statusForError_served | by intros [?|?]]).
  go_step Hrun; [|done..]. injection Hrun as <- <-. by intros [?|?].
Qed.
End handler.

(** ** Requests to a manager on a working network *)

Section client.
Context {B Q OS : Type} `{HB : MetadataBackend B} `{HQ : ReplicationTaskQueue Q} `{HO : ObjectStore OS}.
Abbreviation Handler := (ManagerHTTPHandler B Q OS).
Implicit Types (h : Handler) (net : Network Handler).

(** Every exchange is delivered. *)
Definition net_ok net : Prop := ∀ i, ∃ pieces, net_script net i = Delivered pieces.

Definition set_service (s : ManagedFileService B Q OS) h : Handler :=
  {| mh_service := s; mh_httpStore := mh_httpStore h |}.

Lemma or_error_run {A} (c : GoM (ManagedFileService B Q OS) A) status k h a s :
  c (mh_service h) = (Ok a, s) → or_error c status k h = k a (set_service s h).
Proof.
  intros Hc. unfold or_error, mh_call.
  pose proof (zoom_run mh_service set_service c h _ _ Hc) as Hz.
  by rewrite (gom_bind_ok _ _ _ _ _ (try_run _ _ _ _ Hz ltac:(done))).
Qed.

Lemma set_node_run nid address setNode h o :
  mh_httpStore h = Some setNode → setNode nid address (sv_objects (mh_service h)) = (Ok tt, o) →
  set_node nid address h = (Ok tt, set_service (set_objects o (mh_service h)) h).
Proof.
  intros Hs Ho. unfold set_node. rewrite (gom_bind_ok (gets mh_httpStore) _ h _ h eq_refl), Hs.
  unfold mh_call, objs, zoom. by rewrite Ho.
Qed.

(** The handler of a file request. *)
Lemma serve_file method key query body h :
  api_key_ok key = true →
  let r := {| req_Method := method; req_Path := "/files/" +:+ key; req_RawQuery := query; req_Body := body |} in
  ManagerServeHTTP r h = handleFile r h ∧ fileKeyFromPath (req_Path r) = inl (key, false).
Proof.
  intros Hk r. split; [|by apply fileKey_plain]. unfold ManagerServeHTTP.
  change (req_Path r) with ("/files/" +:+ key). unfold has_prefix at 1.
  by rewrite strip_app, bool_decide_eq_true_2.
Qed.

Lemma serve_put key query body h meta s :
  api_key_ok key = true → Put key (r_reads body) (mh_service h) = (Ok meta, s) →
  ManagerServeHTTP {| req_Method := "PUT"; req_Path := "/files/" +:+ key; req_RawQuery := query;
    req_Body := body |} h =
  (Ok (writeAPIJSON StatusCreated (c_enc c_FileMetadata meta)), set_service s h).
Proof.
  intros Hk Hput. destruct (serve_file "PUT" key query body h Hk) as [-> Ek].
  unfold handleFile. rewrite Ek, bool_decide_eq_true_2 by done. by rewrite (or_error_run _ _ _ _ _ _ Hput).
Qed.

Lemma serve_get key query body h data meta s :
  api_key_ok key = true → Get key (mh_service h) = (Ok (data, meta), s) →
  ManagerServeHTTP {| req_Method := "GET"; req_Path := "/files/" +:+ key; req_RawQuery := query;
    req_Body := body |} h =
  (Ok {| resp_Status := StatusOK;
         resp_Header := [("X-DFS-Version", pretty (fm_Version meta)); ("X-DFS-Checksum", fm_Checksum meta)];
         resp_Body := data |}, set_service s h).
Proof.
  intros Hk Hget. destruct (serve_file "GET" key query body h Hk) as [-> Ek].
  unfold handleFile. rewrite Ek, bool_decide_eq_false_2, bool_decide_eq_true_2 by done.
  by rewrite (or_error_run _ _ _ _ _ _ Hget).
Qed.

(** A request to the manager, answered by its handler. *)
Lemma manager_exchange url host path method body data h net :
  parse_url url = Some {| u_scheme := "http"; u_host := host; u_path := path; u_query := "" |} →
  host ≠ "" → net_ok net → net_servers net !! host = Some h →
  drain (r_reads body) = (data, None) →
  ∃ pieces, ∀ resp h',
    ManagerServeHTTP {| req_Method := method; req_Path := path; req_RawQuery := "";
      req_Body := sent_body pieces data None |} h = (Ok resp, h') →
    ∃ net', client_Do method url body net = (Ok (client_response method resp), net') ∧
      net_ok net' ∧ net_servers net' = <[host := h']> (net_servers net).
Proof.
  intros Hu Hne Hok Hs Hd. destruct (Hok (net_used net)) as [pieces Hp].
  exists pieces. intros resp h' Hserve. eexists. split; [|split].
  - by apply (exchange_delivered method _ _ body data h resp h' net pieces Hu).
  - done.
  - done.
Qed.

Lemma nodeURL_parses manager host nid :
  host_of manager = Some host →
  parse_url (trim_slashes manager +:+ "/internal/nodes/" +:+ PathEscape nid) = Some {|
    u_scheme := "http"; u_host := host; u_path := "/internal/nodes/" +:+ nid; u_query := "" |}.
Proof.
  intros Hh. change ("/internal/nodes/" +:+ PathEscape nid) with
    (String "/" ("internal/nodes/" +:+ PathEscape nid)).
  rewrite (manager_url _ _ _ Hh).
  - change (String "/" ("internal/nodes/" +:+ PathEscape nid)) with ("/internal/nodes/" +:+ PathEscape nid).
    by rewrite PathUnescape_app, PathUnescape_PathEscape.
  - rewrite all_chars_app. apply PathEscape_path.
Qed.
End client.
