(* ===== verification/StatProps.v ===== *)
(** * The commands that print what the manager knows: stat and nodes.

    What they print is the manager's answer decoded into [any] and written again,
    so its numbers have been floats and its members are in alphabetical order. *)

From Stdlib Require Import Ascii ZifyBool.
From S2P Require Import Prelude Metadata Replication Backend MetadataSpec ReplicationSpec Names Hash Objects Staging Coordinator CoordinatorSpec Service ServiceSpec ServiceProps Paths Store Utf8 Json Times Codec Records Float64 JsonAny Url Http HttpNet HttpObjects HttpObjectsSpec ManagerApi Cli ApiSpec.
From stdpp Require Import options.

Section print.
Context {B Q OS : Type} `{HB : MetadataBackendLaws B} `{HQ : ReplicationTaskQueueLaws Q} `{HO : ObjectStore OS}.
Abbreviation Handler := (ManagerHTTPHandler B Q OS).
Implicit Types (h : Handler) (t : Terminal Handler).

(** The body of an answer in JSON, read by the client. *)
Lemma decode_any_body status v :
  jvalid v → (jdepth v ≤ maxNestingDepth)%N → status ≠ StatusNoContent → jexact v →
  json_of_any <$> json_Decode_any (cr_Body (client_response "GET" (writeAPIJSON status (Some v)))) =
  Some (sort_tree v).
Proof using.
  intros Hv Hd Hs Hex. unfold json_Decode_any, client_response. change (declared_length _) with (@None Z).
  cbn [cr_Body r_reads writeAPIJSON resp_Body]. rewrite (proj2 (Z.eqb_neq _ _) Hs).
  rewrite bool_decide_eq_false_2 by done. rewrite drain_arrive. cbn [fst]. unfold bytes_of_string.
  rewrite String.string_of_list_byte_of_string.
  rewrite parse_Marshal; [|done|rewrite length_app_s; lia|done|done].
  apply (through_any_exact v Hex).
Qed.

(** [printJSON] of a URL that the manager answers with a record. *)
Lemma printJSON_record {A} (c : Codec A) d x endpoint host path h h' t :
  parse_url endpoint = Some {| u_scheme := "http"; u_host := host; u_path := path; u_query := "" |} →
  host ≠ "" → net_ok (tm_net t) → net_servers (tm_net t) !! host = Some h →
  survives c d x → unordered c x → (d ≤ maxNestingDepth)%N →
  (∀ body, ManagerServeHTTP {| req_Method := "GET"; req_Path := path; req_RawQuery := ""; req_Body := body |} h =
     (Ok (writeAPIJSON StatusOK (c_enc c x)), h')) →
  ∃ text net', printJSON endpoint t =
      (Ok tt, {| tm_fs := tm_fs t; tm_net := net'; tm_out := tm_out t ++ [text] |}) ∧
    json_Unmarshal c text = Some x ∧ net_servers net' = <[host := h']> (net_servers (tm_net t)).
Proof using.
  intros Hu Hne Hnet Hs Hsurv Hun Hd Hserve.
  destruct (manager_exchange _ host _ "GET" no_body [] h _ Hu Hne Hnet Hs eq_refl) as [pieces Hx].
  destruct (Hx _ _ (Hserve _)) as (net' & Hdo & _ & Hs').
  pose proof Hsurv as (v & He & Hv & Hdv & _). destruct (printed_record c d x v Hsurv Hun Hd He) as [_ Hread].
  destruct (Hun v He) as [Hex _]. rewrite He in *.
  exists (MarshalIndent (sort_tree v)), net'. split; [|done]. unfold printJSON, tm_http.
  rewrite (gom_bind_ok _ _ _ _ _ (zoom_run tm_net _ _ t _ _ Hdo)).
  unfold is_success. rewrite client_status. cbn [negb Z.eqb]. change (StatusOK / 100 =? 2)%Z with true.
  cbn [negb]. pose proof (decode_any_body StatusOK v Hv ltac:(lia) ltac:(done) Hex) as Hdec.
  destruct (json_Decode_any _) as [a|]; [|done]. injection Hdec as ->. done.
Qed.

(** A call that only reads the metadata. *)
Definition same_service (s s' : ManagedFileService B Q OS) : Prop :=
  svc_catalog s' = svc_catalog s ∧ svc_table s' = svc_table s ∧ sv_objects s' = sv_objects s.

Lemma meta_read_run {A} (m : GoM B A) spec x (s : ManagedFileService B Q OS) :
  (∀ b : B, mb_fault b → False) → refines catalog mb_fault m spec →
  (∀ now : Time, spec now (svc_catalog s) = (Ok x, svc_catalog s)) →
  ∃ s', meta_call m s = (Ok x, s') ∧ same_service s s'.
Proof using HQ.
  intros Hmb Href Hspec. destruct (on_metadata_total Hmb _ _ (sv_coordinator s) Href) as (t & r & c1 & R1 & Hs & _).
  pose proof (on_metadata_inv _ _ _ _ _ Href R1) as (Ht & _).
  specialize (Hspec t). unfold svc_catalog, coord_catalog in *. rewrite Hspec in Hs. injection Hs as <- Hc.
  exists (set_coordinator c1 s). split; [by apply (zoom_run sv_coordinator set_coordinator)|].
  split_and!; [|done|done]. exact (eq_sym Hc).
Qed.

(** C30: stat prints the record.  On a network that delivers, to a manager whose
    metadata can be read, for a key that the API can name (not empty, without
    percent signs, which are unescaped twice, and without two dots in a row), the
    command prints one text; read as JSON it is exactly the metadata of the file,
    provided its texts are UTF-8, its times within the years that JSON carries, and
    its integers below 2^53, which floating point carries exactly.  The manager's
    records, tasks and objects do not change. *)
Theorem stat_prints args manager key host meta h t :
  (∀ b : B, mb_fault b → False) → clientFlags args = Some (manager, [key]) →
  host_of manager = Some host → object_key_ok key = true →
  net_ok (tm_net t) → net_servers (tm_net t) !! host = Some h →
  cat_files (svc_catalog (mh_service h)) !! key = Some meta → file_json meta → file_exact meta →
  ∃ text net' h', runStat args t =
      (Ok tt, {| tm_fs := tm_fs t; tm_net := net'; tm_out := tm_out t ++ [text] |}) ∧
    json_Unmarshal c_FileMetadata text = Some meta ∧
    net_servers net' = <[host := h']> (net_servers (tm_net t)) ∧
    same_service (mh_service h) (mh_service h').
Proof using HQ.
  intros Hmb Hargs Hh Hk Hnet Hs Hmeta Hjson Hexact.
  pose proof (host_of_Some _ _ Hh) as (_ & Hne & _). pose proof (statURL_parses _ _ key Hh) as Hu.
  destruct (meta_read_run (mb_GetFile key) _ (Some meta) (mh_service h) Hmb (mb_GetFile_ref key))
    as (s' & R & Hsame); [by intros; unfold cat_get_file; rewrite Hmeta|].
  destruct (printJSON_record c_FileMetadata 3 meta _ host _ h (set_service s' h) t Hu Hne Hnet Hs)
    as (text & net' & Hrun & Hread & Hs'); [by apply survives_file|by apply unordered_file|done| |].
  - intros body. unfold ManagerServeHTTP. cbn [req_Path]. unfold has_prefix at 1.
    rewrite strip_app, bool_decide_eq_true_2 by done. unfold handleFile. cbn [req_Path].
    rewrite fileKey_metadata by done. unfold handleMetadata. cbn [req_Method].
    rewrite bool_decide_eq_true_2 by done. cbn [negb]. by rewrite (or_error_run _ _ _ _ _ _ R).
  - exists text, net', (set_service s' h).
    split; [by unfold runStat, with_flags; rewrite Hargs|]. by split_and!.
Qed.

(** The command nodes prints the nodes in the order of their IDs, in the same
    sense; no number is involved. *)
Theorem nodes_prints args manager host h t :
  (∀ b : B, mb_fault b → False) → clientFlags args = Some (manager, []) → host_of manager = Some host →
  net_ok (tm_net t) → net_servers (tm_net t) !! host = Some h →
  let nodes := sort_by nm_ID (range_values (cat_nodes (svc_catalog (mh_service h)))) in
  Forall node_json nodes →
  ∃ text net' h', runNodes args t =
      (Ok tt, {| tm_fs := tm_fs t; tm_net := net'; tm_out := tm_out t ++ [text] |}) ∧
    json_Unmarshal (c_list c_NodeMetadata) text = Some nodes ∧
    net_servers net' = <[host := h']> (net_servers (tm_net t)) ∧
    same_service (mh_service h) (mh_service h').
Proof using HQ.
  intros Hmb Hargs Hh Hnet Hs nodes Hjson. pose proof (host_of_Some _ _ Hh) as (_ & Hne & _).
  pose proof (manager_url manager host "nodes" Hh eq_refl) as Hu. cbn [PathUnescape] in Hu.
  destruct (meta_read_run mb_Nodes _ nodes (mh_service h) Hmb mb_Nodes_ref) as (s' & R & Hsame); [done|].
  destruct (printJSON_record (c_list c_NodeMetadata) 2 nodes _ host "/nodes" h (set_service s' h) t Hu Hne Hnet Hs)
    as (text & net' & Hrun & Hread & Hs');
    [apply (survives_list _ 1); eauto using Forall_impl, survives_node|apply unordered_nodes|done| |].
  - intros body. unfold ManagerServeHTTP. cbn [req_Path]. change (has_prefix "/nodes" "/files/") with false.
    rewrite bool_decide_eq_true_2 by done. unfold handleNodes. cbn [req_Method].
    rewrite bool_decide_eq_true_2 by done. cbn [negb]. by rewrite (or_error_run _ _ _ _ _ _ R).
  - exists text, net', (set_service s' h).
    split; [by unfold runNodes, with_flags; rewrite Hargs|]. by split_and!.
Qed.
End print.
