(* ===== verification/HttpProps.v ===== *)
(** * Properties of the HTTP layer.

    The URLs of the clients reach the handlers with the names they were built
    from; the API rejects without side effects; a file sent through the API comes
    back through it, with the chunks stored by requests to the storage nodes. *)

From Stdlib Require Import Ascii ZifyBool.
From S2P Require Import Prelude Metadata Replication Backend MetadataSpec ReplicationSpec Names Hash Objects Staging Coordinator CoordinatorSpec Service ServiceSpec ServiceProps Paths Store Utf8 Json Times Codec Records Url Http HttpNet HttpObjects HttpObjectsSpec ManagerApi Cli ApiSpec.
From stdpp Require Import options.

(** C27: the client's URL of a file names that file: it parses to the manager's
    authority and a path from which the handler takes the same key, also with
    the suffix of the metadata request; and the URL of an object names that
    object and version at the storage node.  This is for keys without percent
    signs (which are unescaped twice), without "..", not empty, and, for the
    file itself, not ending in "/metadata"; for versions other than 0; and for
    addresses that are a host with an optional port. *)
Theorem url_roundtrip manager host nodes node base node_host key version :
  host_of manager = Some host → nodes !! node = Some base → host_of base = Some node_host →
  object_key_ok key = true → in_u64 version → version ≠ 0%Z →
  (∃ u, parse_url (fileURL manager key) = Some u ∧ u_host u = host ∧
     (has_suffix key "/metadata" = false → fileKeyFromPath (u_path u) = inl (key, false))) ∧
  (∃ u, parse_url (fileURL manager key +:+ "/metadata") = Some u ∧ u_host u = host ∧
     fileKeyFromPath (u_path u) = inl (key, true)) ∧
  (∃ u, parse_url (object_url nodes node key version) = Some u ∧ u_host u = node_host ∧
     ∀ method body, objectRequest (request_of method u body) = inl (key, version)).
Proof.
  intros Hh Hn Hb Hk Hv Hz. split_and!.
  - eexists. split; [by apply fileURL_parses|]. split; [done|]. intros Hsuf. apply fileKey_plain.
    unfold api_key_ok. by rewrite Hk, Hsuf.
  - eexists. split; [by apply statURL_parses|]. split; [done|]. by apply fileKey_metadata.
  - eexists. split; [by eapply objectURL_parses|]. split; [done|]. intros method body.
    pose proof (object_of_ok key version Hk Hv Hz) as Ho. unfold object_of in Ho.
    change (objectRequest (object_query "GET" key version no_body) = inl (key, version)).
    destruct (objectRequest _); congruence.
Qed.

(** C29: the manager's API rejects without side effects: whatever the request, an
    answer of 400 or 405 leaves the service, its metadata, its queue and its
    objects exactly as they were. *)
Theorem api_rejections_clean `{MetadataBackend B} `{ReplicationTaskQueue Q} `{ObjectStore OS}
    (r : Request) (h h' : ManagerHTTPHandler B Q OS) resp :
  ManagerServeHTTP r h = (Ok resp, h') →
  resp_Status resp = StatusBadRequest ∨ resp_Status resp = StatusMethodNotAllowed → h' = h.
Proof. intros Hrun Hrej. by apply (manager_rejects r h resp). Qed.

(** C25: a file sent to the manager with PUT comes back with GET, byte for byte,
    for a key that the API can name: not empty, without percent signs, without two
    dots in a row and not ending in /metadata.  On a network that delivers, to a
    manager whose stores serve every call and that can place the file on a healthy
    node with a name, its objects at distinct addresses, the client gets 201 and then 200 with the bytes of the upload, however
    the body is cut on its way.  With the remote object store this covers both hops,
    client to manager and manager to storage node. *)
Theorem api_put_get `{HB : MetadataBackendLaws B} `{HQ : ReplicationTaskQueueLaws Q}
    `{HR : ReliableObjectStore OS} manager host key body data plan
    (h : ManagerHTTPHandler B Q OS) (net : Network (ManagerHTTPHandler B Q OS)) :
  let s := mh_service h in
  (∀ b : B, mb_fault b → False) → (∀ q : Q, rq_fault q → False) →
  host_of manager = Some host → api_key_ok key = true →
  net_ok net → net_servers net !! host = Some h → data_ready s →
  drain (r_reads body) = (data, None) →
  Plan (mc_planner (sv_coordinator s)) (healthy_nodes (svc_catalog s)) = Ok plan →
  nm_ID (rp_Primary plan) ≠ "" →
  serves_file (nm_ID (rp_Primary plan)) key (next_version (svc_catalog s) key) →
  NoDup (put_addrs (svc_catalog s) plan key data) →
  ∃ created net1 got net2 h2,
    client_Do "PUT" (fileURL manager key) body net = (Ok created, net1) ∧
    cr_StatusCode created = StatusCreated ∧
    client_Do "GET" (fileURL manager key) no_body net1 = (Ok got, net2) ∧
    cr_StatusCode got = StatusOK ∧ drain (r_reads (cr_Body got)) = (data, None) ∧
    net_servers net2 !! host = Some h2 ∧ data_ready (mh_service h2).
Proof.
  intros s Hmb Hrq Hh Hk Hnet Hserv Hs Hd Hplan Hid Hn Hnd.
  pose proof (host_of_Some _ _ Hh) as (_ & Hne & _). pose proof (fileURL_parses _ _ key Hh) as Hu.
  destruct (manager_exchange _ host _ "PUT" body data h net Hu Hne Hnet Hserv Hd) as [pieces Hput].
  destruct (put_get_run s key (r_reads (sent_body pieces data None)) data plan)
    as (meta & s1 & s2 & Rput & Rget & _ & _ & Hs2); [done|done|done|by rewrite drain_sent|done..|].
  destruct (Hput _ _ (serve_put key "" _ h meta s1 Hk Rput)) as (net1 & C1 & Hnet1 & Hnet1s).
  assert (net_servers net1 !! host = Some (set_service s1 h)) as Hserv1.
  { rewrite Hnet1s. apply lookup_insert_eq. }
  destruct (manager_exchange _ host _ "GET" no_body [] (set_service s1 h) net1 Hu Hne Hnet1 Hserv1 eq_refl)
    as [pieces2 Hget].
  destruct (Hget _ _ (serve_get key "" _ (set_service s1 h) data meta s2 Hk Rget))
    as (net2 & C2 & Hnet2 & Hnet2s).
  eexists _, net1, _, net2, _. split; [exact C1|]. split; [apply client_status|].
  split; [exact C2|]. split; [apply client_status|]. split.
  - done.
  - split; [rewrite Hnet2s; apply lookup_insert_eq|]. exact Hs2.
Qed.

(** C26: the remote object store implements the interface: on any network and in
    any state whose nodes have well-formed base URLs, a call changes no object but
    the one its request names, a write that reports success has stored the bytes
    of its reader, a read whose body ends without error has delivered the stored
    object, and no call panics; whatever is refused, lost or cut on the way. *)
Theorem remote_store_safe `{HL : ObjectStoreLaws OS} `{!SizedReads OS} n k v
    (s : HTTPObjectStore (StorageHTTPHandler OS)) :
  TopologyOk (topology s) →
  let a := remote_addr (topology s) n k v in
  (∀ r res s', hs_WriteObject n k v r s = (res, s') → res ≠ Panic ∧
     (∀ b, b ≠ a → remote_object s' b = remote_object s b) ∧
     (∀ cnt, res = Ok cnt → ∃ data, drain (r_reads r) = (data, None) ∧ cnt = zlen data ∧
        remote_object s' a = Some data)) ∧
  (∀ res s', hs_ReadObject n k v s = (res, s') → res ≠ Panic ∧
     (∀ b, remote_object s' b = remote_object s b) ∧
     (∀ size r data, res = Ok (size, r) → drain (r_reads r) = (data, None) →
        remote_object s a = Some data)) ∧
  (∀ res s', hs_DeleteObject n k v s = (res, s') → res ≠ Panic ∧
     (∀ b, b ≠ a → remote_object s' b = remote_object s b)) ∧
  (∀ res s', hs_HasObject n k v s = (res, s') → res ≠ Panic ∧
     (∀ b, remote_object s' b = remote_object s b)).
Proof.
  intros Ht a. split_and!; intros *.
  - by apply hs_WriteObject_spec.
  - by apply hs_ReadObject_spec.
  - by apply hs_DeleteObject_spec.
  - by apply hs_HasObject_spec.
Qed.

(** A [Put] writes the first chunk of its key. *)
Lemma Put_needs_write `{MetadataBackend B} `{ReplicationTaskQueue Q} `{ObjectStore OS} key :
  (∀ n i v r (o : OS) cnt o', WriteObject n (chunkObjectKey key i) v r o ≠ (Ok cnt, o')) →
  ∀ reads (s : ManagedFileService B Q OS) meta s', Put key reads s ≠ (Ok meta, s').
Proof.
  intros Hno reads s meta s' Hrun. unfold Put in Hrun.
  go_step Hrun; [|done..]. apply zoom_inv in Hc as (td & Hc & ->).
  apply (stage_spec _ defaultChunkSize_pos) in Hc as (_ & data & _ & ->). cbn [st_chunks st_file] in Hrun.
  go_step Hrun; [|done..]. clear Hc. go_step Hrun; [|done..]. clear Hrun. unfold writeChunks in Hc.
  destruct (manifest defaultChunkSize data) as [|c chunks] eqn:Em;
    [by eapply (manifest_nonempty _ defaultChunkSize_pos)|].
  rewrite decide_False in Hc by done. cbn [for_each] in Hc. go_step Hc; [|done..]. clear Hc.
  unfold write_chunk in Hc0. go_step Hc0; [|done..]. clear Hc.
  destruct a2 as [[]|e|]; [|by go_step Hc0|done].
  go_step Hc0; [|done..]. clear Hc. go_step Hc0; [|done..]. go_step Hc; [|done].
  injection Hr as ->. apply zoom_inv in Hc as (o & Hc & _).
  destruct r as [cnt|e|]; [by apply Hno in Hc|by go_step Hc0|done].
Qed.

(** A key that ends in a dot is accepted by the API but can never be stored
    on remote nodes: its chunk objects are named key + ".chunk.", which contains
    "..", and a storage node answers 400 to such a name.  Every [Put] of such a
    key fails, whatever the network and the nodes do. *)
Theorem dotted_key_unwritable `{MetadataBackend B} `{ReplicationTaskQueue Q}
    `{HL : ObjectStoreLaws OS} `{!SizedReads OS} topo `{!TopologyOk topo} key reads
    (s s' : ManagedFileService B Q (Remote OS topo)) meta :
  has_char "%" key = false → ends_dot key = true → Put key reads s ≠ (Ok meta, s').
Proof.
  intros Hpc He. apply Put_needs_write. intros n i v r o cnt o' Hrun%restrict_inv.
  pose proof (proj2_dsig o : topology _ = topo) as Eo.
  apply (hs_WriteObject_spec _ _ _ _ _ _ _) in Hrun as (_ & _ & Hok); [|by rewrite Eo].
  destruct (Hok cnt eq_refl) as (data & _ & _ & Hat).
  assert (remote_addr (topology (`o)) n (chunkObjectKey key i) v = None) as Ha.
  { unfold remote_addr. rewrite (dotted_chunk _ _ _ Hpc He).
    by destruct (tp_nodes _ !! n) as [base|]; [|done]; cbn [mbind option_bind];
      destruct (host_of base) as [host|]; [|done]; cbn [mbind option_bind];
      destruct (tp_ids _ !! host). }
  by rewrite Ha in Hat.
Qed.

(** ** Heartbeats *)

Definition heartbeat_value (address : string) : JValue := JObj [("addr", JStr address)].

Lemma heartbeat_decodes address r :
  utf8_ok address → drain (r_reads r) = (bytes_of_string (Marshal (heartbeat_value address)), None) →
  json_Decode c_heartbeat r = Some address.
Proof.
  intros Hu Hd. unfold json_Decode. rewrite Hd. cbn [fst]. unfold bytes_of_string.
  rewrite String.string_of_list_byte_of_string. set (v := heartbeat_value address).
  assert (jvalid v) as Hv by by cbn; rewrite !andb_True.
  pose proof (parse_Marshal v (S (String.length (Marshal v))) 0%N "" Hv) as Hp.
  rewrite app_nil_s in Hp. rewrite Hp by (done || lia). done.
Qed.

Lemma heartbeat_served `{HB : MetadataBackendLaws B} `{HQ : ReplicationTaskQueueLaws Q} {H2 : Type}
    `{HTTPServer H2} nid address body (h : ManagerHTTPHandler B Q (HTTPObjectStore H2)) :
  (∀ b : B, mb_fault b → False) → mh_httpStore h = Some SetNode →
  nid ≠ "" → has_char "%" nid = false → address ≠ "" → json_Decode c_heartbeat body = Some address →
  ∃ node t h', ManagerServeHTTP {| req_Method := "PUT"; req_Path := "/internal/nodes/" +:+ nid;
      req_RawQuery := ""; req_Body := body |} h = (Ok (writeAPIJSON StatusOK (c_enc c_NodeMetadata node)), h') ∧
    node = {| nm_ID := nid; nm_Addr := address; nm_State := NodeHealthy; nm_LastHeartbeat := t |} ∧
    cat_nodes (svc_catalog (mh_service h')) = <[nid := node]> (cat_nodes (svc_catalog (mh_service h))) ∧
    cat_files (svc_catalog (mh_service h')) = cat_files (svc_catalog (mh_service h)) ∧
    mc_tasks (sv_coordinator (mh_service h')) = mc_tasks (sv_coordinator (mh_service h)) ∧
    mc_planner (sv_coordinator (mh_service h')) = mc_planner (sv_coordinator (mh_service h)) ∧
    sv_objects (mh_service h') = {| hs_nodes := <[nid := address]> (hs_nodes (sv_objects (mh_service h)));
                                    hs_client := hs_client (sv_objects (mh_service h)) |} ∧
    sv_temp (mh_service h') = sv_temp (mh_service h) ∧ mh_httpStore h' = mh_httpStore h.
Proof.
  intros Hmb Hst Hid Hpc Ha Hdec.
  destruct (on_metadata_total Hmb _ _ (sv_coordinator (mh_service h)) (mb_UpsertNode_ref nid address))
    as (t & r & c1 & R1 & Hup & _).
  pose proof (on_metadata_inv _ _ _ _ _ (mb_UpsertNode_ref nid address) R1) as (_ & Hp1 & Hq1 & _).
  injection Hup as <- Hc1.
  apply (zoom_run (S := ManagedFileService B Q (HTTPObjectStore H2)) sv_coordinator set_coordinator) in R1.
  eexists _, t, _. split.
  { unfold ManagerServeHTTP. cbn [req_Path].
    assert (has_prefix ("/internal/nodes/" +:+ nid) "/files/" = false) as -> by done.
    rewrite !bool_decide_eq_false_2 by done.
    assert (has_prefix ("/internal/nodes/" +:+ nid) "/internal/nodes/" = true) as -> by done.
    unfold handleNodeHeartbeat. cbn [req_Method req_Path req_Body].
    rewrite bool_decide_eq_true_2 by done. cbn [negb]. unfold trim_prefix. rewrite strip_app.
    cbn [default from_option id]. rewrite PathUnescape_plain, Hdec by done.
    destruct nid as [|c nid]; [done|]. destruct address as [|c' address]; [done|].
    rewrite (or_error_run _ _ _ _ _ _ R1).
    by rewrite (gom_bind_ok _ _ _ _ _ (set_node_run _ _ SetNode (set_service _ h) _ Hst eq_refl)). }
  split; [done|]. unfold svc_catalog. cbn. rewrite <-Hc1. by split_and!.
Qed.


(** C28: a heartbeat registers the node.  On a network that delivers, to a manager
    whose metadata backend does not fail and whose objects are remote, [sendHeartbeat]
    of a node with a non-empty ID without percent signs (which are unescaped twice)
    and a non-empty address in UTF-8 succeeds; then the manager's catalog has the
    node healthy with its ID and address, its remote object store sends requests for
    the node to that address, and no other server, file, task or node, no other
    address and no server behind the object store has changed. *)
Theorem heartbeat_registers `{HB : MetadataBackendLaws B} `{HQ : ReplicationTaskQueueLaws Q} {H2 : Type}
    `{HTTPServer H2} manager host nid address (h : ManagerHTTPHandler B Q (HTTPObjectStore H2))
    (net : Network (ManagerHTTPHandler B Q (HTTPObjectStore H2))) :
  (∀ b : B, mb_fault b → False) → mh_httpStore h = Some SetNode →
  host_of manager = Some host → net_ok net → net_servers net !! host = Some h →
  nid ≠ "" → has_char "%" nid = false → address ≠ "" → utf8_ok address →
  ∃ net' h' node, sendHeartbeat manager nid address net = (Ok tt, net') ∧
    net_servers net' = <[host := h']> (net_servers net) ∧
    nm_ID node = nid ∧ nm_Addr node = address ∧ nm_State node = NodeHealthy ∧
    cat_nodes (svc_catalog (mh_service h')) = <[nid := node]> (cat_nodes (svc_catalog (mh_service h))) ∧
    cat_files (svc_catalog (mh_service h')) = cat_files (svc_catalog (mh_service h)) ∧
    mc_tasks (sv_coordinator (mh_service h')) = mc_tasks (sv_coordinator (mh_service h)) ∧
    mc_planner (sv_coordinator (mh_service h')) = mc_planner (sv_coordinator (mh_service h)) ∧
    sv_objects (mh_service h') = {| hs_nodes := <[nid := address]> (hs_nodes (sv_objects (mh_service h)));
                                    hs_client := hs_client (sv_objects (mh_service h)) |} ∧
    sv_temp (mh_service h') = sv_temp (mh_service h) ∧ mh_httpStore h' = mh_httpStore h.
Proof.
  intros Hmb Hst Hh Hnet Hs Hid Hpc Ha Hu.
  pose proof (host_of_Some _ _ Hh) as (_ & Hne & _). pose proof (nodeURL_parses _ _ nid Hh) as Hurl.
  set (data := bytes_of_string (Marshal (heartbeat_value address))).
  assert (drain (r_reads (reader_of data)) = (data, None)) as Hd by (cbn; by rewrite app_nil_r).
  destruct (manager_exchange _ host _ "PUT" (reader_of data) data h net Hurl Hne Hnet Hs Hd) as [pieces Hx].
  destruct (heartbeat_served nid address (sent_body pieces data None) h)
    as (node & t & h' & Hserve & Enode & Hrest); [done..| |].
  { apply heartbeat_decodes; [done|]. by rewrite drain_sent. }
  destruct (Hx _ _ Hserve) as (net' & Hdo & _ & Hs').
  exists net', h', node. split; [|split; [done|]; do 3 (split; [by rewrite Enode|]); exact Hrest].
  unfold sendHeartbeat, must_Do. rewrite Hurl. fold (heartbeat_value address).
  rewrite (gom_bind_ok _ _ _ _ _ Hdo). unfold is_success. by rewrite client_status.
Qed.
