(* ===== verification/Threads.v ===== *)
(** * Threads that share a state.

    A thread is a program of atomic calls: each call is a [GoM] transition of the
    shared state that runs without interruption, and may have to wait until the
    state is ready for it, as for a mutex.  Between two calls other threads run.
    A [GoM] method that is split into its calls implements that method when it
    runs alone ([implements]); in a pool of threads it is reasoned about by what
    it relies on and what it guarantees ([safe]). *)

From S2P Require Import Prelude.
From stdpp Require Import options.

(** ** Programs *)

Inductive Prog (S A : Type) : Type :=
  | Ret (r : Res A)
  | Call (X : Type) (ready : S → bool) (m : GoM S X) (k : Res X → Prog S A).
Arguments Ret {S A} r.
Arguments Call {S A X} ready m k.

Definition always {S} (s : S) : bool := true.

(** One call. *)
Definition atomic {S A} (m : GoM S A) : Prog S A := Call always m Ret.

#[export] Instance prog_ret S : MRet (Prog S) := λ A a, Ret (Ok a).
Definition pfail {S A} (e : GoError) : Prog S A := Ret (Err e).
Definition ppanic {S A} : Prog S A := Ret Panic.

(** Continue with the result of a program, whatever it is. *)
Fixpoint prog_then {S A B} (p : Prog S A) (k : Res A → Prog S B) : Prog S B :=
  match p with
  | Ret r => k r
  | Call ready m k' => Call ready m (λ r, prog_then (k' r) k)
  end.

#[export] Instance prog_bind S : MBind (Prog S) := λ A B k p,
  prog_then p (λ r, match r with Ok a => k a | Err e => Ret (Err e) | Panic => Ret Panic end).
Definition ptry {S A} (p : Prog S A) : Prog S (Res A) :=
  prog_then p (λ r, match r with Panic => Ret Panic | r => Ret (Ok r) end).
Definition pignore {S A} (p : Prog S A) : Prog S unit :=
  prog_then p (λ r, match r with Panic => Ret Panic | _ => Ret (Ok tt) end).

Fixpoint pfor_each {S A} (xs : list A) (body : A → Prog S unit) : Prog S unit :=
  match xs with
  | [] => mret tt
  | x :: xs => body x ;; pfor_each xs body
  end.
Fixpoint pfor_fold {S A B} (xs : list A) (acc : B) (body : B → A → Prog S B) : Prog S B :=
  match xs with
  | [] => mret acc
  | x :: xs => acc ← body acc x; pfor_fold xs acc body
  end.

(** ** A thread that runs alone *)

(** [None] when it waits for something nobody else will do. *)
Fixpoint run {S A} (p : Prog S A) (s : S) : option (Res A * S) :=
  match p with
  | Ret r => Some (r, s)
  | Call ready m k => if ready s then let '(r, s') := m s in run (k r) s' else None
  end.

Lemma run_then {S A B} (p : Prog S A) (k : Res A → Prog S B) s :
  run (prog_then p k) s = '(r, s') ← run p s; run (k r) s'.
Proof.
  revert s. induction p as [r|X ready m k' IH]; intros s; cbn; [done|].
  destruct (ready s); [|done]. destruct (m s) as [r s']. apply IH.
Qed.

(** A part of the state. *)
Class Lens {S T : Type} (get : S → T) (set : T → S → S) := {
  lens_get_set t s : get (set t s) = t;
  lens_set_get s : set (get s) s = s;
  lens_set_set t t' s : set t' (set t s) = set t' s
}.

Section implements.
Context {S T : Type} (get : S → T) (set : T → S → S) `{!Lens get set}.

(** Alone, [p] does to the part of the state what [m] does. *)
Definition implements {A} (p : Prog S A) (m : GoM T A) : Prop :=
  ∀ s, run p s = Some (zoom get set m s).

Lemma implements_ret {A} (a : A) : implements (mret a) (mret a).
Proof using Type*. intros s. unfold zoom. cbn. by rewrite (lens_set_get (get := get) (set := set)). Qed.
Lemma implements_fail {A} e : implements (pfail e : Prog S A) (fail e).
Proof using Type*. intros s. unfold zoom. cbn. by rewrite (lens_set_get (get := get) (set := set)). Qed.
Lemma implements_panic {A} : implements (ppanic : Prog S A) panic.
Proof using Type*. intros s. unfold zoom. cbn. by rewrite (lens_set_get (get := get) (set := set)). Qed.
Lemma implements_res {A} (r : Res A) : implements (Ret r) (lift_res r).
Proof using Type*. intros s. unfold zoom. cbn. by rewrite (lens_set_get (get := get) (set := set)). Qed.
Lemma implements_atomic {A} (m : GoM T A) : implements (atomic (zoom get set m)) m.
Proof. intros s. cbn. by destruct (zoom get set m s). Qed.

Lemma implements_bind {A B} (p : Prog S A) (k : A → Prog S B) m f :
  implements p m → (∀ a, implements (k a) (f a)) → implements (p ≫= k) (m ≫= f).
Proof using Type*.
  intros Hp Hk s. unfold mbind at 1, prog_bind. rewrite run_then, Hp. unfold zoom, mbind, gom_bind. cbn.
  destruct (m (get s)) as [[a|e|] t]; cbn; [|done|done]. rewrite (Hk a). unfold zoom.
  rewrite (lens_get_set (get := get) (set := set)). destruct (f a t) as [r t']. by rewrite (lens_set_set (get := get) (set := set)).
Qed.
Lemma implements_try {A} (p : Prog S A) m : implements p m → implements (ptry p) (try m).
Proof.
  intros Hp s. unfold ptry. rewrite run_then, Hp. unfold zoom, try. cbn. by destruct (m (get s)) as [[]].
Qed.
Lemma implements_ignore {A} (p : Prog S A) m : implements p m → implements (pignore p) (ignore m).
Proof.
  intros Hp s. unfold pignore. rewrite run_then, Hp. unfold zoom, ignore. cbn. by destruct (m (get s)) as [[]].
Qed.
Lemma implements_for_each {A} (xs : list A) body body' :
  (∀ x, implements (body x) (body' x)) → implements (pfor_each xs body) (for_each xs body').
Proof using Type*.
  intros Hb. induction xs as [|x xs IH]; cbn; [apply implements_ret|].
  apply implements_bind; [apply Hb|]. by intros _.
Qed.
Lemma implements_for_fold {A B} (xs : list A) (acc : B) body body' :
  (∀ b x, implements (body b x) (body' b x)) → implements (pfor_fold xs acc body) (for_fold xs acc body').
Proof using Type*.
  intros Hb. revert acc. induction xs as [|x xs IH]; intros acc; cbn; [apply implements_ret|].
  apply implements_bind; [apply Hb|]. intros b. apply IH.
Qed.
End implements.

(** A method of a field, when its program works on the field of the whole. *)
Lemma implements_zoom {S T U A} (get : S → T) (set : T → S → S) (get' : T → U) (set' : U → T → T)
    (p : Prog S A) (m : GoM U A) :
  implements (λ s, get' (get s)) (λ u s, set (set' u (get s)) s) p m → implements get set p (zoom get' set' m).
Proof. intros Hp s. rewrite (Hp s). unfold zoom. by destruct (m (get' (get s))). Qed.

(** Discharge the structural part of an [implements] goal. *)
Ltac implements_step tac :=
  repeat first
    [ tac | progress (intros; cbn beta iota) | apply implements_bind; [apply _| |] | apply implements_try
    | apply implements_ignore | apply implements_ret; apply _ | apply implements_fail; apply _
    | apply implements_panic; apply _ | apply implements_res; apply _
    | apply implements_for_each; [apply _|] | apply implements_for_fold; [apply _|] | case_match ].

(** ** Pools of threads *)

(** Thread [i] makes its next call. *)
Inductive pool_step {S A} : list (Prog S A) * S → list (Prog S A) * S → Prop :=
  | pool_call (pool : list (Prog S A)) s i X ready (m : GoM S X) k r s' :
      pool !! i = Some (Call ready m k) → ready s = true → m s = (r, s') →
      pool_step (pool, s) (<[i := k r]> pool, s').

(** Thread [i] has its turn; it passes when it has ended or has to wait. *)
Definition turn {S A} (c : list (Prog S A) * S) (i : nat) : list (Prog S A) * S :=
  match c.1 !! i with
  | Some (Call ready m k) => if ready c.2 then let '(r, s) := m c.2 in (<[i := k r]> c.1, s) else c
  | _ => c
  end.
(** A schedule says whose turn it is. *)
Definition turns {S A} (schedule : list nat) (c : list (Prog S A) * S) : list (Prog S A) * S :=
  foldl turn c schedule.

Lemma turn_step {S A} (c : list (Prog S A) * S) i : rtc pool_step c (turn c i).
Proof.
  destruct c as [pool s]. unfold turn. cbn. destruct (pool !! i) as [[r|X ready m k]|] eqn:Ei; [done| |done].
  destruct (ready s) eqn:Er; [|done]. destruct (m s) as [r s'] eqn:Em. by apply rtc_once; econstructor.
Qed.
Lemma turns_steps {S A} schedule (c : list (Prog S A) * S) : rtc pool_step c (turns schedule c).
Proof.
  revert c. induction schedule as [|i schedule IH]; intros c; cbn; [done|].
  etrans; [apply turn_step|apply IH].
Qed.

(** The calls of a run from [c] to [c']: it steps from [s] to [s'] on its way. *)
Definition during {S A} (c c' : list (Prog S A) * S) (s s' : S) : Prop :=
  ∃ pool pool', rtc pool_step c (pool, s) ∧ pool_step (pool, s) (pool', s') ∧ rtc pool_step (pool', s') c'.

(** ** Rely and guarantee *)

Section safe.
Context {S : Type} (I : S → Prop) (V R G : S → S → Prop).

(** In a state reached from [s] by steps that [R] allows and with the invariant
    [I], every call of the thread that is one of the calls [V] of the run keeps
    [I] and is a step that [G] allows, and the thread ends with [Q]. *)
Fixpoint safe {A} (Q : Res A → S → Prop) (p : Prog S A) (s : S) : Prop :=
  match p with
  | Ret r => Q r s
  | Call ready m k => ∀ s1 r s2, R s s1 → I s1 → ready s1 = true → m s1 = (r, s2) → V s1 s2 →
      I s2 ∧ G s1 s2 ∧ safe Q (k r) s2
  end.

Context `{!Transitive R}.

Lemma safe_rely {A} (Q : Res A → S → Prop) (p : Prog S A) s s' :
  (∀ r, Q r s → Q r s') → R s s' → safe Q p s → safe Q p s'.
Proof using Type*. intros HQ HR. destruct p; cbn; [apply HQ|]. eauto. Qed.

Lemma safe_mono {A} (Q Q' : Res A → S → Prop) (p : Prog S A) s :
  (∀ r s', Q r s' → Q' r s') → safe Q p s → safe Q' p s.
Proof.
  intros HQ. revert s. induction p as [r|X ready m k IH]; cbn; intros s; [apply HQ|].
  intros Hp s1 r s2 HR HI Hr Hm HV. destruct (Hp s1 r s2 HR HI Hr Hm HV) as (? & ? & ?). eauto.
Qed.

Lemma safe_then {A B} (Q : Res B → S → Prop) (p : Prog S A) (k : Res A → Prog S B) s :
  safe (λ r s', safe Q (k r) s') p s → safe Q (prog_then p k) s.
Proof.
  revert s. induction p as [r|X ready m k' IH]; cbn; intros s; [done|].
  intros Hp s1 r s2 HR HI Hr Hm HV. destruct (Hp s1 r s2 HR HI Hr Hm HV) as (? & ? & ?). eauto.
Qed.
End safe.

Section pool.
Context {S A : Type} (I : S → Prop) (V : S → S → Prop) (R G : nat → S → S → Prop) (Q : nat → Res A → Prop)
  (W : S → S → Prop).
Context `{!∀ i, Transitive (R i)} `{!PreOrder W}.
Context (Hrely : ∀ i j s s', i ≠ j → G i s s' → R j s s') (Hwhole : ∀ i s s', G i s s' → W s s').

Definition pool_safe (pool : list (Prog S A)) (s : S) : Prop :=
  ∀ i p, pool !! i = Some p → safe I V (R i) (G i) (λ r _, Q i r) p s.

Lemma pool_step_safe pool s pool' s' :
  (∀ i s, I s → R i s s) →
  pool_step (pool, s) (pool', s') → V s s' → I s → pool_safe pool s → I s' ∧ W s s' ∧ pool_safe pool' s'.
Proof using Type*.
  intros Hrefl Hstep HV HI Hsafe. inv Hstep as [? ? i X ready m k r ? Hi Hr Hm].
  destruct (Hsafe _ _ Hi s r s' (Hrefl i s HI) HI Hr Hm HV) as (HI' & HG & Hk).
  split; [done|]. split; [by eapply Hwhole|]. intros j p Hj.
  destruct (decide (i = j)) as [<-|Hne].
  - apply list_lookup_insert_Some in Hj as [(_ & <- & _)|[? _]]; done.
  - rewrite list_lookup_insert_ne in Hj by done.
    apply (safe_rely I V (R j) (G j) _ p s s'); [done|by eapply Hrely|by apply Hsafe].
Qed.

(** Whatever the schedule: the invariant holds, the threads that have ended did so
    with their results, and the state only moves along [W]. *)
Lemma pool_safe_steps c c' :
  (∀ i s, I s → R i s s) → (∀ s s', during c c' s s' → V s s') →
  rtc pool_step c c' → I c.2 → pool_safe c.1 c.2 →
  I c'.2 ∧ W c.2 c'.2 ∧ ∀ i r, c'.1 !! i = Some (Ret r) → Q i r.
Proof using Type*.
  intros Hrefl HV Hsteps. induction Hsteps as [[pool s]|[pool s] [pool1 s1] [pool2 s2] Hstep Hsteps IH]; intros HI Hsafe.
  - split; [done|]. split; [done|]. intros i r Hi. exact (Hsafe _ _ Hi).
  - assert (V s s1) as HVs by (apply HV; exists pool, pool1; by split_and!).
    destruct (pool_step_safe _ _ _ _ Hrefl Hstep HVs HI Hsafe) as (HI1 & HW & Hsafe1).
    destruct IH as (? & HW' & ?); [|done..|].
    { intros s' s'' (p & p' & H1 & H2 & H3). apply HV. exists p, p'. split_and!; [|done..]. by eapply rtc_l. }
    split; [done|]. split; [by etrans|done].
Qed.
End pool.

(** ** Triples *)

Section triple.
Context {S : Type} (I : S → Prop) (V R G : S → S → Prop).

Definition triple {A} (P : S → Prop) (p : Prog S A) (Q : Res A → S → Prop) : Prop :=
  ∀ s, P s → safe I V R G Q p s.

(** An assertion that the other threads keep. *)
Class Stable (P : S → Prop) := stable s s' : R s s' → P s → P s'.

Lemma triple_ret {A} (P : S → Prop) (r : Res A) (Q : Res A → S → Prop) :
  (∀ s, P s → Q r s) → triple P (Ret r) Q.
Proof. intros HQ s. apply HQ. Qed.

Lemma triple_call {A} (P : S → Prop) `{!Stable P} ready (m : GoM S A) (Q : Res A → S → Prop) :
  (∀ s r s', P s → I s → ready s = true → m s = (r, s') → V s s' → I s' ∧ G s s' ∧ Q r s') →
  triple P (Call ready m Ret) Q.
Proof.
  intros Hm s HP s1 r s2 HR HI Hr Hrun HV. apply (Hm s1 r s2); [|done..]. by apply (stable s s1).
Qed.

Lemma triple_mono {A} (P P' : S → Prop) (p : Prog S A) (Q Q' : Res A → S → Prop) :
  (∀ s, P' s → P s) → (∀ r s, Q r s → Q' r s) → triple P p Q → triple P' p Q'.
Proof. intros HP HQ Hp s Hs. eapply safe_mono; [done|]. by apply Hp, HP. Qed.

Lemma triple_then {A B} (P : S → Prop) (p : Prog S A) (k : Res A → Prog S B) (Q1 : Res A → S → Prop) Q :
  triple P p Q1 → (∀ r, triple (Q1 r) (k r) Q) → triple P (prog_then p k) Q.
Proof.
  intros Hp Hk s Hs. apply safe_then. eapply safe_mono; [|by apply Hp]. intros r s'. apply Hk.
Qed.

(** A program that keeps [P] throughout and ends with a result in [Q]. *)
Definition keeps (P : S → Prop) {A} (p : Prog S A) (Q : A → Prop) : Prop :=
  triple P p (λ r s, P s ∧ ∀ a, r = Ok a → Q a).

Section keeps.
Context (P : S → Prop).

Lemma prog_keeps_ret {A} (a : A) (Q : A → Prop) : Q a → keeps P (mret a) Q.
Proof. intros Ha s Hs. split; [done|]. by intros ? [= <-]. Qed.
Lemma keeps_fail {A} e (Q : A → Prop) : keeps P (pfail e) Q.
Proof. intros s Hs. by split. Qed.
Lemma keeps_panic {A} (Q : A → Prop) : keeps P ppanic Q.
Proof. intros s Hs. by split. Qed.
Lemma keeps_res {A} (r : Res A) (Q : A → Prop) : (∀ a, r = Ok a → Q a) → keeps P (Ret r) Q.
Proof. intros Hr s Hs. by split. Qed.
Lemma prog_keeps_bind {A B} (p : Prog S A) (k : A → Prog S B) (Q1 : A → Prop) (Q : B → Prop) :
  keeps P p Q1 → (∀ a, Q1 a → keeps P (k a) Q) → keeps P (p ≫= k) Q.
Proof.
  intros Hp Hk. eapply triple_then; [exact Hp|]. intros [a|e|] s [Hs HQ]; [|by split..].
  apply (Hk a); [by apply HQ|done].
Qed.
Lemma keeps_try {A} (p : Prog S A) (Q1 : A → Prop) (Q : Res A → Prop) :
  keeps P p Q1 → (∀ a, Q1 a → Q (Ok a)) → (∀ e, Q (Err e)) → keeps P (ptry p) Q.
Proof.
  intros Hp Ho He. eapply triple_then; [exact Hp|]. intros [a|e|] s [Hs HQ]; (split; [done|]); [..|done];
    intros r [= <-]; auto.
Qed.
Lemma keeps_ignore {A} (p : Prog S A) (Q1 : A → Prop) : keeps P p Q1 → keeps P (pignore p) (λ _, True).
Proof. intros Hp. eapply triple_then; [exact Hp|]. by intros [a|e|] s [Hs _]. Qed.
Lemma keeps_for_each {A} (xs : list A) body :
  (∀ x, keeps P (body x) (λ _, True)) → keeps P (pfor_each xs body) (λ _, True).
Proof.
  intros Hb. induction xs as [|x xs IH]; cbn; [by apply prog_keeps_ret|].
  eapply prog_keeps_bind; [apply Hb|]. by intros.
Qed.
Lemma keeps_weaken {A} (p : Prog S A) (Q1 Q : A → Prop) : (∀ a, Q1 a → Q a) → keeps P p Q1 → keeps P p Q.
Proof. intros HQ. apply triple_mono; [done|]. intros r s [? H]. split; [done|]. auto. Qed.
Lemma keeps_for_each_all {A} (xs : list A) body (Q : A → Prop) :
  (∀ x, x ∈ xs → keeps P (body x) (λ _, Q x)) → keeps P (pfor_each xs body) (λ _, Forall Q xs).
Proof.
  induction xs as [|x xs IH]; intros Hb; cbn; [by apply prog_keeps_ret|].
  eapply prog_keeps_bind; [apply Hb; by left|]. cbn. intros _ Hx.
  eapply keeps_weaken; [|apply IH; intros y Hy; apply Hb; by right]. cbn. auto.
Qed.
Lemma keeps_for_fold {A B} (xs : list A) (acc : B) body (Q : B → Prop) :
  (∀ b x, Q b → keeps P (body b x) Q) → Q acc → keeps P (pfor_fold xs acc body) Q.
Proof.
  intros Hb. revert acc. induction xs as [|x xs IH]; intros acc Ha; cbn; [by apply prog_keeps_ret|].
  eapply prog_keeps_bind; [by apply Hb|]. intros b Hq. by apply IH.
Qed.

(** A program that keeps [P], before one that ends with more. *)
Lemma triple_keeps {A B} (p : Prog S A) (k : A → Prog S B) (Q1 : A → Prop) (Q : Res B → S → Prop) :
  keeps P p Q1 → (∀ a, Q1 a → triple P (k a) Q) → (∀ e s, P s → Q (Err e) s) → (∀ s, P s → Q Panic s) →
  triple P (p ≫= k) Q.
Proof.
  intros Hp Hk He Hpanic. eapply triple_then; [exact Hp|]. intros [a|e|] s [Hs HQ]; [|by apply He|by apply Hpanic].
  apply (Hk a); [by apply HQ|done].
Qed.
End keeps.

Lemma triple_bind {A B} (P : S → Prop) (p : Prog S A) (k : A → Prog S B) (Q1 : A → S → Prop) (E : S → Prop)
    (Q : Res B → S → Prop) :
  triple P p (λ r s, E s ∧ ∀ a, r = Ok a → Q1 a s) → (∀ a, triple (λ s, E s ∧ Q1 a s) (k a) Q) →
  (∀ e s, E s → Q (Err e) s) → (∀ s, E s → Q Panic s) → triple P (p ≫= k) Q.
Proof.
  intros Hp Hk He Hpanic. eapply triple_then; [exact Hp|]. intros [a|e|] s [Hs HQ]; [|by apply He|by apply Hpanic].
  apply Hk. split; [done|]. by apply HQ.
Qed.
End triple.

(** Discharge the structural part of a [keeps] goal that says nothing of results. *)
Ltac keeps_step tac :=
  repeat first
    [ tac | progress (intros; cbn beta iota) | apply prog_keeps_ret; done | apply keeps_fail | apply keeps_panic
    | apply keeps_res; done | apply (keeps_ignore _ _ _ _ _ _ (λ _, True)) | eapply (keeps_try _ _ _ _ _ _ (λ _, True)); [|done|done]
    | apply (prog_keeps_bind _ _ _ _ _ _ _ (λ _, True)) | apply keeps_for_each
    | apply (keeps_for_fold _ _ _ _ _ _ _ _ (λ _, True)); [|done] | case_match ].
