(* ===== verification/ServiceThreads.v ===== *)
(** * The threads of a manager process.

    The HTTP server runs every request in a goroutine of its own, and the manager
    loop runs beside them. They share the metadata store, the task queue and the
    object store, whose methods are taken for atomic, and the mutex [writeLock],
    which [Put] and [Delete] hold from beginning to end. Here the methods of the
    coordinator and of the service are programs of such calls; alone they do what
    the methods of [Coordinator], [Service] and [Manager] do ([Sequential]). What a temporary
    file holds is a value of the thread that wrote it; only the failures of the
    directory are shared. *)

From S2P Require Import Prelude Metadata Replication Backend MetadataSpec ReplicationSpec Names Hash Lifecycle Objects Staging Coordinator CoordinatorSpec Service ServiceSpec ServiceProps WorkerProps Manager Threads.
From stdpp Require Import options.

(** ** The shared state *)

Record Sys (B Q OS : Type) := {
  sys_service : ManagedFileService B Q OS;
  (** The thread that holds [writeLock]. *)
  sys_writeLock : option nat
}.
Arguments sys_service {B Q OS} _.
Arguments sys_writeLock {B Q OS} _.

Section threads.
Context {B Q OS : Type} `{MetadataBackend B} `{ReplicationTaskQueue Q} `{ObjectStore OS}.
Abbreviation Service := (ManagedFileService B Q OS).
Abbreviation Coord := (MetadataCoordinator B Q).
Abbreviation State := (Sys B Q OS).
Abbreviation Thread := (Prog State).

Definition set_sys (s : Service) (σ : State) : State :=
  {| sys_service := s; sys_writeLock := sys_writeLock σ |}.
Definition set_lock (l : option nat) (σ : State) : State :=
  {| sys_service := sys_service σ; sys_writeLock := l |}.

Definition sys_coord (σ : State) : Coord := sv_coordinator (sys_service σ).
Definition set_sys_coord (c : Coord) (σ : State) : State := set_sys (set_coordinator c (sys_service σ)) σ.
Definition sys_objects (σ : State) : OS := sv_objects (sys_service σ).
Definition set_sys_objects (o : OS) (σ : State) : State := set_sys (set_objects o (sys_service σ)) σ.
Definition sys_temp (σ : State) : TempDir := sv_temp (sys_service σ).
Definition set_sys_temp (t : TempDir) (σ : State) : State := set_sys (set_temp t (sys_service σ)) σ.

(** A call on the coordinator's stores, on the object store, on temporary files. *)
Definition c_call {A} (m : GoM Coord A) : Thread A := atomic (zoom sys_coord set_sys_coord m).
Definition o_call {A} (m : GoM OS A) : Thread A := atomic (zoom sys_objects set_sys_objects m).
Definition t_call {A} (m : GoM TempDir A) : Thread A := atomic (zoom sys_temp set_sys_temp m).

(** [s.writeLock.Lock()] and [defer s.writeLock.Unlock()] *)
Definition lock (i : nat) : Thread unit :=
  Call (λ σ, bool_decide (sys_writeLock σ = None)) (modify (set_lock (Some i))) Ret.
Definition unlock : Thread unit := atomic (modify (set_lock None)).
Definition with_lock {A} (i : nat) (p : Thread A) : Thread A :=
  lock i;; prog_then p (λ r, prog_then unlock (λ _, Ret r)).

(** ** The coordinator *)

Definition PrepareWrite_calls (key : string) (size : Z) (checksum : string)
    (chunks : list ChunkMetadata) : Thread PreparedWrite :=
  nodes ← c_call (on_metadata mb_HealthyNodes);
  planner ← c_call (gets mc_planner);
  plan ← Ret (Plan planner nodes);
  version ← c_call (on_metadata (mb_NextVersion key));
  mret {| pw_Key := key; pw_Version := version; pw_Size := size; pw_Checksum := checksum;
          pw_Chunks := cloneChunkMetadata chunks; pw_Primary := rp_Primary plan;
          pw_Replicas := rp_Replicas plan |}.

Definition CommitWrite_calls (prepared : PreparedWrite) : Thread WritePlan :=
  let replicaIDs := nm_ID <$> pw_Replicas prepared in
  meta ← c_call (on_metadata (mb_BeginFileVersion (pw_Key prepared) (pw_Size prepared)
    (pw_Checksum prepared) (pw_Chunks prepared) (nm_ID (pw_Primary prepared)) replicaIDs));
  t ← c_call coord_now;
  tasks ← Ret (TasksForFile meta t);
  c_call (on_tasks (rq_Enqueue tasks));;
  mret {| wp_Metadata := meta; wp_Primary := pw_Primary prepared;
          wp_Replicas := pw_Replicas prepared; wp_Tasks := tasks |}.

Definition FinishReplication_calls (taskID : string) : Thread (FileMetadata * ReplicationTask) :=
  task ← c_call (on_tasks (rq_MarkDone taskID));
  meta ← c_call (on_metadata (mb_MarkReplica (rt_Key task) (rt_Target task) ReplicaHealthy));
  mret (meta, task).

Definition FailReplication_calls (taskID : string) (cause : option GoError) :
    Thread (FileMetadata * ReplicationTask) :=
  task ← c_call (on_tasks (rq_MarkFailed taskID cause));
  meta ← c_call (on_metadata (mb_MarkReplica (rt_Key task) (rt_Target task) ReplicaMissing));
  mret (meta, task).

Definition ReadCandidates_calls (key : string) : Thread ReadPlan :=
  found ← c_call (on_metadata (mb_GetFile key));
  match found with
  | None => pfail ErrMetadataNotFound
  | Some meta =>
      if fm_Deleted meta then pfail ErrFileDeleted
      else
        let replicas := prioritizePrimary meta (HealthyReplicas meta) in
        if decide (length replicas = 0) then pfail ErrNoReadableReplicas
        else mret {| rd_Metadata := meta; rd_Replicas := replicas |}
  end.

Definition repairExistingReplicas_calls (meta : FileMetadata) (source : string) :
    Thread (list ReplicationTask) :=
  pfor_fold (map_to_list (fm_Replicas meta)) [] (λ tasks '(nodeID, replica),
    if skip_repair source nodeID replica then mret tasks
    else
      created ← c_call coord_now;
      updated ← c_call coord_now;
      mret (tasks ++ [pending_task meta source nodeID created updated])).

Fixpoint repair_missing_calls (meta : FileMetadata) (source : string) (replicaCount : Z)
    (nodes : list NodeMetadata) (tasks : list ReplicationTask) : Thread (list ReplicationTask) :=
  match nodes with
  | [] => mret tasks
  | node :: nodes =>
      if (replicaCount <=? Z.of_nat (size (fm_Replicas meta)) + zlen tasks)%Z then mret tasks
      else
        match fm_Replicas meta !! nm_ID node with
        | Some _ => repair_missing_calls meta source replicaCount nodes tasks
        | None =>
            added ← ptry (c_call (on_metadata (mb_AddReplica (fm_Key meta) (nm_ID node) ReplicaPending)));
            match added with
            | Ok _ =>
                created ← c_call coord_now;
                updated ← c_call coord_now;
                repair_missing_calls meta source replicaCount nodes
                  (tasks ++ [pending_task meta source (nm_ID node) created updated])
            | _ => repair_missing_calls meta source replicaCount nodes tasks
            end
        end
  end.

Definition repairMissingReplicas_calls (meta : FileMetadata) (source : string)
    (nodes : list NodeMetadata) : Thread (list ReplicationTask) :=
  planner ← c_call (gets mc_planner);
  if (ReplicaCount planner <=? Z.of_nat (size (fm_Replicas meta)))%Z then mret []
  else repair_missing_calls meta source (ReplicaCount planner) nodes [].

Definition repair_file_calls (nodes : list NodeMetadata) (tasks : list ReplicationTask)
    (meta : FileMetadata) : Thread (list ReplicationTask) :=
  if fm_Deleted meta then mret tasks
  else
    let source := firstHealthyReplica meta in
    if decide (source = "") then mret tasks
    else
      existing ← repairExistingReplicas_calls meta source;
      missing ← repairMissingReplicas_calls meta source nodes;
      mret (tasks ++ existing ++ missing).

Definition PlanRepair_calls : Thread (list ReplicationTask) :=
  nodes ← c_call (on_metadata mb_HealthyNodes);
  if decide (length nodes = 0) then mret []
  else
    files ← c_call (on_metadata mb_ListFiles);
    tasks ← pfor_fold files [] (repair_file_calls nodes);
    c_call (on_tasks (rq_Enqueue tasks));;
    mret tasks.

(** ** The worker *)

Definition deleteChunkObjects_calls (nodeID key : string) (version : Z) (objectKeys : list string) :
    Thread unit :=
  pfor_each objectKeys (λ objectKey, pignore (o_call (DeleteObject nodeID objectKey version))).

Definition replicate_chunk_calls (task : ReplicationTask) (acc : list string * bytes)
    (chunk : ChunkMetadata) : Thread (list string * bytes) :=
  let '(written, fullHash) := acc in
  let objectKey := chunkObjectKey (rt_Key task) (cm_Index chunk) in
  '(_, src) ← o_call (ReadObject (rt_Source task) objectKey (rt_Version task));
  res ← ptry (o_call (WriteObject (rt_Target task) objectKey (rt_Version task) src));
  match res with
  | Err writeErr =>
      deleteChunkObjects_calls (rt_Target task) (rt_Key task) (rt_Version task) written;;
      pfail writeErr
  | Panic => ppanic
  | Ok n =>
      match r_close src with
      | Some closeErr =>
          deleteChunkObjects_calls (rt_Target task) (rt_Key task) (rt_Version task) written;;
          pfail closeErr
      | None =>
          let data := (drain (r_reads src)).1 in
          if bool_decide (n ≠ cm_Size chunk) || bool_decide (checksumBytes data ≠ cm_Checksum chunk)
          then
            pignore (o_call (DeleteObject (rt_Target task) objectKey (rt_Version task)));;
            deleteChunkObjects_calls (rt_Target task) (rt_Key task) (rt_Version task) written;;
            pfail ErrChecksumMismatch
          else mret (written ++ [objectKey], fullHash ++ data)
      end
  end.

Definition replicateChunks_calls (task : ReplicationTask) : Thread unit :=
  '(written, fullHash) ← pfor_fold (rt_Chunks task) ([], []) (replicate_chunk_calls task);
  if bool_decide (rt_Checksum task ≠ "") &&
     bool_decide (checksumBytes fullHash ≠ rt_Checksum task)
  then
    deleteChunkObjects_calls (rt_Target task) (rt_Key task) (rt_Version task) written;;
    pfail ErrChecksumMismatch
  else mret tt.

Definition Replicate_calls (task : ReplicationTask) : Thread unit :=
  if decide (0 < length (rt_Chunks task)) then replicateChunks_calls task
  else
    '(_, src) ← o_call (ReadObject (rt_Source task) (rt_Key task) (rt_Version task));
    o_call (WriteObject (rt_Target task) (rt_Key task) (rt_Version task) src);;
    let checksum := checksumBytes (drain (r_reads src)).1 in
    if bool_decide (rt_Checksum task ≠ "") && bool_decide (checksum ≠ rt_Checksum task)
    then
      pignore (o_call (DeleteObject (rt_Target task) (rt_Key task) (rt_Version task)));;
      pfail ErrChecksumMismatch
    else mret tt.

Definition WorkOnce_calls : Thread (ReplicationTask * option GoError) :=
  pending ← c_call PendingTasks;
  match pending with
  | [] => pfail ErrNoPendingTasks
  | first :: _ =>
      task ← c_call (StartReplication (rt_ID first));
      copied ← ptry (Replicate_calls task);
      match copied with
      | Ok _ =>
          '(_, doneTask) ← FinishReplication_calls (rt_ID task);
          mret (doneTask, None)
      | Err err =>
          '(_, failedTask) ← FailReplication_calls (rt_ID task) (Some err);
          mret (failedTask, Some err)
      | Panic => ppanic
      end
  end.
(** ** The service *)

Definition deleteObjects_calls (nodeID key : string) (version : Z) (chunks : list ChunkMetadata) :
    Thread unit :=
  if decide (length chunks = 0) then pignore (o_call (DeleteObject nodeID key version))
  else pfor_each chunks (λ chunk,
    pignore (o_call (DeleteObject nodeID (chunkObjectKey key (cm_Index chunk)) version))).

Definition write_chunk_calls (nodeID key : string) (version : Z) (staged : bytes)
    (chunks : list ChunkMetadata) (chunk : ChunkMetadata) : Thread unit :=
  sought ← ptry (t_call (temp_seek (cm_Offset chunk)));
  match sought with
  | Err err => deleteObjects_calls nodeID key version chunks;; pfail err
  | Panic => ppanic
  | Ok _ =>
      let objectKey := chunkObjectKey key (cm_Index chunk) in
      r ← t_call (temp_section staged (cm_Offset chunk) (cm_Size chunk));
      written ← ptry (o_call (WriteObject nodeID objectKey version r));
      match written with
      | Err err => deleteObjects_calls nodeID key version chunks;; pfail err
      | Panic => ppanic
      | Ok n =>
          if decide (n = cm_Size chunk) then mret tt
          else deleteObjects_calls nodeID key version chunks;; pfail ErrShortWrite
      end
  end.

Definition writeChunks_calls (nodeID key : string) (version : Z) (staged : bytes)
    (chunks : list ChunkMetadata) : Thread unit :=
  if decide (length chunks = 0) then
    t_call (temp_seek 0);;
    r ← t_call (temp_section staged 0 (zlen staged));
    o_call (WriteObject nodeID key version r);;
    mret tt
  else pfor_each chunks (write_chunk_calls nodeID key version staged chunks).

Definition stage_chunk_calls (nodeID : string) (meta : FileMetadata) (acc : bytes * Z)
    (chunk : ChunkMetadata) : Thread (bytes * Z) :=
  let '(staged, total) := acc in
  '(_, r) ← o_call (ReadObject nodeID (chunkObjectKey (fm_Key meta) (cm_Index chunk)) (fm_Version meta));
  data ← t_call (copy_temp (r_reads r) []);
  match r_close r with
  | Some closeErr => pfail closeErr
  | None =>
      if bool_decide (zlen data ≠ cm_Size chunk) || bool_decide (checksumBytes data ≠ cm_Checksum chunk)
      then pfail ErrChecksumMismatch
      else mret (staged ++ data, (total + zlen data)%Z)
  end.

Definition stageReplica_calls (nodeID : string) (meta : FileMetadata) : Thread bytes :=
  if decide (length (fm_Chunks meta) = 0) then
    '(_, r) ← o_call (ReadObject nodeID (fm_Key meta) (fm_Version meta));
    staged ← t_call (stageReader (r_reads r));
    match r_close r with
    | Some closeErr => pfail closeErr
    | None =>
        if bool_decide (st_size staged ≠ fm_Size meta) || bool_decide (st_checksum staged ≠ fm_Checksum meta)
        then pfail ErrChecksumMismatch
        else mret (st_file staged)
    end
  else
    t_call temp_call;;
    '(staged, total) ← pfor_fold (fm_Chunks meta) ([], 0%Z) (stage_chunk_calls nodeID meta);
    if bool_decide (total ≠ fm_Size meta) || bool_decide (checksumBytes staged ≠ fm_Checksum meta)
    then pfail ErrChecksumMismatch
    else mret staged.

(** [Put] between [Lock] and [Unlock]. *)
Definition Put_calls (key : string) (reads : list ReadResult) : Thread FileMetadata :=
  staged ← t_call (stageReader reads);
  let chunks := st_chunks staged in
  prepared ← PrepareWrite_calls key (st_size staged) (st_checksum staged) chunks;
  writeChunks_calls (nm_ID (pw_Primary prepared)) key (pw_Version prepared) (st_file staged) chunks;;
  committed ← ptry (CommitWrite_calls prepared);
  match committed with
  | Ok plan => mret (wp_Metadata plan)
  | Err err =>
      deleteObjects_calls (nm_ID (pw_Primary prepared)) key (pw_Version prepared) chunks;;
      pfail err
  | Panic => ppanic
  end.

Fixpoint get_loop_calls (key : string) (meta : FileMetadata) (replicas : list ReplicaMetadata) :
    Thread (bytes * FileMetadata) :=
  match replicas with
  | [] => pfail ErrNoReadableReplicas
  | replica :: replicas =>
      staged ← ptry (stageReplica_calls (rm_NodeID replica) meta);
      match staged with
      | Err err =>
          pignore (c_call (on_metadata (mb_MarkReplica key (rm_NodeID replica) (unreadable_state err))));;
          get_loop_calls key meta replicas
      | Panic => ppanic
      | Ok data =>
          t_call (temp_seek 0);;
          mret (data, meta)
      end
  end.

Definition Get_calls (key : string) : Thread (bytes * FileMetadata) :=
  plan ← ReadCandidates_calls key;
  get_loop_calls key (rd_Metadata plan) (rd_Replicas plan).

Definition Delete_calls (key : string) : Thread FileMetadata :=
  found ← c_call (on_metadata (mb_GetFile key));
  match found with
  | None => pfail ErrMetadataNotFound
  | Some meta =>
      deleted ← c_call (DeleteFile key);
      pfor_each (range_keys (fm_Replicas meta)) (λ nodeID,
        deleteObjects_calls nodeID key (fm_Version meta) (fm_Chunks meta));;
      mret deleted
  end.

Definition PendingTasks_calls : Thread (list ReplicationTask) :=
  tasks ← ptry (c_call PendingTasks);
  match tasks with
  | Ok tasks => mret tasks
  | Err _ => mret []
  | Panic => ppanic
  end.

Definition Metrics_calls : Thread ServiceMetrics :=
  nodes ← c_call (on_metadata mb_Nodes);
  files ← c_call (on_metadata mb_ListFiles);
  taskStats ← c_call ReplicationTaskStats;
  pending ← PendingTasks_calls;
  let metrics := {|
    me_Files := 0; me_DeletedFiles := 0; me_PendingTasks := zlen pending;
    me_ReplicationTasks := taskStats;
    me_Nodes := foldl incr ∅ (nm_State <$> nodes); me_Replicas := ∅ |} in
  mret (foldl count_file metrics files).

(** ** The manager loop *)

Fixpoint run_tasks_calls (fuel : nat) : Thread bool :=
  match fuel with
  | 0 => mret false
  | S fuel =>
      ran ← ptry WorkOnce_calls;
      match ran with
      | Ok (_, None) => run_tasks_calls fuel
      | Ok (_, Some _) => mret true
      | Err _ => mret true
      | Panic => ppanic
      end
  end.

Definition manager_tick_calls (fuel : nat) : Thread bool :=
  pignore (c_call (on_metadata (mb_MarkExpiredNodes (10 * Second))));;
  pignore (c_call RequeueExpiredReplicationTasks);;
  pignore PlanRepair_calls;;
  run_tasks_calls fuel.

(** The first rounds of [managerLoop], which the source repeats until it is
    stopped: any number of ticks, each with a bound on the runs of its inner loop.
    Every state that the endless loop reaches is one that some of these reach. *)
Fixpoint managerLoop (ticks : list nat) : Thread unit :=
  match ticks with
  | [] => mret tt
  | fuel :: ticks => manager_tick_calls fuel;; managerLoop ticks
  end.

(** ** Requests *)

(** The requests of the API that call the service. *)
Inductive ClientRequest :=
  | ReqRegisterNode (id address : string)
  | ReqPut (key : string) (reads : list ReadResult)
  | ReqGet (key : string)
  | ReqDelete (key : string)
  | ReqMetadata (key : string)
  | ReqNodes
  | ReqMetrics
  | ReqReplicationRun.

Inductive Reply :=
  | ReplyPut (meta : FileMetadata)
  | ReplyGet (data : bytes) (meta : FileMetadata)
  | ReplyDelete (meta : FileMetadata)
  | ReplyMetadata (found : option FileMetadata)
  | ReplyNode (node : NodeMetadata)
  | ReplyNodes (nodes : list NodeMetadata)
  | ReplyMetrics (metrics : ServiceMetrics)
  | ReplyTask (task : ReplicationTask) (err : option GoError)
  | ReplyStopped.

(** [h.httpStore], if the objects are remote: it learns the address of a node. *)
Context (httpStore : option (string → string → GoM OS unit)).

Definition heartbeat_thread (id address : string) : Thread NodeMetadata :=
  node ← c_call (RegisterNode id address);
  match httpStore with
  | Some setNode => o_call (setNode id address);; mret node
  | None => mret node
  end.

(** Thread [i] serves a request: the calls that the handler of [ServeHTTP] makes
    on the service, [handleFile] for files, [handleMetadata], [handleNodes],
    [handleMetrics], [handleReplicationRun] and [handleNodeHeartbeat].  Parsing the request and writing
    the response touch nothing that is shared ([ManagerApi]). *)
Definition client_thread (i : nat) (req : ClientRequest) : Thread Reply :=
  match req with
  | ReqPut key reads => meta ← with_lock i (Put_calls key reads); mret (ReplyPut meta)
  | ReqGet key => '(data, meta) ← Get_calls key; mret (ReplyGet data meta)
  | ReqDelete key => meta ← with_lock i (Delete_calls key); mret (ReplyDelete meta)
  | ReqMetadata key => found ← c_call (on_metadata (mb_GetFile key)); mret (ReplyMetadata found)
  | ReqNodes => nodes ← c_call (on_metadata mb_Nodes); mret (ReplyNodes nodes)
  | ReqMetrics => metrics ← Metrics_calls; mret (ReplyMetrics metrics)
  | ReqReplicationRun => '(task, err) ← WorkOnce_calls; mret (ReplyTask task err)
  | ReqRegisterNode id address => node ← heartbeat_thread id address; mret (ReplyNode node)
  end.

Definition manager_thread (ticks : list nat) : Thread Reply := managerLoop ticks;; mret ReplyStopped.

(** The process: the manager loop and the goroutines of the requests. *)
Definition manager_process (ticks : list nat) (reqs : list ClientRequest) : list (Thread Reply) :=
  manager_thread ticks :: imap (λ i req, client_thread (S i) req) reqs.

(** The state in the beginning: nobody holds the mutex. *)
Definition alone (s : Service) : State := {| sys_service := s; sys_writeLock := None |}.
End threads.
