(* ===== verification/Interleave.v ===== *)
(** * Interleavings of the threads of a manager.

    Any number of requests beside one manager loop, in any order of their calls
    on the shared stores.  The metadata stays well formed and every record that is
    live was published after its chunks were written, under its own version; a
    [Put] replies with the record it published and a [Get] with bytes that match
    a record the catalog held.  The state machine of tasks needs more: a task that
    is picked must not be taken by another worker, and requests to
    [/replication/run] are such workers.  Each thread relies on two things: while
    it is the only worker, no other thread changes a task that is there, and no
    record moves while it holds [writeLock]. *)

From S2P Require Import Prelude Metadata Replication Backend MetadataSpec ReplicationSpec Names Hash Lifecycle Objects Staging Coordinator CoordinatorSpec Service ServiceSpec ServiceProps WorkerProps Manager Threads ServiceThreads.
From stdpp Require Import options.

(** ** The task table under several workers *)

(** A worker may start a task that another one has taken since it looked. *)
Inductive worker_step : TaskTable → TaskTable → Prop :=
  | worker_table ts ts' : table_step ts ts' → worker_step ts ts'
  | worker_restart ts id task t :
      ts !! id = Some task → worker_step ts (<[id := runReplicationTask task t]> ts).

(** What is left of [task_ok]: all but the bound on attempts. *)
Definition task_shaped (id : string) (task : ReplicationTask) : Prop :=
  rt_ID task = id ∧
  match rt_State task with
  | ReplicationTaskPending =>
      (rt_Attempts task < defaultReplicationTaskMaxAttempts)%Z ∧ rt_LeaseUntil task = zero_time
  | ReplicationTaskRunning => rt_LeaseUntil task = TimeAdd (rt_UpdatedAt task) defaultReplicationTaskLease
  | ReplicationTaskDone => rt_LeaseUntil task = zero_time ∧ rt_RunAfter task = zero_time
  | ReplicationTaskDead =>
      (defaultReplicationTaskMaxAttempts ≤ rt_Attempts task)%Z ∧
      rt_LeaseUntil task = zero_time ∧ rt_RunAfter task = zero_time
  | ReplicationTaskFailed => False
  end.
Definition table_shaped (ts : TaskTable) : Prop := map_Forall task_shaped ts.

Lemma task_ok_shaped id task : task_ok id task → task_shaped id task.
Proof. unfold task_ok, task_shaped. intros (? & ? & ?). split; [done|]. case_match; naive_solver lia. Qed.
Lemma table_ok_shaped ts : table_ok ts → table_shaped ts.
Proof. intros Hts id task Hid. by apply task_ok_shaped, Hts. Qed.

Lemma fail_shaped id task t cause : rt_ID task = id → task_shaped id (failReplicationTask task t cause).
Proof. intros. unfold failReplicationTask. case_match eqn:E; split; try done; cbn; repeat split; lia. Qed.
Lemma expire_shaped id task t : rt_ID task = id → task_shaped id (expireReplicationTask task t).
Proof. intros. unfold expireReplicationTask. case_match eqn:E; split; try done; cbn; repeat split; lia. Qed.

Lemma run_shaped id task t : rt_ID task = id → task_shaped id (runReplicationTask task t).
Proof. by split. Qed.
Lemma done_shaped id task t : rt_ID task = id → task_shaped id (doneReplicationTask task t).
Proof. by split. Qed.
Lemma shaped_id ts id task : table_shaped ts → ts !! id = Some task → rt_ID task = id.
Proof. intros Hts Hl. by destruct (Hts _ _ Hl). Qed.

Lemma worker_step_shaped ts ts' : worker_step ts ts' → table_shaped ts → table_shaped ts'.
Proof.
  intros Hstep Hts. destruct Hstep as [ts ts' Hstep|ts id task t Hl]; [destruct Hstep as [ts tasks Hn| | | |ts t]|].
  - intros id task Hl. rewrite lookup_enqueue_all in Hl.
    destruct (ts !! id) as [old|] eqn:E; [injection Hl as <-; by apply Hts|].
    apply head_Some_elem_of, list_elem_of_filter in Hl as [<- Hin].
    rewrite Forall_forall in Hn. by apply task_ok_shaped, new_task_ok, Hn.
  - apply map_Forall_insert_2; [|done]. eauto using run_shaped, shaped_id.
  - apply map_Forall_insert_2; [|done]. eauto using done_shaped, shaped_id.
  - apply map_Forall_insert_2; [|done]. eauto using fail_shaped, shaped_id.
  - intros id task. unfold requeue_all. rewrite lookup_fmap. destruct (ts !! id) as [task0|] eqn:E; [|done].
    intros [= <-]. case_match; [|by apply Hts]. eauto using expire_shaped, shaped_id.
  - apply map_Forall_insert_2; [|done]. eauto using run_shaped, shaped_id.
Qed.

(** With one worker, or with any number. *)
Definition task_step (solo : bool) : TaskTable → TaskTable → Prop := if solo then table_step else worker_step.
Definition table_inv (solo : bool) : TaskTable → Prop := if solo then table_ok else table_shaped.

Lemma task_steps_inv solo ts ts' : rtc (task_step solo) ts ts' → table_inv solo ts → table_inv solo ts'.
Proof.
  destruct solo; [apply table_steps_ok|]. cbn. induction 1; eauto using worker_step_shaped.
Qed.
Lemma table_steps_task solo ts ts' : rtc table_step ts ts' → rtc (task_step solo) ts ts'.
Proof. destruct solo; [done|]. cbn. induction 1; [done|]. eapply rtc_l; [by constructor|done]. Qed.
Lemma table_inv_ids solo ts : table_inv solo ts → ids_ok ts.
Proof. intros Hts id task Hid. destruct solo; by destruct (Hts _ _ Hid). Qed.

(** ** Records *)

(** A record but for the states of its replicas and its times. *)
Definition content (meta : FileMetadata) :=
  (fm_Key meta, fm_Version meta, fm_Size meta, fm_Checksum meta, fm_Primary meta, fm_Deleted meta, fm_Chunks meta).

Definition same_files (cat cat' : Catalog) : Prop :=
  ∀ key, content <$> cat_files cat' !! key = content <$> cat_files cat !! key.

Lemma same_files_version cat cat' key : same_files cat cat' → next_version cat' key = next_version cat key.
Proof.
  intros Hs. unfold next_version, version_of. specialize (Hs key).
  destruct (cat_files cat' !! key) as [m'|], (cat_files cat !! key) as [m|]; try done.
  by injection Hs as _ -> _.
Qed.

#[export] Instance same_files_trans : Transitive same_files.
Proof. intros c1 c2 c3 H12 H23 key. by rewrite H23, H12. Qed.

Section interleave.
Context {B Q OS : Type} `{HB : MetadataBackendLaws B} `{HQ : ReplicationTaskQueueLaws Q}
  `{HO : ObjectStoreLaws OS}.
Abbreviation Coord := (MetadataCoordinator B Q).
Abbreviation State := (Sys B Q OS).
Abbreviation Thread := (Prog State).
Implicit Types (σ : State).

Definition sys_catalog σ : Catalog := coord_catalog (sys_coord σ).
Definition sys_table σ : TaskTable := coord_table (sys_coord σ).

(** One worker or several, the catalog in the beginning, and the calls of the run. *)
Context (solo : bool) (base : Catalog) (V : State → State → Prop).

(** *** What happened in the run *)

(** An object was written: a call on the store took these bytes and succeeded. *)
Definition wrote (node key : string) (v : Z) (data : bytes) : Prop :=
  ∃ σ σ' r, V σ σ' ∧ drain (r_reads r) = (data, None) ∧
    WriteObject node key v r (sys_objects σ) = (Ok (zlen data), sys_objects σ').

(** The data that a record describes was written to its primary, chunk by chunk,
    under the key and the version of the record. *)
Definition stored_as (meta : FileMetadata) (data : bytes) : Prop :=
  fm_Size meta = zlen data ∧ fm_Checksum meta = checksumBytes data ∧ fm_Chunks meta ≠ [] ∧
  ∃ pieces, concat pieces = data ∧
    Forall2 (λ chunk piece,
      wrote (fm_Primary meta) (chunkObjectKey (fm_Key meta) (cm_Index chunk)) (fm_Version meta) piece ∧
      zlen piece = cm_Size chunk ∧ checksumBytes piece = cm_Checksum chunk) (fm_Chunks meta) pieces.

(** A record that was there from the beginning, or whose data was written. *)
Definition origin (meta : FileMetadata) : Prop :=
  (∃ data, stored_as meta data) ∨
  ∃ key meta0, cat_files base !! key = Some meta0 ∧ content meta0 = content meta.

Definition published (cat : Catalog) : Prop :=
  ∀ key meta, cat_files cat !! key = Some meta → fm_Deleted meta = false → origin meta.

(** The record was the one of the key at some time, and it was made so by a call
    that gave it the next version. *)
Definition seen (key : string) (meta : FileMetadata) : Prop :=
  ∃ σ σ', V σ σ' ∧ cat_files (sys_catalog σ) !! key = Some meta.
Definition committed_as (key : string) (meta : FileMetadata) : Prop :=
  ∃ σ σ', V σ σ' ∧ fm_Version meta = next_version (sys_catalog σ) key ∧
    cat_files (sys_catalog σ') !! key = Some meta.

Lemma origin_content meta meta' : content meta = content meta' → origin meta → origin meta'.
Proof.
  intros E [[data Hs]|(key & meta0 & Hb & E')]; [left|right; exists key, meta0; by rewrite E'].
  exists data. unfold stored_as. by injection E as <- <- <- <- <- _ <-.
Qed.

Lemma published_same cat cat' : same_files cat cat' → published cat → published cat'.
Proof.
  intros Hs Hp key meta' Hl Hd. specialize (Hs key). rewrite Hl in Hs.
  destruct (cat_files cat !! key) as [meta|] eqn:E; [|done]. cbn in Hs. apply (inj Some) in Hs.
  apply (origin_content meta); [done|]. apply (Hp key); [done|]. rewrite <-Hd. by injection Hs.
Qed.

(** *** Rely and guarantee *)

Definition sys_ok σ : Prop :=
  catalog_wf (sys_catalog σ) ∧ table_inv solo (sys_table σ) ∧ published (sys_catalog σ).

Definition moves (c c' : Coord) : Prop :=
  rtc catalog_step (coord_catalog c) (coord_catalog c') ∧ rtc (task_step solo) (coord_table c) (coord_table c').
Definition sys_moves σ σ' : Prop := moves (sys_coord σ) (sys_coord σ').
#[export] Instance sys_moves_preorder : PreOrder sys_moves.
Proof. split; [by intros σ|]. intros σ1 σ2 σ3 [? ?] [? ?]. by split; etrans. Qed.

Lemma coord_steps_moves c c' : coord_steps c c' → moves c c'.
Proof. intros (Hc & Ht & _). split; [done|]. by apply table_steps_task. Qed.

(** Thread 0 is the manager loop; alone it is the only worker. *)
Definition rely (i : nat) σ σ' : Prop :=
  (solo = true → i = 0 → sys_table σ ⊆ sys_table σ') ∧
  (sys_writeLock σ = Some i →
     sys_writeLock σ' = Some i ∧ same_files (sys_catalog σ) (sys_catalog σ')).

Definition guarantee (i : nat) σ σ' : Prop :=
  sys_moves σ σ' ∧
  (solo = true → i ≠ 0 → sys_table σ ⊆ sys_table σ') ∧
  (sys_writeLock σ ≠ Some i →
     same_files (sys_catalog σ) (sys_catalog σ') ∧
     ∀ j, sys_writeLock σ = Some j → sys_writeLock σ' = Some j).

Lemma guarantee_rely i j σ σ' : i ≠ j → guarantee i σ σ' → rely j σ σ'.
Proof.
  intros Hne (_ & Ht & Hv). split; [intros Hs ->; by apply Ht|].
  intros Hl. destruct Hv as [Hv Hj]; [congruence|]. auto.
Qed.

#[export] Instance rely_trans i : Transitive (rely i).
Proof.
  intros σ1 σ2 σ3 [Ht Hl] [Ht' Hl']. split.
  - intros Hs Hi. etrans; [by apply Ht|by apply Ht'].
  - intros Hh. destruct (Hl Hh) as [Hh2 Hv]. destruct (Hl' Hh2) as [Hh3 Hv']. split; [done|]. by etrans.
Qed.

Lemma rely_refl i σ : rely i σ σ.
Proof. split; [done|]. intros Hl. by split. Qed.

(** A step that changes no record but the replicas, and not the lock. *)
Definition inert (i : nat) σ σ' : Prop :=
  sys_moves σ σ' ∧ (solo = true → i ≠ 0 → sys_table σ ⊆ sys_table σ') ∧
  same_files (sys_catalog σ) (sys_catalog σ') ∧ sys_writeLock σ' = sys_writeLock σ.

Lemma inert_guarantee i σ σ' : inert i σ σ' → guarantee i σ σ'.
Proof. intros (? & ? & ? & E). split; [done|]. split; [done|]. intros _. by rewrite E. Qed.

Lemma moves_ok σ σ' : sys_moves σ σ' → published (sys_catalog σ') → sys_ok σ → sys_ok σ'.
Proof. intros [Hc Ht] Hp (Hw & Hi & _). split; [by eapply catalog_steps_wf|]. split; [by eapply task_steps_inv|done]. Qed.
Lemma inert_ok i σ σ' : inert i σ σ' → sys_ok σ → sys_ok σ'.
Proof.
  intros (Hm & _ & Hs & _) Hok. apply (moves_ok σ); [done| |done]. eapply published_same; [done|]. apply Hok.
Qed.

(** Assertions that the other threads and inert steps keep. *)
Class Steady (i : nat) (P : State → Prop) := {
  steady_rely :: Stable (rely i) P;
  steady_inert σ σ' : inert i σ σ' → P σ → P σ'
}.

Abbreviation keeps' i := (keeps sys_ok V (rely i) (guarantee i)).
Abbreviation triple' i := (triple (S := State) sys_ok V (rely i) (guarantee i)).

Lemma keeps_inert i P `{!Steady i P} {A} (m : GoM State A) (Post : A → Prop) :
  (∀ σ r σ', sys_ok σ → m σ = (r, σ') → inert i σ σ') →
  (∀ σ a σ', sys_ok σ → m σ = (Ok a, σ') → V σ σ' → Post a) → keeps' i P (atomic m) Post.
Proof.
  intros Hm HPost. apply (triple_call _ _ _ _ P). intros σ r σ' HP Hok _ Hrun HV.
  pose proof (Hm _ _ _ Hok Hrun) as Hi. split; [by eapply inert_ok|]. split; [by apply inert_guarantee|].
  split; [by eapply steady_inert|]. intros a ->. by eapply HPost.
Qed.

#[export] Instance steady_true i : Steady i (λ _, True).
Proof. by split. Qed.

Definition holding (i : nat) σ : Prop := sys_writeLock σ = Some i.
#[export] Instance steady_holding i : Steady i (holding i).
Proof.
  split.
  - intros σ σ' [_ Hl] Hh. by destruct (Hl Hh).
  - intros σ σ' (_ & _ & _ & E). unfold holding. by rewrite E.
Qed.
Abbreviation held i := (holding i : State → Prop).

(** The lock is held and the next version of a file is known. *)
Definition reserved (i : nat) (key : string) (v : Z) σ : Prop :=
  holding i σ ∧ next_version (sys_catalog σ) key = v.
#[export] Instance steady_reserved i key v : Steady i (reserved i key v).
Proof.
  split.
  - intros σ σ' [_ Hl] [Hh Hv]. destruct (Hl Hh) as [Hh' Hs]. split; [done|].
    by rewrite (same_files_version _ _ _ Hs).
  - intros σ σ' (_ & _ & Hs & E) [Hh Hv]. split; [unfold holding; by rewrite E|].
    by rewrite (same_files_version _ _ _ Hs).
Qed.

(** ** Calls *)

Lemma inert_same_coord i σ σ' :
  sys_coord σ' = sys_coord σ → sys_writeLock σ' = sys_writeLock σ → inert i σ σ'.
Proof. intros E El. unfold inert, sys_moves, sys_table, sys_catalog. by rewrite E. Qed.

Lemma keeps_o i P `{!Steady i P} {A} (m : GoM OS A) : keeps' i P (o_call m) (λ _, True).
Proof.
  apply (keeps_inert i P); [|done]. intros σ r σ' _ (o & _ & ->)%zoom_inv. by apply inert_same_coord.
Qed.
Lemma keeps_t i P `{!Steady i P} {A} (m : GoM TempDir A) (Post : A → Prop) :
  (∀ td a td', m td = (Ok a, td') → Post a) → keeps' i P (t_call m) Post.
Proof.
  intros HPost. apply (keeps_inert i P).
  - intros σ r σ' _ (o & _ & ->)%zoom_inv. by apply inert_same_coord.
  - intros σ a σ' _ (o & Hrun & _)%zoom_inv _. by eapply HPost.
Qed.

(** A coordinator call that leaves the tasks that are there and the files. *)
Lemma keeps_c i P `{!Steady i P} {A} (m : GoM Coord A) (Post : A → Prop) :
  (∀ c r c', m c = (r, c') → moves c c' ∧ (solo = true → i ≠ 0 → coord_table c ⊆ coord_table c') ∧
     same_files (coord_catalog c) (coord_catalog c')) →
  (∀ c a c', m c = (Ok a, c') → Post a) → keeps' i P (c_call m) Post.
Proof.
  intros Hm HPost. apply (keeps_inert i P).
  - intros σ r σ' Hok (c & Hrun & ->)%zoom_inv. destruct (Hm _ _ _ Hrun) as (? & ? & ?). by split_and!.
  - intros σ a σ' _ (c & Hrun & _)%zoom_inv _. by eapply HPost.
Qed.

Lemma mark_replica_files key n st t cat : same_files cat (cat_mark_replica key n st t cat).2.
Proof.
  intros k. unfold cat_mark_replica. destruct (cat_files cat !! key) as [meta|] eqn:E; [|done].
  destruct (fm_Replicas meta !! n); [|done]. cbn.
  destruct (decide (key = k)) as [<-|Hne]; [by rewrite lookup_insert_eq, E|by rewrite lookup_insert_ne].
Qed.
Lemma add_replica_files key n st t cat : same_files cat (cat_add_replica key n st t cat).2.
Proof.
  intros k. unfold cat_add_replica. destruct (cat_files cat !! key) as [meta|] eqn:E; [|done]. cbn.
  destruct (decide (key = k)) as [<-|Hne]; [by rewrite lookup_insert_eq, E|by rewrite lookup_insert_ne].
Qed.

Lemma keeps_meta i P `{!Steady i P} {A} (m : GoM B A) spec (Post : A → Prop) :
  refines catalog mb_fault m spec → respects coord_steps (on_metadata m : GoM Coord A) →
  (∀ t cat, same_files cat (spec t cat).2) → (∀ t cat a, (spec t cat).1 = Ok a → Post a) →
  keeps' i P (c_call (on_metadata m)) Post.
Proof using Type*.
  intros Href Hsteps Hv HPost. apply (keeps_c i P).
  - intros c r c' Hrun. pose proof (on_metadata_inv _ _ _ _ _ Href Hrun) as (Ht & _ & _ & Hcase).
    split; [by eapply coord_steps_moves, Hsteps|]. split; [by rewrite Ht|].
    destruct Hcase as [[t Hs]|(_ & -> & _)]; [|done]. specialize (Hv t (coord_catalog c)). by rewrite Hs in Hv.
  - intros c a c' Hrun. pose proof (on_metadata_inv _ _ _ _ _ Href Hrun) as (_ & _ & _ & [[t Hs]|(_ & _ & e & ?)]);
      [|done]. apply (HPost t (coord_catalog c)). by rewrite Hs.
Qed.

Lemma keeps_clock i P `{!Steady i P} : keeps' i P (c_call coord_now) (λ _, True).
Proof using Type*.
  apply (keeps_c i P); [|done]. intros c r c' Hrun. split; [by eapply coord_steps_moves, coord_now_steps|].
  pose proof (coord_now_same _ _ _ Hrun) as (Hc & Ht & _). by rewrite Hc, Ht.
Qed.
Lemma keeps_gets i P `{!Steady i P} {A} (f : Coord → A) : keeps' i P (c_call (gets f)) (λ _, True).
Proof. apply (keeps_c i P); [|done]. by intros c r c' [= _ <-]. Qed.

(** Calls on the queue that change no task that is there. *)
Lemma keeps_enqueue i P `{!Steady i P} tasks :
  Forall new_task tasks → keeps' i P (c_call (on_tasks (rq_Enqueue tasks))) (λ _, True).
Proof using Type*.
  intros Hn. apply (keeps_c i P); [|done]. intros c r c' Hrun.
  split; [by eapply coord_steps_moves, enqueue_steps|].
  pose proof (on_tasks_inv _ _ _ _ _ (rq_Enqueue_ref tasks) Hrun) as (Hc & _ & _ & Hcase).
  split; [|by rewrite Hc]. intros _ _. destruct Hcase as [[t [= _ <-]]|(_ & -> & _)]; [|done].
  apply map_subseteq_spec. intros id task Hid. by rewrite lookup_enqueue_all, Hid.
Qed.
Lemma keeps_read_tasks i P `{!Steady i P} {A} (m : GoM Q A) spec :
  refines task_table rq_fault m spec → respects coord_steps (on_tasks m : GoM Coord A) →
  (∀ t ts, (spec t ts).2 = ts) → keeps' i P (c_call (on_tasks m)) (λ _, True).
Proof using Type*.
  intros Href Hs Hspec. apply (keeps_c i P); [|done]. intros c r c' Hrun.
  split; [by eapply coord_steps_moves, Hs|].
  pose proof (on_tasks_inv _ _ _ _ _ Href Hrun) as (Hc & _ & _ & Hcase). rewrite Hc. split; [|done].
  intros _ _. destruct Hcase as [[t Ht]|(_ & -> & _)]; [|done]. specialize (Hspec t (coord_table c)).
  rewrite Ht in Hspec. cbn in Hspec. by rewrite Hspec.
Qed.

(** The calls that are inert for every thread. *)
Ltac keeps_call i P :=
  first
    [ apply (keeps_o i P) | apply (keeps_t i P); done | apply (keeps_clock i P) | apply (keeps_gets i P)
    | eapply (keeps_meta i P); [first [apply mb_HealthyNodes_ref | apply mb_GetFile_ref | apply mb_ListFiles_ref
        | apply mb_Nodes_ref | apply mb_NextVersion_ref | apply mb_UpsertNode_ref | apply mb_MarkExpiredNodes_ref
        | apply mb_MarkReplica_ref | apply mb_AddReplica_ref]
      |coord_respects|intros; first [done | apply mark_replica_files | apply add_replica_files]|done]
    | eapply (keeps_read_tasks i P); [first [apply rq_Pending_ref | apply rq_Stats_ref]
      |first [apply pending_steps | apply stats_steps]|done] ].

(** ** Writing a version *)

Lemma keeps_deleteObjects i P `{!Steady i P} n key v chunks :
  keeps' i P (deleteObjects_calls n key v chunks) (λ _, True).
Proof using Type*. unfold deleteObjects_calls. keeps_step ltac:(keeps_call i P). Qed.

Lemma keeps_WriteObject i P `{!Steady i P} n key v r :
  keeps' i P (o_call (WriteObject n key v r)) (λ cnt, ∃ data, drain (r_reads r) = (data, None) ∧
    cnt = zlen data ∧ wrote n key v data).
Proof using Type*.
  apply (keeps_inert i P).
  - intros σ r' σ' _ (o & _ & ->)%zoom_inv. by apply inert_same_coord.
  - intros σ cnt σ' _ (o & Hw & ->)%zoom_inv HV. pose proof (write_law _ _ _ _ _ _ _ Hw) as (_ & _ & Hok).
    destruct (Hok cnt eq_refl) as (data & Hd & -> & _). exists data. split; [done|]. split; [done|].
    eexists _, _, r. split; [exact HV|]. by split.
Qed.

Lemma keeps_write_chunk i P `{!Steady i P} n key v file chunks chunk :
  keeps' i P (write_chunk_calls n key v file chunks chunk) (λ _,
    wrote n (chunkObjectKey key (cm_Index chunk)) v (chunk_slice file chunk) ∧
    zlen (chunk_slice file chunk) = cm_Size chunk).
Proof using Type*.
  assert (∀ A e (Post : A → Prop), keeps' i P (deleteObjects_calls n key v chunks;; pfail e) Post) as Hfail.
  { intros A e Post. eapply prog_keeps_bind; [apply (keeps_deleteObjects i P)|]. intros _ _. apply keeps_fail. }
  unfold write_chunk_calls. apply (prog_keeps_bind _ _ _ _ _ _ _ (λ _, True)); [keeps_step ltac:(keeps_call i P)|].
  intros [[]|e|] _; [|apply Hfail|apply keeps_panic].
  apply (prog_keeps_bind _ _ _ _ _ _ _ (λ r, ∀ d, drain (r_reads r) = (d, None) → d = chunk_slice file chunk)).
  { apply (keeps_t i P). intros td r td' (rd & [= <-] & Hr)%temp_section_inv. exact Hr. }
  intros r Hr. eapply prog_keeps_bind.
  { eapply (keeps_try _ _ _ _ _ _ _ (λ res, ∀ cnt, res = Ok cnt → ∃ data, drain (r_reads r) = (data, None) ∧
      cnt = zlen data ∧ wrote n (chunkObjectKey key (cm_Index chunk)) v data));
      [apply (keeps_WriteObject i P)| |done]. by intros cnt Hc ? [= <-]. }
  intros [cnt|e|] Hc; [|apply Hfail|apply keeps_panic]. case_decide as Hn; [|apply Hfail].
  destruct (Hc cnt eq_refl) as (data & Hd & -> & Hw). rewrite <-(Hr data Hd). by apply prog_keeps_ret.
Qed.

Lemma keeps_writeChunks i P `{!Steady i P} n key v file :
  let chunks := manifest defaultChunkSize file in
  keeps' i P (writeChunks_calls n key v file chunks) (λ _, Forall2 (λ chunk piece,
    wrote n (chunkObjectKey key (cm_Index chunk)) v piece ∧
    zlen piece = cm_Size chunk ∧ checksumBytes piece = cm_Checksum chunk) chunks (pieces defaultChunkSize file)).
Proof using Type*.
  intros chunks. unfold writeChunks_calls. rewrite decide_False.
  2: { intros E%length_zero_iff_nil. by apply (manifest_nonempty _ defaultChunkSize_pos file). }
  eapply keeps_weaken; [|apply keeps_for_each_all; intros chunk Hin; apply (keeps_write_chunk i P)].
  cbn. intros _ Hall. rewrite <-(manifest_slices _ defaultChunkSize_pos file). fold chunks.
  apply Forall2_fmap_r, Forall_Forall2_diag. apply Forall_forall. intros chunk Hin.
  rewrite Forall_forall in Hall. destruct (Hall _ Hin) as [Hw Hz]. split; [done|]. split; [done|].
  apply list_elem_of_lookup in Hin as [j Hj]. pose proof (manifest_slice _ defaultChunkSize_pos _ _ _ Hj) as Hs.
  apply manifest_lookup in Hj as (p & Hp & ->). rewrite Hp in Hs. by injection Hs as <-.
Qed.

Lemma keeps_Metrics i P `{!Steady i P} : keeps' i P Metrics_calls (λ _, True).
Proof using Type*. unfold Metrics_calls, PendingTasks_calls. keeps_step ltac:(keeps_call i P). Qed.

(** ** [Get] *)

(** The bytes are those the record describes. *)
Definition verified (meta : FileMetadata) (data : bytes) : Prop :=
  zlen data = fm_Size meta ∧ checksumBytes data = fm_Checksum meta.

Lemma keeps_stageReplica i P `{!Steady i P} n meta : keeps' i P (stageReplica_calls n meta) (verified meta).
Proof using Type*.
  unfold stageReplica_calls. case_decide.
  - eapply prog_keeps_bind; [apply (keeps_o i P)|]. intros [size r] _.
    apply (prog_keeps_bind _ _ _ _ _ _ _ (λ st, st_size st = zlen (st_file st) ∧
      st_checksum st = checksumBytes (st_file st))).
    { apply (keeps_t i P). intros td st td' Hrun.
      by apply (stage_spec _ defaultChunkSize_pos) in Hrun as (_ & data & _ & ->). }
    intros st [Hs Hc]. case_match; [apply keeps_fail|]. case_match eqn:E; [apply keeps_fail|].
    apply prog_keeps_ret. apply orb_false_iff in E as [E1%bool_decide_eq_false E2%bool_decide_eq_false].
    split; [rewrite <-Hs|rewrite <-Hc]; by apply dec_stable.
  - eapply prog_keeps_bind; [by apply (keeps_t i P _ (λ _, True))|]. intros _ _.
    apply (prog_keeps_bind _ _ _ _ _ _ _ (λ acc, acc.2 = zlen acc.1)).
    + apply keeps_for_fold; [|done]. intros [staged total] chunk Hacc. unfold stage_chunk_calls.
      eapply prog_keeps_bind; [apply (keeps_o i P)|]. intros [size r] _.
      eapply prog_keeps_bind; [by apply (keeps_t i P _ (λ _, True))|]. intros data _.
      case_match; [apply keeps_fail|]. case_match; [apply keeps_fail|]. apply prog_keeps_ret.
      cbn in *. rewrite zlen_app. lia.
    + intros [staged total] Ht. cbn in Ht. case_match eqn:E; [apply keeps_fail|]. apply prog_keeps_ret.
      apply orb_false_iff in E as [E1%bool_decide_eq_false E2%bool_decide_eq_false].
      apply dec_stable in E1. apply dec_stable in E2. by split; [rewrite <-Ht|].
Qed.

Lemma keeps_get_loop i P `{!Steady i P} key meta replicas :
  keeps' i P (get_loop_calls key meta replicas) (λ r, r.2 = meta ∧ verified meta r.1).
Proof using Type*.
  induction replicas as [|replica replicas IH]; cbn [get_loop_calls]; [apply keeps_fail|].
  apply (prog_keeps_bind _ _ _ _ _ _ _ (λ r, ∀ data, r = Ok data → verified meta data)).
  { eapply keeps_try; [apply (keeps_stageReplica i P)| |done]. by intros a Ha ? [= <-]. }
  intros [data|e|] Hr; [..|apply keeps_panic].
  - eapply prog_keeps_bind; [by apply (keeps_t i P _ (λ _, True))|]. intros _ _. apply prog_keeps_ret. split; [done|]. by apply Hr.
  - eapply prog_keeps_bind; [apply (keeps_ignore _ _ _ _ _ _ (λ _, True)); keeps_call i P|]. intros _ _. apply IH.
Qed.

Lemma keeps_GetFile i P `{!Steady i P} key :
  keeps' i P (c_call (on_metadata (mb_GetFile key))) (λ found, ∀ meta, found = Some meta →
    fm_Key meta = key ∧ seen key meta ∧ (fm_Deleted meta = false → origin meta)).
Proof using Type*.
  apply (keeps_inert i P).
  - intros σ r σ' _ (c & Hrun & ->)%zoom_inv.
    pose proof (on_metadata_inv _ _ _ _ _ (mb_GetFile_ref key) Hrun) as (Ht & _ & _ & Hcase).
    split; [|split; [intros _ _; unfold sys_table; cbn; by rewrite Ht|split; [|done]]].
    + eapply coord_steps_moves, (on_metadata_steps (OpGetFile key)); [by intros|exact Hrun].
    + unfold sys_catalog. cbn. destruct Hcase as [[t [= _ <-]]|(_ & -> & _)]; done.
  - intros σ found σ' (Hw & _ & Hp) (c & Hrun & _)%zoom_inv HV meta ->.
    pose proof (on_metadata_inv _ _ _ _ _ (mb_GetFile_ref key) Hrun) as (_ & _ & _ & [[t [= Hl _]]|(_ & _ & e & ?)]);
      [|done]. split; [by apply (proj1 Hw) in Hl as [? _]|]. split; [by exists σ, σ'|]. by apply (Hp key).
Qed.

Lemma keeps_Get i P `{!Steady i P} key :
  keeps' i P (Get_calls key) (λ r, fm_Key r.2 = key ∧ fm_Deleted r.2 = false ∧ verified r.2 r.1 ∧
    seen key r.2 ∧ origin r.2).
Proof using Type*.
  unfold Get_calls. apply (prog_keeps_bind _ _ _ _ _ _ _ (λ plan, fm_Key (rd_Metadata plan) = key ∧
    fm_Deleted (rd_Metadata plan) = false ∧ seen key (rd_Metadata plan) ∧ origin (rd_Metadata plan))).
  - unfold ReadCandidates_calls. eapply prog_keeps_bind; [apply (keeps_GetFile i P)|]. intros found Hf.
    destruct found as [meta|]; [|apply keeps_fail]. destruct (fm_Deleted meta) eqn:E; [apply keeps_fail|].
    case_decide; [apply keeps_fail|]. apply prog_keeps_ret. destruct (Hf meta eq_refl) as (? & ? & Ho). by auto.
  - intros plan (? & ? & ? & ?). eapply keeps_weaken; [|apply (keeps_get_loop i P)]. by intros [data meta] [-> ?].
Qed.

(** ** Calls under the lock *)

(** A metadata call of the thread that holds the lock may change records. *)
Lemma triple_publish i (P : State → Prop) `{!Stable (rely i) P} {A} (m : GoM B A) spec (Post : A → Prop) :
  (∀ σ, P σ → holding i σ) → refines catalog mb_fault m spec →
  respects coord_steps (on_metadata m : GoM Coord A) →
  (∀ σ σ' t r, P σ → sys_ok σ → V σ σ' → spec t (sys_catalog σ) = (r, sys_catalog σ') →
     published (sys_catalog σ') ∧ ∀ a, r = Ok a → Post a) →
  triple' i P (c_call (on_metadata m)) (λ r σ, holding i σ ∧ ∀ a, r = Ok a → Post a).
Proof using Type*.
  intros Hh Href Hsteps HPost. apply (triple_call _ _ _ _ P). intros σ r σ' HP Hok _ (c & Hrun & ->)%zoom_inv HV.
  pose proof (on_metadata_inv _ _ _ _ _ Href Hrun) as (Ht & _ & _ & Hcase).
  assert (sys_moves σ (set_sys_coord c σ)) as Hst by by eapply coord_steps_moves, Hsteps.
  assert (published (sys_catalog (set_sys_coord c σ)) ∧ ∀ a, r = Ok a → Post a) as [Hp HP'].
  { destruct Hcase as [[t Hs]|(_ & Hc & e & ->)]; [by eapply (HPost σ _ t); [..|exact HV|exact Hs]|].
    split; [|done]. unfold sys_catalog. cbn. rewrite Hc. apply Hok. }
  split; [by eapply moves_ok|]. split; [|split; [by apply (Hh σ HP)|done]].
  split; [done|]. split; [intros _ _; unfold sys_table; cbn; by rewrite Ht|].
  intros Hne. by destruct Hne; apply Hh.
Qed.

Lemma triple_lock {A} i (p : Thread A) (Post : A → Prop) :
  keeps' i (holding i) p Post → keeps' i (λ _, True) (with_lock i p) Post.
Proof using Type*.
  intros Hp. unfold with_lock. eapply (triple_then _ _ _ _ _ _ _ (λ r σ, r = Ok tt ∧ holding i σ)).
  - apply (triple_call _ _ _ _ (λ _, True)). intros σ r σ' _ Hok Hr%bool_decide_eq_true [= <- <-] _.
    split; [done|]. split; [|done]. split; [done|]. split; [done|]. intros _. split; [done|].
    by rewrite Hr.
  - intros r. apply (triple_mono _ _ _ _ (λ σ, r = Ok tt ∧ holding i σ) _ _ (λ r _, ∀ a, r = Ok a → Post a));
      [done|by intros ? ? ?|].
    intros σ [-> Hh]. revert σ Hh. change (triple' i (holding i)
      (prog_then p (λ r, prog_then unlock (λ _, Ret r))) (λ r _, ∀ a, r = Ok a → Post a)).
    eapply triple_then; [exact Hp|]. intros r.
    eapply (triple_then _ _ _ _ _ _ _ (λ _ _, ∀ a, r = Ok a → Post a)); [|intros ?; by apply triple_ret].
    intros σ [Hh HPost]. revert σ Hh. change (triple' i (holding i) unlock (λ _ _, ∀ a, r = Ok a → Post a)).
    apply (triple_call _ _ _ _ (holding i)). intros σ r' σ' Hh Hok _ [= <- <-] _. split; [done|]. split; [|done].
    split; [done|]. split; [done|]. intros Hne. by destruct Hne.
Qed.

(** What a write was prepared for. *)
Definition prepared_for (key : string) (size : Z) (sum : string) (chunks : list ChunkMetadata)
    (p : PreparedWrite) : Prop :=
  pw_Key p = key ∧ pw_Size p = size ∧ pw_Checksum p = sum ∧ pw_Chunks p = chunks.

Lemma triple_PrepareWrite i key size sum chunks :
  triple' i (holding i) (PrepareWrite_calls key size sum chunks) (λ r σ, holding i σ ∧
    ∀ p, r = Ok p → prepared_for key size sum chunks p ∧ reserved i key (pw_Version p) σ).
Proof using Type*.
  unfold PrepareWrite_calls.
  apply (triple_keeps _ _ _ _ _ _ _ (λ _, True)); [keeps_call i (held i)| |done|done]. intros nodes _.
  apply (triple_keeps _ _ _ _ _ _ _ (λ _, True)); [keeps_call i (held i)| |done|done]. intros planner _.
  apply (triple_keeps _ _ _ _ _ _ _ (λ _, True)); [by apply keeps_res| |done|done]. intros plan _.
  apply (triple_bind _ _ _ _ _ _ _ (λ v, reserved i key v) (holding i)); [| |done|done].
  - apply (triple_call _ _ _ _ (holding i)). intros σ r σ' Hh Hok _ (c & Hrun & ->)%zoom_inv _.
    pose proof (on_metadata_inv _ _ _ _ _ (mb_NextVersion_ref key) Hrun) as (Ht & _ & _ & Hcase).
    assert (inert i σ (set_sys_coord c σ)) as Hi.
    { split; [|split; [intros _ _; unfold sys_table; cbn; by rewrite Ht|split; [|done]]].
      - eapply coord_steps_moves, (on_metadata_steps (OpNextVersion key)); [by intros|exact Hrun].
      - unfold sys_catalog. cbn. destruct Hcase as [[t [= _ <-]]|(_ & -> & _)]; done. }
    split; [by eapply inert_ok|]. split; [by apply inert_guarantee|]. split; [done|]. intros v ->.
    split; [done|]. destruct Hcase as [[t [= <- Hc]]|(_ & _ & e & ?)]; [|done].
    unfold sys_catalog. cbn. rewrite <-Hc. unfold next_version. by rewrite version_of_next.
  - intros v σ [Hh Hv]. split; [done|]. intros p [= <-]. split; [|done]. by rewrite cloneChunkMetadata_id.
Qed.

(** The data of a prepared write is with the primary. *)
Definition ready_to_commit (p : PreparedWrite) (data : bytes) : Prop :=
  prepared_for (pw_Key p) (zlen data) (checksumBytes data) (manifest defaultChunkSize data) p ∧
  Forall2 (λ chunk piece,
    wrote (nm_ID (pw_Primary p)) (chunkObjectKey (pw_Key p) (cm_Index chunk)) (pw_Version p) piece ∧
    zlen piece = cm_Size chunk ∧ checksumBytes piece = cm_Checksum chunk)
    (manifest defaultChunkSize data) (pieces defaultChunkSize data).

(** What a [Put] replies with. *)
Definition put_record (key : string) (data : bytes) (meta : FileMetadata) : Prop :=
  fm_Key meta = key ∧ fm_Deleted meta = false ∧ committed_as key meta ∧ stored_as meta data.

Lemma published_insert cat key meta :
  published cat → (fm_Deleted meta = false → origin meta) →
  published (cat_set_files cat (<[key := meta]> (cat_files cat))).
Proof.
  intros Hp Hm k m Hl Hd. cbn in Hl. apply lookup_insert_Some in Hl as [[_ <-]|[_ Hl]]; [by apply Hm|].
  by apply (Hp k).
Qed.

(** What is published has the version that was reserved. *)
Lemma triple_CommitWrite i p data :
  ready_to_commit p data →
  triple' i (reserved i (pw_Key p) (pw_Version p)) (CommitWrite_calls p) (λ r σ, holding i σ ∧
    ∀ plan, r = Ok plan → put_record (pw_Key p) data (wp_Metadata plan)).
Proof using Type*.
  intros [(_ & Hsize & Hsum & Hchunks) Hw]. unfold CommitWrite_calls.
  apply (triple_bind _ _ _ _ _ _ _ (λ meta _, put_record (pw_Key p) data meta) (holding i)); [| |done|done].
  - apply (triple_publish i (reserved i (pw_Key p) (pw_Version p)) _
      (cat_begin (pw_Key p) (pw_Size p) (pw_Checksum p) (pw_Chunks p) (nm_ID (pw_Primary p))
         (nm_ID <$> pw_Replicas p)) (put_record (pw_Key p) data)).
    + by intros σ [? _].
    + apply mb_BeginFileVersion_ref.
    + coord_respects.
    + intros σ σ' t r [_ Hv] (_ & _ & Hp) HV [= <- Hc].
      assert ((nextVersionLocked (cat_files (sys_catalog σ)) (pw_Key p) t).1 = pw_Version p) as Hn
        by (rewrite version_of_next; exact Hv).
      match type of Hc with cat_set_files _ (<[_ := ?m]> _) = _ => set (meta := m) in * end.
      assert (stored_as meta data) as Hst.
      { unfold stored_as, meta. cbn. rewrite Hn, cloneChunkMetadata_id, Hsize, Hsum, Hchunks.
        split; [done|]. split; [done|]. split; [apply manifest_nonempty, defaultChunkSize_pos|].
        eexists. split; [apply concat_pieces, defaultChunkSize_pos|exact Hw]. }
      split; [rewrite <-Hc; apply published_insert; [done|]; intros _; left; by exists data|].
      intros a [= <-]. split; [done|]. split; [done|]. split; [|done].
      exists σ, σ'. split; [done|]. split; [by rewrite <-Hv in Hn|]. rewrite <-Hc. apply lookup_insert_eq.
  - intros meta. apply (triple_mono _ _ _ _ (λ σ, holding i σ ∧ put_record (pw_Key p) data meta) _ _
      (λ r σ, holding i σ ∧ ∀ plan, r = Ok plan → put_record (pw_Key p) data (wp_Metadata plan))); [done|done|].
    intros σ [Hh Hv]. revert σ Hh.
    change (keeps' i (holding i) (t ← c_call coord_now; tasks ← Ret (TasksForFile meta t);
      c_call (on_tasks (rq_Enqueue tasks));;
      mret {| wp_Metadata := meta; wp_Primary := pw_Primary p; wp_Replicas := pw_Replicas p; wp_Tasks := tasks |})
      (λ plan, put_record (pw_Key p) data (wp_Metadata plan))).
    eapply prog_keeps_bind; [apply (keeps_clock i (held i))|]. intros t _.
    apply (prog_keeps_bind _ _ _ _ _ _ _ (Forall new_task)).
    { apply keeps_res. intros tasks. apply TasksForFile_new. }
    intros tasks Hn. eapply prog_keeps_bind; [by apply (keeps_enqueue i (held i))|]. intros _ _. by apply prog_keeps_ret.
Qed.

Lemma keeps_Put i key reads :
  keeps' i (holding i) (Put_calls key reads) (λ meta, ∃ data, drain reads = (data, None) ∧ put_record key data meta).
Proof using Type*.
  unfold Put_calls. apply (triple_keeps _ _ _ _ _ _ _ (λ st, ∃ data, drain reads = (data, None) ∧
    st = {| st_file := data; st_size := zlen data; st_checksum := checksumBytes data;
            st_chunks := manifest defaultChunkSize data |})); [| |done|done].
  { apply (keeps_t i (held i)). intros td st td' Hrun. by apply (stage_spec _ defaultChunkSize_pos) in Hrun as [_ ?]. }
  intros ? (data & Hd & ->). cbv beta zeta iota delta [st_file st_size st_checksum st_chunks].
  apply (triple_bind _ _ _ _ _ _ _ (λ p σ, prepared_for key (zlen data) (checksumBytes data)
    (manifest defaultChunkSize data) p ∧ reserved i key (pw_Version p) σ) (holding i));
    [apply triple_PrepareWrite| |done|done].
  intros p. apply (triple_mono _ _ _ _ (λ σ, prepared_for key (zlen data) (checksumBytes data)
    (manifest defaultChunkSize data) p ∧ reserved i key (pw_Version p) σ) _ _
    (λ r σ, holding i σ ∧ ∀ meta, r = Ok meta → ∃ data, drain reads = (data, None) ∧ put_record key data meta));
    [by intros σ [_ ?]|done|].
  intros σ [Hp Hr]. revert σ Hr. pose proof Hp as (Hk & Hp').
  eapply (triple_keeps _ _ _ _ (reserved i key (pw_Version p)));
    [apply (keeps_writeChunks i (reserved i key (pw_Version p)))| |by intros ? ? [? _]|by intros ? [? _]].
  cbn beta. intros _ Hw.
  assert (ready_to_commit p data) as Hready by (rewrite <-Hk in Hw; by split; [split|]).
  apply (triple_bind _ _ _ _ _ _ _ (λ r _, ∀ plan, r = Ok plan → put_record key data (wp_Metadata plan))
    (holding i)); [| |done|done].
  - rewrite <-Hk. eapply triple_then; [by apply triple_CommitWrite|].
    intros [plan|e|] σ [Hh Hv]; (split; [done|]); [..|done]; by intros r [= <-].
  - intros [plan|e|].
    + intros σ [Hh Hv]. split; [done|]. intros x [= <-]. exists data. split; [done|]. by apply Hv.
    + intros σ [Hh _]. revert σ Hh. change (keeps' i (holding i)
        (deleteObjects_calls (nm_ID (pw_Primary p)) key (pw_Version p) (manifest defaultChunkSize data);; pfail e)
        (λ meta : FileMetadata, ∃ data, drain reads = (data, None) ∧ put_record key data meta)).
      eapply prog_keeps_bind; [apply (keeps_deleteObjects i (held i))|]. intros _ _. apply keeps_fail.
    + by intros σ [Hh _].
Qed.

(** What a [Delete] replies with. *)
Definition delete_record (key : string) (meta : FileMetadata) : Prop :=
  fm_Key meta = key ∧ fm_Deleted meta = true ∧ committed_as key meta.

Lemma keeps_Delete i key : keeps' i (holding i) (Delete_calls key) (delete_record key).
Proof using Type*.
  unfold Delete_calls. apply (prog_keeps_bind _ _ _ _ _ _ _ (λ _, True)); [keeps_call i (held i)|].
  intros [meta|] _; [|apply keeps_fail]. apply (prog_keeps_bind _ _ _ _ _ _ _ (delete_record key)).
  - apply (triple_publish i (held i) _ (cat_tombstone key) (delete_record key));
      [done|apply mb_Tombstone_ref|coord_respects|].
    intros σ σ' t r _ (Hw & _ & Hp) HV. unfold cat_tombstone.
    destruct (cat_files (sys_catalog σ) !! key) as [m|] eqn:E; intros [= <- Hc]; [|by rewrite <-Hc].
    split; [rewrite <-Hc; by apply published_insert|]. intros a [= <-].
    split; [by apply (proj1 Hw) in E as [? _]|]. split; [done|]. exists σ, σ'. split; [done|].
    split; [|rewrite <-Hc; apply lookup_insert_eq]. unfold next_version, version_of. by rewrite E.
  - intros deleted Hd. eapply prog_keeps_bind; [|intros _ _; by apply prog_keeps_ret].
    keeps_step ltac:(apply (keeps_deleteObjects i (held i))).
Qed.

(** ** Workers *)

Section worker.
(** The thread is the only worker, or one of several. *)
Context (i : nat) (Hi : solo = true → i = 0).

Lemma keeps_tasks {A} (m : GoM Q A) spec :
  refines task_table rq_fault m spec → respects coord_steps (on_tasks m : GoM Coord A) →
  keeps' i (λ _, True) (c_call (on_tasks m)) (λ _, True).
Proof using Type*.
  intros Href Hs. apply (keeps_c i (λ _, True)); [|done]. intros c r c' Hrun.
  split; [by eapply coord_steps_moves, Hs|].
  pose proof (on_tasks_inv _ _ _ _ _ Href Hrun) as (Hc & _). rewrite Hc. split; [|done].
  intros Hsolo Hne. by destruct Hne; apply Hi.
Qed.

Lemma keeps_Replicate task : keeps' i (λ _, True) (Replicate_calls task) (λ _, True).
Proof using Type*.
  unfold Replicate_calls, replicateChunks_calls, replicate_chunk_calls, deleteChunkObjects_calls.
  keeps_step ltac:(keeps_call i (λ _ : State, True)).
Qed.
Lemma keeps_FinishReplication id : keeps' i (λ _, True) (FinishReplication_calls id) (λ _, True).
Proof using Type*.
  unfold FinishReplication_calls. keeps_step ltac:(first
    [eapply keeps_tasks; [apply rq_MarkDone_ref|apply mark_done_steps] | keeps_call i (λ _ : State, True)]).
Qed.
Lemma keeps_FailReplication id cause : keeps' i (λ _, True) (FailReplication_calls id cause) (λ _, True).
Proof using Type*.
  unfold FailReplication_calls. keeps_step ltac:(first
    [eapply keeps_tasks; [apply rq_MarkFailed_ref|apply mark_failed_steps] | keeps_call i (λ _ : State, True)]).
Qed.

(** The tasks are pending, and stay so for the only worker. *)
Definition picked (pending : list ReplicationTask) σ : Prop :=
  solo = true →
  ∀ task, task ∈ pending → sys_table σ !! rt_ID task = Some task ∧ rt_State task = ReplicationTaskPending.
Lemma stable_picked pending : Stable (rely i) (picked pending).
Proof using Hi.
  intros σ σ' [Ht _] Hp Hsolo task Hin. destruct (Hp Hsolo task Hin) as [Hl Hs]. split; [|done].
  eapply lookup_weaken; [done|]. by apply Ht; [|apply Hi].
Qed.

Lemma inert_tasks σ c : moves (sys_coord σ) c → coord_catalog c = sys_catalog σ → inert i σ (set_sys_coord c σ).
Proof using Hi.
  intros Hm Hc. split; [done|]. split; [intros Hsolo Hne; by destruct Hne; apply Hi|]. split; [|done].
  unfold sys_catalog. cbn. by rewrite Hc.
Qed.

Lemma triple_PendingTasks :
  triple' i (λ _, True) (c_call PendingTasks) (λ r σ, True ∧ ∀ pending, r = Ok pending → picked pending σ).
Proof using Type*.
  apply (triple_call _ _ _ _ (λ _, True)). intros σ r σ' _ Hok _ (c & Hrun & ->)%zoom_inv _.
  pose proof (pending_steps _ _ _ Hrun) as Hst.
  pose proof (on_tasks_inv _ _ _ _ _ rq_Pending_ref Hrun) as (Hc & _ & _ & Hcase).
  assert (inert i σ (set_sys_coord c σ)) as Hin by (apply inert_tasks; [by apply coord_steps_moves|done]).
  split; [by eapply inert_ok|]. split; [by apply inert_guarantee|]. split; [done|].
  intros pending -> Hsolo task Htask. destruct Hok as (_ & Htab & _). rewrite Hsolo in Htab.
  apply PendingTasks_ok in Hrun as (_ & Ht & Hp); [|apply Htab].
  destruct (Hp task Htask) as [? ?]. unfold sys_table. cbn. by rewrite Ht.
Qed.

Lemma start_moves id c r c' :
  (solo = true → ∀ task, coord_table c !! id = Some task → rt_State task = ReplicationTaskPending) →
  StartReplication id c = (r, c') → moves c c'.
Proof using HQ.
  clear Hi. intros Hp Hrun. destruct solo eqn:E; [by eapply coord_steps_moves, start_steps; [apply Hp|]|].
  pose proof (on_tasks_inv _ _ _ _ _ (rq_MarkRunning_ref id) Hrun) as (Hc & _ & _ & Hcase).
  split; [by rewrite Hc|]. rewrite E. destruct Hcase as [[t Ht]|(_ & -> & _)]; [|done].
  unfold tab_update in Ht. destruct (coord_table c !! id) as [task|] eqn:El; injection Ht as _ <-; [|done].
  apply rtc_once. by apply worker_restart.
Qed.

Lemma triple_StartReplication task pending :
  triple' i (picked (task :: pending)) (c_call (StartReplication (rt_ID task))) (λ _ _, True).
Proof using Type*.
  pose proof (stable_picked (task :: pending)) as Hstable.
  apply (triple_call _ _ _ _ (picked (task :: pending))). intros σ r σ' Hp Hok _ (c & Hrun & ->)%zoom_inv _.
  assert (moves (sys_coord σ) c) as Hm.
  { eapply start_moves; [|exact Hrun]. intros Hsolo t Ht. destruct (Hp Hsolo task) as [Hl Hs]; [by left|].
    unfold sys_table in Hl. congruence. }
  pose proof (on_tasks_inv _ _ _ _ _ (rq_MarkRunning_ref _) Hrun) as (Hc & _).
  assert (inert i σ (set_sys_coord c σ)) as Hin by by apply inert_tasks.
  split; [by eapply inert_ok|]. split; [by apply inert_guarantee|done].
Qed.

Lemma keeps_WorkOnce : keeps' i (λ _, True) WorkOnce_calls (λ _, True).
Proof using Type*.
  unfold WorkOnce_calls. apply (triple_bind _ _ _ _ _ _ _ picked (λ _, True)); [apply triple_PendingTasks| |done|done].
  intros [|task pending]; [by intros σ _|].
  apply (triple_bind _ _ _ _ _ _ _ (λ _ _, True) (λ _, True)); [| |done|done].
  - eapply triple_mono; [| |apply (triple_StartReplication task pending)]; [by intros σ [_ ?]|done].
  - intros started σ _. revert σ.
    enough (keeps' i (λ _, True) (copied ← ptry (Replicate_calls started);
      match copied with
      | Ok _ => '(_, doneTask) ← FinishReplication_calls (rt_ID started); mret (doneTask, None)
      | Err err => '(_, failedTask) ← FailReplication_calls (rt_ID started) (Some err); mret (failedTask, Some err)
      | Panic => ppanic
      end) (λ _, True)) as Hk by (intros σ; by apply Hk).
    keeps_step ltac:(first [apply keeps_Replicate | apply keeps_FinishReplication | apply keeps_FailReplication]).
Qed.
End worker.

(** ** The manager loop *)

Lemma keeps_repair_missing P `{!Steady 0 P} meta source n nodes tasks :
  Forall new_task tasks → keeps' 0 P (repair_missing_calls meta source n nodes tasks) (Forall new_task).
Proof using Type*.
  revert tasks. induction nodes as [|node nodes IH]; intros tasks Ht; cbn [repair_missing_calls];
    [by apply prog_keeps_ret|].
  case_match; [by apply prog_keeps_ret|]. case_match; [by apply IH|].
  apply (prog_keeps_bind _ _ _ _ _ _ _ (λ _, True)).
  { eapply (keeps_try _ _ _ _ _ _ (λ _, True)); [keeps_call 0 P|done|done]. }
  intros [a|e|] _; [|by apply IH..].
  eapply prog_keeps_bind; [apply (keeps_clock 0 P)|]. intros created _.
  eapply prog_keeps_bind; [apply (keeps_clock 0 P)|]. intros updated _. by apply IH, new_task_snoc.
Qed.

Lemma keeps_repair_file P `{!Steady 0 P} nodes tasks meta :
  Forall new_task tasks → keeps' 0 P (repair_file_calls nodes tasks meta) (Forall new_task).
Proof using Type*.
  intros Ht. unfold repair_file_calls. case_match; [by apply prog_keeps_ret|]. cbv zeta.
  case_decide; [by apply prog_keeps_ret|]. apply (prog_keeps_bind _ _ _ _ _ _ _ (Forall new_task)).
  { unfold repairExistingReplicas_calls. apply keeps_for_fold; [|done]. intros ts [nodeID r] Hts.
    case_match; [by apply prog_keeps_ret|].
    eapply prog_keeps_bind; [apply (keeps_clock 0 P)|]. intros created _.
    eapply prog_keeps_bind; [apply (keeps_clock 0 P)|]. intros updated _. by apply prog_keeps_ret, new_task_snoc. }
  intros ex Hex. apply (prog_keeps_bind _ _ _ _ _ _ _ (Forall new_task)).
  { unfold repairMissingReplicas_calls. eapply prog_keeps_bind; [apply (keeps_gets 0 P)|]. intros planner _.
    case_match; [by apply prog_keeps_ret|]. by apply (keeps_repair_missing P). }
  intros ms Hms. apply prog_keeps_ret. by rewrite !Forall_app.
Qed.

Lemma keeps_PlanRepair P `{!Steady 0 P} : keeps' 0 P PlanRepair_calls (λ _, True).
Proof using Type*.
  unfold PlanRepair_calls. apply (prog_keeps_bind _ _ _ _ _ _ _ (λ _, True)); [keeps_call 0 P|]. intros nodes _.
  case_decide; [by apply prog_keeps_ret|].
  apply (prog_keeps_bind _ _ _ _ _ _ _ (λ _, True)); [keeps_call 0 P|]. intros files _.
  apply (prog_keeps_bind _ _ _ _ _ _ _ (Forall new_task)).
  { apply keeps_for_fold; [|done]. intros ts meta Hts. by apply (keeps_repair_file P). }
  intros tasks Hn. eapply prog_keeps_bind; [by apply (keeps_enqueue 0 P)|]. intros _ _. by apply prog_keeps_ret.
Qed.

Lemma keeps_run_tasks fuel : keeps' 0 (λ _, True) (run_tasks_calls fuel) (λ _, True).
Proof using Type*.
  induction fuel as [|fuel IH]; cbn [run_tasks_calls]; [by apply prog_keeps_ret|].
  keeps_step ltac:(first [apply (keeps_WorkOnce 0 (λ _, eq_refl)) | apply IH]).
Qed.

Lemma keeps_managerLoop ticks : keeps' 0 (λ _, True) (managerLoop ticks) (λ _, True).
Proof using Type*.
  induction ticks as [|fuel ticks IH]; cbn [managerLoop]; [by apply prog_keeps_ret|]. unfold manager_tick_calls.
  keeps_step ltac:(first [apply keeps_run_tasks | apply IH | apply (keeps_PlanRepair (λ _, True))
    | eapply (keeps_tasks 0 (λ _, eq_refl)); [apply rq_RequeueExpiredRunning_ref|apply requeue_steps]
    | keeps_call 0 (λ _ : State, True)]).
Qed.

(** ** Requests *)

(** What a reply to a request promises. *)
Definition reply_ok (req : ClientRequest) (reply : Reply) : Prop :=
  match req, reply with
  | ReqPut key reads, ReplyPut meta => ∃ data, drain reads = (data, None) ∧ put_record key data meta
  | ReqGet key, ReplyGet data meta =>
      fm_Key meta = key ∧ fm_Deleted meta = false ∧ verified meta data ∧ seen key meta ∧ origin meta
  | ReqDelete key, ReplyDelete meta => delete_record key meta
  | ReqMetadata key, ReplyMetadata found => ∀ meta, found = Some meta →
      fm_Key meta = key ∧ seen key meta ∧ (fm_Deleted meta = false → origin meta)
  | ReqPut _ _, _ | ReqGet _, _ | ReqDelete _, _ | ReqMetadata _, _ => False
  | _, _ => True
  end.

Lemma keeps_client httpStore i req :
  (solo = true → req ≠ ReqReplicationRun) → keeps' i (λ _, True) (client_thread httpStore i req) (reply_ok req).
Proof using Type*.
  intros Hreq. destruct req as [id address|key reads|key|key|key| | |]; unfold client_thread.
  - apply (prog_keeps_bind _ _ _ _ _ _ _ (λ _, True)); [|intros; by apply prog_keeps_ret].
    unfold heartbeat_thread. keeps_step ltac:(keeps_call i (λ _ : State, True)).
  - eapply prog_keeps_bind; [apply triple_lock, keeps_Put|]. intros meta Hm. by apply prog_keeps_ret.
  - eapply prog_keeps_bind; [apply (keeps_Get i (λ _, True))|]. intros [data meta] Hg. by apply prog_keeps_ret.
  - eapply prog_keeps_bind; [apply triple_lock, keeps_Delete|]. intros meta Hm. by apply prog_keeps_ret.
  - eapply prog_keeps_bind; [apply (keeps_GetFile i (λ _, True))|]. intros found Hf. by apply prog_keeps_ret.
  - apply (prog_keeps_bind _ _ _ _ _ _ _ (λ _, True)); [keeps_call i (λ _ : State, True)|]. intros. by apply prog_keeps_ret.
  - eapply prog_keeps_bind; [apply (keeps_Metrics i (λ _, True))|]. intros. by apply prog_keeps_ret.
  - eapply prog_keeps_bind; [apply (keeps_WorkOnce i)|]. { intros Hs. by destruct (Hreq Hs). }
    intros [task err] _. by apply prog_keeps_ret.
Qed.

Lemma keeps_manager ticks : keeps' 0 (λ _, True) (manager_thread ticks) (λ _, True).
Proof using Type*. eapply prog_keeps_bind; [apply keeps_managerLoop|]. intros. by apply prog_keeps_ret. Qed.

(** The result of thread [i]. *)
Definition thread_result (reqs : list ClientRequest) (i : nat) (r : Res Reply) : Prop :=
  ∀ j req reply, i = S j → reqs !! j = Some req → r = Ok reply → reply_ok req reply.

Lemma process_safe httpStore ticks reqs σ :
  (solo = true → Forall (λ req, req ≠ ReqReplicationRun) reqs) →
  pool_safe sys_ok V rely guarantee (thread_result reqs) (manager_process httpStore ticks reqs) σ.
Proof using Type*.
  intros Hreqs [|i] p Hp.
  - injection Hp as <-. eapply safe_mono; [|by apply (keeps_manager ticks)]. by intros r s _ j.
  - change (imap (λ i req, client_thread httpStore (S i) req) reqs !! i = Some p) in Hp.
    rewrite list_lookup_imap in Hp. destruct (reqs !! i) as [req|] eqn:E; [|done]. injection Hp as <-.
    eapply safe_mono; [|apply keeps_client; [|done]].
    + intros r s [_ Hr] j req' reply [= <-] E' ->. rewrite E in E'. injection E' as <-. by apply Hr.
    + intros Hs. by apply (Forall_lookup_1 _ _ _ _ (Hreqs Hs) E).
Qed.
End interleave.

(** ** Every schedule *)

Section process.
Context {B Q OS : Type} `{HB : MetadataBackendLaws B} `{HQ : ReplicationTaskQueueLaws Q}
  `{HO : ObjectStoreLaws OS}.
Implicit Types (σ : Sys B Q OS) (s : ManagedFileService B Q OS).

(** The composition: what holds of every run of a process. *)
Lemma process_steps solo httpStore ticks reqs s pool σ :
  let start := (manager_process httpStore ticks reqs, alone s) in
  let V := during start (pool, σ) in let base := coord_catalog (sv_coordinator s) in
  coord_ok (sv_coordinator s) → (solo = true → Forall (λ req, req ≠ ReqReplicationRun) reqs) →
  rtc pool_step start (pool, σ) →
  sys_ok solo base V σ ∧ sys_moves solo (alone s) σ ∧
  ∀ i r, pool !! i = Some (Ret r) → thread_result base V reqs i r.
Proof using Type*.
  intros start V base [Hw Ht] Hreqs Hsteps.
  apply (pool_safe_steps (sys_ok solo base V) V (rely solo) (guarantee solo) (thread_result base V reqs)
    (sys_moves solo) (guarantee_rely solo) (λ i σ σ' Hg, proj1 Hg)
    _ _ (λ i σ _, rely_refl solo i σ) (λ σ1 σ2 Hd, Hd) Hsteps); [|by apply process_safe].
  split; [done|]. split; [by destruct solo; [|apply table_ok_shaped]|].
  intros key meta Hl _. right. by exists key, meta.
Qed.

(** C4: any number of requests of every kind and the manager loop, their calls
    interleaved in any order.  The metadata stays well formed and changes only by
    the operations of the metadata store.  Tasks keep their IDs and the leases and
    retry times of their states, a pending task has attempts left, a dead one has
    none, and the state [failed] is never reached.  If no request is a
    [/replication/run], so that the manager loop is the only worker, the task
    table moves by the steps of the life cycle of tasks only and keeps its whole
    invariant, with the bound on attempts, which several workers can break. *)
Theorem interleaving_keeps_invariant httpStore ticks reqs s pool σ :
  coord_ok (sv_coordinator s) → rtc pool_step (manager_process httpStore ticks reqs, alone s) (pool, σ) →
  catalog_wf (sys_catalog σ) ∧ rtc catalog_step (coord_catalog (sv_coordinator s)) (sys_catalog σ) ∧
  table_shaped (sys_table σ) ∧ rtc worker_step (coord_table (sv_coordinator s)) (sys_table σ) ∧
  (Forall (λ req, req ≠ ReqReplicationRun) reqs →
     table_ok (sys_table σ) ∧ rtc table_step (coord_table (sv_coordinator s)) (sys_table σ)).
Proof using Type*.
  intros Hok Hsteps.
  destruct (process_steps false httpStore ticks reqs s pool σ Hok) as ((Hw & Ht & _) & [Hcs Hts] & _); [done|done|].
  do 4 (split; [done|]). intros Hreqs.
  destruct (process_steps true _ _ _ _ _ _ Hok (λ _, Hreqs) Hsteps) as ((_ & Ht' & _) & [_ Hts'] & _). by split.
Qed.

(** C5: in every interleaving, whatever calls fail: a live record of the catalog
    was there in the beginning, up to the states of its replicas, or all the data
    that it describes was written to its primary before, in calls on the object
    store that succeeded, under the version of the record itself, and the chunks
    have the sizes and checksums of its manifest.  So no version is ever published
    whose objects were not written first. *)
Theorem interleaved_publication httpStore ticks reqs s pool σ key meta :
  let start := (manager_process httpStore ticks reqs, alone s) in
  coord_ok (sv_coordinator s) → rtc pool_step start (pool, σ) →
  cat_files (sys_catalog σ) !! key = Some meta → fm_Deleted meta = false →
  (∃ meta0, cat_files (coord_catalog (sv_coordinator s)) !! key = Some meta0 ∧ content meta0 = content meta) ∨
  ∃ data, stored_as (during start (pool, σ)) meta data.
Proof using Type*.
  intros start Hok Hsteps Hl Hd.
  destruct (process_steps false httpStore ticks reqs s pool σ Hok) as ((Hw & _ & Hp) & _); [done|done|].
  destruct (Hp key meta Hl Hd) as [Hs|(key0 & meta0 & Hb & E)]; [by right|left]. exists meta0. split; [|done].
  apply (proj1 Hw) in Hl as [<- _]. pose proof (proj1 (proj1 Hok) _ _ Hb) as [<- _].
  rewrite <-Hb. f_equal. by injection E as ->.
Qed.

(** C6: in every interleaving, what a request that succeeds replies with.  [Put]:
    the record it made the current one of the key, as the next version, with the
    size and checksum of the upload, whose chunks were written to the primary
    under that very version.  [Get]: bytes of the size and with the checksum of a live record that
    was the current one of the key at some point of the run, whose data was
    written in the run or which is one of the beginning.  [Delete]: the tombstone
    it made the current record of the key, as the next version.  Metadata: a
    record that was the current one. *)
Theorem interleaved_replies httpStore ticks reqs s pool σ i req reply :
  let start := (manager_process httpStore ticks reqs, alone s) in
  let V := during start (pool, σ) in
  coord_ok (sv_coordinator s) → rtc pool_step start (pool, σ) →
  reqs !! i = Some req → pool !! S i = Some (Ret (Ok reply)) →
  match req, reply with
  | ReqPut key reads, ReplyPut meta => ∃ data, drain reads = (data, None) ∧
      fm_Key meta = key ∧ fm_Deleted meta = false ∧ committed_as V key meta ∧ stored_as V meta data
  | ReqGet key, ReplyGet data meta =>
      fm_Key meta = key ∧ fm_Deleted meta = false ∧
      (zlen data = fm_Size meta ∧ checksumBytes data = fm_Checksum meta) ∧
      seen V key meta ∧ origin (coord_catalog (sv_coordinator s)) V meta
  | ReqDelete key, ReplyDelete meta => fm_Key meta = key ∧ fm_Deleted meta = true ∧ committed_as V key meta
  | ReqMetadata key, ReplyMetadata found => ∀ meta, found = Some meta →
      fm_Key meta = key ∧ seen V key meta ∧
      (fm_Deleted meta = false → origin (coord_catalog (sv_coordinator s)) V meta)
  | ReqPut _ _, _ | ReqGet _, _ | ReqDelete _, _ | ReqMetadata _, _ => False
  | _, _ => True
  end.
Proof using Type*.
  intros start V Hok Hsteps Hreq Hi.
  destruct (process_steps false httpStore ticks reqs s pool σ Hok) as (_ & _ & Hr); [done|done|].
  exact (Hr _ _ Hi i req reply eq_refl Hreq eq_refl).
Qed.
End process.
