(* ===== verification/Progress.v ===== *)
(** * The threads of a manager do not block each other for good.

    [Put] and [Delete] wait for [writeLock]; nothing else waits.  Each thread
    takes the mutex only when it does not hold it and gives it back before it
    ends, also on an error, so the thread that holds it can always go on, and a
    request is answered by turns of its own thread and of that one. *)

From S2P Require Import Prelude Metadata Replication Backend Names Objects Staging Coordinator Service Manager Threads ServiceThreads.
From stdpp Require Import options.

Lemma pool_steps_length {S A} (c c' : list (Prog S A) * S) : rtc pool_step c c' → length c'.1 = length c.1.
Proof.
  induction 1 as [|c1 c2 c3 Hstep _ IH]; [done|]. rewrite IH. inv Hstep. cbn. by rewrite length_insert.
Qed.

(** ** A mutex *)

Section mutex.
Context {S : Type} (holder : S → option nat).

(** A program that waits for nothing and leaves the mutex alone. *)
Fixpoint lock_free {A} (p : Prog S A) : Prop :=
  match p with
  | Ret _ => True
  | Call ready m k =>
      (∀ s, ready s = true ∧ holder (m s).2 = holder s) ∧ ∀ r, lock_free (k r)
  end.

(** A thread that takes the mutex when it does not hold it, gives it back when it
    does, and does not hold it in the end. *)
Fixpoint disciplined (i : nat) (holds : bool) {A} (p : Prog S A) : Prop :=
  match p with
  | Ret _ => holds = false
  | Call ready m k =>
      (∀ s, ready s = true ∧ holder (m s).2 = holder s) ∧ (∀ s, disciplined i holds (k (m s).1)) ∨
      holds = false ∧ (∀ s, ready s = bool_decide (holder s = None) ∧ holder (m s).2 = Some i) ∧
        (∀ s, disciplined i true (k (m s).1)) ∨
      holds = true ∧ (∀ s, ready s = true ∧ holder (m s).2 = None) ∧ (∀ s, disciplined i false (k (m s).1))
  end.

Lemma lock_free_then {A B} (p : Prog S A) (k : Res A → Prog S B) :
  lock_free p → (∀ r, lock_free (k r)) → lock_free (prog_then p k).
Proof. intros Hp Hk. induction p as [r|X ready m k' IH]; cbn in *; [done|]. destruct Hp. eauto. Qed.

Lemma lock_free_bind {A B} (p : Prog S A) (k : A → Prog S B) :
  lock_free p → (∀ a, lock_free (k a)) → lock_free (p ≫= k).
Proof. intros Hp Hk. apply lock_free_then; [done|]. by intros []. Qed.
Lemma lock_free_try {A} (p : Prog S A) : lock_free p → lock_free (ptry p).
Proof. intros Hp. apply lock_free_then; [done|]. by intros []. Qed.
Lemma lock_free_ignore {A} (p : Prog S A) : lock_free p → lock_free (pignore p).
Proof. intros Hp. apply lock_free_then; [done|]. by intros []. Qed.
Lemma lock_free_for_each {A} (xs : list A) (body : A → Prog S unit) :
  (∀ x, lock_free (body x)) → lock_free (pfor_each xs body).
Proof. intros Hb. induction xs as [|x xs IH]; cbn; [done|]. apply lock_free_bind; [done|]. by intros _. Qed.
Lemma lock_free_for_fold {A B} (xs : list A) (acc : B) (body : B → A → Prog S B) :
  (∀ b x, lock_free (body b x)) → lock_free (pfor_fold xs acc body).
Proof.
  intros Hb. revert acc. induction xs as [|x xs IH]; intros acc; cbn; [done|].
  apply lock_free_bind; [done|]. intros b. apply IH.
Qed.

Lemma disciplined_free i holds {A B} (p : Prog S A) (k : Res A → Prog S B) :
  lock_free p → (∀ r, disciplined i holds (k r)) → disciplined i holds (prog_then p k).
Proof.
  intros Hp Hk. induction p as [r|X ready m k' IH]; cbn in *; [done|]. destruct Hp as [Hm Hp]. left. eauto.
Qed.
Lemma disciplined_then i holds {A B} (p : Prog S A) (k : Res A → Prog S B) :
  disciplined i holds p → (∀ r, disciplined i false (k r)) → disciplined i holds (prog_then p k).
Proof.
  intros Hp Hk. revert holds Hp. induction p as [r|X ready m k' IH]; intros holds Hp; cbn in *; [by subst holds|].
  destruct Hp as [[Hm Hp]|[(-> & Hm & Hp)|(-> & Hm & Hp)]]; [left|right; left|right; right]; eauto.
Qed.

(** Each thread keeps the discipline, and the holder is a thread of the pool. *)
Definition orderly {A} (pool : list (Prog S A)) (s : S) : Prop :=
  (∀ j p, pool !! j = Some p → disciplined j (bool_decide (holder s = Some j)) p) ∧
  ∀ j, holder s = Some j → is_Some (pool !! j).

Lemma orderly_others {A} (pool : list (Prog S A)) s s' i q :
  orderly pool s → i < length pool → disciplined i (bool_decide (holder s' = Some i)) q →
  (∀ j, j ≠ i → holder s' = Some j ↔ holder s = Some j) → orderly (<[i := q]> pool) s'.
Proof.
  intros [Hp Hh] Hi Hq Hj. split.
  - intros j p Hl. destruct (decide (i = j)) as [<-|Hne].
    + rewrite list_lookup_insert_eq in Hl by done. by injection Hl as <-.
    + rewrite list_lookup_insert_ne in Hl by done. rewrite (bool_decide_ext _ (holder s = Some j)) by (by apply Hj).
      by apply Hp.
  - intros j Hs. destruct (decide (i = j)) as [<-|Hne]; [by rewrite list_lookup_insert_eq|].
    rewrite list_lookup_insert_ne by done. apply Hh. by apply Hj.
Qed.

Lemma orderly_step {A} (pool : list (Prog S A)) s pool' s' :
  pool_step (pool, s) (pool', s') → orderly pool s → orderly pool' s'.
Proof.
  intros Hstep Ho. inv Hstep as [? ? i X ready m k r ? Hi Hr Hm].
  pose proof (lookup_lt_Some _ _ _ Hi) as Hlt. assert (s' = (m s).2) as -> by by rewrite Hm.
  apply (orderly_others pool s); [done|done|..].
  - assert (r = (m s).1) as -> by by rewrite Hm. pose proof (proj1 Ho _ _ Hi) as Hd. cbn in Hd.
    destruct Hd as [[Hs Hd]|[(Hb & Hs & Hd)|(Hb & Hs & Hd)]]; destruct (Hs s) as [_ ->]; [done|..].
    + by rewrite bool_decide_eq_true_2.
    + by rewrite bool_decide_eq_false_2.
  - intros j Hne. pose proof (proj1 Ho _ _ Hi) as Hd. cbn in Hd.
    destruct Hd as [[Hs _]|[(_ & Hs & _)|(Hb%bool_decide_eq_true & Hs & _)]]; destruct (Hs s) as [Hr' ->]; [done|..].
    + rewrite Hr' in Hr. apply bool_decide_eq_true in Hr. rewrite Hr. naive_solver.
    + rewrite Hb. naive_solver.
Qed.

Lemma orderly_steps {A} (c c' : list (Prog S A) * S) :
  rtc pool_step c c' → orderly c.1 c.2 → orderly c'.1 c'.2.
Proof.
  induction 1 as [|[pool s] [pool1 s1] c' Hstep _ IH]; [done|]. intros Ho. apply IH. by eapply orderly_step.
Qed.

(** A thread that holds the mutex, or finds it free, runs to its end by itself and
    leaves the mutex free. *)
Lemma disciplined_ends {A} i (p : Prog S A) pool s :
  pool !! i = Some p → disciplined i (bool_decide (holder s = Some i)) p →
  (holder s = None ∨ holder s = Some i) →
  ∃ n r, (turns (replicate n i) (pool, s)).1 = <[i := Ret r]> pool ∧ holder (turns (replicate n i) (pool, s)).2 = None.
Proof.
  revert pool s. induction p as [r|X ready m k IH]; intros pool s Hi Hd Hh.
  { exists 0, r. cbn in *. apply bool_decide_eq_false in Hd. rewrite list_insert_id by done. naive_solver. }
  assert (ready s = true ∧ disciplined i (bool_decide (holder (m s).2 = Some i)) (k (m s).1) ∧
    (holder (m s).2 = None ∨ holder (m s).2 = Some i)) as (Hr & Hd' & Hh').
  { destruct Hd as [[Hm Hd]|[(Hb & Hm & Hd)|(Hb & Hm & Hd)]]; destruct (Hm s) as [Hr Hs]; rewrite Hs.
    - by split_and!.
    - apply bool_decide_eq_false in Hb. assert (holder s = None) as E by naive_solver.
      rewrite Hr. split; [by rewrite E|]. split; [by rewrite bool_decide_eq_true_2|by right].
    - split; [done|]. split; [by rewrite bool_decide_eq_false_2|by left]. }
  assert (turn (pool, s) i = (<[i := k (m s).1]> pool, (m s).2)) as Hturn.
  { unfold turn. cbn. rewrite Hi, Hr. by destruct (m s). }
  destruct (IH (m s).1 (<[i := k (m s).1]> pool) (m s).2) as (n & r & Hp & Hn); [|done|done|].
  { apply list_lookup_insert_eq. by eapply lookup_lt_Some. }
  exists (Datatypes.S n), r. change (turns (replicate (Datatypes.S n) i) (pool, s)) with (turns (replicate n i) (turn (pool, s) i)).
  rewrite Hturn. split; [|done]. rewrite Hp. apply list_insert_insert_eq.
Qed.

(** A thread that waits for nothing runs to its end whoever holds the mutex. *)
Lemma lock_free_ends {A} i (p : Prog S A) pool s :
  pool !! i = Some p → lock_free p →
  ∃ n r, (turns (replicate n i) (pool, s)).1 !! i = Some (Ret r) ∧ holder (turns (replicate n i) (pool, s)).2 = holder s.
Proof.
  revert pool s. induction p as [r|X ready m k IH]; intros pool s Hi Hf; [by exists 0, r|].
  destruct Hf as [Hm Hk]. destruct (Hm s) as [Hr Hs].
  assert (turn (pool, s) i = (<[i := k (m s).1]> pool, (m s).2)) as Hturn.
  { unfold turn. cbn. rewrite Hi, Hr. by destruct (m s). }
  destruct (IH (m s).1 (<[i := k (m s).1]> pool) (m s).2) as (n & r & Hp & Hn); [|done|].
  { apply list_lookup_insert_eq. by eapply lookup_lt_Some. }
  exists (Datatypes.S n), r. change (turns (replicate (Datatypes.S n) i) (pool, s)) with (turns (replicate n i) (turn (pool, s) i)).
  rewrite Hturn. split; [done|]. by rewrite Hn.
Qed.

Lemma lock_free_steps {A} i (c c' : list (Prog S A) * S) :
  rtc pool_step c c' → (∀ p, c.1 !! i = Some p → lock_free p) → ∀ p, c'.1 !! i = Some p → lock_free p.
Proof.
  induction 1 as [|[pool s] [pool1 s1] c' Hstep _ IH]; [done|]. intros Hf. apply IH. intros p Hp.
  inv Hstep as [? ? j X ready m k r ? Hj Hr Hm]. cbn in *.
  apply list_lookup_insert_Some in Hp as [(<- & <- & _)|[_ Hp]]; [|by apply Hf]. by apply (Hf _ Hj).
Qed.

Lemma turns_app {A} l1 l2 (c : list (Prog S A) * S) : turns (l1 ++ l2) c = turns l2 (turns l1 c).
Proof. apply foldl_app. Qed.

(** The thread that holds the mutex first, if any, and then thread [i]. *)
Lemma orderly_ends {A} i (p : Prog S A) pool s :
  orderly pool s → pool !! i = Some p →
  ∃ schedule r, Forall (λ k, k = i ∨ holder s = Some k) schedule ∧
    (turns schedule (pool, s)).1 !! i = Some (Ret r) ∧ holder (turns schedule (pool, s)).2 = None.
Proof.
  intros Ho Hi. assert (∃ n j, Forall (λ k, k = i ∨ holder s = Some k) (replicate n j) ∧
    (holder (turns (replicate n j) (pool, s)).2 = None ∨ holder (turns (replicate n j) (pool, s)).2 = Some i))
    as (n & j & Hn & Hfree).
  { destruct (holder s) as [j|] eqn:E; [|exists 0, i; cbn; eauto].
    destruct (proj2 Ho j E) as [q Hj].
    destruct (disciplined_ends j q pool s Hj) as (n & r & _ & Hn); [by apply (proj1 Ho)|by right|].
    exists n, j. split; [|by left]. apply Forall_replicate. by right. }
  set (c1 := turns (replicate n j) (pool, s)) in *.
  assert (rtc pool_step (pool, s) c1) as Hsteps by apply turns_steps.
  pose proof (orderly_steps _ _ Hsteps Ho) as Ho1. destruct (lookup_lt_is_Some_2 c1.1 i) as [p1 Hi1].
  { rewrite (pool_steps_length _ _ Hsteps). by eapply lookup_lt_Some. }
  destruct (disciplined_ends i p1 c1.1 c1.2 Hi1) as (n1 & r & Hp & Hh); [by apply (proj1 Ho1)|done|].
  exists (replicate n j ++ replicate n1 i), r. rewrite turns_app. fold c1. rewrite <-surjective_pairing in Hp, Hh.
  split; [apply Forall_app; split; [done|]; apply Forall_replicate; by left|]. split; [|done].
  rewrite Hp. apply list_lookup_insert_eq. by eapply lookup_lt_Some.
Qed.
End mutex.

Ltac lock_free_step tac :=
  repeat first
    [ tac | progress (intros; cbn beta iota) | done | apply lock_free_bind | apply lock_free_try
    | apply lock_free_ignore | apply lock_free_for_each | apply lock_free_for_fold | case_match ].

(** ** The process *)

Section process.
Context {B Q OS : Type} `{MetadataBackend B} `{ReplicationTaskQueue Q} `{ObjectStore OS}.
Abbreviation State := (Sys B Q OS).
Abbreviation Thread := (Prog State).
Abbreviation free := (lock_free (sys_writeLock (B := B) (Q := Q) (OS := OS))).
Abbreviation disc := (disciplined (sys_writeLock (B := B) (Q := Q) (OS := OS))).

Lemma free_c {A} (m : GoM (MetadataCoordinator B Q) A) : free (c_call m).
Proof. split; [|done]. intros σ. unfold zoom. by destruct (m (sys_coord σ)). Qed.
Lemma free_o {A} (m : GoM OS A) : free (o_call m).
Proof. split; [|done]. intros σ. unfold zoom. by destruct (m (sys_objects σ)). Qed.
Lemma free_t {A} (m : GoM TempDir A) : free (t_call m).
Proof. split; [|done]. intros σ. unfold zoom. by destruct (m (sys_temp σ)). Qed.

Ltac free_step tac := lock_free_step ltac:(first [exact (free_c _) | exact (free_o _) | exact (free_t _) | tac]).

Lemma free_repair_missing meta source n nodes tasks : free (repair_missing_calls meta source n nodes tasks).
Proof.
  revert tasks. induction nodes as [|node nodes IH]; intros tasks; cbn [repair_missing_calls]; [done|].
  free_step ltac:(apply IH).
Qed.
Lemma free_PlanRepair : free PlanRepair_calls.
Proof.
  unfold PlanRepair_calls, repair_file_calls, repairExistingReplicas_calls, repairMissingReplicas_calls.
  free_step ltac:(apply free_repair_missing).
Qed.
Lemma free_WorkOnce : free WorkOnce_calls.
Proof.
  unfold WorkOnce_calls, Replicate_calls, replicateChunks_calls, replicate_chunk_calls, deleteChunkObjects_calls,
    FinishReplication_calls, FailReplication_calls. free_step ltac:(fail).
Qed.
Lemma free_run_tasks fuel : free (run_tasks_calls fuel).
Proof.
  induction fuel as [|fuel IH]; cbn [run_tasks_calls]; [done|].
  free_step ltac:(first [apply free_WorkOnce | apply IH]).
Qed.
Lemma free_managerLoop ticks : free (managerLoop ticks).
Proof.
  induction ticks as [|fuel ticks IH]; cbn [managerLoop]; [done|]. unfold manager_tick_calls.
  free_step ltac:(first [apply free_PlanRepair | apply free_run_tasks | apply IH]).
Qed.

Lemma free_deleteObjects n key v chunks : free (deleteObjects_calls n key v chunks).
Proof. unfold deleteObjects_calls. free_step ltac:(fail). Qed.
Lemma free_Put key reads : free (Put_calls key reads).
Proof.
  unfold Put_calls, PrepareWrite_calls, CommitWrite_calls, writeChunks_calls, write_chunk_calls.
  free_step ltac:(apply free_deleteObjects).
Qed.
Lemma free_Delete key : free (Delete_calls key).
Proof. unfold Delete_calls. free_step ltac:(apply free_deleteObjects). Qed.
Lemma free_get_loop key meta replicas : free (get_loop_calls key meta replicas).
Proof.
  induction replicas as [|r replicas IH]; cbn [get_loop_calls]; [done|].
  unfold stageReplica_calls, stage_chunk_calls. free_step ltac:(apply IH).
Qed.

Lemma disciplined_with_lock i {A} (p : Thread A) : free p → disc i false (with_lock i p).
Proof.
  intros Hp.
  assert (disc i true (prog_then p (λ r, prog_then unlock (λ _, Ret r)))) as Hd.
  { apply disciplined_free; [done|]. intros r. right. right. by split_and!. }
  right. left. by split_and!.
Qed.

Lemma disciplined_free_thread i {A} (p : Thread A) : free p → disc i false p.
Proof. induction p as [r|X ready m k IH]; cbn; [done|]. intros [Hm Hp]. left. auto. Qed.

(** The requests that take the mutex. *)
Definition takes_lock (req : ClientRequest) : Prop :=
  match req with ReqPut _ _ | ReqDelete _ => True | _ => False end.

Lemma free_client httpStore i req : ¬ takes_lock req → free (client_thread httpStore i req).
Proof.
  destruct req as [id address|key reads|key|key|key| | |]; intros Hreq; unfold client_thread; try done.
  all: unfold heartbeat_thread, Get_calls, ReadCandidates_calls, Metrics_calls, PendingTasks_calls;
    free_step ltac:(first [apply free_get_loop | apply free_WorkOnce]).
Qed.
Lemma disciplined_client httpStore i req : disc i false (client_thread httpStore i req).
Proof.
  destruct req as [id address|key reads|key|key|key| | |];
    try (apply disciplined_free_thread, free_client; cbn; tauto).
  all: apply disciplined_then;
    [apply disciplined_with_lock; first [apply free_Put | apply free_Delete]|by intros [[]| |]].
Qed.

Lemma process_client httpStore ticks reqs j req :
  reqs !! j = Some req →
  manager_process httpStore ticks reqs !! S j = Some (client_thread (B := B) (Q := Q) httpStore (S j) req).
Proof.
  intros E. change (imap (λ i req, client_thread httpStore (S i) req) reqs !! j = Some (client_thread httpStore (S j) req)).
  by rewrite list_lookup_imap, E.
Qed.

Lemma process_orderly httpStore ticks reqs s : orderly sys_writeLock (manager_process httpStore ticks reqs) (alone s).
Proof.
  split; [|done]. intros [|j] p Hp.
  - injection Hp as <-. apply disciplined_free_thread. unfold manager_thread.
    free_step ltac:(apply free_managerLoop).
  - change (imap (λ i req, client_thread httpStore (S i) req) reqs !! j = Some p) in Hp.
    rewrite list_lookup_imap in Hp. destruct (reqs !! j) as [req|]; [|done]. injection Hp as <-.
    apply disciplined_client.
Qed.

End process.
