(* ===== verification/Scenarios.v ===== *)
(** * Scenarios.

    Concrete runs of the service on its in-memory backends and the local
    store.  They show behaviour that departs from what the code or its
    documentation promises, and they instantiate the hypotheses of the
    theorems of the service. *)

From S2P Require Import Prelude Metadata Replication Backend MetadataSpec ReplicationSpec Names Hash Lifecycle Objects Staging Coordinator CoordinatorSpec Repair Service ServiceSpec ServiceProps WorkerProps Manager Paths Store StoreSpec StoreReliable Metrics Aes Crypto.
From stdpp Require Import options.

(** ** A service with registered nodes *)

Abbreviation DemoStore := (LocalObjectStore (cas_opts "dfs-data")).
Abbreviation DemoService :=
  (ManagedFileService MetadataStore MemoryReplicationTaskQueue DemoStore).

Definition demo_fresh (replicas : Z) : DemoService :=
  NewManagedFileService replicas {| ls_fs := empty_fs |} (stopped 1000) good_temp.

Definition after {S A} (m : GoM S A) (s : S) : S := (m s).2.

Definition demo2 : DemoService :=
  after (ServiceRegisterNode "node2" ":5000") (after (ServiceRegisterNode "node1" ":3000") (demo_fresh 2)).

Lemma run_result {S A} (m : GoM S A) s r : (m s).1 = r → m s = (r, after m s).
Proof. intros <-. apply surjective_pairing. Qed.

Definition ok_value {S A} (r : Res A * S) : option A :=
  match r.1 with Ok a => Some a | _ => None end.

Definition upload (s : string) : list ReadResult := [(bytes_of_string s, None)].

Definition sample_node (id address : string) : NodeMetadata :=
  {| nm_ID := id; nm_Addr := address; nm_State := NodeHealthy; nm_LastHeartbeat := 1000 |}.

Definition demo_plan : ReplicaPlan :=
  {| rp_Primary := sample_node "node1" ":3000";
     rp_Replicas := [sample_node "node1" ":3000"; sample_node "node2" ":5000"] |}.

(** The record of a key, and the state of one of its replicas. *)
Definition record_of (s : DemoService) (key : string) : option FileMetadata :=
  cat_files (svc_catalog s) !! key.
Definition replica_state (s : DemoService) (key node : string) : option ReplicaState :=
  meta ← record_of s key; rm_State <$> fm_Replicas meta !! node.
Definition chunk_at (s : DemoService) (node key : string) (version : Z) : option bytes :=
  object_at (sv_objects s) (addr node (chunkObjectKey key 0) version).

(** ** What the runs show *)

(** A copy of version 1 that finishes after version 2 was published marks the
    replica of version 2 healthy, although the node has no data of version 2:
    [FinishReplication] does not compare the version of the task with the
    version of the record. *)
Theorem stale_copy_marks_healthy :
  let s := after RunReplicationOnce
             (after (Put "foo" (upload "new")) (after (Put "foo" (upload "old")) demo2)) in
  fm_Version <$> record_of s "foo" = Some 2%Z ∧
  replica_state s "foo" "node2" = Some ReplicaHealthy ∧
  chunk_at s "node2" "foo" 1 = Some (bytes_of_string "old") ∧
  chunk_at s "node2" "foo" 2 = None.
Proof. by vm_compute. Qed.

(** A replica that is lost after its copy was done is not repaired: the repair
    planner returns a task for it, but the task has the ID of the finished one,
    [Enqueue] skips it, and the worker has nothing to run. *)
Theorem lost_replica_not_repaired :
  let s0 := after RunReplicationOnce (after (Put "foo" (upload "data")) demo2) in
  let s1 := after (meta_call (mb_MarkReplica "foo" "node2" ReplicaMissing)) s0 in
  let s2 := after ServicePlanRepair s1 in
  replica_state s2 "foo" "node2" = Some ReplicaMissing ∧
  match (ServicePlanRepair s1).1 with Ok tasks => rt_Target <$> tasks = ["node2"] | _ => False end ∧
  (ServicePendingTasks s2).1 = Ok [] ∧
  (RunReplicationOnce s2).1 = Err ErrNoPendingTasks.
Proof. by vm_compute. Qed.

(** When the tasks cannot be built after the metadata was published, [Put]
    reports an error and deletes the objects, but the record stays: the key
    now has a version without data. *)
Example failed_commit_stays_published :
  let s0 := after (ServiceRegisterNode "" ":3000") (after (Put "foo" (upload "old")) demo2) in
  let s1 := after (Put "foo" (upload "new")) s0 in
  (Put "foo" (upload "new") s0).1 = Err ErrPrimaryUnavailable ∧
  fm_Version <$> record_of s1 "foo" = Some 2%Z ∧ fm_Deleted <$> record_of s1 "foo" = Some false ∧
  chunk_at s1 "" "foo" 2 = None ∧
  fst <$> ok_value (Get "foo" s0) = Some (bytes_of_string "old") ∧
  (Get "foo" s1).1 = Err ErrNoReadableReplicas.
Proof. by vm_compute. Qed.

(** A negative replica count makes every write panic. *)
Example negative_replicas_panic :
  let s := after (ServiceRegisterNode "node1" ":3000") (demo_fresh (-1)) in
  (Put "foo" (upload "data") s).1 = Panic.
Proof. by vm_compute. Qed.

(** A copy that is still queued when the file is deleted moves a replica of
    the tombstone from [deleted] to [missing]. *)
Example tombstone_replica_missing :
  let s0 := after (Delete "foo") (after (Put "foo" (upload "data")) demo2) in
  let s1 := after RunReplicationOnce s0 in
  fm_Deleted <$> record_of s1 "foo" = Some true ∧
  replica_state s0 "foo" "node2" = Some ReplicaDeleted ∧
  replica_state s1 "foo" "node2" = Some ReplicaMissing.
Proof. by vm_compute. Qed.

(** Two workers that both looked at the queue start the same task twice: a
    task that is running can be marked running again. *)
Example task_started_twice :
  let s := after (Put "foo" (upload "data")) demo2 in
  let start := coord (StartReplication (replicationTaskID "foo" 1 "node1" "node2")) in
  match (start (after start s)).1 with
  | Ok task => rt_Attempts task = 2%Z ∧ rt_State task = ReplicationTaskRunning
  | _ => False
  end.
Proof. by vm_compute. Qed.

(** ** Instances of the theorems of the service *)

Lemma fresh_ok replicas : coord_ok (sv_coordinator (demo_fresh replicas)).
Proof. split; [split|]; apply map_Forall_empty. Qed.

Lemma demo2_ok : coord_ok (sv_coordinator demo2).
Proof.
  pose proof (coord_svc _ (RegisterNode_steps "node1" ":3000") (demo_fresh 2) _ _
    (surjective_pairing _) (fresh_ok 2)) as [H1 _].
  exact (proj1 (coord_svc _ (RegisterNode_steps "node2" ":5000") _ _ _ (surjective_pairing _) H1)).
Qed.

Lemma demo2_ready : data_ready demo2.
Proof. split; [apply empty_fs_ready|done]. Qed.

Lemma node_plain1 : plain "node1".
Proof. by repeat split. Qed.
Lemma node_plain2 : plain "node2".
Proof. by repeat split. Qed.
Lemma node_serves node key v : plain node → serves_file (OS := DemoStore) node key v.
Proof. by split. Qed.

(** A small file has one chunk, so its addresses are distinct. *)
Lemma manifest_small data : (zlen data ≤ defaultChunkSize)%Z →
  ∃ c, manifest defaultChunkSize data = [c].
Proof.
  intros Hl. assert (pieces defaultChunkSize data = [data]) as Hp.
  { unfold pieces. destruct data as [|b data]; [done|].
    pose proof (cut_full (Z.to_nat defaultChunkSize) (length (b :: data)) [] (b :: data)) as Hc.
    cbn [concat app] in Hc. rewrite Hc; [done| |constructor| |done].
    - pose proof defaultChunkSize_pos. lia.
    - unfold zlen in Hl. lia. }
  unfold manifest. rewrite Hp. by eexists.
Qed.

Lemma put_addrs_small `{ObjectStoreLaws OS} cat plan key data :
  (zlen data ≤ defaultChunkSize)%Z → NoDup (put_addrs (OS := OS) cat plan key data).
Proof.
  intros [c E]%manifest_small. unfold put_addrs. rewrite E. apply NoDup_singleton.
Qed.

Lemma demo2_plan :
  Plan (mc_planner (sv_coordinator demo2)) (healthy_nodes (svc_catalog demo2)) = Ok demo_plan.
Proof. by vm_compute. Qed.

Lemma memory_no_fault (b : MetadataStore) : mb_fault b → False.
Proof. done. Qed.
Lemma queue_no_fault (q : MemoryReplicationTaskQueue) : rq_fault q → False.
Proof. done. Qed.

Lemma demo_put_total data : ∃ meta s', Put "foo" (upload data) demo2 = (Ok meta, s').
Proof.
  destruct (Put_total memory_no_fault queue_no_fault "foo" (upload data) (bytes_of_string data)
    demo_plan demo2) as (meta & s' & Hrun & _);
    [apply demo2_ready|cbn; by rewrite app_nil_r|apply demo2_plan|done|apply node_serves, node_plain1|eauto].
Qed.

Lemma Put_Get_roundtrip_witness :
  ∃ meta s1 s2, Put "foo" (upload "hello") demo2 = (Ok meta, s1) ∧
    Get "foo" s1 = (Ok (bytes_of_string "hello", meta), s2) ∧
    fm_Version meta = wrap_u64 (version_of (svc_catalog demo2) "foo" + 1) ∧ data_ready s2.
Proof.
  apply (Put_Get_roundtrip demo2 "foo" (upload "hello") (bytes_of_string "hello") demo_plan).
  - apply memory_no_fault.
  - apply queue_no_fault.
  - apply demo2_ready.
  - done.
  - apply demo2_plan.
  - done.
  - apply node_serves, node_plain1.
  - by apply put_addrs_small.
Defined.

Definition demo_put : DemoService := after (Put "foo" (upload "hello")) demo2.

Lemma Put_publishes_witness :
  ∃ meta, Put "foo" (upload "hello") demo2 = (Ok meta, demo_put) ∧
    fm_Size meta = 5%Z ∧ fm_Version meta = 1%Z.
Proof.
  destruct (demo_put_total "hello") as (meta & s' & Hrun).
  assert (demo_put = s') as -> by (unfold demo_put, after; by rewrite Hrun).
  exists meta. split; [done|].
  destruct (Put_publishes _ _ _ _ _ Hrun) as (data & plan & Hdr & _ & _ & Hv & _ & Hsz & _).
  injection Hdr as <-. split; [by rewrite Hsz|]. rewrite Hv. by vm_compute.
Defined.

Lemma demo_put_ok : coord_ok (sv_coordinator demo_put).
Proof. exact (proj1 (Put_svc _ _ demo2 _ _ (surjective_pairing _) demo2_ok)). Qed.

(** A stream that breaks off publishes nothing. *)
Definition broken_upload : list ReadResult :=
  [(bytes_of_string "hel", None); ([], Some (ReadErr (ErrOther "connection reset")))].

Lemma Put_failure_atomic_witness :
  (Put "foo" broken_upload demo2).1 = Err (ErrOther "connection reset") ∧
  svc_catalog (after (Put "foo" broken_upload) demo2) = svc_catalog demo2.
Proof.
  assert ((Put "foo" broken_upload demo2).1 = Err (ErrOther "connection reset")) as E
    by by vm_compute.
  split; [exact E|].
  assert (healthy_nodes (svc_catalog demo2) = rp_Replicas demo_plan) as Hn by by vm_compute.
  apply (Put_failure_atomic demo2 _ "foo" broken_upload (Put "foo" broken_upload demo2).1).
  - apply queue_no_fault.
  - intros n. rewrite Hn. cbn. intros [-> |[-> |[]%elem_of_nil]%elem_of_cons]%elem_of_cons; done.
  - apply surjective_pairing.
  - rewrite E. done.
Defined.

Lemma Get_integrity_witness :
  marked "foo" (svc_catalog demo_put) (svc_catalog (after (Get "foo") demo_put)) ∧
  option_map fst (ok_value (Get "foo" demo_put)) = Some (bytes_of_string "hello").
Proof.
  split; [|by vm_compute].
  apply (Get_integrity demo_put _ "foo" (Get "foo" demo_put).1).
  - apply demo_put_ok.
  - apply surjective_pairing.
Defined.

(** The copy to the second replica. *)
Definition demo_task : ReplicationTask :=
  match ok_value (RunReplicationOnce demo_put) with
  | Some (task, _) => task
  | None => pending_task (new_file_version "" 0 0 "" [] "" [] 0 0) "" "" 0 0
  end.

Lemma demo_work :
  RunReplicationOnce demo_put = (Ok (demo_task, None), after RunReplicationOnce demo_put).
Proof. apply run_result. by vm_compute. Qed.

Lemma WorkOnce_copies_witness :
  rt_Target demo_task = "node2" ∧ rt_State demo_task = ReplicationTaskDone ∧
  ∃ data, holds (sv_objects (after RunReplicationOnce demo_put)) (rt_Target demo_task)
    (rt_Key demo_task) (rt_Version demo_task) (rt_Chunks demo_task) data.
Proof.
  split; [by vm_compute|].
  destruct (WorkOnce_copies demo_put _ demo_task (proj2 demo_put_ok) demo_work)
    as (_ & Hst & _ & _ & _ & data & _ & Hh & _).
  - apply (bool_decide_unpack _). by vm_compute.
  - apply Forall_forall. apply (bool_decide_unpack _). by vm_compute.
  - split; [exact Hst|]. exists data. exact Hh.
Defined.

(** The source has lost its data. *)
Definition demo_lost : DemoService :=
  after (objs (DeleteObject "node1" (chunkObjectKey "foo" 0) 1)) demo_put.

Lemma objs_coordinator {A} (m : GoM DemoStore A) (s : DemoService) :
  sv_coordinator (after (objs m) s) = sv_coordinator s.
Proof. unfold after, objs, zoom. by destruct (m (sv_objects s)). Qed.

Lemma demo_lost_ok : coord_ok (sv_coordinator demo_lost).
Proof. unfold demo_lost. rewrite objs_coordinator. apply demo_put_ok. Qed.

Definition failed_task : ReplicationTask :=
  match ok_value (RunReplicationOnce demo_lost) with
  | Some (task, _) => task
  | None => demo_task
  end.
Definition copy_error : GoError :=
  match ok_value (RunReplicationOnce demo_lost) with
  | Some (_, Some e) => e
  | _ => ErrOther ""
  end.

Lemma demo_work_fails :
  RunReplicationOnce demo_lost = (Ok (failed_task, Some copy_error), after RunReplicationOnce demo_lost).
Proof. apply run_result. by vm_compute. Qed.

Lemma WorkOnce_fails_witness :
  rt_State failed_task = ReplicationTaskPending ∧ rt_LastError failed_task = error_string copy_error ∧
  replica_state (after RunReplicationOnce demo_lost) "foo" "node2" = Some ReplicaMissing.
Proof.
  destruct (WorkOnce_fails demo_lost _ failed_task copy_error (proj2 demo_lost_ok) demo_work_fails)
    as (_ & _ & _ & He & _).
  split; [by vm_compute|]. split; [exact He|by vm_compute].
Defined.

Lemma Delete_then_Get_witness :
  ∃ deleted s1 s2, Delete "foo" demo_put = (Ok deleted, s1) ∧
    Get "foo" s1 = (Err ErrFileDeleted, s2) ∧ fm_Deleted deleted = true.
Proof.
  assert (∃ meta, record_of demo_put "foo" = Some meta ∧
    range_keys (fm_Replicas meta) = ["node1"; "node2"]) as (meta & Hm & Hk).
  { assert (option_map (λ m, range_keys (fm_Replicas m)) (record_of demo_put "foo") =
      Some ["node1"; "node2"]) as E by by vm_compute.
    destruct (record_of demo_put "foo") as [meta|]; [|done]. exists meta. by injection E. }
  destruct (Delete_then_Get demo_put "foo" meta) as (deleted & s1 & s2 & Hd & Hg & Hdel & _).
  - apply memory_no_fault.
  - apply demo_put_ok.
  - destruct (Put_total memory_no_fault queue_no_fault "foo" (upload "hello")
      (bytes_of_string "hello") demo_plan demo2) as (m & s' & Hrun & Hr);
      [apply demo2_ready|done|apply demo2_plan|done|apply node_serves, node_plain1|].
    unfold demo_put, after. rewrite Hrun. exact Hr.
  - exact Hm.
  - intros n Hn%elem_of_range_keys. rewrite Hk in Hn. cbn.
    apply elem_of_cons in Hn as [-> |Hn]; [apply node_serves, node_plain1|].
    apply list_elem_of_singleton in Hn as ->. apply node_serves, node_plain2.
  - exists deleted, s1, s2. exact (conj Hd (conj Hg Hdel)).
Defined.

Lemma Delete_tombstones_witness :
  ∃ deleted s1, Delete "foo" demo_put = (Ok deleted, s1) ∧ fm_Deleted deleted = true ∧
    svc_table s1 = svc_table demo_put.
Proof.
  destruct (Delete "foo" demo_put) as [[deleted|e|] s1] eqn:E.
  2,3: apply (f_equal fst) in E; by vm_compute in E.
  destruct (Delete_tombstones demo_put s1 "foo" deleted demo_put_ok E) as (meta & _ & Hd & _ & _ & _ & Ht & _).
  exists deleted, s1. exact (conj eq_refl (conj Hd Ht)).
Defined.

Definition demo_history : list SvcOp := [
  SvcRegisterNode "node1" ":3000"; SvcRegisterNode "node2" ":5000";
  SvcPut "foo" (upload "one"); SvcRunReplicationOnce; SvcPut "foo" broken_upload; SvcGet "foo";
  SvcMarkExpiredNodes 5; SvcPlanRepair; SvcDelete "foo"; SvcRequeueExpired; SvcGet "foo"; SvcMetrics
].

Lemma service_history_ok_witness :
  coord_ok (sv_coordinator (after (run_svc_ops demo_history) (demo_fresh 2))).
Proof.
  apply (service_history_ok demo_history (demo_fresh 2) _ (run_svc_ops demo_history (demo_fresh 2)).1).
  - apply fresh_ok.
  - apply surjective_pairing.
Defined.

Lemma demo_put_pending : pending_count (svc_table demo_put) < 3.
Proof. apply Nat.ltb_lt. by vm_compute. Qed.

Lemma Put_replicates_witness :
  ∃ meta s1 s2, Put "foo" (upload "hello") demo2 = (Ok meta, s1) ∧
    run_tasks 3 s1 = (Ok true, s2) ∧
    ∀ n, n ∈ rp_Replicas demo_plan → healthy_at (svc_catalog s2) "foo" (nm_ID n).
Proof.
  destruct (Put_replicates demo2 "foo" (upload "hello") (bytes_of_string "hello") demo_plan)
    as (meta & s1 & s2 & Hput & Hrun & Hrep).
  - apply memory_no_fault.
  - apply queue_no_fault.
  - apply demo2_ok.
  - apply demo2_ready.
  - by vm_compute.
  - done.
  - apply demo2_plan.
  - cbn. intros n [-> |[-> |[]%elem_of_nil]%elem_of_cons]%elem_of_cons;
      (split; [done|]); [apply node_serves, node_plain1|apply node_serves, node_plain2].
  - apply (bool_decide_unpack _). by vm_compute.
  - intros m. apply lookup_empty.
  - exists meta, s1, s2. split; [exact Hput|]. split; [|intros n Hn; by apply Hrep].
    apply Hrun. assert (s1 = demo_put) as -> by (unfold demo_put, after; by rewrite Hput).
    exact demo_put_pending.
Defined.

Definition demo_planned : DemoService :=
  after (ignore (ServiceMarkExpiredNodes (10 * Second));; ignore ServiceRequeueExpired;; ignore ServicePlanRepair)
    demo_put.

Lemma manager_tick_terminates_witness :
  pending_count (svc_table demo_planned) = 1 ∧
  ∃ s2, (∀ fuel, 1 < fuel → manager_tick fuel demo_put = (Ok true, s2)) ∧ coord_ok (sv_coordinator s2).
Proof.
  assert (pending_count (svc_table demo_planned) = 1) as Hn by by vm_compute.
  split; [exact Hn|].
  destruct (manager_tick_terminates demo_put demo_put_ok) as (s1 & s2 & Hpre & Hrun & Hok & _).
  exists s2. split; [|exact Hok]. intros fuel Hf. apply Hrun.
  unfold demo_planned, after in Hn. rewrite Hpre in Hn. cbn [snd] in Hn. rewrite Hn. exact Hf.
Defined.

(** ** Instances of the theorems of the components *)

Definition demo_nodes : list NodeMetadata := [
  sample_node "node3" ":7000"; sample_node "node1" ":3000";
  {| nm_ID := "node0"; nm_Addr := ":9000"; nm_State := NodeDown; nm_LastHeartbeat := 1 |};
  sample_node "node2" ":5000"
].

Lemma Plan_smallest_ids_witness :
  Plan (NewReplicationPlanner 2) (reverse demo_nodes) = Ok demo_plan ∧
  head (rp_Replicas demo_plan) = Some (rp_Primary demo_plan).
Proof.
  destruct (Plan_smallest_ids (NewReplicationPlanner 2) demo_nodes (reverse demo_nodes) demo_plan)
    as (Hp & Hh & _).
  - apply (bool_decide_unpack _). by vm_compute.
  - symmetry. apply reverse_Permutation.
  - by vm_compute.
  - exact (conj Hp Hh).
Defined.

Definition demo_meta : FileMetadata :=
  new_file_version "foo" 1 5 "sum" [] "node1" ["node1"; "node2"; "node3"] 1000 1000.

Definition demo_pending : ReplicationTask := pending_task demo_meta "node1" "node2" 1000 1000.

Lemma failReplicationTask_schedule_witness :
  let task := runReplicationTask demo_pending 1000 in
  rt_State (failReplicationTask task 2000 (Some ErrChecksumMismatch)) = ReplicationTaskPending ∧
  rt_Attempts (failReplicationTask task 2000 (Some ErrChecksumMismatch)) = rt_Attempts task.
Proof.
  destruct (failReplicationTask_schedule (runReplicationTask demo_pending 1000) 2000
    (Some ErrChecksumMismatch)) as (_ & Ha & _); [lia|]. split; [by vm_compute|exact Ha].
Defined.

Lemma retry_budget_witness :
  rt_State (retry (λ _, 1000%Z) None 4 demo_pending) = ReplicationTaskPending ∧
  rt_State (retry (λ _, 1000%Z) None 5 demo_pending) = ReplicationTaskDead.
Proof.
  split.
  - apply (retry_budget (λ _, 1000%Z) None demo_meta "node1" "node2" 1000 1000 4). lia.
  - apply (retry_budget (λ _, 1000%Z) None demo_meta "node1" "node2" 1000 1000 5). lia.
Defined.

(** A queue with a task to run and one that waits for its retry. *)
Definition demo_queue : MemoryReplicationTaskQueue :=
  let t3 := pending_task demo_meta "node1" "node3" 1000 1000 in
  {| mq_tasks :=
       <[rt_ID t3 := failReplicationTask (runReplicationTask t3 1000) 1000 None]>
         (<[rt_ID t3 := runReplicationTask t3 1000]> (enqueue_all ∅ [demo_pending; t3]));
     mq_now := stopped 1500 |}.

Lemma demo_queue_steps : rtc table_step ∅ (mq_tasks demo_queue).
Proof.
  set (t2 := demo_pending). set (t3 := pending_task demo_meta "node1" "node3" 1000 1000).
  eapply rtc_l; [apply (step_enqueue ∅ [t2; t3]); repeat constructor; by eexists _, _, _, _, _|].
  eapply rtc_l; [by eapply (step_run _ (rt_ID t3) t3 1000)|].
  eapply rtc_l; [eapply (step_fail _ (rt_ID t3) (runReplicationTask t3 1000) 1000 None); by vm_compute|].
  apply rtc_refl.
Qed.

Lemma task_lifecycle_invariant_witness :
  task_ok (rt_ID demo_pending) demo_pending.
Proof.
  apply (task_lifecycle_invariant (mq_tasks demo_queue)); [apply demo_queue_steps|by vm_compute].
Defined.

Lemma Pending_exact_witness :
  ∃ l q', Pending demo_queue = (Ok l, q') ∧ (∀ task, task ∈ l → rt_State task = ReplicationTaskPending).
Proof.
  destruct (Pending_exact demo_queue) as (l & q' & Hrun & _ & Hin & _).
  - apply table_ok_ids. eapply table_steps_ok; [apply demo_queue_steps|apply map_Forall_empty].
  - exists l, q'. split; [exact Hrun|]. intros task (id & _ & Hst & _)%Hin. exact Hst.
Defined.

Lemma BeginWrite_publishes_witness :
  ∃ wp c', BeginWrite "foo" 5 "sum" (sv_coordinator demo2) = (Ok wp, c') ∧
    fm_Version (wp_Metadata wp) = 1%Z ∧ fm_Deleted (wp_Metadata wp) = false.
Proof.
  destruct (BeginWrite "foo" 5 "sum" (sv_coordinator demo2)) as [[wp|e|] c'] eqn:E.
  - destruct (BeginWrite_publishes _ _ _ _ _ _ E) as (_ & _ & Hv & Hd & _).
    exists wp, c'. split; [reflexivity|]. split; [|exact Hd]. rewrite Hv. by vm_compute.
  - apply (f_equal fst) in E. by vm_compute in E.
  - apply (f_equal fst) in E. by vm_compute in E.
Defined.

Definition demo_written : MetadataCoordinator MetadataStore MemoryReplicationTaskQueue :=
  after (BeginWrite "foo" 5 "sum") (sv_coordinator demo2).

Lemma ReadCandidates_exact_witness :
  coord_catalog (after (ReadCandidates "foo") demo_written) = coord_catalog demo_written ∧
  match (ReadCandidates "foo" demo_written).1 with
  | Ok plan => rm_NodeID <$> rd_Replicas plan = ["node1"]
  | _ => False
  end.
Proof.
  split; [|by vm_compute].
  apply (ReadCandidates_exact demo_written _ "foo" (ReadCandidates "foo" demo_written).1).
  - eapply coord_steps_ok; [|apply demo2_ok].
    exact (BeginWrite_steps "foo" 5 "sum" (sv_coordinator demo2) _ _ (surjective_pairing _)).
  - apply surjective_pairing.
Defined.

(** The copy of a chunk between two nodes of the local store. *)
Definition copy_task : ReplicationTask :=
  match mq_tasks (mc_tasks (sv_coordinator demo_put)) !! "foo:1:node1:node2" with
  | Some task => task
  | None => demo_pending
  end.

Lemma replicateChunks_copies_witness :
  agree_outside (chunk_addr (rt_Target copy_task) (rt_Key copy_task) (rt_Version copy_task) <$>
    rt_Chunks copy_task) (sv_objects demo_put) (after (replicateChunks copy_task) (sv_objects demo_put)) ∧
  (replicateChunks copy_task (sv_objects demo_put)).1 = Ok tt.
Proof.
  split; [|by vm_compute].
  apply (replicateChunks_copies copy_task (sv_objects demo_put)
    (replicateChunks copy_task (sv_objects demo_put)).1).
  - apply (bool_decide_unpack _). by vm_compute.
  - intros c c' Hc Hc'. revert c' Hc'. apply Forall_forall. revert c Hc. apply Forall_forall.
    apply (bool_decide_unpack _). by vm_compute.
  - apply surjective_pairing.
Defined.

Lemma object_path_collision_witness :
  "node1" = "node1" ∧
  hex_encode (sha1 (bytes_of_string (versionedObjectKey "foo" 1))) =
  hex_encode (sha1 (bytes_of_string (versionedObjectKey "foo" 1))).
Proof.
  apply (object_path_collision "dfs-data" "node1" "node1" "foo" "foo" 1 1).
  - apply node_plain1.
  - apply node_plain1.
  - reflexivity.
Defined.

Lemma Store_roundtrip_witness :
  ∃ fs1 fs2 fs3, StoreWrite (cas_opts "dfs-data") "node1" "key" (reader_of (bytes_of_string "some jpg bytes"))
      empty_fs = (Ok 14%Z, fs1) ∧
    Has (cas_opts "dfs-data") "node1" "key" fs1 = (Ok true, fs2) ∧
    StoreRead (cas_opts "dfs-data") "node1" "key" fs2 =
      (Ok (14%Z, reader_of (bytes_of_string "some jpg bytes")), fs3).
Proof.
  destruct (Store_roundtrip "dfs-data" "node1" "key" (reader_of (bytes_of_string "some jpg bytes"))
    (bytes_of_string "some jpg bytes") empty_fs) as (fs1 & fs2 & fs3 & fs4 & fs5 & H1 & H2 & H3 & _).
  - apply node_plain1.
  - apply empty_fs_ready.
  - reflexivity.
  - exists fs1, fs2, fs3. exact (conj H1 (conj H2 H3)).
Defined.

Lemma demo_written_wf : catalog_wf (coord_catalog demo_written).
Proof.
  destruct (BeginWrite_steps "foo" 5 "sum" (sv_coordinator demo2) _ _ (surjective_pairing _)) as (Hc & _).
  eapply catalog_steps_wf; [exact Hc|exact (proj1 demo2_ok)].
Qed.

Lemma PlanRepair_exact_witness :
  ∃ tasks c', PlanRepair demo_written = (Ok tasks, c') ∧
    ∃ task, task ∈ tasks ∧ rt_Source task = "node1" ∧ rt_Target task = "node2".
Proof.
  destruct (PlanRepair demo_written) as [[tasks|e|] c'] eqn:E.
  2,3: apply (f_equal fst) in E; by vm_compute in E.
  assert (∃ meta, cat_files (coord_catalog demo_written) !! "foo" = Some meta ∧
    fm_Deleted meta = false ∧ firstHealthyReplica meta = "node1" ∧
    rm_State <$> fm_Replicas meta !! "node2" = Some ReplicaPending) as (meta & Hm & Hd & Hs & Hr).
  { assert (option_map (λ m, (fm_Deleted m, firstHealthyReplica m, rm_State <$> fm_Replicas m !! "node2"))
      (cat_files (coord_catalog demo_written) !! "foo") =
      Some (false, "node1", Some ReplicaPending)) as Hv by by vm_compute.
    clear E. destruct (cat_files (coord_catalog demo_written) !! "foo") as [meta|]; [|discriminate].
    injection Hv as Hd Hs Hr. exists meta. exact (conj eq_refl (conj Hd (conj Hs Hr))). }
  destruct (PlanRepair_exact demo_written c' tasks demo_written_wf) as (_ & Hall & _); [|exact E|].
  - intros Hn. apply (f_equal length) in Hn. by vm_compute in Hn.
  - destruct (Hall "foo" meta "node1" "node2" Hm Hd) as (task & Hin & created & updated & ->).
    + apply (firstHealthyReplica_source "foo" meta); [exact (proj1 demo_written_wf _ _ Hm)|discriminate|exact Hs].
    + split; [discriminate|]. apply fmap_Some in Hr as (r & Hr & Hst).
      exists r. split; [exact Hr|]. left. symmetry. exact Hst.
    + exists tasks, c'. split; [reflexivity|]. eexists. split; [exact Hin|]. by split.
Defined.

Lemma repairMissingReplicas_fills_witness :
  let c := sv_coordinator demo2 in
  let meta := new_file_version "bar" 1 5 "sum" [] "node1" ["node1"] 1000 1000 in
  ∃ tasks c', repairMissingReplicas meta "node1" (rp_Replicas demo_plan) c = (Ok tasks, c') ∧
    NoDup (rt_Target <$> tasks).
Proof.
  destruct (repairMissingReplicas_fills (sv_coordinator demo2)
    (new_file_version "bar" 1 5 "sum" [] "node1" ["node1"] 1000 1000) "node1"
    (rp_Replicas demo_plan)) as (tasks & c' & Hrun & Hnd & _).
  - apply (bool_decide_unpack _). by vm_compute.
  - exists tasks, c'. exact (conj Hrun Hnd).
Defined.

Lemma Metrics_counts_witness :
  ∃ m s', Metrics demo_put = (Ok m, s') ∧
    (∀ st, counter (me_Replicas m) st =
       count_of st (replica_states (range_values (cat_files (svc_catalog demo_put))))) ∧
    counter (me_Replicas m) ReplicaPending = 1%Z.
Proof.
  assert (option_map (λ m, counter (me_Replicas m) ReplicaPending) (ok_value (Metrics demo_put)) =
    Some 1%Z) as Hv by by vm_compute.
  unfold ok_value in Hv. destruct (Metrics demo_put) as [[m|e|] s'] eqn:E; [|discriminate..].
  destruct (Metrics_counts demo_put s' m E) as (_ & _ & _ & _ & _ & Hr & _).
  exists m, s'. split; [reflexivity|]. split; [exact Hr|]. cbn in Hv. injection Hv as Hv. exact Hv.
Defined.

(** ** Encryption *)

Definition demo_key : bytes := counting 32.
Definition demo_iv : bytes := counting 16.
Definition demo_sealed : bytes :=
  (copyEncrypt buffer_write demo_key (Ok demo_iv) (upload "Foo not bar") []).2.

Lemma demo_key_ok : key_ok demo_key.
Proof. by right; right. Qed.

Lemma crypt_roundtrip_witness :
  ∃ sealed, copyEncrypt buffer_write demo_key (Ok demo_iv) (upload "Foo not bar") [] =
      (Ok 27%Z, demo_iv ++ sealed) ∧
    (copyDecrypt buffer_write demo_key [(demo_iv ++ sealed, Some EOF)] []).2 =
      bytes_of_string "Foo not bar".
Proof.
  destruct (crypt_roundtrip buffer_write id (λ _, True) demo_key demo_iv (upload "Foo not bar")
    (bytes_of_string "Foo not bar") buffer_appends demo_key_ok) as (sealed & Henc & _ & Hdec);
    [done..|].
  exists sealed. split; [exact Henc|].
  destruct (Hdec [(demo_iv ++ sealed, Some EOF)] [] I eq_refl) as (w & Hrun & _ & Hw).
  rewrite Hrun. exact Hw.
Defined.

Lemma WriteDecrypt_roundtrip_witness :
  ∃ fs1 fs2, WriteDecrypt (cas_opts "net") demo_key "node1" "pic" (reader_of demo_sealed) empty_fs =
      (Ok 27%Z, fs1) ∧
    StoreRead (cas_opts "net") "node1" "pic" fs1 =
      (Ok (11%Z, reader_of (bytes_of_string "Foo not bar")), fs2).
Proof.
  destruct (WriteDecrypt_roundtrip "net" "node1" "pic" demo_key demo_iv (upload "Foo not bar")
    (bytes_of_string "Foo not bar") (reader_of demo_sealed) empty_fs demo_sealed)
    as (fs1 & fs2 & Hw & Hr & _).
  - apply node_plain1.
  - apply empty_fs_ready.
  - apply demo_key_ok.
  - done.
  - done.
  - apply (run_result (copyEncrypt buffer_write demo_key (Ok demo_iv) (upload "Foo not bar"))).
    by vm_compute.
  - cbn [reader_of r_reads drain]. by rewrite app_nil_r.
  - exists fs1, fs2. exact (conj Hw Hr).
Defined.
