(* ===== verification/ThreadScenarios.v ===== *)
(** * Schedules.

    Concrete interleavings on the in-memory backends and the local store: a
    process in which two writers of one key, a reader and the manager loop take
    turns, and what two workers do to one task. *)

From S2P Require Import Prelude Metadata Replication Backend MetadataSpec ReplicationSpec Names Hash Lifecycle Objects Staging Coordinator CoordinatorSpec Service ServiceSpec ServiceProps WorkerProps Manager Paths Store StoreSpec Threads ServiceThreads Interleave Progress Scenarios.
From stdpp Require Import options.

Abbreviation DemoSys := (Sys MetadataStore MemoryReplicationTaskQueue DemoStore).

(** ** Two writers, a reader and the manager loop *)

Definition race_requests : list ClientRequest :=
  [ReqPut "foo" (upload "first"); ReqPut "foo" (upload "second"); ReqGet "foo"].

(** Every thread in turn, again and again. *)
Definition round_robin (threads rounds : nat) : list nat := concat (replicate rounds (seq 0 threads)).

(** The state after some turns; the reader starts when a writer has published. *)
Definition race (rounds : nat) : list (Prog DemoSys Reply) * DemoSys :=
  turns (round_robin 3 12 ++ round_robin 4 rounds) (manager_process None [3] race_requests, alone demo2).

Definition reply_of (p : option (Prog DemoSys Reply)) : option Reply :=
  match p with Some (Ret (Ok reply)) => Some reply | _ => None end.
Definition summary (reply : option Reply) : option (Z * Z) :=
  match reply with
  | Some (ReplyPut meta) => Some (fm_Size meta, fm_Version meta)
  | Some (ReplyGet data meta) => Some (zlen data, fm_Version meta)
  | _ => None
  end.

(** While the second writer waits for the mutex the reader sees the first
    version; in the end both writers have published, one after the other. *)
Example race_runs :
  (λ i, summary (reply_of ((race 5).1 !! i))) <$> [1; 2; 3] = [Some (5, 1); None; Some (5, 1)]%Z ∧
  sys_writeLock (race 5).2 = Some 2 ∧
  (λ i, summary (reply_of ((race 30).1 !! i))) <$> [1; 2; 3] = [Some (5, 1); Some (6, 2); Some (5, 1)]%Z.
Proof. by vm_compute. Qed.

Lemma race_steps rounds :
  rtc pool_step (manager_process None [3] race_requests, alone demo2) ((race rounds).1, (race rounds).2).
Proof. rewrite <-surjective_pairing. apply turns_steps. Qed.

Lemma interleaving_keeps_invariant_witness :
  catalog_wf (sys_catalog (race 5).2) ∧ table_ok (sys_table (race 5).2) ∧
  rtc table_step (coord_table (sv_coordinator demo2)) (sys_table (race 5).2).
Proof.
  destruct (interleaving_keeps_invariant _ _ _ _ _ _ demo2_ok (race_steps 5)) as (Hw & _ & _ & _ & Ht).
  split; [exact Hw|]. apply Ht. by repeat constructor.
Defined.

(** The run up to some round. *)
Abbreviation race_run rounds :=
  (during (manager_process None [3] race_requests, alone demo2) ((race rounds).1, (race rounds).2)).

Lemma reply_of_lookup (pool : list (Prog DemoSys Reply)) i :
  match reply_of (pool !! i) with Some reply => pool !! i = Some (Ret (Ok reply)) | None => True end.
Proof. by destruct (pool !! i) as [[[]|]|]. Qed.

Lemma interleaved_replies_witness :
  match reply_of ((race 30).1 !! 2) with
  | Some (ReplyPut meta) => ∃ data, drain (upload "second") = (data, None) ∧ fm_Key meta = "foo" ∧
      fm_Deleted meta = false ∧ committed_as (race_run 30) "foo" meta ∧ stored_as (race_run 30) meta data
  | _ => False
  end.
Proof.
  pose proof (reply_of_lookup (race 30).1 2) as Hr.
  assert (bool_decide (is_Some (reply_of ((race 30).1 !! 2))) = true) as Hs by by vm_compute.
  destruct (reply_of _) as [reply|]; [|discriminate].
  pose proof (interleaved_replies _ _ _ _ _ _ 1 _ reply demo2_ok (race_steps 30) eq_refl Hr) as Hok.
  destruct reply; exact Hok.
Defined.

Lemma interleaved_publication_witness :
  match cat_files (sys_catalog (race 30).2) !! "foo" with
  | Some meta => ∃ data, stored_as (race_run 30) meta data
  | None => False
  end.
Proof.
  assert (fm_Deleted <$> cat_files (sys_catalog (race 30).2) !! "foo" = Some false) as Hs by by vm_compute.
  destruct (cat_files (sys_catalog (race 30).2) !! "foo") as [meta|] eqn:E; [|discriminate].
  destruct (interleaved_publication _ _ _ _ _ _ "foo" meta demo2_ok (race_steps 30) E ltac:(by injection Hs))
    as [(meta0 & Hm & _)|Hst]; [|exact Hst].
  assert (bool_decide (is_Some (cat_files (coord_catalog (sv_coordinator demo2)) !! "foo")) = false) as Hn
    by by vm_compute.
  rewrite Hm in Hn. discriminate Hn.
Defined.


(** ** Two workers *)

(** Requests to [/replication/run] run workers beside the manager loop.  Each
    looks at the queue and then starts the task it saw, which nobody reserved. *)
Definition workers (n : nat) : list (Prog DemoSys Reply) * DemoSys :=
  (manager_process None [] (replicate n ReqReplicationRun), alone demo_put).

Definition task_of (σ : DemoSys) : option ReplicationTask :=
  sys_table σ !! replicationTaskID "foo" 1 "node1" "node2".

Lemma attempts_bounded σ n : table_ok (sys_table σ) → rt_Attempts <$> task_of σ = Some n → (n ≤ 5)%Z.
Proof. intros Hok (task & Ht & ->)%fmap_Some. by destruct (Hok _ _ Ht) as (_ & [_ ?] & _). Qed.

(** Six requests whose workers look first and then start: a sixth attempt, where
    five are allowed. *)
Theorem workers_exceed_attempts :
  let σ := (turns (round_robin 7 2) (workers 6)).2 in
  rtc pool_step (workers 6) (turns (round_robin 7 2) (workers 6)) ∧
  (rt_Attempts <$> task_of σ) = Some 6%Z ∧ ¬ table_ok (sys_table σ).
Proof.
  cbv zeta. split; [apply turns_steps|].
  assert (rt_Attempts <$> task_of (turns (round_robin 7 2) (workers 6)).2 = Some 6%Z) as Ha by by vm_compute.
  split; [exact Ha|]. intros Hok. by apply (attempts_bounded _ _ Hok Ha).
Qed.

(** A worker that starts after another one has finished: a task that was done
    runs again, under a new attempt. *)
Theorem done_task_runs_again :
  let finished := [1; 2] ++ replicate 6 1 in
  (rt_State <$> task_of (turns finished (workers 2)).2) = Some ReplicationTaskDone ∧
  (rt_State <$> task_of (turns (finished ++ [2]) (workers 2)).2) = Some ReplicationTaskRunning ∧
  (rt_Attempts <$> task_of (turns (finished ++ [2]) (workers 2)).2) = Some 2%Z.
Proof. by vm_compute. Qed.
