(* ===== verification/Sequential.v ===== *)
(** * Alone, the threads of a manager are the methods of the service.

    The methods of the coordinator, the worker and the service are written twice,
    as one step ([Coordinator], [Service], [Manager]) and as programs of their
    calls ([ServiceThreads]).  Here the two are the same for a thread that runs
    alone: the same result and the same state. *)

From S2P Require Import Prelude Metadata Replication Backend MetadataSpec ReplicationSpec Names Hash Lifecycle Objects Staging Coordinator CoordinatorSpec Service ServiceSpec ServiceProps WorkerProps Manager Threads ServiceThreads.
From stdpp Require Import options.

Section sequential.
Context {B Q OS : Type} `{MetadataBackend B} `{ReplicationTaskQueue Q} `{ObjectStore OS}.
Abbreviation Service := (ManagedFileService B Q OS).
Abbreviation Coord := (MetadataCoordinator B Q).
Abbreviation State := (Sys B Q OS).

#[local] Instance lens_sys : Lens (sys_service (B := B) (Q := Q) (OS := OS)) set_sys.
Proof. split; by intros; repeat match goal with σ : Sys _ _ _ |- _ => destruct σ end. Qed.
#[local] Instance lens_coord : Lens (sys_coord (B := B) (Q := Q) (OS := OS)) set_sys_coord.
Proof. by split; [|intros [[]]|]. Qed.
#[local] Instance lens_objects : Lens (sys_objects (B := B) (Q := Q) (OS := OS)) set_sys_objects.
Proof. by split; [|intros [[]]|]. Qed.
#[local] Instance lens_temp : Lens (sys_temp (B := B) (Q := Q) (OS := OS)) set_sys_temp.
Proof. by split; [|intros [[]]|]. Qed.

(** A method of the coordinator, of the object store, of the service. *)
Definition impl_coord {A} (p : Prog State A) (m : GoM Coord A) : Prop := implements sys_coord set_sys_coord p m.
Definition impl_objects {A} (p : Prog State A) (m : GoM OS A) : Prop := implements sys_objects set_sys_objects p m.
Definition impl {A} (p : Prog State A) (m : GoM Service A) : Prop := implements sys_service set_sys p m.

Lemma impl_coord_call {A} (m : GoM Coord A) : impl_coord (c_call m) m.
Proof. apply implements_atomic. Qed.
Lemma impl_of_coord {A} (p : Prog State A) (m : GoM Coord A) : impl_coord p m → impl p (coord m).
Proof. intros Hp. by apply implements_zoom. Qed.
Lemma impl_of_objects {A} (p : Prog State A) (m : GoM OS A) : impl_objects p m → impl p (objs m).
Proof. intros Hp. by apply implements_zoom. Qed.
Lemma impl_temp_call {A} (m : GoM TempDir A) : impl (t_call m) (temp m).
Proof. apply implements_zoom, implements_atomic. Qed.
Lemma impl_objects_call {A} (m : GoM OS A) : impl_objects (o_call m) m.
Proof. apply implements_atomic. Qed.

Lemma impl_PrepareWrite key size sum chunks :
  impl_coord (PrepareWrite_calls key size sum chunks) (PrepareWrite key size sum chunks).
Proof. unfold PrepareWrite_calls, PrepareWrite. implements_step ltac:(apply impl_coord_call). Qed.
Lemma impl_CommitWrite prepared : impl_coord (CommitWrite_calls prepared) (CommitWrite prepared).
Proof. unfold CommitWrite_calls, CommitWrite. implements_step ltac:(apply impl_coord_call). Qed.
Lemma impl_FinishReplication id : impl_coord (FinishReplication_calls id) (FinishReplication id).
Proof. unfold FinishReplication_calls, FinishReplication. implements_step ltac:(apply impl_coord_call). Qed.
Lemma impl_FailReplication id cause : impl_coord (FailReplication_calls id cause) (FailReplication id cause).
Proof. unfold FailReplication_calls, FailReplication. implements_step ltac:(apply impl_coord_call). Qed.
Lemma impl_ReadCandidates key : impl_coord (ReadCandidates_calls key) (ReadCandidates key).
Proof. unfold ReadCandidates_calls, ReadCandidates. implements_step ltac:(apply impl_coord_call). Qed.

Lemma impl_repair_missing meta source n nodes tasks :
  impl_coord (repair_missing_calls meta source n nodes tasks) (repair_missing_loop meta source n nodes tasks).
Proof.
  revert tasks. induction nodes as [|node nodes IH]; intros tasks; cbn [repair_missing_calls repair_missing_loop];
    [apply implements_ret, _|].
  implements_step ltac:(first [apply impl_coord_call | apply IH]).
Qed.
Lemma impl_PlanRepair : impl_coord PlanRepair_calls PlanRepair.
Proof.
  unfold PlanRepair_calls, PlanRepair, repair_file_calls, repair_file, repairExistingReplicas_calls,
    repairExistingReplicas, repairMissingReplicas_calls, repairMissingReplicas.
  implements_step ltac:(first [apply impl_coord_call | apply impl_repair_missing]).
Qed.

Lemma impl_deleteChunkObjects n k v keys :
  impl_objects (deleteChunkObjects_calls n k v keys) (deleteChunkObjects n k v keys).
Proof. unfold deleteChunkObjects_calls, deleteChunkObjects. implements_step ltac:(apply impl_objects_call). Qed.
Lemma impl_Replicate task : impl_objects (Replicate_calls task) (Replicate task).
Proof.
  unfold Replicate_calls, Replicate, replicateChunks_calls, replicateChunks, replicate_chunk_calls, replicate_chunk.
  implements_step ltac:(first [apply impl_objects_call | apply impl_deleteChunkObjects]).
Qed.

(** The worker's view of the service. *)
Definition sys_worker (σ : State) : ReplicationWorker B Q OS := worker_of (sys_service σ).
Definition set_sys_worker (w : ReplicationWorker B Q OS) (σ : State) : State :=
  set_sys (set_worker w (sys_service σ)) σ.
#[local] Instance lens_worker : Lens sys_worker set_sys_worker.
Proof. by split; [by intros []|intros [[]]|]. Qed.

Lemma impl_RunReplicationOnce : impl WorkOnce_calls RunReplicationOnce.
Proof.
  apply implements_zoom. fold sys_worker. unfold WorkOnce_calls, WorkOnce.
  change (implements sys_worker set_sys_worker) with (@implements State _ sys_worker set_sys_worker).
  assert (∀ A (p : Prog State A) m, impl_coord p m → implements sys_worker set_sys_worker p (on_coordinator m))
    as Hcoord by (intros A p m Hp; by apply implements_zoom).
  assert (∀ A (p : Prog State A) m, impl_objects p m → implements sys_worker set_sys_worker p (on_replicator m))
    as Hobj by (intros A p m Hp; by apply implements_zoom).
  implements_step ltac:(first [apply Hcoord; first [apply impl_coord_call | apply impl_FinishReplication
    | apply impl_FailReplication] | apply Hobj; apply impl_Replicate]).
Qed.

Lemma impl_o {A} (m : GoM OS A) : impl (o_call m) (objs m).
Proof. apply impl_of_objects, impl_objects_call. Qed.
Lemma impl_meta {A} (m : GoM B A) : impl (c_call (on_metadata m)) (meta_call m).
Proof. apply impl_of_coord, impl_coord_call. Qed.

Ltac impl_service tac :=
  implements_step ltac:(first [ tac | apply impl_o | apply impl_temp_call | apply impl_meta
    | apply impl_of_coord; apply impl_coord_call ]).

Lemma impl_deleteObjects n key v chunks : impl (deleteObjects_calls n key v chunks) (deleteObjects n key v chunks).
Proof. unfold deleteObjects_calls, deleteObjects. impl_service ltac:(fail). Qed.
Lemma impl_writeChunks n key v staged chunks :
  impl (writeChunks_calls n key v staged chunks) (writeChunks n key v staged chunks).
Proof.
  unfold writeChunks_calls, writeChunks, write_chunk_calls, write_chunk.
  impl_service ltac:(apply impl_deleteObjects).
Qed.
Lemma impl_stageReplica n meta : impl (stageReplica_calls n meta) (stageReplica n meta).
Proof. unfold stageReplica_calls, stageReplica, stage_chunk_calls, stage_chunk. impl_service ltac:(fail). Qed.

Lemma impl_Put key reads : impl (Put_calls key reads) (Put key reads).
Proof.
  unfold Put_calls, Put.
  impl_service ltac:(first [apply impl_deleteObjects | apply impl_writeChunks
    | apply impl_of_coord; first [apply impl_PrepareWrite | apply impl_CommitWrite]]).
Qed.

Lemma impl_get_loop key meta replicas : impl (get_loop_calls key meta replicas) (get_loop key meta replicas).
Proof.
  induction replicas as [|r replicas IH]; cbn [get_loop_calls get_loop]; [apply implements_fail, _|].
  impl_service ltac:(first [apply impl_stageReplica | apply IH]).
Qed.
Lemma impl_Get key : impl (Get_calls key) (Get key).
Proof.
  unfold Get_calls, Get. impl_service ltac:(first [apply impl_get_loop | apply impl_of_coord, impl_ReadCandidates]).
Qed.
Lemma impl_Delete key : impl (Delete_calls key) (Delete key).
Proof. unfold Delete_calls, Delete. impl_service ltac:(apply impl_deleteObjects). Qed.
Lemma impl_Metrics : impl Metrics_calls Metrics.
Proof. unfold Metrics_calls, Metrics, PendingTasks_calls, ServicePendingTasks. impl_service ltac:(fail). Qed.

Lemma impl_run_tasks fuel : impl (run_tasks_calls fuel) (run_tasks fuel).
Proof.
  induction fuel as [|fuel IH]; cbn [run_tasks_calls run_tasks]; [apply implements_ret, _|].
  impl_service ltac:(first [apply impl_RunReplicationOnce | apply IH]).
Qed.
Lemma impl_manager_tick fuel : impl (manager_tick_calls fuel) (manager_tick fuel).
Proof.
  unfold manager_tick_calls, manager_tick, ServiceMarkExpiredNodes, ServiceRequeueExpired, ServicePlanRepair.
  impl_service ltac:(first [apply impl_run_tasks | apply impl_of_coord, impl_PlanRepair]).
Qed.

Definition alone_run {A} (m : GoM Service A) (s : Service) : option (Res A * State) :=
  let '(r, s') := m s in Some (r, alone s').

Lemma impl_alone {A} (p : Prog State A) m s : impl p m → run p (alone s) = alone_run m s.
Proof. intros Hp. rewrite (Hp (alone s)). unfold zoom, alone_run. cbn. by destruct (m s). Qed.

Lemma impl_locked {A} i (p : Prog State A) m s : impl p m → run (with_lock i p) (alone s) = alone_run m s.
Proof.
  intros Hp. unfold with_lock, mbind, prog_bind. rewrite run_then. cbn. rewrite run_then, Hp.
  unfold zoom, alone_run. cbn. by destruct (m s).
Qed.
End sequential.

(** ** Alone, the threads are the methods *)

Section alone.
Context {B Q OS : Type} `{MetadataBackend B} `{ReplicationTaskQueue Q} `{ObjectStore OS}.
Implicit Types (s : ManagedFileService B Q OS).

(** A thread that runs alone does what the method of the service does as one
    step: the same result and the same state, with the mutex free again.  So the
    theorems on the methods speak of the programs that are interleaved here. *)
Theorem threads_sequential s i key reads fuel :
  run (with_lock i (Put_calls key reads)) (alone s) = alone_run (Put key reads) s ∧
  run (Get_calls key) (alone s) = alone_run (Get key) s ∧
  run (with_lock i (Delete_calls key)) (alone s) = alone_run (Delete key) s ∧
  run Metrics_calls (alone s) = alone_run Metrics s ∧
  run WorkOnce_calls (alone s) = alone_run RunReplicationOnce s ∧
  run (manager_tick_calls fuel) (alone s) = alone_run (manager_tick fuel) s.
Proof.
  split_and!.
  - apply impl_locked, impl_Put.
  - apply impl_alone, impl_Get.
  - apply impl_locked, impl_Delete.
  - apply impl_alone, impl_Metrics.
  - apply impl_alone, impl_RunReplicationOnce.
  - apply impl_alone, impl_manager_tick.
Qed.
End alone.
