(* ===== verification/HttpScenarios.v ===== *)
(** * A small cluster: instances of the theorems on the HTTP layer.

    Two storage nodes with content-addressed stores, a manager that reaches them
    over HTTP, and a client that reaches the manager. *)

From Stdlib Require Import Ascii ZifyBool.
From S2P Require Import Prelude Metadata Replication Backend MetadataSpec ReplicationSpec Names Hash Objects Staging Coordinator CoordinatorSpec Service ServiceSpec ServiceProps Paths Store StoreSpec StoreReliable Utf8 Json Times Codec Records Float64 JsonAny Url Http HttpNet HttpObjects HttpObjectsSpec ManagerApi Cli ApiSpec StatProps HttpProps Scenarios.
From stdpp Require Import options.

Abbreviation NodeStore := (LocalObjectStore (cas_opts "dfs-data")).
Abbreviation RemoteStore := (HTTPObjectStore (StorageHTTPHandler NodeStore)).

Definition storage_node (nid : string) : StorageHTTPHandler NodeStore :=
  NewStorageHTTPHandler nid {| ls_fs := empty_fs |}.

(** The requests are delivered, with their bodies in two pieces. *)
Definition good_script : nat → NetEvent := λ _, Delivered [2].

Definition cluster : RemoteStore :=
  NewHTTPObjectStore
    (<["node1" := "http://127.0.0.1:9101/"]> (<["node2" := "http://127.0.0.1:9102"]> ∅)) {|
      net_servers := <["127.0.0.1:9101" := storage_node "node1"]>
                       (<["127.0.0.1:9102" := storage_node "node2"]> ∅);
      net_script := good_script; net_used := 0 |}.

Definition cluster_topology : Topology := topology cluster.

#[export] Instance cluster_topology_ok : TopologyOk cluster_topology.
Proof. unfold TopologyOk. apply (bool_decide_unpack _). by vm_compute. Qed.

Definition remote : Remote NodeStore cluster_topology := dexist cluster eq_refl.

Abbreviation ClusterService :=
  (ManagedFileService MetadataStore MemoryReplicationTaskQueue (Remote NodeStore cluster_topology)).

Definition cluster_service : ClusterService :=
  after (ServiceRegisterNode "node2" ":5000") (after (ServiceRegisterNode "node1" ":3000")
    (NewManagedFileService 2 remote (stopped 1000) good_temp)).

Definition manager_net : Network (ManagerHTTPHandler MetadataStore MemoryReplicationTaskQueue
    (Remote NodeStore cluster_topology)) := {|
  net_servers := <["127.0.0.1:9000" := NewManagerHTTPHandler cluster_service None]> ∅;
  net_script := good_script; net_used := 0 |}.

Lemma cluster_ready : data_ready cluster_service.
Proof.
  split; [|done]. change (remote_ready cluster). split.
  - intros i. by exists [2].
  - cbn [hs_client cluster NewHTTPObjectStore net_servers]. intros host h [[_ <-]|[_ [[_ <-]|[_ Hh]]%lookup_insert_Some]]%lookup_insert_Some;
      [apply empty_fs_ready..|by rewrite lookup_empty in Hh].
Qed.

Lemma cluster_serves key v :
  file_key_ok key = true → in_u64 v → v ≠ 0%Z →
  serves_file (OS := Remote NodeStore cluster_topology) "node1" key v.
Proof.
  intros Hk Hv Hz.
  by apply (remote_serves_file _ "node1" "http://127.0.0.1:9101/" "127.0.0.1:9101" "node1").
Qed.

Lemma api_put_get_witness :
  ∃ created net1 got net2 h2,
    client_Do "PUT" (fileURL "http://127.0.0.1:9000/" "docs/a b.txt") (reader_of (bytes_of_string "hello"))
      manager_net = (Ok created, net1) ∧
    cr_StatusCode created = StatusCreated ∧
    client_Do "GET" (fileURL "http://127.0.0.1:9000/" "docs/a b.txt") no_body net1 = (Ok got, net2) ∧
    cr_StatusCode got = StatusOK ∧ drain (r_reads (cr_Body got)) = (bytes_of_string "hello", None) ∧
    net_servers net2 !! "127.0.0.1:9000" = Some h2 ∧ data_ready (mh_service h2).
Proof.
  apply (api_put_get "http://127.0.0.1:9000/" "127.0.0.1:9000" "docs/a b.txt"
    (reader_of (bytes_of_string "hello")) (bytes_of_string "hello") demo_plan
    (NewManagerHTTPHandler cluster_service None) manager_net).
  - apply memory_no_fault.
  - apply queue_no_fault.
  - reflexivity.
  - reflexivity.
  - intros i. by exists [2].
  - reflexivity.
  - apply cluster_ready.
  - reflexivity.
  - by vm_compute.
  - done.
  - by apply cluster_serves.
  - by apply put_addrs_small.
Defined.

Lemma url_roundtrip_witness :
  (∃ u, parse_url (fileURL "http://127.0.0.1:9000" "docs/a b.txt") = Some u ∧
     u_host u = "127.0.0.1:9000" ∧ fileKeyFromPath (u_path u) = inl ("docs/a b.txt", false)) ∧
  (∃ u, parse_url (object_url (hs_nodes cluster) "node1" "docs/a b.txt" 7) = Some u ∧
     u_host u = "127.0.0.1:9101" ∧
     objectRequest (request_of "HEAD" u no_body) = inl ("docs/a b.txt", 7%Z)).
Proof.
  destruct (url_roundtrip "http://127.0.0.1:9000" "127.0.0.1:9000" (hs_nodes cluster) "node1"
    "http://127.0.0.1:9101/" "127.0.0.1:9101" "docs/a b.txt" 7)
    as ((u & H1 & H2 & H3) & _ & (u' & H4 & H5 & H6)); [done..|].
  split; [exists u|exists u']; (split; [done|]); (split; [done|]); [by apply H3|apply H6].
Defined.

Definition bad_request : Request := {|
  req_Method := "PUT"; req_Path := "/files/../etc/passwd"; req_RawQuery := "";
  req_Body := reader_of (bytes_of_string "x") |}.

Lemma api_rejections_clean_witness :
  resp_Status (writeAPIError StatusBadRequest "invalid file key") = StatusBadRequest ∧
  after (ManagerServeHTTP bad_request) (NewManagerHTTPHandler cluster_service None) =
  NewManagerHTTPHandler cluster_service None.
Proof.
  split; [done|].
  apply (api_rejections_clean bad_request _ _ (writeAPIError StatusBadRequest "invalid file key")).
  - reflexivity.
  - by left.
Defined.

Lemma remote_store_safe_witness :
  (hs_WriteObject "node1" "k" 1 (reader_of (bytes_of_string "hello")) cluster).1 ≠ Panic ∧
  (hs_ReadObject "node3" "k" 1 cluster).1 ≠ Panic.
Proof.
  destruct (remote_store_safe "node1" "k" 1 cluster cluster_topology_ok) as (Hw & _).
  destruct (remote_store_safe "node3" "k" 1 cluster cluster_topology_ok) as (_ & Hr & _).
  split; [eapply Hw, surjective_pairing|eapply Hr, surjective_pairing].
Defined.

Lemma dotted_key_unwritable_witness :
  Put "notes." (upload "x") cluster_service ≠ (Ok (c_zero c_FileMetadata), cluster_service).
Proof. by apply (dotted_key_unwritable cluster_topology "notes." (upload "x")). Defined.

(** A manager whose handler registers nodes with its remote store. *)
Definition manager_handler :
    ManagerHTTPHandler MetadataStore MemoryReplicationTaskQueue RemoteStore :=
  NewManagerHTTPHandler (NewManagedFileService 2 cluster (stopped 1000) good_temp) (Some SetNode).

Definition heartbeat_net : Network (ManagerHTTPHandler MetadataStore MemoryReplicationTaskQueue RemoteStore) := {|
  net_servers := <["127.0.0.1:9000" := manager_handler]> ∅;
  net_script := good_script; net_used := 0 |}.

Lemma heartbeat_registers_witness :
  ∃ net' h' node, sendHeartbeat "http://127.0.0.1:9000" "node3" "http://127.0.0.1:9103" heartbeat_net = (Ok tt, net') ∧
    net_servers net' = <["127.0.0.1:9000" := h']> (net_servers heartbeat_net) ∧
    nm_Addr node = "http://127.0.0.1:9103" ∧
    sv_objects (mh_service h') = {| hs_nodes := <["node3" := "http://127.0.0.1:9103"]> (hs_nodes cluster);
                                    hs_client := hs_client cluster |}.
Proof.
  destruct (heartbeat_registers "http://127.0.0.1:9000" "127.0.0.1:9000" "node3" "http://127.0.0.1:9103"
    manager_handler heartbeat_net) as (net' & h' & node & H1 & H2 & _ & H3 & _ & _ & _ & _ & _ & H4 & _);
    [apply memory_no_fault|reflexivity|reflexivity|by intros i; exists [2]|reflexivity|done..|].
  by exists net', h', node.
Defined.

(** Examples of keys that do not reach the object they name. *)

(** A percent sign is unescaped twice: the key "50%25" is taken for "50%". *)
Example percent_key_confused : object_of "50%25" 1 = Some ("50%", 1%Z).
Proof. reflexivity. Qed.

(** A key that ends in "/metadata" is taken for a metadata request. *)
Example metadata_key_unreachable :
  fileKeyFromPath ("/files/" +:+ "a/metadata") = inl ("a", true).
Proof. reflexivity. Qed.

(** A storage node whose disk fails answers 404 to DELETE, which the client takes
    for success: the object is still there. *)
Definition failing_node : StorageHTTPHandler NodeStore :=
  NewStorageHTTPHandler "node1" {| ls_fs := {|
    fs_tree := <[object_path (cas_opts "dfs-data") "node1" (versionedObjectKey "k" 1) :=
                   EntryFile (bytes_of_string "data")]> ∅;
    fs_outcomes := λ _, Some "input/output error"; fs_used := 0 |} |}.

Definition failing_cluster : RemoteStore :=
  NewHTTPObjectStore (hs_nodes cluster) {|
    net_servers := <["127.0.0.1:9101" := failing_node]> ∅;
    net_script := good_script; net_used := 0 |}.

Example failed_delete_hidden :
  let out := hs_DeleteObject "node1" "k" 1 failing_cluster in
  out.1 = Ok tt ∧
  remote_object out.2 (remote_addr (topology failing_cluster) "node1" "k" 1) =
    Some (bytes_of_string "data").
Proof. by vm_compute. Qed.

(** ** stat and nodes *)

(** A manager that has the metadata of one file, at a terminal. *)
Definition stat_service (size : Z) : ClusterService :=
  after (meta_call (mb_BeginFileVersion "docs/a" size "c0ffee"
    [{| cm_Index := 0; cm_Offset := 0; cm_Size := size; cm_Checksum := "c0ffee" |}]
    "node1" ["node1"; "node2"])) cluster_service.

Definition stat_handler (size : Z) :
    ManagerHTTPHandler MetadataStore MemoryReplicationTaskQueue (Remote NodeStore cluster_topology) :=
  NewManagerHTTPHandler (stat_service size) None.

Definition stat_terminal (size : Z) : Terminal (ManagerHTTPHandler MetadataStore MemoryReplicationTaskQueue
    (Remote NodeStore cluster_topology)) := {|
  tm_fs := empty_fs;
  tm_net := {| net_servers := <["127.0.0.1:9000" := stat_handler size]> ∅;
               net_script := good_script; net_used := 0 |};
  tm_out := [] |}.

Definition stat_meta (size : Z) : FileMetadata :=
  new_file_version "docs/a" 1 size "c0ffee"
    [{| cm_Index := 0; cm_Offset := 0; cm_Size := size; cm_Checksum := "c0ffee" |}]
    "node1" ["node1"; "node2"] 1000 1000.

Lemma stat_meta_json : file_json (stat_meta 5) ∧ file_exact (stat_meta 5).
Proof.
  split; [unfold file_json|by split_and!; [..|repeat constructor]].
  assert (fm_Replicas (stat_meta 5) =
    <["node2" := {| rm_NodeID := "node2"; rm_State := ReplicaPending; rm_UpdatedAt := 1000 |}]>
    {["node1" := {| rm_NodeID := "node1"; rm_State := ReplicaHealthy; rm_UpdatedAt := 1000 |}]}) as -> by by vm_compute.
  split_and!; try done.
  - by repeat constructor.
  - apply map_Forall_insert_2; [by vm_compute|]. apply map_Forall_singleton. by vm_compute.
Qed.

Lemma stat_prints_witness :
  ∃ text net' h', runStat ["-manager"; "http://127.0.0.1:9000/"; "docs/a"] (stat_terminal 5) =
      (Ok tt, {| tm_fs := empty_fs; tm_net := net'; tm_out := [text] |}) ∧
    json_Unmarshal c_FileMetadata text = Some (stat_meta 5) ∧
    net_servers net' = <["127.0.0.1:9000" := h']> (net_servers (tm_net (stat_terminal 5))) ∧
    same_service (stat_service 5) (mh_service h').
Proof.
  apply (stat_prints ["-manager"; "http://127.0.0.1:9000/"; "docs/a"] "http://127.0.0.1:9000/" "docs/a"
    "127.0.0.1:9000" (stat_meta 5) (stat_handler 5) (stat_terminal 5)).
  - apply memory_no_fault.
  - reflexivity.
  - reflexivity.
  - reflexivity.
  - intros i. by exists [2].
  - reflexivity.
  - by vm_compute.
  - apply stat_meta_json.
  - apply stat_meta_json.
Defined.

Definition quoted (s : string) : string := String quote (s +:+ String quote "").

(** What is printed for the nodes, line by line. *)
Example nodes_text :
  tm_out (runNodes [] (stat_terminal 5)).2 = [join newline [
    "["; "  {"; "    " +:+ quoted "Addr" +:+ ": " +:+ quoted ":3000" +:+ ",";
    "    " +:+ quoted "ID" +:+ ": " +:+ quoted "node1" +:+ ",";
    "    " +:+ quoted "LastHeartbeat" +:+ ": " +:+ quoted "0001-01-01T00:00:00.000001Z" +:+ ",";
    "    " +:+ quoted "State" +:+ ": " +:+ quoted "healthy"; "  },"; "  {";
    "    " +:+ quoted "Addr" +:+ ": " +:+ quoted ":5000" +:+ ",";
    "    " +:+ quoted "ID" +:+ ": " +:+ quoted "node2" +:+ ",";
    "    " +:+ quoted "LastHeartbeat" +:+ ": " +:+ quoted "0001-01-01T00:00:00.000001Z" +:+ ",";
    "    " +:+ quoted "State" +:+ ": " +:+ quoted "healthy"; "  }"; "]"]].
Proof. by vm_compute. Qed.

(** A size above 2^53 is printed as another number. *)
Example stat_rounds_large :
  (fm_Size <$> (tm_out (runStat ["docs/a"] (stat_terminal 9007199254740993)).2 !! 0 ≫=
     json_Unmarshal c_FileMetadata)) = Some 9007199254740992%Z.
Proof. by vm_compute. Qed.

(** A file that does not exist. *)
Example stat_unknown :
  (runStat ["nothing"] (stat_terminal 5)).1 =
  Err (ErrOther ("request failed: 404 Not Found {" +:+ quoted "error" +:+ ":" +:+ quoted "metadata not found" +:+ "}")).
Proof. by vm_compute. Qed.
