(* ===== verification/Process.v ===== *)
(** * Starting the processes: [runManager], [runStorage] and [main] of [main.go].

    A process parses its flags, builds its state and then serves it; what is
    modelled is the state it serves and the error it ends with before.  Opening
    the database file is an argument; listening, tickers and signals are left
    out. *)

From Stdlib Require Import Ascii ZifyBool.
From S2P Require Import Prelude Metadata Replication Backend Names Hash Objects Staging Coordinator Service Paths Store StoreSpec StoreReliable Utf8 Json Times Codec Records Bolt DiskStore DiskMetadata DiskTable DiskMetadataSpec DiskQueue DiskQueueSpec DiskProps Url Http HttpNet HttpObjects ManagerApi Cli.
From stdpp Require Import options.

(** ** Integer flags: [strconv.ParseInt(s, 0, 64)] *)


Definition digit_value (c : ascii) : option Z :=
  let c := lower c in
  if is_digit c then Some (Z.of_N (code c) - 48)%Z
  else if between 97 122 c then Some (Z.of_N (code c) - 87)%Z
  else None.

(** The base a prefix stands for, and the rest. *)
Definition number_base (s : string) : Z * string :=
  match s with
  | String z (String p (String d r)) =>
      if is_char 48 z then
        if is_char 98 (lower p) then (2%Z, String d r)
        else if is_char 111 (lower p) then (8%Z, String d r)
        else if is_char 120 (lower p) then (16%Z, String d r)
        else (8%Z, String p (String d r))
      else (10%Z, s)
  | String z r => if is_char 48 z then (8%Z, r) else (10%Z, s)
  | _ => (10%Z, s)
  end%string.

Fixpoint digits_value (base : Z) (s : string) (n : Z) : option Z :=
  match s with
  | "" => Some n
  | String c r =>
      if is_char 95 c then digits_value base r n
      else
        d ← digit_value c;
        if (d <? base)%Z then digits_value base r (n * base + d)%Z else None
  end%string.

(** [underscoreOK]: underscores only between digits, a base prefix counting as
    one.  [seen] is the kind of the last character. *)
Inductive Seen := SeenStart | SeenDigit | SeenUnderscore | SeenOther.

Fixpoint underscores (hex : bool) (seen : Seen) (s : string) : bool :=
  match s with
  | "" => match seen with SeenUnderscore => false | _ => true end
  | String c r =>
      if is_digit c || (hex && between 97 102 (lower c)) then underscores hex SeenDigit r
      else if is_char 95 c then
        match seen with SeenDigit => underscores hex SeenUnderscore r | _ => false end
      else match seen with SeenUnderscore => false | _ => underscores hex SeenOther r end
  end%string.

Definition underscoreOK (s : string) : bool :=
  match s with
  | String z (String p r) =>
      if is_char 48 z && (is_char 98 (lower p) || is_char 111 (lower p) || is_char 120 (lower p))
      then underscores (is_char 120 (lower p)) SeenDigit r
      else underscores false SeenStart s
  | _ => underscores false SeenStart s
  end%string.

Definition ParseUint0 (s : string) : option Z :=
  match s with
  | "" => None
  | _ =>
      let '(base, r) := number_base s in
      n ← digits_value base r 0;
      if underscoreOK s && (n <? 2 ^ 64)%Z then Some n else None
  end%string.

Definition ParseInt0 (s : string) : option Z :=
  match s with
  | String c r =>
      if is_char 45 c then n ← ParseUint0 r; if (n <=? 2 ^ 63)%Z then Some (- n)%Z else None
      else n ← (if is_char 43 c then ParseUint0 r else ParseUint0 s); if (n <? 2 ^ 63)%Z then Some n else None
  | _ => None
  end%string.

(** ** The manager *)

Record ManagerFlags := {
  mf_addr : string;
  mf_metadataDB : string;
  mf_replicas : Z;
  mf_nodes : gmap string string
}.

Definition manager_defaults : ManagerFlags := {|
  mf_addr := ":9000"; mf_metadataDB := "data/manager/metadata.db"; mf_replicas := defaultReplicaCount;
  mf_nodes := ∅ |}.

Definition manager_setters : list (string * (string → ManagerFlags → option ManagerFlags)) := [
  ("addr", λ v f, Some {| mf_addr := v; mf_metadataDB := mf_metadataDB f; mf_replicas := mf_replicas f;
                          mf_nodes := mf_nodes f |});
  ("metadata-db", λ v f, Some {| mf_addr := mf_addr f; mf_metadataDB := v; mf_replicas := mf_replicas f;
                                 mf_nodes := mf_nodes f |});
  ("replicas", λ v f, n ← ParseInt0 v;
     Some {| mf_addr := mf_addr f; mf_metadataDB := mf_metadataDB f; mf_replicas := n; mf_nodes := mf_nodes f |});
  ("node", λ v f,
     match nodeFlags_Set v (mf_nodes f) with
     | inl nodes => Some {| mf_addr := mf_addr f; mf_metadataDB := mf_metadataDB f;
                            mf_replicas := mf_replicas f; mf_nodes := nodes |}
     | inr _ => None
     end)].

(** What a manager process holds.  Its metadata store and its task queue are two
    handles on one open database, each with its clock. *)
Record ManagerProcess (DB H : Type) := {
  mp_db : DB;
  mp_metadataClock : Clock;
  mp_tasksClock : Clock;
  mp_replicas : Z;
  mp_objects : HTTPObjectStore H;
  mp_temp : TempDir
}.
Arguments mp_db {DB H}.
Arguments mp_metadataClock {DB H}.
Arguments mp_tasksClock {DB H}.
Arguments mp_replicas {DB H}.
Arguments mp_objects {DB H}.
Arguments mp_temp {DB H}.

Section manager.
Context {DB Tx : Type} `{!Bolt DB Tx} {H : Type} `{!HTTPServer H}.
Abbreviation Process := (ManagerProcess DB H).
Abbreviation Manager := (ManagedFileService (DiskStore DB) (DiskStore DB) (HTTPObjectStore H)).
Abbreviation Handler := (ManagerHTTPHandler (DiskStore DB) (DiskStore DB) (HTTPObjectStore H)).

Definition mp_metadata (p : Process) : DiskStore DB := {| ds_db := mp_db p; ds_now := mp_metadataClock p |}.
Definition mp_tasks (p : Process) : DiskStore DB := {| ds_db := mp_db p; ds_now := mp_tasksClock p |}.
(** A call on the metadata store changes the database of the process. *)
Definition set_mp_metadata (m : DiskStore DB) (p : Process) : Process :=
  {| mp_db := ds_db m; mp_metadataClock := ds_now m; mp_tasksClock := mp_tasksClock p;
     mp_replicas := mp_replicas p; mp_objects := mp_objects p; mp_temp := mp_temp p |}.

(** The service and the handler as they are built. *)
Definition mp_service (p : Process) : Manager :=
  NewManagedFileServiceWithMetadataAndQueue (mp_replicas p) (mp_objects p) (mp_metadata p) (mp_tasks p) (mp_temp p).
Definition mp_handler (p : Process) : Handler := NewManagerHTTPHandler (mp_service p) (Some SetNode).

(** The loop of [runManager] that registers the nodes, in the order in which it
    visits the map: [service.RegisterNode] is [UpsertNode] of the metadata store. *)
Definition register_nodes (nodes : gmap string string) (order : list string) : GoM Process unit :=
  for_each order (λ id,
    zoom mp_metadata set_mp_metadata (mb_UpsertNode id (default "" (nodes !! id)));; mret tt).

(** The queue is opened on the handle that the metadata store has opened. *)
Definition open_manager (f : ManagerFlags) (opened : Res DB) (clock1 clock2 : Clock)
    (client : Network H) (temp : TempDir) : Res Process :=
  match OpenDiskMetadataStore opened clock1 with
  | Ok metadata =>
      match NewDiskReplicationTaskQueue (ds_db metadata) clock2 with
      | (Ok _, tasks) =>
          Ok {| mp_db := ds_db tasks; mp_metadataClock := ds_now metadata; mp_tasksClock := ds_now tasks;
                mp_replicas := mf_replicas f; mp_objects := NewHTTPObjectStore (mf_nodes f) client;
                mp_temp := temp |}
      | (Err e, _) => Err e
      | (Panic, _) => Panic
      end
  | Err e => Err e
  | Panic => Panic
  end.

(** [runManager] up to the point where it serves [mp_handler]: the address it
    listens on and the process, on a file system that holds the directory of the
    database. *)
Definition runManager (args : list string) (order : list string) (db_open : string → Res DB)
    (clock1 clock2 : Clock) (client : Network H) (temp : TempDir) : GoM FS (string * Process) :=
  match parse_flags manager_setters args manager_defaults with
  | None => fail (ErrOther "exit status 2")
  | Some (f, _) =>
      if decide (size (mf_nodes f) = 0) then fail (ErrOther "at least one -node id=url is required")
      else
        os_MkdirAll (PathDir (Join [mf_metadataDB f]));;
        opened ← lift_res (open_manager f (db_open (mf_metadataDB f)) clock1 clock2 client temp);
        match register_nodes (mf_nodes f) order opened with
        | (Ok _, process) => mret (mf_addr f, process)
        | (Err e, _) => fail e
        | (Panic, _) => panic
        end
  end.
End manager.

(** ** The storage node *)

Record StorageFlags := {
  sf_id : string;
  sf_addr : string;
  sf_advertise : string;
  sf_manager : string;
  sf_root : string
}.

Definition storage_defaults : StorageFlags :=
  {| sf_id := ""; sf_addr := ":9101"; sf_advertise := ""; sf_manager := ""; sf_root := "data/storage" |}.

Definition storage_setters : list (string * (string → StorageFlags → option StorageFlags)) := [
  ("id", λ v f, Some {| sf_id := v; sf_addr := sf_addr f; sf_advertise := sf_advertise f;
                        sf_manager := sf_manager f; sf_root := sf_root f |});
  ("addr", λ v f, Some {| sf_id := sf_id f; sf_addr := v; sf_advertise := sf_advertise f;
                          sf_manager := sf_manager f; sf_root := sf_root f |});
  ("advertise", λ v f, Some {| sf_id := sf_id f; sf_addr := sf_addr f; sf_advertise := v;
                               sf_manager := sf_manager f; sf_root := sf_root f |});
  ("manager", λ v f, Some {| sf_id := sf_id f; sf_addr := sf_addr f; sf_advertise := sf_advertise f;
                             sf_manager := v; sf_root := sf_root f |});
  ("root", λ v f, Some {| sf_id := sf_id f; sf_addr := sf_addr f; sf_advertise := sf_advertise f;
                          sf_manager := sf_manager f; sf_root := v |})].

(** What a storage process serves, and where its heartbeats go. *)
Record StorageProcess := {
  sp_addr : string;
  sp_opts : StoreOpts;
  sp_handler : StorageHTTPHandler (LocalObjectStore sp_opts);
  sp_heartbeat : option (string * string)
}.

Definition runStorage (args : list string) (disk : FS) : Res StorageProcess :=
  match parse_flags storage_setters args storage_defaults with
  | None => Err (ErrOther "exit status 2")
  | Some (f, _) =>
      if bool_decide (sf_id f = "") then Err (ErrOther "-id is required")
      else
        let store := NewStore (sf_root f) (Some CASPathTransformFunc) in
        Ok {| sp_addr := sf_addr f; sp_opts := store;
              sp_handler := NewStorageHTTPHandler (sf_id f) {| ls_fs := disk |};
              sp_heartbeat :=
                if bool_decide (sf_manager f = "") then None
                else Some (sf_manager f,
                  if bool_decide (sf_advertise f = "") then "http://127.0.0.1" +:+ sf_addr f
                  else sf_advertise f) |}
  end.

(** A round of [storageHeartbeatLoop]: an error is logged. *)
Definition heartbeat_round {H} `{HTTPServer H} (manager nodeID address : string) : GoM (Network H) unit :=
  try (sendHeartbeat manager nodeID address);; mret tt.

(** ** [main] *)

Inductive Command :=
  | CmdManager (args : list string)
  | CmdStorage (args : list string)
  | CmdPut (args : list string)
  | CmdGet (args : list string)
  | CmdDelete (args : list string)
  | CmdStat (args : list string)
  | CmdNodes (args : list string)
  | CmdP2PDemo.

(** The command that [os.Args] names; [None] prints the usage and exits. *)
Definition main_command (argv : list string) : option Command :=
  match argv with
  | _ :: name :: args =>
      if bool_decide (name = "manager") then Some (CmdManager args)
      else if bool_decide (name = "storage") then Some (CmdStorage args)
      else if bool_decide (name = "put") then Some (CmdPut args)
      else if bool_decide (name = "get") then Some (CmdGet args)
      else if bool_decide (name = "delete") then Some (CmdDelete args)
      else if bool_decide (name = "stat") then Some (CmdStat args)
      else if bool_decide (name = "nodes") then Some (CmdNodes args)
      else if bool_decide (name = "p2p-demo") then Some CmdP2PDemo
      else None
  | _ => None
  end.

(** ** Starting on a database *)

Section start.
Context {DB Tx : Type} `{BoltLaws DB Tx} {SH : Type} `{!HTTPServer SH}.
Abbreviation Process := (ManagerProcess DB SH).
Implicit Types (p : Process).

(** The catalog after the nodes of [order] were registered: they are healthy at
    their addresses, and nothing else has changed. *)
Definition registered (nodes : gmap string string) (order : list string) (c c' : Catalog) : Prop :=
  cat_files c' = cat_files c ∧
  (∀ id, id ∈ order → ∃ n, cat_nodes c' !! id = Some n ∧ nm_ID n = id ∧
     nm_Addr n = default "" (nodes !! id) ∧ nm_State n = NodeHealthy) ∧
  (∀ id, id ∉ order → cat_nodes c' !! id = cat_nodes c !! id).

Lemma registered_cons nodes id order c t c' :
  registered nodes order (cat_upsert id (default "" (nodes !! id)) t c).2 c' →
  registered nodes (id :: order) c c'.
Proof.
  intros (Hf & Hin & Hout). split; [done|]. split.
  - intros i [->|Hi]%elem_of_cons; [|by apply Hin]. destruct (decide (id ∈ order)); [by apply Hin|].
    rewrite Hout by done. cbn. rewrite lookup_insert_eq. by eexists.
  - intros i [Hne Hi]%not_elem_of_cons. rewrite Hout by done. cbn. by rewrite lookup_insert_ne.
Qed.

Lemma register_run nodes order p r p' :
  (∀ id, id ∈ order → key_ok id ∧ utf8_ok (default "" (nodes !! id))) →
  disk_ok (mp_metadata p) → register_nodes nodes order p = (r, p') →
  disk_ok (mp_metadata p') ∧ meta_frame (db_data (mp_db p)) (db_data (mp_db p')) ∧
  mp_objects p' = mp_objects p ∧ mp_replicas p' = mp_replicas p ∧
  match r with
  | Ok _ => registered nodes order (data_catalog (db_data (mp_db p))) (data_catalog (db_data (mp_db p')))
  | Err e => disk_failure (DB := DB) e
  | Panic => False
  end.
Proof.
  unfold register_nodes. intros Hall. revert p. induction order as [|id order IH]; intros p Hok; cbn [for_each].
  { intros [= <- <-]. do 5 (split; [done|]). split; [|done]. by intros i Hi%not_elem_of_nil. }
  destruct (Hall id ltac:(apply list_elem_of_here)) as [Hid Ha].
  assert (∀ i, i ∈ order → key_ok i ∧ utf8_ok (default "" (nodes !! i))) as Hall'
    by (intros i Hi; apply Hall; by apply list_elem_of_further).
  destruct (mb_UpsertNode id (default "" (nodes !! id)) (mp_metadata p)) as [r1 m1] eqn:R1.
  destruct (UpsertNode_refines id _ Hid Ha _ _ _ Hok R1) as (Hok1 & Hfr1 & Hcase).
  apply (zoom_run (S := Process) mp_metadata set_mp_metadata) in R1. set (p1 := set_mp_metadata m1 p) in *.
  assert (disk_ok (mp_metadata p1)) as Hok1' by (by destruct m1).
  destruct r1 as [n|e|].
  - rewrite (gom_bind_ok _ _ _ tt p1) by (by rewrite (gom_bind_ok _ _ _ _ _ R1)). intros R.
    destruct (IH Hall' p1 Hok1' R) as (Hok2 & Hfr2 & Ho2 & Hr2 & Hres). split; [done|].
    split; [intros b Hb1 Hb2; by rewrite Hfr2, Hfr1|]. split; [done|]. split; [done|].
    destruct r as [|e|]; [|done|done]. destruct Hcase as [[t Hc]|(_ & e & ? & _)]; [|done].
    apply (registered_cons nodes id order _ t). apply (f_equal snd) in Hc. cbn [snd] in Hc.
    unfold store_abs, store_data in Hc. cbn in Hc. cbn. by rewrite Hc.
  - erewrite gom_bind_err by (erewrite gom_bind_err by exact R1; reflexivity).
    intros [= <- <-]. split_and!; [done|done|done|done|].
    destruct Hcase as [[t [= ]]|(_ & e' & [= <-] & [He|He])]; [left; by eexists|by right].
  - by destruct Hcase as [[t [= ]]|(_ & e' & [= ] & _)].
Qed.

(** C23: a manager starts from what its predecessor left.  With at least one
    node, given as text that JSON can carry, and a database that one of its kind
    has written and in which no task is running or failed, [runManager] comes to
    serve at the given address, or ends with an error of the file system or the
    database; it never panics.  The one database that both its stores work on then
    has the files that were stored, every node of the command line registered as
    healthy under its address, the other nodes as they were, and the tasks that were
    stored; the object store reaches the nodes under the same addresses.  A task
    that was running or had failed would be rewritten inside [ForEach], where bbolt
    promises nothing, and such databases are not covered. *)
Theorem manager_starts args f rest order db clock1 clock2 client temp disk r disk' :
  parse_flags manager_setters args manager_defaults = Some (f, rest) → mf_nodes f ≠ ∅ →
  (∀ id, id ∈ order ↔ is_Some (mf_nodes f !! id)) →
  map_Forall (λ id address, key_ok id ∧ utf8_ok address) (mf_nodes f) →
  openable (db_data db) → tasks_openable (db_data db) → settled (stored_tasks (db_data db)) →
  clock_ok (readings clock1) → clock_ok (readings clock2) →
  runManager (H := SH) args order (λ _, Ok db) clock1 clock2 client temp disk = (r, disk') →
  match r with
  | Ok (address, p) =>
      let d := db_data (mp_db p) in
      address = mf_addr f ∧ mp_replicas p = mf_replicas f ∧ hs_nodes (mp_objects p) = mf_nodes f ∧
      data_ok d ∧ tasks_ok d ∧ registered (mf_nodes f) order (data_catalog (db_data db)) (data_catalog d) ∧
      stored_tasks d = stored_tasks (db_data db)
  | Err e => os_MkdirAll (PathDir (Join [mf_metadataDB f])) disk = (Err e, disk') ∨ disk_failure (DB := DB) e
  | Panic => False
  end.
Proof.
  intros Hflags Hne Hord Hnodes Hop Htop Hset Hc1 Hc2. unfold runManager. rewrite Hflags.
  rewrite decide_False by (by rewrite map_size_empty_iff).
  destruct (os_MkdirAll (PathDir (Join [mf_metadataDB f])) disk) as [[u|e|] disk1] eqn:Rmk.
  2: { erewrite gom_bind_err by exact Rmk. intros [= <- <-]. by left. }
  2: { by destruct (mkdir_panic_free _ _ _ _ Rmk). }
  rewrite (gom_bind_ok _ _ _ _ _ Rmk). unfold open_manager.
  pose proof (manager_restart db clock1 clock2 Hop Htop Hset Hc1 Hc2) as Hrestart.
  pose proof (Open_run db clock1 _ Hop Hc1 eq_refl) as Hopen.
  destruct (OpenDiskMetadataStore (Ok db) clock1) as [m|e|]; [| |done].
  2: { intros [= <- <-]. right. left. by eexists. }
  destruct (NewDiskReplicationTaskQueue (ds_db m) clock2) as [[u2|e|] q]; [| |done].
  2: { intros [= <- <-]. right. done. }
  destruct Hrestart as (Hdata & Htasks & Hcat & Htab). destruct Hopen as ([_ Hclk] & _ & _).
  rewrite (gom_bind_ok (lift_res _) _ _ _ disk1 eq_refl).
  set (p0 := {| mp_db := _ |}). destruct (register_nodes (mf_nodes f) order p0) as [r1 p1] eqn:Rreg.
  destruct (register_run (mf_nodes f) order p0 r1 p1) as (Hok1 & Hfr1 & Ho1 & Hr1 & Hres); [|by split|done|].
  { intros id (a & Ha)%Hord. rewrite Ha. by apply (Hnodes id a). }
  assert (db_data (mp_db p1) !! replicationTasksBucket = store_data q !! replicationTasksBucket) as Hb
    by (by apply Hfr1).
  destruct r1 as [u3|e|]; [| |done].
  - intros [= <- <-]. cbn zeta. rewrite Ho1, Hr1. split_and!; try done.
    + apply Hok1.
    + destruct Htasks as (ts & Hts & Hall). exists ts. by rewrite Hb.
    + by rewrite <-Hcat.
    + rewrite <-Htab. unfold table. by rewrite Hb.
  - intros [= <- <-]. by right.
Qed.
End start.
