(* ===== verification/ProcessScenarios.v ===== *)
(** * Processes that start: instances and executions for [Process]. *)

From Stdlib Require Import Ascii ZifyBool.
From S2P Require Import Prelude Metadata Replication Backend Names Hash Objects Staging Coordinator Service Paths Store StoreReliable Utf8 Json Times Codec Records Bolt DiskStore DiskMetadata DiskTable DiskMetadataSpec DiskQueue DiskQueueSpec DiskProps Url Http HttpNet HttpObjects ManagerApi Cli Scenarios HttpScenarios Process.
From stdpp Require Import options.

(** ** Flags *)

Example integer_flags :
  ParseInt0 <$> ["3"; "-3"; "0x1F"; "0b101"; "017"; "1_000"; "_1"; "1__0"; "0x_1F"; "9223372036854775808";
                 "-9223372036854775808"; ""; "3a"] =
  [Some 3; Some (-3); Some 31; Some 5; Some 15; Some 1000; None; None; Some 31; None;
   Some (-9223372036854775808); None; None]%Z.
Proof. by vm_compute. Qed.

Definition demo_args : list string :=
  ["-node"; "node1=http://127.0.0.1:9101"; "--addr=:9009"; "-node=node2=http://127.0.0.1:9102"; "-replicas"; "2"].

Definition demo_flags : ManagerFlags := {|
  mf_addr := ":9009"; mf_metadataDB := "data/manager/metadata.db"; mf_replicas := 2;
  mf_nodes := <["node2" := "http://127.0.0.1:9102"]> (<["node1" := "http://127.0.0.1:9101"]> ∅) |}.

(** ** A manager that starts on an empty database *)

Lemma demo_nodes_ok : map_Forall (λ id address, key_ok id ∧ utf8_ok address) (mf_nodes demo_flags).
Proof.
  cbn. apply map_Forall_insert_2; [by split; [apply key_ok_check|]|].
  apply map_Forall_insert_2; [by split; [apply key_ok_check|]|]. apply map_Forall_empty.
Qed.

Lemma demo_parse : parse_flags manager_setters demo_args manager_defaults = Some (demo_flags, []).
Proof. vm_compute. reflexivity. Qed.

Lemma demo_order nid : nid ∈ ["node1"; "node2"] ↔ is_Some (mf_nodes demo_flags !! nid).
Proof.
  cbn. rewrite !lookup_insert_is_Some', lookup_empty, !elem_of_cons, elem_of_nil.
  split; [naive_solver|]. intros [->|[->|[? ?]]]; [tauto|tauto|done].
Qed.

(** The stores of the demo and its outcome; the database is one that a manager
    left with a task that waits. *)
Abbreviation demo_start := (runManager (DB := BoltData) (Tx := BoltData) demo_args ["node1"; "node2"]
  (λ _, Ok waiting_db) (stopped test_time) (stopped test_time) (hs_client cluster) good_temp empty_fs).

Lemma demo_start_ok : match demo_start.1 with Ok _ => true | _ => false end = true.
Proof. vm_compute. reflexivity. Qed.

Lemma demo_nodes_nonempty : mf_nodes demo_flags ≠ ∅.
Proof. cbn. apply insert_non_empty. Qed.

Lemma manager_starts_witness :
  ∃ p, demo_start.1 = Ok (":9009", p) ∧
    registered (mf_nodes demo_flags) ["node1"; "node2"] (data_catalog (db_data waiting_db))
      (data_catalog (db_data (mp_db p))) ∧
    stored_tasks (db_data (mp_db p)) = stored_tasks (db_data waiting_db).
Proof.
  pose proof demo_start_ok as Hok. destruct waiting_db_ok as (Hop & Htop & Hset).
  pose proof (manager_starts (DB := BoltData) (Tx := BoltData) demo_args demo_flags [] ["node1"; "node2"]
    waiting_db (stopped test_time) (stopped test_time) (hs_client cluster) good_temp empty_fs
    demo_start.1 demo_start.2 demo_parse demo_nodes_nonempty demo_order demo_nodes_ok
    Hop Htop Hset test_clock_ok test_clock_ok (surjective_pairing _)) as H.
  destruct (demo_start.1) as [[a p]|e|]; [|discriminate Hok..].
  destruct H as (-> & _ & _ & _ & _ & Hreg & Ht). exists p. split; [reflexivity|]. split; [exact Hreg|exact Ht].
Defined.

(** Without a node the manager does not start. *)
Example manager_needs_a_node :
  match (runManager (DB := BoltData) (Tx := BoltData) ["-addr"; ":9000"] [] (λ _, Ok empty_db)
    (stopped test_time) (stopped test_time) (hs_client cluster) good_temp empty_fs).1 with
  | Err (ErrOther msg) => msg
  | _ => ""
  end = "at least one -node id=url is required".
Proof. vm_compute. reflexivity. Qed.

(** ** A storage node *)

Example storage_heartbeat_address :
  match runStorage ["-id"; "node1"; "-addr"; ":9101"; "-manager"; "http://127.0.0.1:9000"] empty_fs with
  | Ok p => sp_heartbeat p = Some ("http://127.0.0.1:9000", "http://127.0.0.1:9101") ∧
            sh_nodeID (sp_handler p) = "node1" ∧ Root (sp_opts p) = "data/storage"
  | _ => False
  end.
Proof. by vm_compute. Qed.

(** The default address of the heartbeats is only right for an address without a
    host: with one, the node announces a URL that does not parse. *)
Example storage_heartbeat_wrong :
  match runStorage ["-id"; "node1"; "-addr"; "127.0.0.1:9101"; "-manager"; "http://127.0.0.1:9000"] empty_fs with
  | Ok p => sp_heartbeat p = Some ("http://127.0.0.1:9000", "http://127.0.0.1127.0.0.1:9101")
  | _ => False
  end.
Proof. by vm_compute. Qed.

Example main_dispatch :
  main_command ["fs"; "put"; "k"; "p"] = Some (CmdPut ["k"; "p"]) ∧ main_command ["fs"] = None ∧
  main_command ["fs"; "list"] = None.
Proof. by vm_compute. Qed.
