(* ===== verification/Md5.v ===== *)
(** * [crypto/md5] of the Go standard library, and the key names of [crypto.go].

    MD5 as RFC 1321 defines it, executable, so that [hashKey] is the real
    function.  Its table is the integer part of 2^32 times the absolute value of
    the sine of the first 64 integers; the examples check the function against
    the digests of the RFC. *)

From Stdlib Require Import ZArith Ascii Strings.Byte.
From S2P Require Import Prelude Hash.
From stdpp Require Import options.

Local Open Scope Z_scope.

(** Little-endian words. *)
Definition le_bytes (k : nat) (z : Z) : bytes := reverse (be_bytes k z).
Definition le_word (l : bytes) : Z := be_word (reverse l).

Fixpoint le_words (n : nat) (l : bytes) : list Z :=
  match n with
  | O => []
  | S n => le_word (take 4 l) :: le_words n (drop 4 l)
  end.

Definition md5_pad (m : bytes) : bytes :=
  m ++ ["128"%byte] ++ replicate (Z.to_nat ((55 - zlen m) `mod` 64)) "000"%byte
    ++ le_bytes 8 (8 * zlen m).

Definition md5_k : list Z := [
  0xd76aa478; 0xe8c7b756; 0x242070db; 0xc1bdceee; 0xf57c0faf; 0x4787c62a; 0xa8304613; 0xfd469501;
  0x698098d8; 0x8b44f7af; 0xffff5bb1; 0x895cd7be; 0x6b901122; 0xfd987193; 0xa679438e; 0x49b40821;
  0xf61e2562; 0xc040b340; 0x265e5a51; 0xe9b6c7aa; 0xd62f105d; 0x02441453; 0xd8a1e681; 0xe7d3fbc8;
  0x21e1cde6; 0xc33707d6; 0xf4d50d87; 0x455a14ed; 0xa9e3e905; 0xfcefa3f8; 0x676f02d9; 0x8d2a4c8a;
  0xfffa3942; 0x8771f681; 0x6d9d6122; 0xfde5380c; 0xa4beea44; 0x4bdecfa9; 0xf6bb4b60; 0xbebfbc70;
  0x289b7ec6; 0xeaa127fa; 0xd4ef3085; 0x04881d05; 0xd9d4d039; 0xe6db99e5; 0x1fa27cf8; 0xc4ac5665;
  0xf4292244; 0x432aff97; 0xab9423a7; 0xfc93a039; 0x655b59c3; 0x8f0ccc92; 0xffeff47d; 0x85845dd1;
  0x6fa87e4f; 0xfe2ce6e0; 0xa3014314; 0x4e0811a1; 0xf7537e82; 0xbd3af235; 0x2ad7d2bb; 0xeb86d391].

(** The rotations of each group of sixteen steps, four in turn. *)
Definition md5_shift (i : nat) : Z :=
  let row := match (i / 16)%nat with
    | 0%nat => [7; 12; 17; 22] | 1%nat => [5; 9; 14; 20] | 2%nat => [4; 11; 16; 23]
    | _ => [6; 10; 15; 21] end in
  default 0 (row !! (i mod 4)%nat).

Record Hash4 := { m_a : Z; m_b : Z; m_c : Z; m_d : Z }.

Definition md5_init : Hash4 :=
  {| m_a := 0x67452301; m_b := 0xefcdab89; m_c := 0x98badcfe; m_d := 0x10325476 |}.

(** The function of a step and the index of the word it takes. *)
Definition md5_f (i : nat) (b c d : Z) : Z * nat :=
  match (i / 16)%nat with
  | 0%nat => (Z.lor (Z.land b c) (Z.land (not32 b) d), i)
  | 1%nat => (Z.lor (Z.land d b) (Z.land (not32 d) c), ((5 * i + 1) mod 16)%nat)
  | 2%nat => (Z.lxor (Z.lxor b c) d, ((3 * i + 5) mod 16)%nat)
  | _ => (Z.lxor c (Z.lor b (not32 d)), ((7 * i) mod 16)%nat)
  end.

Definition md5_step (block : list Z) (s : Hash4) (ik : nat * Z) : Hash4 :=
  let '(i, k) := ik in
  let '(f, g) := md5_f i (m_b s) (m_c s) (m_d s) in
  let t := add32 (add32 (m_a s) f) (add32 k (default 0 (block !! g))) in
  {| m_a := m_d s; m_b := add32 (m_b s) (rotl32 t (md5_shift i)); m_c := m_b s; m_d := m_c s |}.

Definition md5_block (s : Hash4) (block : list Z) : Hash4 :=
  let s' := foldl (md5_step block) s (zip (seq 0 64) md5_k) in
  {| m_a := add32 (m_a s) (m_a s'); m_b := add32 (m_b s) (m_b s');
     m_c := add32 (m_c s) (m_c s'); m_d := add32 (m_d s) (m_d s') |}.

Definition md5 (m : bytes) : bytes :=
  let p := md5_pad m in
  let s := foldl md5_block md5_init (le_words 16 <$> blocks (Z.to_nat (zlen p / 64)) p) in
  le_bytes 4 (m_a s) ++ le_bytes 4 (m_b s) ++ le_bytes 4 (m_c s) ++ le_bytes 4 (m_d s).

Definition hashKey (key : string) : string := hex_encode (md5 (bytes_of_string key)).

#[global] Arguments md5 : simpl never.

Lemma length_le_bytes k z : length (le_bytes k z) = k.
Proof. unfold le_bytes. by rewrite length_reverse, length_be_bytes. Qed.

Lemma length_md5 m : length (md5 m) = 16%nat.
Proof. unfold md5. rewrite !length_app, !length_le_bytes. done. Qed.

Example md5_empty : hashKey "" = "d41d8cd98f00b204e9800998ecf8427e".
Proof. by vm_compute. Qed.
Example md5_abc : hashKey "abc" = "900150983cd24fb0d6963f7d28e17f72".
Proof. by vm_compute. Qed.
Example md5_digits :
  hashKey "12345678901234567890123456789012345678901234567890123456789012345678901234567890" =
  "57edf4a22be3c955ac49da2e2107b67a".
Proof. by vm_compute. Qed.
