(* ===== verification/Gob.v ===== *)
(** * The messages of the file server on the wire: [encoding/gob] for [Message].

    The wire format of the package's documentation: numbers of variable length,
    structs as pairs of a field-number difference and a value for the fields
    that are not zero, interface values with the registered name of their type.
    The descriptors of the types go before the value.  The numbers of the types
    depend on the order in which a process first sends them; here they are fixed.
    Both ends run the same program, so the decoder reads over the descriptors. *)

From Stdlib Require Import ZArith Ascii Strings.Byte.
From S2P Require Import Prelude Hash Aes Md5.
From stdpp Require Import options.

Local Open Scope Z_scope.

(** ** Messages *)

Record MessageStoreFile := { msf_ID : string; msf_Key : string; msf_Size : Z }.
Record MessageGetFile := { mgf_ID : string; mgf_Key : string }.

(** What [Payload] holds: the registered types, or nil. *)
Inductive Payload :=
  | StoreFile (m : MessageStoreFile)
  | GetFile (m : MessageGetFile).

Record Message := { msg_Payload : option Payload }.

(** ** Numbers and strings *)

(** The bytes a positive number needs. *)
Definition byte_count (n : Z) : nat := Z.to_nat (Z.log2 n / 8 + 1).

Definition gob_uint (n : Z) : bytes :=
  if n <? 128 then [z_byte n]
  else z_byte (256 - Z.of_nat (byte_count n)) :: be_bytes (byte_count n) n.

Definition gob_int (i : Z) : bytes :=
  gob_uint (if i <? 0 then 2 * (- i - 1) + 1 else 2 * i).

Definition gob_bytes (b : bytes) : bytes := gob_uint (zlen b) ++ b.
Definition gob_string (s : string) : bytes := gob_bytes (bytes_of_string s).

Definition read_uint (b : bytes) : option (Z * bytes) :=
  match b with
  | [] => None
  | c :: b =>
      if byte_z c <? 128 then Some (byte_z c, b)
      else
        let n := Z.to_nat (256 - byte_z c) in
        if decide (n ≤ 8 ∧ n ≤ length b)%nat then Some (be_word (take n b), drop n b) else None
  end.

Definition read_int (b : bytes) : option (Z * bytes) :=
  '(u, b) ← read_uint b;
  Some (if Z.odd u then - (u / 2) - 1 else u / 2, b).

Definition read_bytes (b : bytes) : option (bytes * bytes) :=
  '(n, b) ← read_uint b;
  if decide (n ≤ zlen b) then Some (take (Z.to_nat n) b, drop (Z.to_nat n) b) else None.

(** ** Structs *)

Inductive GobKind := KString | KInt.
Inductive GobValue := GStr (s : string) | GInt (z : Z).

Definition gob_zero (k : GobKind) : GobValue :=
  match k with KString => GStr "" | KInt => GInt 0 end.
Definition gob_kind (v : GobValue) : GobKind :=
  match v with GStr _ => KString | GInt _ => KInt end.

Definition gob_is_zero (v : GobValue) : bool :=
  match v with GStr s => String.eqb s "" | GInt z => z =? 0 end.

Definition gob_value (v : GobValue) : bytes :=
  match v with GStr s => gob_string s | GInt z => gob_int z end.

(** The fields from one on, [delta] after the last that was sent. *)
Fixpoint gob_fields (delta : Z) (vs : list GobValue) : bytes :=
  match vs with
  | [] => gob_uint 0
  | v :: vs =>
      if gob_is_zero v then gob_fields (delta + 1) vs
      else gob_uint delta ++ gob_value v ++ gob_fields 1 vs
  end.

Definition gob_struct (vs : list GobValue) : bytes := gob_fields 1 vs.

Definition read_value (k : GobKind) (b : bytes) : option (GobValue * bytes) :=
  match k with
  | KString => '(s, b) ← read_bytes b; Some (GStr (String.string_of_list_byte s), b)
  | KInt => '(z, b) ← read_int b; Some (GInt z, b)
  end.

(** The fields from one on, the next that was sent being [delta] away: the
    difference 0 ends the struct. *)
Fixpoint read_fields (ks : list GobKind) (delta : Z) (b : bytes) : option (list GobValue * bytes) :=
  if delta =? 0 then Some (gob_zero <$> ks, b)
  else
    match ks with
    | [] => None
    | k :: ks =>
        if delta =? 1 then
          '(v, b) ← read_value k b;
          '(next, b) ← read_uint b;
          '(vs, b) ← read_fields ks next b;
          Some (v :: vs, b)
        else
          '(vs, b) ← read_fields ks (delta - 1) b;
          Some (gob_zero k :: vs, b)
    end.

Definition read_struct (ks : list GobKind) (b : bytes) : option (list GobValue * bytes) :=
  '(delta, b) ← read_uint b; read_fields ks delta b.

(** ** Type descriptors *)

Definition stringType : Z := 6.
Definition intType : Z := 2.
Definition interfaceType : Z := 8.
Definition MessageType : Z := 65.
Definition MessageStoreFileType : Z := 66.
Definition MessageGetFileType : Z := 67.

(** A [wireType] with its [StructT] field: the name, the number and the fields. *)
Definition gob_fieldType (f : string * Z) : bytes := gob_struct [GStr f.1; GInt f.2].
Definition gob_structType (name : string) (tid : Z) (fields : list (string * Z)) : bytes :=
  gob_uint 3 ++
  gob_uint 1 ++ gob_struct [GStr name; GInt tid] ++
  gob_uint 1 ++ gob_uint (zlen fields) ++ concat (gob_fieldType <$> fields) ++
  gob_uint 0 ++ gob_uint 0.

(** A message of the stream: its length before it. *)
Definition gob_descriptor (name : string) (tid : Z) (fields : list (string * Z)) : bytes :=
  gob_bytes (gob_int (- tid) ++ gob_structType name tid fields).

(** ** [Message] *)

Definition payload_name (p : Payload) : string :=
  match p with StoreFile _ => "main.MessageStoreFile" | GetFile _ => "main.MessageGetFile" end.
Definition payload_type (p : Payload) : Z :=
  match p with StoreFile _ => MessageStoreFileType | GetFile _ => MessageGetFileType end.
Definition payload_fields (p : Payload) : list GobValue :=
  match p with
  | StoreFile m => [GStr (msf_ID m); GStr (msf_Key m); GInt (msf_Size m)]
  | GetFile m => [GStr (mgf_ID m); GStr (mgf_Key m)]
  end.

Definition payload_descriptor (p : Payload) : bytes :=
  match p with
  | StoreFile _ => gob_descriptor "MessageStoreFile" MessageStoreFileType
      [("ID", stringType); ("Key", stringType); ("Size", intType)]
  | GetFile _ => gob_descriptor "MessageGetFile" MessageGetFileType
      [("ID", stringType); ("Key", stringType)]
  end%string.

(** An interface value: name, type and the value with its length. *)
Definition gob_interface (p : Payload) : bytes :=
  gob_string (payload_name p) ++ gob_int (payload_type p) ++ gob_bytes (gob_struct (payload_fields p)).

(** [gob.NewEncoder(buf).Encode(msg)] *)
Definition gob_Encode (m : Message) : bytes :=
  gob_descriptor "Message" MessageType [("Payload"%string, interfaceType)] ++
  match msg_Payload m with
  | None => gob_bytes (gob_int MessageType ++ gob_uint 0)
  | Some p =>
      payload_descriptor p ++
      gob_bytes (gob_int MessageType ++ gob_uint 1 ++ gob_interface p ++ gob_uint 0)
  end.

Definition read_payload (name : string) (b : bytes) : option (Payload * bytes) :=
  if String.eqb name "main.MessageStoreFile" then
    '(vs, b) ← read_struct [KString; KString; KInt] b;
    match vs with
    | [GStr i; GStr k; GInt n] => Some (StoreFile {| msf_ID := i; msf_Key := k; msf_Size := n |}, b)
    | _ => None
    end
  else if String.eqb name "main.MessageGetFile" then
    '(vs, b) ← read_struct [KString; KString] b;
    match vs with
    | [GStr i; GStr k] => Some (GetFile {| mgf_ID := i; mgf_Key := k |}, b)
    | _ => None
    end
  else None.

Definition read_interface (b : bytes) : option (option Payload * bytes) :=
  '(name, b) ← read_bytes b;
  let name := String.string_of_list_byte name in
  if String.eqb name "" then Some (None, b)
  else
    '(_, b) ← read_int b;
    '(_, b) ← read_uint b;
    '(p, b) ← read_payload name b;
    Some (Some p, b).

Definition read_message_value (b : bytes) : option Message :=
  '(delta, b) ← read_uint b;
  if delta =? 0 then Some {| msg_Payload := None |}
  else if delta =? 1 then
    '(p, b) ← read_interface b;
    '(delta, b) ← read_uint b;
    if delta =? 0 then Some {| msg_Payload := p |} else None
  else None.

(** Messages of the stream up to the first value; the input bounds their number. *)
Fixpoint read_messages (fuel : nat) (b : bytes) : option Message :=
  match fuel with
  | O => None
  | S fuel =>
      '(body, b) ← read_bytes b;
      '(tid, body) ← read_int body;
      if tid <? 0 then read_messages fuel b else read_message_value body
  end.

(** [gob.NewDecoder(bytes.NewReader(b)).Decode(&msg)], [None] for an error: what
    is left of [b] after the value is not looked at. *)
Definition gob_Decode (b : bytes) : option Message := read_messages (S (length b)) b.

#[global] Arguments gob_uint : simpl never.
#[global] Arguments gob_int : simpl never.
#[global] Arguments read_uint : simpl never.
#[global] Arguments read_int : simpl never.

(** ** Numbers round trip *)

Lemma be_bytes_S k z : be_bytes (S k) z = z_byte (Z.shiftr z (8 * Z.of_nat k)) :: be_bytes k z.
Proof.
  unfold be_bytes. cbn [seq fmap list_fmap]. f_equal; [do 2 f_equal; lia|].
  rewrite <-fmap_S_seq, <-list_fmap_compose. apply list_fmap_ext. intros i x Hx. cbn.
  apply lookup_seq in Hx as [-> ?]. do 2 f_equal. lia.
Qed.

Lemma z_byte_mod z : byte_z (z_byte z) = z mod 256.
Proof.
  rewrite <-(byte_z_z (z mod 256)) by (apply Z.mod_pos_bound; lia). f_equal. unfold z_byte.
  change 255 with (Z.ones 8). rewrite !Z.land_ones by lia.
  by rewrite (Z.mod_small (z mod 256)) by (apply Z.mod_pos_bound; lia).
Qed.

Lemma lor_shift_byte acc b : Z.lor (Z.shiftl acc 8) (byte_z b) = 256 * acc + byte_z b.
Proof.
  pose proof (byte_z_range b) as Hb.
  rewrite <-Z.lxor_lor, <-Z.add_nocarry_lxor; rewrite ?Z.shiftl_mul_pow2 by lia; [lia|..];
    apply Z.bits_inj'; intros i Hi; rewrite Z.land_spec, Z.bits_0;
    destruct (decide (i < 8)); rewrite ?Z.mul_pow2_bits_low by lia; [done| |done|];
    rewrite (Z.bits_above_log2 (byte_z b)) by (pose proof (log2_byte (byte_z b)); lia);
    by rewrite andb_false_r.
Qed.

Lemma be_word_bytes_acc k z acc :
  foldl (λ acc b, Z.lor (Z.shiftl acc 8) (byte_z b)) acc (be_bytes k z) = 256 ^ Z.of_nat k * acc + z mod 256 ^ Z.of_nat k.
Proof.
  revert acc. induction k as [|k IH]; intros acc; [cbn; rewrite Z.mod_1_r; lia|].
  rewrite be_bytes_S. cbn [foldl]. rewrite IH, lor_shift_byte, z_byte_mod.
  rewrite Z.shiftr_div_pow2 by lia. replace (2 ^ (8 * Z.of_nat k)) with (256 ^ Z.of_nat k)
    by (rewrite Z.pow_mul_r by lia; done).
  replace (Z.of_nat (S k)) with (Z.of_nat k + 1) by lia. rewrite Z.pow_add_r, Z.pow_1_r by lia.
  rewrite (Z.rem_mul_r z) by lia. lia.
Qed.

Lemma be_word_bytes k z : 0 ≤ z < 256 ^ Z.of_nat k → be_word (be_bytes k z) = z.
Proof. intros Hz. unfold be_word. rewrite be_word_bytes_acc, Z.mod_small by done. lia. Qed.

Lemma le_word_bytes k z : 0 ≤ z < 256 ^ Z.of_nat k → le_word (le_bytes k z) = z.
Proof. intros Hz. unfold le_word, le_bytes. rewrite reverse_involutive. by apply be_word_bytes. Qed.

Lemma byte_count_spec n : 128 ≤ n < 2 ^ 64 → (1 ≤ byte_count n ≤ 8)%nat ∧ n < 256 ^ Z.of_nat (byte_count n).
Proof.
  intros Hn. pose proof (Z.log2_spec n ltac:(lia)) as [_ Hlt].
  pose proof (Z.log2_lt_pow2 n 64 ltac:(lia)) as [Hl _]. specialize (Hl ltac:(lia)).
  pose proof (Z.log2_nonneg n). unfold byte_count.
  pose proof (Z.div_mod (Z.log2 n) 8 ltac:(lia)). pose proof (Z.mod_pos_bound (Z.log2 n) 8 ltac:(lia)).
  split; [lia|]. rewrite Z2Nat.id by lia. change 256 with (2 ^ 8). rewrite <-Z.pow_mul_r by lia.
  eapply Z.lt_le_trans; [exact Hlt|]. apply Z.pow_le_mono_r; lia.
Qed.

Lemma read_gob_uint n rest : 0 ≤ n < 2 ^ 64 → read_uint (gob_uint n ++ rest) = Some (n, rest).
Proof.
  intros Hn. unfold read_uint, gob_uint. destruct (Z.ltb_spec n 128) as [Hs|Hb].
  - cbn [app]. rewrite byte_z_z by lia. by rewrite (proj2 (Z.ltb_lt n 128)).
  - cbn [app]. destruct (byte_count_spec n ltac:(lia)) as [Hc Hlt]. rewrite byte_z_z by lia.
    rewrite (proj2 (Z.ltb_ge _ 128)) by lia.
    replace (Z.to_nat (256 - (256 - Z.of_nat (byte_count n)))) with (byte_count n) by lia.
    rewrite decide_True by (rewrite length_app, length_be_bytes; lia).
    rewrite take_app_length', drop_app_length' by (by rewrite length_be_bytes). by rewrite be_word_bytes by lia.
Qed.

Lemma read_gob_int z rest : in_s64 z → read_int (gob_int z ++ rest) = Some (z, rest).
Proof.
  unfold in_s64. intros Hz. unfold read_int, gob_int.
  destruct (Z.ltb_spec z 0); rewrite read_gob_uint by lia; cbn.
  - rewrite Z.add_comm, Z.odd_add_mul_2. cbn. f_equal. f_equal.
    rewrite (Z.mul_comm 2), Z.div_add by lia. change (1 / 2) with 0. lia.
  - rewrite <-(Z.add_0_l (2 * z)), Z.odd_add_mul_2. cbn [Z.odd].
    by rewrite Z.add_0_l, Z.mul_comm, Z.div_mul by lia.
Qed.

Lemma read_gob_bytes b rest : zlen b < 2 ^ 64 → read_bytes (gob_bytes b ++ rest) = Some (b, rest).
Proof.
  intros Hb. unfold read_bytes, gob_bytes. rewrite <-app_assoc, read_gob_uint by (unfold zlen in *; lia).
  cbn [mbind option_bind]. rewrite decide_True by (unfold zlen; rewrite length_app; lia).
  unfold zlen. by rewrite Nat2Z.id, take_app_length, drop_app_length.
Qed.

(** ** Structs round trip *)

Definition value_ok (v : GobValue) : Prop :=
  match v with GStr s => Z.of_nat (String.length s) < 2 ^ 64 | GInt z => in_s64 z end.

Lemma length_bytes_of_string s : length (bytes_of_string s) = String.length s.
Proof.
  unfold bytes_of_string, String.list_byte_of_string. rewrite length_map.
  induction s as [|c s IH]; cbn; [done|]. by rewrite IH.
Qed.

Lemma read_gob_value v rest :
  value_ok v → read_value (gob_kind v) (gob_value v ++ rest) = Some (v, rest).
Proof.
  destruct v as [s|z]; cbn [gob_kind gob_value read_value value_ok]; intros Hv.
  - unfold gob_string. rewrite read_gob_bytes; [|unfold zlen; by rewrite length_bytes_of_string].
    cbn. unfold bytes_of_string. by rewrite String.string_of_list_byte_of_string.
  - by rewrite read_gob_int.
Qed.

Lemma gob_is_zero_eq v : gob_is_zero v = true → v = gob_zero (gob_kind v).
Proof. destruct v; cbn; [intros ->%String.eqb_eq|intros ->%Z.eqb_eq]; done. Qed.

Lemma read_fields_end ks b : read_fields ks 0 b = Some (gob_zero <$> ks, b).
Proof. by destruct ks. Qed.

Lemma read_gob_fields vs delta rest :
  1 ≤ delta → delta + zlen vs < 2 ^ 64 → Forall value_ok vs →
  ∃ d b, read_uint (gob_fields delta vs ++ rest) = Some (d, b) ∧ (d = 0 ∨ delta ≤ d) ∧
    read_fields (gob_kind <$> vs) (if d =? 0 then 0 else d - delta + 1) b = Some (vs, rest).
Proof.
  intros H1. revert delta H1. induction vs as [|v vs IH]; intros delta H1 Hl Hvs.
  { exists 0, rest. cbn [gob_fields]. rewrite read_gob_uint by lia. auto. }
  apply Forall_cons in Hvs as [Hv Hvs]. unfold zlen in *. cbn [length] in Hl.
  cbn [gob_fields]. destruct (gob_is_zero v) eqn:Ez.
  - destruct (IH (delta + 1)) as (d & b & Hr & Hd & Hf); [lia..|done|]. exists d, b.
    split; [done|]. split; [lia|].
    destruct (Z.eqb_spec d 0) as [->|Hd0].
    + rewrite read_fields_end in *. injection Hf as Hf ->. rewrite fmap_cons, fmap_cons, Hf.
      by rewrite <-gob_is_zero_eq.
    + rewrite fmap_cons. cbn [read_fields]. rewrite (proj2 (Z.eqb_neq _ 0)), (proj2 (Z.eqb_neq _ 1)) by lia.
      replace (d - delta + 1 - 1) with (d - (delta + 1) + 1) by lia. rewrite Hf. cbn.
      by rewrite <-gob_is_zero_eq.
  - exists delta, (gob_value v ++ gob_fields 1 vs ++ rest).
    rewrite <-!app_assoc, read_gob_uint by lia. split; [done|]. split; [lia|].
    rewrite (proj2 (Z.eqb_neq delta 0)) by lia. replace (delta - delta + 1) with 1 by lia.
    cbn [fmap list_fmap read_fields Z.eqb Pos.eqb]. rewrite read_gob_value by done. cbn [mbind option_bind].
    destruct (IH 1) as (d & b & -> & Hd & Hf); [lia..|done|]. cbn [mbind option_bind].
    replace (if d =? 0 then 0 else d - 1 + 1) with d in Hf by (destruct (Z.eqb_spec d 0); lia).
    by rewrite Hf.
Qed.

Lemma read_gob_struct vs rest :
  zlen vs < 2 ^ 63 → Forall value_ok vs →
  read_struct (gob_kind <$> vs) (gob_struct vs ++ rest) = Some (vs, rest).
Proof.
  intros Hl Hvs. destruct (read_gob_fields vs 1 rest) as (d & b & Hr & Hd & Hf); [lia..|done|].
  unfold read_struct, gob_struct. rewrite Hr. cbn [mbind option_bind].
  by replace (if d =? 0 then 0 else d - 1 + 1) with d in Hf by (destruct (Z.eqb_spec d 0); lia).
Qed.

(** ** Messages round trip *)

(** What a [Message] of this program can hold: sizes are [int64]. *)
Definition message_ok (m : Message) : Prop :=
  match msg_Payload m with
  | Some (StoreFile f) => in_s64 (msf_Size f)
  | _ => True
  end.

Lemma fields_length v vs delta : v ∈ vs → zlen (gob_value v) ≤ zlen (gob_fields delta vs) ∨ gob_is_zero v = true.
Proof.
  intros Hv. revert delta. induction Hv as [v vs|v w vs _ IH]; intros delta; cbn [gob_fields].
  - destruct (gob_is_zero v); [by right|]. left. unfold zlen. rewrite !length_app. lia.
  - destruct (gob_is_zero w); [apply IH|]. destruct (IH 1) as [Hl|]; [|by right].
    left. unfold zlen in *. rewrite !length_app. lia.
Qed.

Lemma gob_bytes_length b : zlen b ≤ zlen (gob_bytes b).
Proof. unfold gob_bytes, zlen. rewrite length_app. lia. Qed.

(** Fields of a message that is short enough to be counted are short enough. *)
Lemma payload_values_ok p :
  message_ok {| msg_Payload := Some p |} → zlen (gob_struct (payload_fields p)) < 2 ^ 63 →
  Forall value_ok (payload_fields p).
Proof.
  intros Hm Hl. apply Forall_forall. intros v Hv.
  destruct (fields_length v (payload_fields p) 1 Hv) as [Hle|Hz].
  - unfold gob_struct in Hl. destruct v as [s|z]; cbn [gob_value value_ok] in *.
    + pose proof (gob_bytes_length (bytes_of_string s)) as Hs.
      unfold gob_string, zlen in *. rewrite length_bytes_of_string in Hs. lia.
    + destruct p as [f|f]; cbn in Hv; set_unfold; naive_solver.
  - destruct v; cbn in *; [apply String.eqb_eq in Hz as ->|apply Z.eqb_eq in Hz as ->]; done.
Qed.

Lemma read_gob_payload p rest :
  Forall value_ok (payload_fields p) →
  read_payload (payload_name p) (gob_struct (payload_fields p) ++ rest) = Some (p, rest).
Proof.
  intros Hp. pose proof (read_gob_struct (payload_fields p) rest) as Hr.
  destruct p as [[]|[]]; unfold read_payload;
    cbn [payload_fields payload_name fmap list_fmap gob_kind] in *; cbn [String.eqb Ascii.eqb Bool.eqb];
    by rewrite Hr.
Qed.

Lemma read_gob_interface p rest :
  Forall value_ok (payload_fields p) → zlen (gob_struct (payload_fields p)) < 2 ^ 64 →
  read_interface (gob_interface p ++ rest) = Some (Some p, rest).
Proof.
  intros Hp Hl. unfold read_interface, gob_interface, gob_string. rewrite <-!app_assoc.
  rewrite read_gob_bytes by (by destruct p). cbn [mbind option_bind].
  unfold bytes_of_string. rewrite String.string_of_list_byte_of_string.
  replace (String.eqb (payload_name p) "") with false by (by destruct p).
  rewrite read_gob_int by (by destruct p). cbn [mbind option_bind].
  unfold gob_bytes. rewrite <-app_assoc, read_gob_uint by (unfold zlen in *; lia). cbn [mbind option_bind].
  by rewrite read_gob_payload.
Qed.

(** A descriptor is read over. *)
Lemma read_messages_skip fuel name tid fields rest :
  0 < tid < 2 ^ 63 → zlen (gob_int (- tid) ++ gob_structType name tid fields) < 2 ^ 64 →
  read_messages (S fuel) (gob_descriptor name tid fields ++ rest) = read_messages fuel rest.
Proof.
  intros Ht Hl. cbn [read_messages]. unfold gob_descriptor. rewrite read_gob_bytes by done.
  cbn [mbind option_bind]. rewrite read_gob_int by (unfold in_s64; lia). cbn [mbind option_bind].
  by rewrite (proj2 (Z.ltb_lt _ 0)) by lia.
Qed.

Lemma read_messages_value fuel b rest :
  zlen (gob_int MessageType ++ b) < 2 ^ 64 →
  read_messages (S fuel) (gob_bytes (gob_int MessageType ++ b) ++ rest) = read_message_value b.
Proof.
  intros Hl. cbn [read_messages]. rewrite read_gob_bytes by done.
  cbn [mbind option_bind]. by rewrite read_gob_int.
Qed.

(** Three messages at most are read before the value is. *)
Lemma gob_Decode_Encode m rest :
  message_ok m → zlen (gob_Encode m) < 2 ^ 63 → gob_Decode (gob_Encode m ++ rest) = Some m.
Proof.
  intros Hm Hl. unfold gob_Decode. destruct m as [[p|]].
  2:{ destruct (length _) eqn:E; [by apply length_zero_iff_nil in E|].
      unfold gob_Encode. cbn [msg_Payload]. rewrite <-app_assoc.
      rewrite read_messages_skip by done. by rewrite read_messages_value. }
  assert (∃ fuel, S (length (gob_Encode {| msg_Payload := Some p |} ++ rest)) = S (S (S fuel))) as [fuel ->].
  { exists (length (gob_Encode {| msg_Payload := Some p |} ++ rest) - 2)%nat.
    assert (2 ≤ length (gob_Encode {| msg_Payload := Some p |} ++ rest))%nat; [|lia].
    unfold gob_Encode. rewrite !length_app.
    assert (2 ≤ length (gob_descriptor "Message" MessageType [("Payload"%string, interfaceType)]))%nat
      by (vm_compute; lia). lia. }
  revert Hl. unfold gob_Encode. cbn [msg_Payload]. intros Hl. rewrite <-!app_assoc.
  assert (zlen (gob_int MessageType ++ gob_uint 1 ++ gob_interface p ++ gob_uint 0) < 2 ^ 63) as Hv.
  { eapply Z.le_lt_trans; [apply gob_bytes_length|].
    eapply Z.le_lt_trans; [|exact Hl]. unfold zlen. rewrite !length_app. lia. }
  assert (zlen (gob_struct (payload_fields p)) < 2 ^ 63) as Hs.
  { eapply Z.le_lt_trans; [apply gob_bytes_length|]. eapply Z.le_lt_trans; [|exact Hv].
    unfold gob_interface, zlen. rewrite !length_app. lia. }
  pose proof (payload_values_ok p Hm Hs) as Hp.
  rewrite read_messages_skip by done.
  assert (∀ r, read_messages (S (S fuel)) (payload_descriptor p ++ r) = read_messages (S fuel) r) as ->.
  { intros r. destruct p; cbn [payload_descriptor]; by rewrite read_messages_skip. }
  rewrite read_messages_value by lia. unfold read_message_value. cbn [mbind option_bind].
  rewrite read_gob_uint by lia. cbn [mbind option_bind Z.eqb Pos.eqb].
  rewrite read_gob_interface by (done || lia). cbn [mbind option_bind].
  rewrite <-(app_nil_r (gob_uint 0)), read_gob_uint by lia. done.
Qed.

(** ** The length of a message *)

Lemma gob_uint_length n : 0 ≤ n < 2 ^ 64 → zlen (gob_uint n) ≤ 9.
Proof.
  intros Hn. unfold gob_uint, zlen. destruct (Z.ltb_spec n 128); [cbn; lia|].
  cbn [length]. rewrite length_be_bytes. destruct (byte_count_spec n ltac:(lia)). lia.
Qed.

Lemma gob_uint_short n : n < 128 → zlen (gob_uint n) = 1.
Proof. intros Hn. unfold gob_uint. by rewrite (proj2 (Z.ltb_lt n 128)). Qed.

Lemma gob_int_length z : in_s64 z → zlen (gob_int z) ≤ 9.
Proof. intros Hz. unfold in_s64 in Hz. apply gob_uint_length. destruct (Z.ltb_spec z 0); lia. Qed.

Lemma gob_bytes_bound b : zlen b < 2 ^ 64 → zlen (gob_bytes b) ≤ 9 + zlen b.
Proof.
  intros Hb. unfold gob_bytes. rewrite zlen_app.
  pose proof (gob_uint_length (zlen b)). unfold zlen in *. lia.
Qed.

(** What a field takes at most, with its number. *)
Definition value_space (v : GobValue) : Z :=
  match v with GStr s => 10 + Z.of_nat (String.length s) | GInt _ => 10 end.
Definition struct_space (vs : list GobValue) : Z := foldr (λ v n, value_space v + n) 1 vs.

Lemma gob_value_length v : value_ok v → zlen (gob_value v) + 1 ≤ value_space v.
Proof.
  destruct v as [s|z]; cbn [gob_value value_ok value_space]; intros Hv.
  - pose proof (gob_bytes_bound (bytes_of_string s)) as Hb. unfold gob_string, zlen in *.
    rewrite length_bytes_of_string in *. lia.
  - pose proof (gob_int_length z Hv). lia.
Qed.

Lemma gob_fields_length vs delta :
  1 ≤ delta → delta + zlen vs < 128 → Forall value_ok vs → zlen (gob_fields delta vs) ≤ struct_space vs.
Proof.
  intros H1. revert delta H1. induction vs as [|v vs IH]; intros delta H1 Hd Hvs; [done|].
  apply Forall_cons in Hvs as [Hv Hvs]. cbn [gob_fields struct_space foldr]. fold (struct_space vs).
  change (v :: vs) with ([v] ++ vs) in Hd. rewrite zlen_app in Hd. change (zlen [v]) with 1 in Hd.
  assert (0 ≤ zlen vs) by (unfold zlen; lia). destruct (gob_is_zero v).
  - specialize (IH (delta + 1) ltac:(lia) ltac:(lia) Hvs). destruct v; cbn [value_space]; lia.
  - rewrite !zlen_app, gob_uint_short by lia. pose proof (gob_value_length v Hv).
    specialize (IH 1 ltac:(lia) ltac:(lia) Hvs). lia.
Qed.

(** The strings of a message are all that makes it long. *)
Lemma gob_Encode_length p :
  Forall value_ok (payload_fields p) → struct_space (payload_fields p) < 2 ^ 63 →
  zlen (gob_Encode {| msg_Payload := Some p |}) ≤ 135 + struct_space (payload_fields p).
Proof.
  intros Hp Hl. unfold gob_Encode. cbn [msg_Payload].
  assert (zlen (gob_struct (payload_fields p)) ≤ struct_space (payload_fields p)) as Hs
    by (apply gob_fields_length; [lia|by destruct p|done]).
  pose proof (gob_bytes_bound (gob_struct (payload_fields p)) ltac:(lia)) as Hb.
  assert (zlen (gob_int MessageType ++ gob_uint 1 ++ gob_interface p ++ gob_uint 0) ≤
    37 + struct_space (payload_fields p)) as Hv.
  { unfold gob_interface. rewrite !zlen_app.
    assert (zlen (gob_string (payload_name p)) ≤ 22) by (by destruct p).
    assert (zlen (gob_int (payload_type p)) = 2) as -> by (by destruct p).
    change (zlen (gob_int MessageType)) with 2. change (zlen (gob_uint 1)) with 1.
    change (zlen (gob_uint 0)) with 1. lia. }
  pose proof (gob_bytes_bound _ (Z.le_lt_trans _ _ (2 ^ 64) Hv ltac:(lia))) as Hb2.
  rewrite !zlen_app in *.
  assert (zlen (gob_descriptor "Message" MessageType [("Payload"%string, interfaceType)]) = 34) as -> by done.
  assert (zlen (payload_descriptor p) ≤ 55) by (by destruct p).
  lia.
Qed.
