(* ===== verification/Transport.v ===== *)
(** * The peer-to-peer transport: package [p2p].

    A [TCPeer] is one end of a TCP connection together with the goroutine that
    reads it ([handleConn]).  What has arrived is a list of segments: a [Read]
    returns bytes of the first one, never of two.  TCP is free to cut and to join
    what was written, so the segments need not be the writes of the other end.
    The [WaitGroup] of a peer is its counter.

    A call that has to wait is a [WaitM]: it is not taken, and changes nothing,
    until it can run to its end. *)

From Stdlib Require Import ZArith Strings.Byte.
From S2P Require Import Prelude Metadata Replication Names Hash Objects.
From stdpp Require Import options.

(** ** Calls that may wait *)

Definition WaitM (S A : Type) : Type := S → option (Res A * S).

#[export] Instance waitm_ret S : MRet (WaitM S) := λ A a s, Some (Ok a, s).
#[export] Instance waitm_bind S : MBind (WaitM S) := λ A B k c s,
  match c s with
  | None => None
  | Some (Ok a, s) => k a s
  | Some (Err e, s) => Some (Err e, s)
  | Some (Panic, s) => Some (Panic, s)
  end.

Definition wait {S A} : WaitM S A := λ _, None.
(** A call that never waits. *)
Definition now {S A} (c : GoM S A) : WaitM S A := λ s, Some (c s).
(** The result of a call as a value; a panic goes on. *)
Definition wtry {S A} (c : WaitM S A) : WaitM S (Res A) := λ s,
  match c s with
  | None => None
  | Some (Panic, s) => Some (Panic, s)
  | Some (r, s) => Some (Ok r, s)
  end.

Lemma waitm_ok {S A B} (c : WaitM S A) (k : A → WaitM S B) s a s1 :
  c s = Some (Ok a, s1) → (c ≫= k) s = k a s1.
Proof. intros H. unfold mbind, waitm_bind. by rewrite H. Qed.
Lemma waitm_err {S A B} (c : WaitM S A) (k : A → WaitM S B) s e s1 :
  c s = Some (Err e, s1) → (c ≫= k) s = Some (Err e, s1).
Proof. intros H. unfold mbind, waitm_bind. by rewrite H. Qed.
Lemma waitm_none {S A B} (c : WaitM S A) (k : A → WaitM S B) s :
  c s = None → (c ≫= k) s = None.
Proof. intros H. unfold mbind, waitm_bind. by rewrite H. Qed.

(** A call keeps [R] between the states before and after, whatever it returns. *)
Definition keeps {S} (R : relation S) {A} (c : WaitM S A) : Prop :=
  ∀ s r s', c s = Some (r, s') → R s s'.

Section keeps.
Context {S : Type} (R : relation S) `{!PreOrder R}.
Lemma keeps_bind {A B} (c : WaitM S A) (k : A → WaitM S B) :
  keeps R c → (∀ a, keeps R (k a)) → keeps R (c ≫= k).
Proof using Type*.
  intros Hc Hk s r s'. unfold mbind, waitm_bind. destruct (c s) as [[[a|e|] s1]|] eqn:E; [|..|done].
  - intros Hr. etransitivity; [by eapply Hc|by eapply Hk].
  - intros [= <- <-]. by eapply Hc.
  - intros [= <- <-]. by eapply Hc.
Qed.
Lemma keeps_ret {A} (a : A) : keeps R (mret a : WaitM S A).
Proof using Type*. intros s r s' [= <- <-]. reflexivity. Qed.
Lemma keeps_wait {A} : keeps R (wait : WaitM S A).
Proof. by intros s r s'. Qed.
Lemma keeps_wtry {A} (c : WaitM S A) : keeps R c → keeps R (wtry c).
Proof.
  intros Hc s r s'. unfold wtry. destruct (c s) as [[[a|e|] s1]|] eqn:E; intros [= <- <-]; by eapply Hc.
Qed.
Lemma keeps_now {A} (c : GoM S A) : respects R c → keeps R (now c).
Proof. intros Hc s r s' [= E]. by eapply Hc. Qed.
End keeps.

(** ** Peers *)

(** [net.ErrClosed] *)
Definition ErrClosed : GoError := ErrOther "use of closed network connection".

Definition IncomingMessage : Byte.byte := "001"%byte.
Definition IncomingStream : Byte.byte := "002"%byte.

Record RPC := {
  rpc_From : string;
  rpc_Payload : bytes;
  rpc_Stream : bool
}.

(** Where the loop of [handleConn] is. *)
Inductive ReadLoop :=
  | Reading
  | StreamWait
  | Dropped.

Record TCPeer := {
  tp_addr : string;
  tp_outbound : bool;
  tp_in : list bytes;
  tp_eof : bool;
  tp_out : list bytes;
  tp_open : bool;
  tp_wg : Z;
  tp_loop : ReadLoop
}.

Definition set_in (l : list bytes) (p : TCPeer) : TCPeer := {|
  tp_addr := tp_addr p; tp_outbound := tp_outbound p; tp_in := l; tp_eof := tp_eof p;
  tp_out := tp_out p; tp_open := tp_open p; tp_wg := tp_wg p; tp_loop := tp_loop p |}.
Definition set_out (l : list bytes) (p : TCPeer) : TCPeer := {|
  tp_addr := tp_addr p; tp_outbound := tp_outbound p; tp_in := tp_in p; tp_eof := tp_eof p;
  tp_out := l; tp_open := tp_open p; tp_wg := tp_wg p; tp_loop := tp_loop p |}.
Definition set_wg (n : Z) (p : TCPeer) : TCPeer := {|
  tp_addr := tp_addr p; tp_outbound := tp_outbound p; tp_in := tp_in p; tp_eof := tp_eof p;
  tp_out := tp_out p; tp_open := tp_open p; tp_wg := n; tp_loop := tp_loop p |}.
Definition set_loop (l : ReadLoop) (p : TCPeer) : TCPeer := {|
  tp_addr := tp_addr p; tp_outbound := tp_outbound p; tp_in := tp_in p; tp_eof := tp_eof p;
  tp_out := tp_out p; tp_open := tp_open p; tp_wg := tp_wg p; tp_loop := l |}.
(** [conn.Close()] *)
Definition conn_Close (p : TCPeer) : TCPeer := {|
  tp_addr := tp_addr p; tp_outbound := tp_outbound p; tp_in := []; tp_eof := true;
  tp_out := tp_out p; tp_open := false; tp_wg := tp_wg p; tp_loop := Dropped |}.

Definition NewTCPeer (addr : string) (outbound : bool) : TCPeer := {|
  tp_addr := addr; tp_outbound := outbound; tp_in := []; tp_eof := false; tp_out := [];
  tp_open := true; tp_wg := 0; tp_loop := Reading |}.

(** ** Reading and writing *)

(** [conn.Read(buf)] with a buffer of [n] bytes; [None] while there is nothing
    to read. *)
Fixpoint read_segment (n : nat) (segments : list bytes) : option (bytes * list bytes) :=
  match segments with
  | [] => None
  | [] :: rest => read_segment n rest
  | seg :: rest =>
      Some (take n seg, if decide (length seg ≤ n) then rest else drop n seg :: rest)
  end.

Definition conn_Read (n : nat) : WaitM TCPeer bytes := λ p,
  if tp_open p then
    match read_segment n (tp_in p) with
    | Some (data, rest) => Some (Ok data, set_in rest p)
    | None => if tp_eof p then Some (Err (ErrOther "EOF"), p) else None
    end
  else Some (Err ErrClosed, p).

(** [conn.Write(b)] *)
Definition conn_Write (b : bytes) : GoM TCPeer Z := λ p,
  if tp_open p then (Ok (zlen b), set_out (tp_out p ++ [b]) p)
  else (Err ErrClosed, p).

Definition Send (b : bytes) : GoM TCPeer unit := conn_Write b;; mret tt.

(** [p.wg.Done()]: a counter below zero panics. *)
Definition CloseStream : GoM TCPeer unit := λ p,
  if (tp_wg p <=? 0)%Z then (Panic, p) else (Ok tt, set_wg (tp_wg p - 1) p).

(** ** The decoder *)

(** [DefaultDecoder.Decode]: a type byte, then whatever one [Read] returns, at
    most 1028 bytes. *)
Definition DefaultDecode : WaitM TCPeer RPC :=
  peekBuf ← conn_Read 1;
  if match peekBuf with b :: _ => Byte.eqb b IncomingStream | [] => false end then
    mret {| rpc_From := ""; rpc_Payload := []; rpc_Stream := true |}
  else
    buf ← conn_Read 1028;
    mret {| rpc_From := ""; rpc_Payload := buf; rpc_Stream := false |}.

(** ** The transport *)

(** [NOPHandshakeFunc] *)
Definition NOPHandshakeFunc (p : TCPeer) : option GoError := None.

(** The start of [handleConn] on a new connection: the handshake, then the
    callback [OnPeer]; when either fails the connection is dropped. *)
Definition handleConn_start {S} (handshake : TCPeer → option GoError) (onPeer : TCPeer → GoM S unit)
    (addr : string) (outbound : bool) : GoM S unit :=
  let peer := NewTCPeer addr outbound in
  match handshake peer with
  | Some _ => mret tt
  | None => ignore (onPeer peer)
  end.

(** A round of [startAcceptLoop], given what [Accept] returned; false once the
    listener is closed.  After another error the loop still starts [handleConn],
    on a nil connection: its first use of the connection panics. *)
Definition startAcceptLoop_step {S} (handshake : TCPeer → option GoError) (onPeer : TCPeer → GoM S unit)
    (accepted : Res string) : GoM S bool :=
  match accepted with
  | Ok addr => handleConn_start handshake onPeer addr false;; mret true
  | Err e => if bool_decide (e = ErrClosed) then mret false else panic
  | Panic => panic
  end.

(** One round of the loop of [handleConn]: the RPC it puts into the channel, if
    any.  A stream stops the loop until [CloseStream] brings the counter back to
    zero; an error of the decoder ends it. *)
Definition handleConn_step : WaitM TCPeer (option RPC) := λ p,
  match tp_loop p with
  | Dropped => None
  | StreamWait => if decide (tp_wg p = 0%Z) then Some (Ok None, set_loop Reading p) else None
  | Reading =>
      (decoded ← wtry DefaultDecode;
       match decoded with
       | Ok rpc =>
           if rpc_Stream rpc then
             now (modify (λ p, set_loop StreamWait (set_wg (tp_wg p + 1) p)));; mret None
           else
             mret (Some {| rpc_From := tp_addr p; rpc_Payload := rpc_Payload rpc; rpc_Stream := false |})
       | _ => now (modify conn_Close);; mret None
       end) p
  end.
