(* ===== verification/FileServer.v ===== *)
(** * The peer-to-peer file server: [server.go].

    A [FileServer] is its options, its disk, the peers of the map [peers], and
    the channel and the listener of its transport.  The goroutines of a process are steps on that
    state: the read loop of a connection ([read_loop]), the event loop
    ([loop_step]), and the callers of [Store] and [Get].  Each of the two sleeps
    between its broadcast and its stream, so it is two steps, and anything can
    happen between them.

    The read loop and the handlers read the same connection: which of them gets
    the bytes is decided by the order of their steps.  A step that waits for
    bytes is taken when the bytes are there.

    Go visits a map in an order of its own: [order] is the order in which the
    peers are visited. *)

From Stdlib Require Import ZArith Strings.Byte.
From S2P Require Import Prelude Metadata Replication Names Hash Objects Paths Store Aes Crypto Md5 Gob Transport.
From stdpp Require Import options.

Record FileServerOpts := {
  fso_ID : string;
  fso_EncKey : bytes;
  fso_StorageRoot : string;
  fso_PathTransformFunc : option (string → PathKey);
  fso_BootstrapNodes : list string
}.

Record FileServer := {
  srv_ID : string;
  srv_EncKey : bytes;
  srv_BootstrapNodes : list string;
  srv_store : StoreOpts;
  srv_disk : FS;
  srv_peers : gmap string TCPeer;
  srv_rpcCh : list RPC;
  srv_quit : bool;
  srv_looping : bool;
  srv_listener : option bool
}.

Definition set_disk (fs : FS) (s : FileServer) : FileServer := {|
  srv_ID := srv_ID s; srv_EncKey := srv_EncKey s; srv_BootstrapNodes := srv_BootstrapNodes s;
  srv_store := srv_store s; srv_disk := fs; srv_peers := srv_peers s; srv_rpcCh := srv_rpcCh s;
  srv_quit := srv_quit s; srv_looping := srv_looping s; srv_listener := srv_listener s |}.
Definition set_peers (m : gmap string TCPeer) (s : FileServer) : FileServer := {|
  srv_ID := srv_ID s; srv_EncKey := srv_EncKey s; srv_BootstrapNodes := srv_BootstrapNodes s;
  srv_store := srv_store s; srv_disk := srv_disk s; srv_peers := m; srv_rpcCh := srv_rpcCh s;
  srv_quit := srv_quit s; srv_looping := srv_looping s; srv_listener := srv_listener s |}.
Definition set_rpcCh (l : list RPC) (s : FileServer) : FileServer := {|
  srv_ID := srv_ID s; srv_EncKey := srv_EncKey s; srv_BootstrapNodes := srv_BootstrapNodes s;
  srv_store := srv_store s; srv_disk := srv_disk s; srv_peers := srv_peers s; srv_rpcCh := l;
  srv_quit := srv_quit s; srv_looping := srv_looping s; srv_listener := srv_listener s |}.
Definition set_flags (quit looping : bool) (s : FileServer) : FileServer := {|
  srv_ID := srv_ID s; srv_EncKey := srv_EncKey s; srv_BootstrapNodes := srv_BootstrapNodes s;
  srv_store := srv_store s; srv_disk := srv_disk s; srv_peers := srv_peers s; srv_rpcCh := srv_rpcCh s;
  srv_quit := quit; srv_looping := looping; srv_listener := srv_listener s |}.

Definition set_listener (l : option bool) (s : FileServer) : FileServer := {|
  srv_ID := srv_ID s; srv_EncKey := srv_EncKey s; srv_BootstrapNodes := srv_BootstrapNodes s;
  srv_store := srv_store s; srv_disk := srv_disk s; srv_peers := srv_peers s; srv_rpcCh := srv_rpcCh s;
  srv_quit := srv_quit s; srv_looping := srv_looping s; srv_listener := l |}.

(** [generateID], given the bytes of [rand.Reader] *)
Definition generateID (random : bytes) : string := hex_encode random.

Definition NewFileServer (opts : FileServerOpts) (random : bytes) (disk : FS) : FileServer := {|
  srv_ID := if decide (String.length (fso_ID opts) = 0) then generateID random else fso_ID opts;
  srv_EncKey := fso_EncKey opts;
  srv_BootstrapNodes := fso_BootstrapNodes opts;
  srv_store := NewStore (fso_StorageRoot opts) (fso_PathTransformFunc opts);
  srv_disk := disk; srv_peers := ∅; srv_rpcCh := []; srv_quit := false; srv_looping := false;
  srv_listener := None |}.

(** [newEncryptionKey], given the bytes of [rand.Reader] *)
Definition newEncryptionKey (random : bytes) : bytes := random.

(** [makeServer] of [main.go]: a server with a random identifier and key whose
    files are in a directory named after its address. *)
Definition makeServer (listenAddr : string) (nodes : list string) (random_id random_key : bytes)
    (disk : FS) : FileServer :=
  NewFileServer {| fso_ID := ""; fso_EncKey := newEncryptionKey random_key;
    fso_StorageRoot := listenAddr +:+ "_network"; fso_PathTransformFunc := Some CASPathTransformFunc;
    fso_BootstrapNodes := nodes |} random_id disk.

(** ** The disk and the peers of a server *)

Definition on_disk {A} (c : GoM FS A) : GoM FileServer A := zoom srv_disk set_disk c.

(** A call on a peer; one that is not in the map is nil. *)
Definition on_peer {A} (addr : string) (c : WaitM TCPeer A) : WaitM FileServer A := λ s,
  match srv_peers s !! addr with
  | None => Some (Panic, s)
  | Some p =>
      match c p with
      | None => None
      | Some (r, p) => Some (r, set_peers (<[addr := p]> (srv_peers s)) s)
      end
  end.

Definition peer_do {A} (addr : string) (c : GoM TCPeer A) : GoM FileServer A := λ s,
  match srv_peers s !! addr with
  | None => (Panic, s)
  | Some p => let '(r, p) := c p in (r, set_peers (<[addr := p]> (srv_peers s)) s)
  end.

Definition OnPeer (p : TCPeer) : GoM FileServer unit :=
  modify (λ s, set_peers (<[tp_addr p := p]> (srv_peers s)) s).

(** [close(s.quitch)]: closing it again panics. *)
Definition Stop : GoM FileServer unit := λ s,
  if srv_quit s then (Panic, s) else (Ok tt, set_flags true (srv_looping s) s).

(** ** Sending *)

(** The result of the first [Send] is not looked at. *)
Definition broadcast (order : list string) (msg : Message) : GoM FileServer unit :=
  let buf := gob_Encode msg in
  for_each order (λ addr,
    ignore (peer_do addr (Send [IncomingMessage]));;
    peer_do addr (Send buf)).

(** [io.MultiWriter(peers...).Write(data)] *)
Definition mw_Write (order : list string) (data : bytes) : GoM FileServer Z :=
  for_each order (λ addr,
    n ← peer_do addr (conn_Write data);
    if decide (n = zlen data) then mret tt else fail ErrShortWrite);;
  mret (zlen data).

(** [Store] up to its sleep: the file is written to the disk and announced.  The
    result is [fileBuffer], what the tee reader has passed on. *)
Definition Store_start (order : list string) (key : string) (r : Reader) : GoM FileServer bytes :=
  s ← get_state;
  size ← on_disk (StoreWrite (srv_store s) (srv_ID s) key r);
  broadcast order {| msg_Payload := Some (StoreFile
    {| msf_ID := srv_ID s; msf_Key := hashKey key; msf_Size := size + 16 |}) |};;
  mret (drain (r_reads r)).1.

(** [Store] after its sleep; [random] is what [rand.Reader] gives for the
    initialization vector. *)
Definition Store_stream (order : list string) (random : Res bytes) (fileBuffer : bytes) :
    GoM FileServer unit :=
  s ← get_state;
  ignore (mw_Write order [IncomingStream]);;
  copyEncrypt (mw_Write order) (srv_EncKey s) random (r_reads (reader_of fileBuffer));;
  mret tt.

(** ** Reading a stream from a peer *)

Definition is_eof (e : GoError) : bool := bool_decide (e = ErrOther "EOF").

(** [io.ReadFull] of [n] bytes from [io.LimitReader(peer, limit)], [got] read so
    far: the bytes and what is left of the limit.  Every round reads a byte at
    least, so [n] rounds are enough. *)
Fixpoint read_full_conn (fuel n : nat) (limit : Z) (got : bytes) : WaitM TCPeer (bytes * Z) :=
  if decide (n = 0) then mret (got, limit)
  else
    let eof := ErrOther (if decide (length got = 0) then "EOF" else "unexpected EOF") in
    match fuel with
    | 0 => wait
    | S fuel =>
        if decide (limit ≤ 0)%Z then now (fail eof)
        else
          res ← wtry (conn_Read (Z.to_nat (Z.min limit (Z.of_nat n))));
          match res with
          | Ok data => read_full_conn fuel (n - length data) (limit - zlen data) (got ++ data)
          | Err e => if is_eof e then now (fail eof) else now (fail e)
          | Panic => now panic
          end
    end.

(** A loop that reads [io.LimitReader(peer, limit)] to its end with a buffer of
    32 KiB; [body] is what it does on the disk with the bytes of a round.  Every
    round reads a byte at least, so the bytes that are there bound the rounds. *)
Fixpoint copy_conn {A} (fuel : nat) (addr : string) (limit : Z) (body : A → bytes → GoM FS A)
    (acc : A) : WaitM FileServer A :=
  match fuel with
  | 0 => wait
  | S fuel =>
      if decide (limit ≤ 0)%Z then mret acc
      else
        res ← wtry (on_peer addr (conn_Read (Z.to_nat (Z.min limit 32768))));
        match res with
        | Ok data => acc ← now (on_disk (body acc data)); copy_conn fuel addr (limit - zlen data) body acc
        | Err e => if is_eof e then mret acc else now (fail e)
        | Panic => now panic
        end
  end.

Definition input (addr : string) (s : FileServer) : bytes :=
  match srv_peers s !! addr with Some p => concat (tp_in p) | None => [] end.

Definition read_limited {A} (addr : string) (limit : Z) (body : A → bytes → GoM FS A) (acc : A) :
    WaitM FileServer A := λ s, copy_conn (2 + length (input addr s)) addr limit body acc s.

(** A round of [io.Copy] to a file. *)
Definition copy_file_step (f : Path) (n : Z) (data : bytes) : GoM FS Z :=
  (if decide (0 < length data) then file_append f data else mret tt);;
  mret (n + zlen data)%Z.

(** [s.store.Write(id, key, io.LimitReader(peer, limit))] *)
Definition store_Write (addr id key : string) (limit : Z) : WaitM FileServer Z :=
  s ← now get_state;
  f ← now (on_disk (openFileForWriting (srv_store s) id key));
  read_limited addr limit (copy_file_step f) 0%Z.

(** [s.store.WriteDecrypt(encKey, id, key, io.LimitReader(peer, limit))] *)
Definition store_WriteDecrypt (addr : string) (encKey : bytes) (id key : string) (limit : Z) :
    WaitM FileServer Z :=
  s ← now get_state;
  f ← now (on_disk (openFileForWriting (srv_store s) id key));
  block ← now (lift_res (aes_NewCipher encKey));
  '(iv, limit) ← on_peer addr (read_full_conn aes_BlockSize aes_BlockSize limit []);
  '(_, nw) ← read_limited addr limit (copy_stream_step (file_write f))
    (cipher_NewCTR block iv, Z.of_nat aes_BlockSize);
  mret nw.

(** ** The handlers *)

Definition handleMessageStoreFile (from : string) (msg : MessageStoreFile) : WaitM FileServer unit :=
  s ← now get_state;
  match srv_peers s !! from with
  | None => now (fail (ErrOther ("peer (" +:+ from +:+ ") could not be found in the peer list")))
  | Some _ =>
      store_Write from (msf_ID msg) (msf_Key msg) (msf_Size msg);;
      now (peer_do from CloseStream)
  end.

(** [io.Copy(peer, r)] *)
Fixpoint copy_to_peer (addr : string) (reads : list ReadResult) : GoM FileServer unit :=
  match reads with
  | [] => mret tt
  | (data, readErr) :: reads =>
      (if decide (0 < length data) then peer_do addr (conn_Write data);; mret tt else mret tt);;
      match readErr with
      | Some EOF => mret tt
      | Some (ReadErr e) => fail e
      | None => copy_to_peer addr reads
      end
  end.

(** The results of sending the marker and the size are not looked at. *)
Definition handleMessageGetFile (from : string) (msg : MessageGetFile) : GoM FileServer unit :=
  s ← get_state;
  has ← on_disk (Has (srv_store s) (mgf_ID msg) (mgf_Key msg));
  if has : bool then
    '(fileSize, r) ← on_disk (StoreRead (srv_store s) (mgf_ID msg) (mgf_Key msg));
    match srv_peers s !! from with
    | None => fail (ErrOther ("peer " +:+ from +:+ " not in map"))
    | Some _ =>
        ignore (peer_do from (Send [IncomingStream]));;
        ignore (peer_do from (conn_Write (le_bytes 8 fileSize)));;
        copy_to_peer from (r_reads r)
    end
  else fail (ErrOther ("need to serve file (" +:+ mgf_Key msg +:+ ") but it does not exist on disk")).

Definition handleMessage (from : string) (msg : Message) : WaitM FileServer unit :=
  match msg_Payload msg with
  | Some (StoreFile v) => handleMessageStoreFile from v
  | Some (GetFile v) => now (handleMessageGetFile from v)
  | None => mret tt
  end.

(** ** [Get] *)

(** [Get] up to its sleep: the file from the disk, or a request to the peers. *)
Definition Get_start (order : list string) (key : string) : GoM FileServer (option Reader) :=
  s ← get_state;
  has ← on_disk (Has (srv_store s) (srv_ID s) key);
  if has : bool then
    '(_, r) ← on_disk (StoreRead (srv_store s) (srv_ID s) key);
    mret (Some r)
  else
    broadcast order {| msg_Payload := Some (GetFile {| mgf_ID := srv_ID s; mgf_Key := hashKey key |}) |};;
    mret None.

(** [binary.Read(peer, binary.LittleEndian, &fileSize)], whose error is not
    looked at: the size stays zero. *)
Definition int64_of (l : bytes) : Z := wrap_s64 (le_word l).
Definition read_size (addr : string) : WaitM FileServer Z :=
  res ← wtry (on_peer addr (read_full_conn 8 8 8 []));
  mret (match res with Ok (b, _) => int64_of b | _ => 0%Z end).

Definition Get_from (key addr : string) : WaitM FileServer unit :=
  s ← now get_state;
  fileSize ← read_size addr;
  store_WriteDecrypt addr (srv_EncKey s) (srv_ID s) key fileSize;;
  now (peer_do addr CloseStream).

(** A loop whose rounds may wait. *)
Fixpoint wfor_each {S A} (xs : list A) (body : A → WaitM S unit) : WaitM S unit :=
  match xs with
  | [] => mret tt
  | x :: xs => body x;; wfor_each xs body
  end.

(** [Get] after its sleep: the stream of every peer in turn. *)
Definition Get_finish (order : list string) (key : string) : WaitM FileServer Reader :=
  wfor_each order (Get_from key);;
  s ← now get_state;
  '(_, r) ← now (on_disk (StoreRead (srv_store s) (srv_ID s) key));
  mret r.

(** ** The goroutines *)

(** A round of the event loop on a message: errors are logged.  A message that
    cannot be decoded is handled as an empty one. *)
Definition loop_step : WaitM FileServer unit := λ s,
  if srv_looping s then
    match srv_rpcCh s with
    | [] => None
    | rpc :: rest =>
        (now (modify (set_rpcCh rest));;
         wtry (handleMessage (rpc_From rpc) (default {| msg_Payload := None |} (gob_Decode (rpc_Payload rpc))));;
         mret tt) s
    end
  else None.

(** [Transport.Close]: there is no listener before [ListenAndAccept]; closing one
    again is an error. *)
Definition Close : GoM FileServer unit := λ s,
  match srv_listener s with
  | None => (Panic, s)
  | Some true => (Ok tt, set_listener (Some false) s)
  | Some false => (Err ErrClosed, s)
  end.

(** The event loop leaves when [quitch] is closed, and closes the transport. *)
Definition loop_quit : WaitM FileServer unit := λ s,
  if srv_looping s && srv_quit s
  then (now (modify (set_flags (srv_quit s) false));; now (ignore Close)) s
  else None.

(** [t.rpcCh <- rpc]: the channel holds 1024 RPCs. *)
Definition push_rpc (rpc : RPC) : WaitM FileServer unit := λ s,
  if decide (length (srv_rpcCh s) < 1024) then Some (Ok tt, set_rpcCh (srv_rpcCh s ++ [rpc]) s) else None.

(** A round of the read loop of a connection. *)
Definition read_loop (addr : string) : WaitM FileServer unit :=
  rpc ← on_peer addr handleConn_step;
  match rpc with None => mret tt | Some rpc => push_rpc rpc end.

(** A connection, accepted or dialled. *)
Definition connect (addr : string) (outbound : bool) : GoM FileServer unit :=
  handleConn_start NOPHandshakeFunc OnPeer addr outbound.

(** [Transport.Dial], given what [net.Dial] returns. *)
Definition Dial (dialled : Res unit) (addr : string) : GoM FileServer unit :=
  lift_res dialled;; connect addr true.

(** [Transport.ListenAndAccept], given what [net.Listen] returns; the field is
    assigned in both cases. *)
Definition ListenAndAccept (listen : Res unit) : GoM FileServer unit :=
  modify (set_listener (match listen with Ok _ => Some true | _ => None end));;
  lift_res listen.

(** A round of the accept loop; a listener that is closed gives [ErrClosed]. *)
Definition accept_round (accepted : Res string) : WaitM FileServer bool := λ s,
  match srv_listener s with
  | None => None
  | Some open =>
      now (startAcceptLoop_step NOPHandshakeFunc OnPeer (if open then accepted else Err ErrClosed)) s
  end.

(** [bootstrapNetwork]: the addresses that are dialled, each by a goroutine of
    its own. *)
Definition bootstrapNetwork (s : FileServer) : list string :=
  filter (λ addr, String.length addr ≠ 0) (srv_BootstrapNodes s).

(** [Start], given what [net.Listen] returns: the event loop begins. *)
Definition Start (listen : Res unit) : GoM FileServer (list string) :=
  ListenAndAccept listen;;
  s ← get_state;
  modify (set_flags (srv_quit s) true);;
  mret (bootstrapNetwork s).
