(* ===== verification/FileServerSpec.v ===== *)
(** * Facts about the peer-to-peer file server.

    Reading a stream from a connection gives the bytes that were sent, however
    they were cut on the way; the disk operations of the handlers are those of
    the store on such a stream. *)

From Stdlib Require Import ZArith Strings.Byte.
From S2P Require Import Prelude Metadata Replication Names Hash Objects Paths Store StoreSpec StoreReliable Aes Crypto Md5 Gob Transport FileServer.
From stdpp Require Import options.

(** ** Reading a connection *)

Lemma read_segment_none n segs : concat segs = [] → read_segment n segs = None.
Proof.
  induction segs as [|seg segs IH]; [done|]. cbn. intros [-> E]%app_nil. by apply IH.
Qed.

Lemma read_segment_some n segs :
  0 < n → concat segs ≠ [] →
  ∃ data rest, read_segment n segs = Some (data, rest) ∧ data ≠ [] ∧ length data ≤ n ∧
    concat segs = data ++ concat rest.
Proof.
  intros Hn. induction segs as [|seg segs IH]; [done|]. intros Hne.
  destruct seg as [|b seg]; [by apply IH|]. cbn [read_segment].
  eexists _, _. split; [done|]. split; [by destruct n; [lia|]|]. split; [rewrite length_take; lia|].
  case_decide as Hl.
  - by rewrite take_ge.
  - cbn [concat]. by rewrite app_assoc, take_drop.
Qed.

(** The state of a peer after reading: only what is left of the input changes. *)
Definition left_with (p : TCPeer) (rest : bytes) (p' : TCPeer) : Prop :=
  p' = set_in (tp_in p') p ∧ concat (tp_in p') = rest.

Lemma left_with_refl p : left_with p (concat (tp_in p)) p.
Proof. split; [by destruct p|done]. Qed.
Lemma left_with_trans p r p' r' p'' : left_with p r p' → left_with p' r' p'' → left_with p r' p''.
Proof. intros [-> _] [-> Hr]. by split. Qed.

Lemma conn_Read_some n p b bs :
  tp_open p = true → 0 < n → concat (tp_in p) = b :: bs →
  ∃ data rest p', conn_Read n p = Some (Ok data, p') ∧ data ≠ [] ∧ length data ≤ n ∧
    b :: bs = data ++ rest ∧ left_with p rest p'.
Proof.
  intros Ho Hn E. destruct (read_segment_some n (tp_in p) Hn) as (data & rest & R & Hd & Hl & Ec).
  { by rewrite E. }
  exists data, (concat rest), (set_in rest p). unfold conn_Read. rewrite Ho, R. rewrite <-E, Ec.
  split_and!; try done.
Qed.

Lemma conn_Read_eof n p :
  tp_open p = true → tp_eof p = true → concat (tp_in p) = [] →
  conn_Read n p = Some (Err (ErrOther "EOF"), p).
Proof. intros Ho He E. unfold conn_Read. by rewrite Ho, read_segment_none, He. Qed.

(** A single byte is read on its own. *)
Lemma conn_Read_one p b bs :
  tp_open p = true → concat (tp_in p) = b :: bs →
  ∃ p', conn_Read 1 p = Some (Ok [b], p') ∧ left_with p bs p'.
Proof.
  intros Ho E. destruct (conn_Read_some 1 p b bs Ho ltac:(lia) E) as (data & rest & p' & R & Hd & Hl & Eq & Hp).
  destruct data as [|c [|]]; cbn in Hl; [done| |lia]. injection Eq as -> ->. by exists p'.
Qed.

(** [io.ReadFull] when the bytes are there. *)
Lemma read_full_conn_ok fuel n limit got p want rest :
  n ≤ fuel → length want = n → (Z.of_nat n ≤ limit)%Z → tp_open p = true →
  concat (tp_in p) = want ++ rest →
  ∃ p', read_full_conn fuel n limit got p = Some (Ok (got ++ want, (limit - Z.of_nat n)%Z), p') ∧
    left_with p rest p'.
Proof.
  revert n limit got p want. induction fuel as [|fuel IH]; intros n limit got p want Hf Hw Hl Ho E.
  { assert (n = 0) as Hn0 by lia. rewrite Hn0 in *. apply nil_length_inv in Hw as ->. exists p. cbn.
    rewrite app_nil_r, Z.sub_0_r. split; [done|]. cbn in E. rewrite <-E. apply left_with_refl. }
  cbn [read_full_conn]. case_decide as Hn.
  { rewrite Hn in *. apply nil_length_inv in Hw as ->. exists p. cbn.
    rewrite app_nil_r, Z.sub_0_r. split; [done|]. cbn in E. rewrite <-E. apply left_with_refl. }
  rewrite decide_False by lia. rewrite Z.min_r, Nat2Z.id by lia.
  destruct want as [|b want]; [done|].
  destruct (conn_Read_some n p b (want ++ rest) Ho ltac:(lia) E)
    as (data & left & p1 & R & Hd & Hdl & Ed & Hp1).
  assert (∃ more, b :: want = data ++ more ∧ left = more ++ rest) as (more & Em & ->).
  { rewrite app_comm_cons in Ed. apply app_eq_app in Ed as [k [[E1 E2]|[E1 E2]]].
    - eauto.
    - assert (length k = 0) as ->%nil_length_inv.
      { apply (f_equal length) in E1. rewrite length_app in E1. lia. }
      rewrite app_nil_r in E1. exists []. rewrite app_nil_r. by split. }
  destruct (IH (n - length data) (limit - zlen data)%Z (got ++ data) p1 more) as (p2 & R2 & Hp2).
  { destruct data; [done|]. cbn. lia. }
  { apply (f_equal length) in Em. rewrite length_app in Em. lia. }
  { unfold zlen. lia. }
  { destruct Hp1 as [-> _]. done. }
  { apply Hp1. }
  exists p2. rewrite (waitm_ok _ _ p (Ok data) p1); [|unfold wtry; by rewrite R].
  rewrite R2. split; [|by eapply left_with_trans]. rewrite Em, <-app_assoc. do 3 f_equal.
  f_equal. unfold zlen. lia.
Qed.

(** ** A peer of a server *)

Definition put_peer (addr : string) (p : TCPeer) (s : FileServer) : FileServer :=
  set_peers (<[addr := p]> (srv_peers s)) s.

Lemma put_peer_twice addr p q s : put_peer addr p (put_peer addr q s) = put_peer addr p s.
Proof. unfold put_peer. destruct s; cbn. by rewrite insert_insert_eq. Qed.
Lemma put_peer_get addr p s : srv_peers (put_peer addr p s) !! addr = Some p.
Proof. apply lookup_insert_eq. Qed.
Lemma put_peer_id addr p s : srv_peers s !! addr = Some p → put_peer addr p s = s.
Proof. intros E. unfold put_peer. destruct s; cbn in *. by rewrite insert_id. Qed.
Lemma put_peer_disk addr p fs s : set_disk fs (put_peer addr p s) = put_peer addr p (set_disk fs s).
Proof. by destruct s. Qed.

Lemma on_peer_run {A} addr (c : WaitM TCPeer A) s p r p' :
  srv_peers s !! addr = Some p → c p = Some (r, p') → on_peer addr c s = Some (r, put_peer addr p' s).
Proof. intros E R. unfold on_peer. by rewrite E, R. Qed.

Lemma peer_do_run {A} addr (c : GoM TCPeer A) s p r p' :
  srv_peers s !! addr = Some p → c p = (r, p') → peer_do addr c s = (r, put_peer addr p' s).
Proof. intros E R. unfold peer_do. by rewrite E, R. Qed.

Lemma on_disk_run {A} (c : GoM FS A) s r fs : c (srv_disk s) = (r, fs) → on_disk c s = (r, set_disk fs s).
Proof. intros R. unfold on_disk. by apply zoom_run. Qed.

(** A stream of a peer: the bytes up to the limit, or all there is when the
    other end has closed. *)
Definition streams (p : TCPeer) (limit : Z) (payload rest : bytes) : Prop :=
  tp_open p = true ∧ concat (tp_in p) = payload ++ rest ∧
  (limit = zlen payload ∨ (zlen payload ≤ limit)%Z ∧ rest = [] ∧ tp_eof p = true).

(** What was read begins the payload, or the payload is all there is. *)
Lemma split_read (payload rest data left : bytes) limit (eof : bool) :
  payload ++ rest = data ++ left → (zlen data ≤ limit)%Z →
  (limit = zlen payload ∨ (zlen payload ≤ limit)%Z ∧ rest = [] ∧ eof = true) →
  ∃ more, payload = data ++ more ∧ left = more ++ rest.
Proof.
  intros E Hd Hlim. apply app_eq_app in E as [k [[E1 E2]|[E1 E2]]]; [by eauto|].
  destruct Hlim as [->|(Hle & -> & _)].
  - assert (length k = 0) as ->%nil_length_inv.
    { rewrite E1, zlen_app in Hd. unfold zlen in Hd. lia. }
    rewrite app_nil_r in E1. exists []. rewrite app_nil_r. by split.
  - symmetry in E2. apply app_nil in E2 as [-> ->]. rewrite app_nil_r in E1. exists [].
    by rewrite app_nil_r.
Qed.

(** The loop runs its body on the stream, cut into pieces that are not empty. *)
Lemma copy_conn_ok {A} (body : A → bytes → GoM FS A) fuel addr limit payload rest p :
  length payload + 1 < fuel → streams p limit payload rest →
  ∃ segs p', concat segs = payload ∧ left_with p rest p' ∧
    ∀ s acc a fs', srv_peers s !! addr = Some p →
      for_fold segs acc body (srv_disk s) = (Ok a, fs') →
      copy_conn fuel addr limit body acc s = Some (Ok a, put_peer addr p' (set_disk fs' s)).
Proof.
  revert limit payload p. induction fuel as [|fuel IH]; intros limit payload p Hf Hs; [lia|].
  destruct Hs as (Ho & E & Hlim). cbn [copy_conn]. destruct payload as [|b payload].
  { exists [], p. split; [done|]. cbn in E.
    split; [rewrite <-E; apply left_with_refl|]. intros s acc a fs' Hp [= <- <-].
    assert (put_peer addr p (set_disk (srv_disk s) s) = s) as -> by (destruct s; by apply put_peer_id).
    case_decide as Hd; [done|]. destruct Hlim as [->|(_ & -> & He)]; [by destruct Hd|].
    rewrite (waitm_ok _ _ s (Err (ErrOther "EOF")) s); [done|].
    unfold wtry. erewrite on_peer_run by (try done; by apply conn_Read_eof).
    by rewrite put_peer_id. }
  assert (zlen (b :: payload) ≤ limit)%Z as Hle by (destruct Hlim as [->|[? _]]; [lia|done]).
  unfold zlen in Hle; cbn [length] in Hle.
  destruct (conn_Read_some (Z.to_nat (Z.min limit 32768)) p b (payload ++ rest) Ho ltac:(lia) E)
    as (data & left & p1 & R & Hd & Hdl & Ed & Hp1).
  destruct (split_read (b :: payload) rest data left limit (tp_eof p)) as (more & Em & ->);
    [done|unfold zlen; lia|done|].
  destruct (IH (limit - zlen data)%Z more p1) as (segs & p2 & Ec & Hp2 & Hrun).
  { apply (f_equal length) in Em. rewrite length_app in Em. cbn in *. destruct data; [done|]. cbn in *. lia. }
  { destruct Hp1 as [E1 E2]. rewrite E1. cbn. split; [done|]. split; [done|].
    rewrite Em, zlen_app in Hlim. destruct Hlim as [Hm|(Hm & ? & ?)]; [left; lia|right; split; [lia|done]]. }
  exists (data :: segs), p2. split; [cbn; by rewrite Ec|]. split; [by eapply left_with_trans|].
  intros s acc a fs' Hp Hfold. cbn [for_fold] in Hfold. rewrite decide_False by lia.
  rewrite (waitm_ok _ _ s (Ok data) (put_peer addr p1 s)); [|unfold wtry; erewrite on_peer_run by (apply Hp || apply R); done].
  apply gom_bind_inv in Hfold as [(acc1 & fs1 & H1 & H2)|Hbad]; [|by destruct Hbad as [(? & _ & ?)|[_ ?]]].
  rewrite (waitm_ok _ _ _ acc1 (set_disk fs1 (put_peer addr p1 s)));
    [|unfold now; by erewrite on_disk_run by exact H1].
  erewrite Hrun; [|apply put_peer_get|exact H2]. by rewrite !put_peer_disk, put_peer_twice.
Qed.

(** ** Streams into the store *)

Definition reads_of (segs : list bytes) : list ReadResult := (λ d, (d, None)) <$> segs.

Lemma drain_reads segs : drain (reads_of segs) = (concat segs, None).
Proof.
  induction segs as [|d segs IH]; [done|]. change (reads_of (d :: segs)) with ((d, None) :: reads_of segs). cbn [drain]. by rewrite IH.
Qed.

Lemma copy_file_fold f segs n fs :
  for_fold segs n (copy_file_step f) fs = copy_file f (reads_of segs) n fs.
Proof.
  revert n fs. induction segs as [|d segs IH]; intros n fs; [done|].
  change (reads_of (d :: segs)) with ((d, None) :: reads_of segs). cbn [for_fold copy_file].
  unfold mbind, gom_bind. assert (copy_file_step f n d fs =
    (_ ← (if decide (0 < length d) then file_append f d else mret tt); mret (n + zlen d)%Z) fs) as -> by done.
  unfold mbind, gom_bind.
  destruct ((if decide (0 < length d) then file_append f d else mret tt) fs) as [[[]|e|] fs1]; [apply IH|done|done].
Qed.

Lemma copy_stream_fold {W} (dst : bytes → GoM W Z) segs stream nw w :
  copy_stream_loop dst stream (reads_of segs) nw w =
  (p ← for_fold segs (stream, nw) (copy_stream_step dst); mret p.2) w.
Proof.
  revert stream nw w. induction segs as [|d segs IH]; intros stream nw w; [done|].
  change (reads_of (d :: segs)) with ((d, None) :: reads_of segs). cbn [for_fold copy_stream_loop]. unfold mbind, gom_bind.
  destruct (copy_stream_step dst (stream, nw) d w) as [[[st1 nw1]|e|] w1]; [|done|done]. apply IH.
Qed.

(** A store that works, and one of its objects after a write. *)
Record serving (root : string) (s : FileServer) : Prop := {
  sv_store : srv_store s = cas_opts root;
  sv_ready : ready root (srv_disk s)
}.

Definition written (root id key : string) (d : bytes) (fs fs' : FS) : Prop :=
  ready root fs' ∧ file_at fs' (object_path (cas_opts root) id key) = Some d ∧
  ∀ q, q ≠ object_path (cas_opts root) id key → file_at fs' q = file_at fs q.

Lemma StoreWrite_written root id key rd d fs :
  plain id → ready root fs → drain (r_reads rd) = (d, None) →
  ∃ fs', StoreWrite (cas_opts root) id key rd fs = (Ok (zlen d), fs') ∧ written root id key d fs fs'.
Proof.
  intros Hn Hr Hd. destruct (StoreWrite_ready root id key rd d fs Hn Hr Hd) as (fs' & R & Hr').
  exists fs'. split; [done|]. split; [done|].
  pose proof R as (_ & Ha & Hw)%StoreWrite_inv. destruct (Hw _ eq_refl) as (d' & Hd' & _ & Hf).
  rewrite Hd in Hd'. injection Hd' as <-. split; [done|]. intros q Hq. apply Ha.
  by intros ?%list_elem_of_singleton.
Qed.

Lemma input_peer addr s p : srv_peers s !! addr = Some p → input addr s = concat (tp_in p).
Proof. intros E. unfold input. by rewrite E. Qed.

(** Enough rounds for any stream that is there. *)
Lemma read_limited_ok {A} (body : A → bytes → GoM FS A) addr limit payload rest p :
  streams p limit payload rest →
  ∃ segs p', concat segs = payload ∧ left_with p rest p' ∧
    ∀ s acc a fs', srv_peers s !! addr = Some p →
      for_fold segs acc body (srv_disk s) = (Ok a, fs') →
      read_limited addr limit body acc s = Some (Ok a, put_peer addr p' (set_disk fs' s)).
Proof.
  intros Hs. pose proof Hs as (_ & E & _).
  destruct (copy_conn_ok body (2 + length (concat (tp_in p))) addr limit payload rest p)
    as (segs & p' & Ec & Hp & Hrun); [rewrite E, length_app; lia|done|].
  exists segs, p'. split; [done|]. split; [done|]. intros s acc a fs' Hl Hf.
  unfold read_limited. rewrite (input_peer _ _ _ Hl). by apply Hrun.
Qed.

Lemma store_Write_ok root addr id key limit payload rest s p :
  serving root s → plain id → srv_peers s !! addr = Some p → streams p limit payload rest →
  ∃ fs' p', store_Write addr id key limit s =
      Some (Ok (zlen payload), put_peer addr p' (set_disk fs' s)) ∧
    written root id key payload (srv_disk s) fs' ∧ left_with p rest p'.
Proof.
  intros [Hst Hr] Hid Hp Hs.
  destruct (read_limited_ok (copy_file_step (object_path (cas_opts root) id key)) addr limit payload rest p Hs)
    as (segs & p' & Ec & Hp' & Hrun).
  destruct (StoreWrite_written root id key {| r_reads := reads_of segs; r_close := None |} payload
    (srv_disk s) Hid Hr) as (fs' & R & Hw); [cbn; by rewrite drain_reads, Ec|].
  exists fs', p'. split; [|by split]. unfold StoreWrite, writeStream in R.
  apply gom_bind_inv in R as [(f & fs1 & R1 & R2)|Hbad]; [|by destruct Hbad as [(? & _ & ?)|[_ ?]]].
  destruct (openFile_ready root id key (srv_disk s) Hid Hr) as (fs1' & R1' & _).
  rewrite R1 in R1'. injection R1' as -> ->. cbn [r_reads] in R2. rewrite <-copy_file_fold in R2.
  unfold store_Write. rewrite (waitm_ok _ _ s s s eq_refl), Hst.
  rewrite (waitm_ok _ _ _ _ (set_disk fs1' s)) by (unfold now; by erewrite on_disk_run by exact R1).
  erewrite Hrun; [|done|exact R2]. done.
Qed.

(** What [copyEncrypt] makes of the data. *)
Definition sealed (encKey iv data : bytes) : bytes :=
  iv ++ (XORKeyStream (cipher_NewCTR (aes_encrypt encKey) iv) data).1.

Lemma zlen_sealed encKey iv data : length iv = 16 → zlen (sealed encKey iv data) = (zlen data + 16)%Z.
Proof. intros Hiv. unfold sealed, zlen. rewrite length_app, length_XORKeyStream. lia. Qed.

Lemma store_WriteDecrypt_ok root addr encKey id key iv data rest s p :
  serving root s → plain id → key_ok encKey → length iv = 16 → srv_peers s !! addr = Some p →
  tp_open p = true → concat (tp_in p) = sealed encKey iv data ++ rest →
  ∃ fs' p', store_WriteDecrypt addr encKey id key (zlen data + 16) s =
      Some (Ok (16 + zlen data)%Z, put_peer addr p' (set_disk fs' s)) ∧
    written root id key data (srv_disk s) fs' ∧ left_with p rest p'.
Proof.
  intros [Hst Hr] Hid Hk Hiv Hp Ho E. set (f := object_path (cas_opts root) id key).
  set (c := (XORKeyStream (cipher_NewCTR (aes_encrypt encKey) iv) data).1).
  assert (zlen c = zlen data) as Hc by (unfold zlen, c; by rewrite length_XORKeyStream).
  unfold sealed in E. rewrite <-app_assoc in E.
  destruct (openFile_ready root id key (srv_disk s) Hid Hr) as (fs1 & R1 & Ho1 & Ht1).
  pose proof (openFileForWriting_inv _ _ _ _ _ _ R1) as (_ & Ha1 & _).
  assert (file_at fs1 f = Some []) as Hc1 by (unfold file_at, f; by rewrite Ht1).
  destruct (read_full_conn_ok 16 16 (zlen data + 16) [] p iv (c ++ rest)) as (p1 & R2 & Hp1);
    [lia|done|unfold zlen; lia|done|done|].
  destruct (read_limited_ok (copy_stream_step (file_write f)) addr (zlen data + 16 - 16) c rest p1)
    as (segs & p2 & Ec & Hp2 & Hrun).
  { destruct Hp1 as [Ep1 E1]. split; [by rewrite Ep1|]. split; [done|]. left. lia. }
  destruct (copy_stream_loop_ok (file_write f) _ _ (file_appends root f (srv_disk s))
    (cipher_NewCTR (aes_encrypt encKey) iv) (reads_of segs) c 16 fs1) as (fs2 & R3 & Hw & V).
  { split; [done|]. split; [by rewrite Hc1|done]. }
  { by rewrite drain_reads, Ec. }
  rewrite copy_stream_fold in R3. apply gom_bind_inv in R3 as [([st nw] & fs2' & R3 & R4)|Hbad]; [|by destruct Hbad as [(? & _ & ?)|[_ ?]]].
  injection R4 as -> ->. pose proof Hw as (_ & [c2 Hc2] & Ha2). rewrite Hc1, Hc2 in V.
  unfold c in V. rewrite XORKeyStream_twice in V. cbn in V. subst c2.
  exists fs2, p2. split.
  - unfold store_WriteDecrypt. rewrite (waitm_ok _ _ s s s eq_refl), Hst.
    rewrite (waitm_ok _ _ _ _ (set_disk fs1 s)) by (unfold now; by erewrite on_disk_run by exact R1).
    rewrite (waitm_ok _ _ _ (aes_encrypt encKey) (set_disk fs1 s)) by (unfold now; by rewrite NewCipher_ok).
    rewrite (waitm_ok _ _ _ (iv, zlen data + 16 - 16)%Z (put_peer addr p1 (set_disk fs1 s)));
      [|by eapply on_peer_run].
    erewrite waitm_ok by (eapply Hrun; [apply put_peer_get|exact R3]).
    rewrite <-put_peer_disk, put_peer_twice, Hc. by destruct s.
  - split; [|by eapply left_with_trans]. split; [by eapply writing_ready|]. split; [done|].
    intros q Hq. apply Ha2. by intros ?%list_elem_of_singleton.
Qed.

(** ** Sending to the peers *)

Definition push (frames : list bytes) (p : TCPeer) : TCPeer := set_out (tp_out p ++ frames) p.

(** The server after it wrote the frames to each peer of [order]. *)
Definition sent (order : list string) (frames : list bytes) (s : FileServer) : FileServer :=
  set_peers (map_imap (λ a p, Some (if decide (a ∈ order) then push frames p else p)) (srv_peers s)) s.

(** Peers to which nothing prevents sending. *)
Definition live (order : list string) (s : FileServer) : Prop :=
  NoDup order ∧ ∀ a, a ∈ order → ∃ p, srv_peers s !! a = Some p ∧ tp_open p = true.

Lemma sent_peer order frames s a p :
  a ∈ order → srv_peers s !! a = Some p → srv_peers (sent order frames s) !! a = Some (push frames p).
Proof. intros Ha Hp. cbn. by rewrite map_lookup_imap, Hp; cbn; rewrite decide_True. Qed.

Lemma sent_nil frames s : sent [] frames s = s.
Proof.
  destruct s. unfold sent, set_peers. cbn. f_equal. apply map_eq. intros a. rewrite map_lookup_imap.
  by destruct (_ !! a); cbn; [rewrite decide_False by apply not_elem_of_nil|].
Qed.

Lemma sent_cons a order frames s p :
  a ∉ order → srv_peers s !! a = Some p →
  sent order frames (put_peer a (push frames p) s) = sent (a :: order) frames s.
Proof.
  intros Ha Hp. destruct s as [? ? ? ? ? m ? ? ? ?]. unfold sent, put_peer, set_peers. cbn in *. f_equal.
  apply map_eq. intros b. rewrite !map_lookup_imap. destruct (decide (a = b)) as [->|Hne].
  - rewrite lookup_insert_eq, Hp. cbn. rewrite decide_False by done.
    by rewrite decide_True by apply list_elem_of_here.
  - rewrite lookup_insert_ne by done. destruct (m !! b); [|done]. cbn. f_equal.
    case_decide as H1; case_decide as H2; set_solver.
Qed.

Lemma sent_sent order f1 f2 s : sent order f2 (sent order f1 s) = sent order (f1 ++ f2) s.
Proof.
  destruct s as [? ? ? ? ? m ? ? ? ?]. unfold sent, set_peers. cbn. f_equal. apply map_eq. intros a.
  rewrite !map_lookup_imap. destruct (m !! a); [|done]. cbn. case_decide; [|done].
  unfold push. cbn. by rewrite app_assoc.
Qed.

Lemma live_sent order frames s : live order s → live order (sent order frames s).
Proof.
  intros [Hnd Hl]. split; [done|]. intros a Ha. destruct (Hl a Ha) as (p & Hp & Ho).
  exists (push frames p). split; [by apply sent_peer|done].
Qed.

Lemma for_each_sent order frames (body : string → GoM FileServer unit) s :
  (∀ a s p, srv_peers s !! a = Some p → tp_open p = true → body a s = (Ok tt, put_peer a (push frames p) s)) →
  live order s → for_each order body s = (Ok tt, sent order frames s).
Proof.
  intros Hbody. revert s. induction order as [|a order IH]; intros s [Hnd Hl]; cbn [for_each].
  { by rewrite sent_nil. }
  apply NoDup_cons in Hnd as [Ha Hnd]. destruct (Hl a ltac:(apply list_elem_of_here)) as (p & Hp & Ho).
  rewrite (gom_bind_ok _ _ _ _ _ (Hbody a s p Hp Ho)), IH; [by erewrite sent_cons|].
  split; [done|]. intros b Hb. destruct (Hl b ltac:(by apply list_elem_of_further)) as (q & Hq & Hoq).
  exists q. split; [|done]. cbn. rewrite lookup_insert_ne; [done|]. by intros ->.
Qed.

Lemma conn_Write_open data p : tp_open p = true → conn_Write data p = (Ok (zlen data), push [data] p).
Proof. intros Ho. unfold conn_Write. by rewrite Ho. Qed.

Lemma Send_open data p : tp_open p = true → Send data p = (Ok tt, push [data] p).
Proof. intros Ho. unfold Send. by rewrite (gom_bind_ok _ _ _ _ _ (conn_Write_open data p Ho)). Qed.

Lemma push_push f1 f2 p : push f2 (push f1 p) = push (f1 ++ f2) p.
Proof. unfold push. cbn. by rewrite app_assoc. Qed.

Lemma send_frame a data s p :
  srv_peers s !! a = Some p → tp_open p = true →
  peer_do a (Send data) s = (Ok tt, put_peer a (push [data] p) s).
Proof. intros Hp Ho. eapply peer_do_run; [done|]. by apply Send_open. Qed.

Lemma broadcast_ok order msg s :
  live order s → broadcast order msg s = (Ok tt, sent order [[IncomingMessage]; gob_Encode msg] s).
Proof.
  intros Hl. unfold broadcast. apply for_each_sent; [|done]. intros a s1 p Hp Ho.
  rewrite (gom_bind_ok _ _ _ tt (put_peer a (push [[IncomingMessage]] p) s1));
    [|unfold ignore; by erewrite send_frame].
  erewrite send_frame by (apply put_peer_get || done). by rewrite push_push, put_peer_twice.
Qed.

Lemma mw_Write_ok order data s :
  live order s → mw_Write order data s = (Ok (zlen data), sent order [data] s).
Proof.
  intros Hl. unfold mw_Write. rewrite (gom_bind_ok _ _ _ tt (sent order [data] s)); [done|].
  apply for_each_sent; [|done]. intros a s1 p Hp Ho.
  erewrite gom_bind_ok by (eapply peer_do_run; [done|by apply conn_Write_open]).
  by rewrite decide_True.
Qed.

(** The stream of a file: the marker, the vector and the data, encrypted. *)
Definition stream_frames (encKey iv data : bytes) : list bytes :=
  [IncomingStream] :: iv ::
  (if decide (0 < length data) then [(XORKeyStream (cipher_NewCTR (aes_encrypt encKey) iv) data).1] else []).

Lemma concat_stream_frames encKey iv data :
  concat (stream_frames encKey iv data) = IncomingStream :: sealed encKey iv data.
Proof.
  unfold stream_frames, sealed. cbn [concat app]. f_equal. f_equal. case_decide as Hl; cbn [concat].
  - by rewrite app_nil_r.
  - destruct data; [by rewrite XORKeyStream_nil|cbn in Hl; lia].
Qed.

Lemma Store_stream_ok order iv data s :
  live order s → key_ok (srv_EncKey s) →
  Store_stream order (Ok iv) data s = (Ok tt, sent order (stream_frames (srv_EncKey s) iv data) s).
Proof.
  intros Hl Hk. unfold Store_stream. rewrite (gom_bind_ok get_state _ s s s eq_refl).
  rewrite (gom_bind_ok _ _ _ tt (sent order [[IncomingStream]] s));
    [|unfold ignore; by rewrite mw_Write_ok].
  assert (live order (sent order [[IncomingStream]] s)) as Hl1 by by apply live_sent.
  set (s1 := sent order [[IncomingStream]] s) in *.
  rewrite (gom_bind_ok _ _ s1 (16 + zlen data)%Z (sent order (stream_frames (srv_EncKey s) iv data) s)); [done|].
  unfold copyEncrypt. rewrite NewCipher_ok by done.
  rewrite !(gom_bind_ok (lift_res _) _ _ _ s1 eq_refl).
  rewrite (gom_bind_ok _ _ _ _ _ (mw_Write_ok order iv s1 Hl1)).
  unfold copyStream. cbn [r_reads reader_of copy_stream_loop].
  unfold copy_stream_step, stream_frames. case_decide as Hd.
  - destruct (XORKeyStream (cipher_NewCTR (aes_encrypt (srv_EncKey s)) iv) data) as [out st] eqn:Ex.
    assert (zlen out = zlen data) as Hz.
    { unfold zlen. f_equal. by rewrite <-(length_XORKeyStream (cipher_NewCTR (aes_encrypt (srv_EncKey s)) iv) data), Ex. }
    erewrite gom_bind_ok.
    2: { erewrite gom_bind_ok by (apply mw_Write_ok; by apply live_sent).
         rewrite Hz, decide_True by done. done. }
    cbn [mret gom_ret]. unfold s1. rewrite !sent_sent. done.
  - rewrite (gom_bind_ok (mret _) _ _ _ _ eq_refl). unfold s1. rewrite sent_sent.
    destruct data; [done|cbn in Hd; lia].
Qed.
