(* ===== verification/P2PRuns.v ===== *)
(** * Runs of the peer-to-peer file server.

    What arrives on a connection, the rounds of the read loop and the handlers on
    it, and the order of steps in which a file goes from one server to another as
    it is meant to: the read loop takes the marker of a stream before the event
    loop handles the message that announced it. *)

From Stdlib Require Import ZArith Strings.Byte.
From S2P Require Import Prelude Metadata Replication Names Hash Objects Paths Store StoreSpec StoreReliable Aes Crypto Md5 Gob Transport FileServer FileServerSpec.
From stdpp Require Import options.

(** ** Arrival *)

(** Segments arrive on a connection. *)
Definition arrive (addr : string) (segs : list bytes) : GoM FileServer unit :=
  modify (λ s, set_peers (alter (λ p, set_in (tp_in p ++ segs) p) addr (srv_peers s)) s).

Definition clean (segs : list bytes) : list bytes := filter (λ d, 0 < length d) segs.

(** A message arrives on its own: joined to its marker or not, but to nothing
    else. *)
Definition arrives_alone (frames segs : list bytes) : Prop :=
  clean segs = frames ∨ clean segs = [concat frames].

(** A connection with nothing in it whose read loop waits for a frame. *)
Record quiet (addr : string) (p : TCPeer) : Prop := {
  q_addr : tp_addr p = addr;
  q_open : tp_open p = true;
  q_loop : tp_loop p = Reading;
  q_wg : tp_wg p = 0%Z;
  q_in : concat (tp_in p) = []
}.

Lemma clean_nil segs : concat segs = [] → clean segs = [].
Proof.
  induction segs as [|d segs IH]; [done|]. cbn [concat]. intros [-> E]%app_nil. unfold clean.
  rewrite filter_cons_False by (cbn; lia). by apply IH.
Qed.

Lemma concat_clean segs : concat (clean segs) = concat segs.
Proof.
  induction segs as [|d segs IH]; [done|]. unfold clean in *. rewrite filter_cons. case_decide as Hd.
  - cbn. by rewrite IH.
  - rewrite IH. destruct d; [done|cbn in Hd; lia].
Qed.

Lemma read_segment_clean n segs d ds :
  clean segs = d :: ds →
  ∃ rest, read_segment n segs = Some (take n d, rest) ∧
    clean rest = if decide (length d ≤ n) then ds else drop n d :: ds.
Proof.
  induction segs as [|e segs IH]; [done|]. unfold clean. rewrite filter_cons.
  destruct (decide (0 < length e)) as [He|He].
  - intros E. simplify_eq. destruct d as [|b d]; [cbn in He; lia|]. cbn [read_segment].
    eexists. split; [done|]. case_decide as Hl; [done|].
    rewrite filter_cons_True; [done|]. rewrite length_drop. lia.
  - destruct e; [|cbn in He; lia]. apply IH.
Qed.

Lemma put_arrive addr segs s p :
  srv_peers s !! addr = Some p →
  arrive addr segs s = (Ok tt, put_peer addr (set_in (tp_in p ++ segs) p) s).
Proof.
  intros Hp. unfold arrive, modify, put_peer. f_equal. f_equal.
  apply map_eq. intros a. destruct (decide (a = addr)) as [->|Hne].
  - by rewrite lookup_alter_eq, lookup_insert_eq, Hp.
  - by rewrite lookup_alter_ne, lookup_insert_ne.
Qed.

(** ** Rounds of the read loop *)

(** A message on its own is passed to the event loop. *)
Lemma read_loop_message addr m s p :
  srv_peers s !! addr = Some p → tp_addr p = addr → tp_open p = true → tp_loop p = Reading →
  arrives_alone [[IncomingMessage]; m] (tp_in p) → 0 < length m ≤ 1028 → length (srv_rpcCh s) < 1024 →
  ∃ p', read_loop addr s = Some (Ok tt,
      set_rpcCh (srv_rpcCh s ++ [{| rpc_From := addr; rpc_Payload := m; rpc_Stream := false |}])
        (put_peer addr p' s)) ∧ left_with p [] p'.
Proof.
  intros Hp Ha Ho Hloop Hal Hm Hch.
  assert (∃ r1 r2, read_segment 1 (tp_in p) = Some ([IncomingMessage], r1) ∧
    read_segment 1028 r1 = Some (m, r2) ∧ concat r2 = []) as (r1 & r2 & E1 & E2 & Er).
  { assert (∀ r1, clean r1 = [m] → ∃ r2, read_segment 1028 r1 = Some (m, r2) ∧ concat r2 = []) as Hsnd.
    { intros r1 (r2 & E2 & Hc2)%(read_segment_clean 1028). exists r2.
      rewrite decide_True in Hc2 by lia. rewrite take_ge in E2 by lia.
      by rewrite <-concat_clean, Hc2. }
    destruct Hal as [Hal|Hal]; destruct (read_segment_clean 1 _ _ _ Hal) as (r1 & E1 & Hc1).
    - rewrite decide_True in Hc1 by (cbn; lia). destruct (Hsnd r1 Hc1) as (r2 & E2 & Er). by exists r1, r2.
    - cbn in E1, Hc1. rewrite app_nil_r in *. rewrite decide_False in Hc1 by lia.
      destruct (Hsnd r1 Hc1) as (r2 & E2 & Er). by exists r1, r2. }
  exists (set_in r2 p). split; [|by split]. unfold read_loop.
  rewrite (waitm_ok _ _ _ (Some {| rpc_From := addr; rpc_Payload := m; rpc_Stream := false |})
    (put_peer addr (set_in r2 p) s)).
  { unfold push_rpc. by rewrite decide_True. }
  eapply on_peer_run; [done|]. unfold handleConn_step. rewrite Hloop. unfold DefaultDecode, conn_Read.
  unfold wtry, mbind, waitm_bind. rewrite Ho, E1. cbn [tp_open set_in tp_in]. cbn. rewrite Ho, E2. cbn.
  by rewrite Ha.
Qed.

(** The marker of a stream stops the loop. *)
Lemma read_loop_marker addr bs s p :
  srv_peers s !! addr = Some p → tp_open p = true → tp_loop p = Reading → tp_wg p = 0%Z →
  concat (tp_in p) = IncomingStream :: bs →
  ∃ p', read_loop addr s = Some (Ok tt, put_peer addr (set_loop StreamWait (set_wg 1 p')) s) ∧
    left_with p bs p'.
Proof.
  intros Hp Ho Hloop Hwg E. destruct (conn_Read_one p _ _ Ho E) as (p' & R & Hl).
  exists p'. split; [|done]. unfold read_loop.
  rewrite (waitm_ok _ _ _ None (put_peer addr (set_loop StreamWait (set_wg 1 p')) s)); [done|].
  eapply on_peer_run; [done|]. unfold handleConn_step. rewrite Hloop.
  rewrite (waitm_ok _ _ p (Ok {| rpc_From := ""; rpc_Payload := []; rpc_Stream := true |}) p').
  - assert (tp_wg p' = 0%Z) as Hw by (destruct Hl as [E' _]; by rewrite E').
    unfold mbind, waitm_bind, now, modify. cbn. by rewrite Hw.
  - unfold wtry, DefaultDecode. by rewrite (waitm_ok _ _ _ _ _ R).
Qed.

(** A stream that is closed lets it go on. *)
Lemma read_loop_resume addr s p :
  srv_peers s !! addr = Some p → tp_loop p = StreamWait → tp_wg p = 0%Z →
  read_loop addr s = Some (Ok tt, put_peer addr (set_loop Reading p) s).
Proof.
  intros Hp Hloop Hwg. unfold read_loop.
  rewrite (waitm_ok _ _ _ None (put_peer addr (set_loop Reading p) s)); [done|].
  eapply on_peer_run; [done|]. unfold handleConn_step. by rewrite Hloop, decide_True.
Qed.

Lemma CloseStream_ok p : (0 < tp_wg p)%Z → CloseStream p = (Ok tt, set_wg (tp_wg p - 1) p).
Proof. intros H. unfold CloseStream. by rewrite (proj2 (Z.leb_gt _ 0)). Qed.
Lemma CloseStream_panics p : (tp_wg p ≤ 0)%Z → CloseStream p = (Panic, p).
Proof. intros H. unfold CloseStream. by rewrite (proj2 (Z.leb_le _ 0)). Qed.

(** ** Rounds of the event loop *)

Lemma loop_step_run s rpc rest msg r s' :
  srv_looping s = true → srv_rpcCh s = rpc :: rest → gob_Decode (rpc_Payload rpc) = Some msg →
  handleMessage (rpc_From rpc) msg (set_rpcCh rest s) = Some (r, s') →
  loop_step s = Some (match r with Panic => Panic | _ => Ok tt end, s').
Proof.
  intros Hl Hch Hdec R. unfold loop_step. rewrite Hl, Hch, Hdec. cbn [default from_option].
  rewrite (waitm_ok _ _ s tt (set_rpcCh rest s) eq_refl). unfold wtry, mbind, waitm_bind, default, from_option, id.
  rewrite R. by destruct r.
Qed.

(** A stream is stored, and closed. *)
Lemma handle_StoreFile_ok root from m payload rest s p :
  serving root s → plain (msf_ID m) → srv_peers s !! from = Some p → (0 < tp_wg p)%Z →
  streams p (msf_Size m) payload rest →
  ∃ fs' p', handleMessageStoreFile from m s =
      Some (Ok tt, put_peer from (set_wg (tp_wg p - 1) p') (set_disk fs' s)) ∧
    written root (msf_ID m) (msf_Key m) payload (srv_disk s) fs' ∧ left_with p rest p'.
Proof.
  intros Hs Hid Hp Hwg Hst.
  destruct (store_Write_ok root from (msf_ID m) (msf_Key m) (msf_Size m) payload rest s p)
    as (fs' & p' & R & Hw & Hl); [done..|].
  exists fs', p'. split; [|by split]. unfold handleMessageStoreFile.
  rewrite (waitm_ok _ _ s s s eq_refl), Hp, (waitm_ok _ _ _ _ _ R). unfold now.
  assert (tp_wg p' = tp_wg p) as Ew by (destruct Hl as [E _]; by rewrite E).
  erewrite peer_do_run; [|apply put_peer_get|apply CloseStream_ok; lia].
  by rewrite Ew, put_peer_twice.
Qed.

Lemma copy_to_peer_ok addr d s p :
  srv_peers s !! addr = Some p → tp_open p = true →
  copy_to_peer addr (r_reads (reader_of d)) s =
    (Ok tt, put_peer addr (push (if decide (0 < length d) then [d] else []) p) s).
Proof.
  intros Hp Ho. cbn [copy_to_peer reader_of r_reads]. case_decide.
  - erewrite gom_bind_ok; [done|].
    erewrite gom_bind_ok by (eapply peer_do_run; [done|by apply conn_Write_open]). done.
  - unfold push. rewrite app_nil_r. cbn. by rewrite put_peer_id by (by destruct p).
Qed.

(** What a server answers to a request. *)
Definition reply_frames (d : bytes) : list bytes :=
  [IncomingStream] :: le_bytes 8 (zlen d) :: (if decide (0 < length d) then [d] else []).

Lemma concat_reply_frames d : concat (reply_frames d) = IncomingStream :: le_bytes 8 (zlen d) ++ d.
Proof.
  unfold reply_frames. cbn [concat app]. f_equal. f_equal.
  case_decide as Hl; cbn; [by rewrite app_nil_r|]. destruct d; [done|cbn in Hl; lia].
Qed.

(** A request for a file that is there is answered. *)
Lemma handle_GetFile_ok root from m d s p :
  serving root s → plain (mgf_ID m) → srv_peers s !! from = Some p → tp_open p = true →
  file_at (srv_disk s) (object_path (cas_opts root) (mgf_ID m) (mgf_Key m)) = Some d →
  ∃ fs', handleMessageGetFile from m s =
      (Ok tt, put_peer from (push (reply_frames d) p) (set_disk fs' s)) ∧
    ready root fs' ∧ fs_tree fs' = fs_tree (srv_disk s).
Proof.
  intros [Hst Hr] Hid Hp Ho Hf.
  destruct (Has_ready root (mgf_ID m) (mgf_Key m) (srv_disk s) Hid Hr) as (fs1 & R1 & Hr1 & T1).
  rewrite Hf, bool_decide_eq_true_2 in R1 by by eexists.
  destruct (StoreRead_ready root (mgf_ID m) (mgf_Key m) d fs1 Hr1) as (fs2 & R2 & Hr2).
  { unfold file_at in *. by rewrite T1. }
  pose proof R2 as (T2 & _)%StoreRead_inv.
  exists fs2. split; [|split; [done|by rewrite T2, T1]]. unfold handleMessageGetFile.
  rewrite (gom_bind_ok get_state _ s s s eq_refl), Hst.
  rewrite (gom_bind_ok _ _ _ _ _ (on_disk_run _ _ _ _ R1)).
  rewrite (gom_bind_ok _ _ _ (zlen d, reader_of d) (set_disk fs2 s)); [|exact (on_disk_run _ (set_disk fs1 s) _ _ R2)].
  rewrite Hp.
  rewrite (gom_bind_ok _ _ _ tt (put_peer from (push [[IncomingStream]] p) (set_disk fs2 s)));
    [|unfold ignore; by erewrite send_frame].
  rewrite (gom_bind_ok _ _ _ tt (put_peer from (push [[IncomingStream]; le_bytes 8 (zlen d)] p) (set_disk fs2 s))).
  2: { unfold ignore. erewrite peer_do_run; [|apply put_peer_get|by apply conn_Write_open].
       by rewrite push_push, put_peer_twice. }
  erewrite copy_to_peer_ok by (apply put_peer_get || done). by rewrite push_push, put_peer_twice.
Qed.

(** One that is not there is refused, and nothing is sent. *)
Lemma handle_GetFile_missing root from m s :
  serving root s → plain (mgf_ID m) →
  file_at (srv_disk s) (object_path (cas_opts root) (mgf_ID m) (mgf_Key m)) = None →
  ∃ fs' e, handleMessageGetFile from m s = (Err e, set_disk fs' s) ∧ ready root fs' ∧
    fs_tree fs' = fs_tree (srv_disk s).
Proof.
  intros [Hst Hr] Hid Hf.
  destruct (Has_ready root (mgf_ID m) (mgf_Key m) (srv_disk s) Hid Hr) as (fs1 & R1 & Hr1 & T1).
  rewrite Hf, bool_decide_eq_false_2 in R1 by by intros [? ?].
  eexists fs1, _. split; [|by split]. unfold handleMessageGetFile.
  rewrite (gom_bind_ok get_state _ s s s eq_refl), Hst.
  by rewrite (gom_bind_ok _ _ _ _ _ (on_disk_run _ _ _ _ R1)).
Qed.

(** ** [Get] *)

Lemma int64_bytes z : (0 ≤ z < 2 ^ 63)%Z → int64_of (le_bytes 8 z) = z.
Proof.
  intros Hz. unfold int64_of, wrap_s64. rewrite le_word_bytes by lia.
  rewrite Z.mod_small by lia. lia.
Qed.

(** A peer that has answered: its read loop is stopped, the size and the
    encrypted file are there. *)
Record answered (encKey data : bytes) (p : TCPeer) : Prop := {
  an_open : tp_open p = true;
  an_wg : tp_wg p = 1%Z;
  an_in : ∃ iv, length iv = 16 ∧
    concat (tp_in p) = le_bytes 8 (zlen data + 16) ++ sealed encKey iv data
}.

(** After a stream: the counter is back, and nothing is left. *)
Definition drained (p p' : TCPeer) : Prop :=
  ∃ p1, left_with p [] p1 ∧ p' = set_wg 0 p1.

Lemma Get_from_ok root key data addr s p :
  serving root s → plain (srv_ID s) → key_ok (srv_EncKey s) → (zlen data + 16 < 2 ^ 63)%Z →
  srv_peers s !! addr = Some p → answered (srv_EncKey s) data p →
  ∃ fs' p', Get_from key addr s = Some (Ok tt, put_peer addr p' (set_disk fs' s)) ∧
    written root (srv_ID s) key data (srv_disk s) fs' ∧ drained p p'.
Proof.
  intros Hs Hid Hk Hlen Hp [Ho Hwg (iv & Hiv & E)].
  destruct (read_full_conn_ok 8 8 8 [] p (le_bytes 8 (zlen data + 16)) (sealed (srv_EncKey s) iv data))
    as (p1 & R1 & Hp1); [lia|by rewrite length_le_bytes|lia|done|done|].
  assert (tp_open p1 = true ∧ tp_wg p1 = 1%Z) as [Ho1 Hwg1] by (destruct Hp1 as [E1 _]; by rewrite E1).
  destruct (store_WriteDecrypt_ok root addr (srv_EncKey s) (srv_ID s) key iv data [] (put_peer addr p1 s) p1)
    as (fs' & p2 & R2 & Hw & Hp2); [by destruct Hs|done|done|done|apply put_peer_get|done| |].
  { rewrite app_nil_r. apply Hp1. }
  exists fs', (set_wg 0 p2). split; [|split; [done|exists p2; split; [by eapply left_with_trans|done]]].
  unfold Get_from. rewrite (waitm_ok _ _ s s s eq_refl).
  rewrite (waitm_ok _ _ s (zlen data + 16)%Z (put_peer addr p1 s)).
  2: { unfold read_size.
       rewrite (waitm_ok _ _ s (Ok (le_bytes 8 (zlen data + 16), 0%Z)) (put_peer addr p1 s)).
       - by rewrite int64_bytes by (unfold zlen in *; lia).
       - unfold wtry. by erewrite on_peer_run by done. }
  rewrite (waitm_ok _ _ _ _ _ R2). unfold now.
  assert (tp_wg p2 = 1%Z) as Hwg2 by (destruct Hp2 as [E2 _]; by rewrite E2).
  erewrite peer_do_run; [|apply put_peer_get|apply CloseStream_ok; lia].
  rewrite Hwg2, put_peer_disk, !put_peer_twice. done.
Qed.

(** Every peer that was asked has answered. *)
Lemma Get_each_ok root key data order s :
  serving root s → plain (srv_ID s) → key_ok (srv_EncKey s) → (zlen data + 16 < 2 ^ 63)%Z →
  NoDup order → order ≠ [] →
  (∀ a, a ∈ order → ∃ p, srv_peers s !! a = Some p ∧ answered (srv_EncKey s) data p) →
  ∃ fs' m', wfor_each order (Get_from key) s = Some (Ok tt, set_peers m' (set_disk fs' s)) ∧
    written root (srv_ID s) key data (srv_disk s) fs' ∧
    (∀ a, a ∈ order → ∃ p p', srv_peers s !! a = Some p ∧ m' !! a = Some p' ∧ drained p p') ∧
    (∀ a, a ∉ order → m' !! a = srv_peers s !! a).
Proof.
  intros Hs Hid Hk Hlen. revert s Hs Hid Hk.
  induction order as [|a order IH]; intros s Hs Hid Hk Hnd Hne Han; [done|].
  apply NoDup_cons in Hnd as [Ha Hnd]. destruct (Han a ltac:(apply list_elem_of_here)) as (p & Hp & Hpa).
  destruct (Get_from_ok root key data a s p) as (fs1 & p1 & R1 & Hw1 & Hd1); [done..|].
  cbn [wfor_each]. rewrite (waitm_ok _ _ _ _ _ R1).
  destruct order as [|b order].
  { exists fs1, (<[a := p1]> (srv_peers s)). cbn. split; [done|]. split; [done|]. split.
    - intros c ->%list_elem_of_singleton. exists p, p1. by rewrite lookup_insert_eq.
    - intros c Hc. rewrite lookup_insert_ne; [done|]. set_solver. }
  set (s1 := put_peer a p1 (set_disk fs1 s)) in *.
  destruct (IH s1) as (fs2 & m2 & R2 & Hw2 & Hin & Hout); [|done|done|done|done| |].
  { destruct Hs as [Hst _], Hw1 as [Hr1 _]. by split. }
  { intros c Hc. destruct (Han c ltac:(by apply list_elem_of_further)) as (q & Hq & Hqa).
    exists q. split; [|done]. cbn. rewrite lookup_insert_ne; [done|]. by intros ->. }
  exists fs2, m2. rewrite R2. split; [done|]. split_and!.
  - destruct Hw1 as (_ & _ & Ho1), Hw2 as (Hr2 & Hf2 & Ho2). split; [done|]. split; [done|].
    intros q Hq. rewrite Ho2 by done. by apply Ho1.
  - intros c [->|Hc]%elem_of_cons.
    + exists p, p1. rewrite (Hout a Ha). split; [done|]. split; [apply lookup_insert_eq|done].
    + destruct (Hin c Hc) as (q & q' & Hq & Hq' & Hd). exists q, q'. split; [|done].
      cbn in Hq. rewrite lookup_insert_ne in Hq; [done|]. by intros ->.
  - intros c Hc. apply not_elem_of_cons in Hc as [Hca Hc]. rewrite (Hout c Hc). cbn.
    by rewrite lookup_insert_ne.
Qed.

Lemma Get_finish_ok root key data order s :
  serving root s → plain (srv_ID s) → key_ok (srv_EncKey s) → (zlen data + 16 < 2 ^ 63)%Z →
  NoDup order → order ≠ [] →
  (∀ a, a ∈ order → ∃ p, srv_peers s !! a = Some p ∧ answered (srv_EncKey s) data p) →
  ∃ fs' m', Get_finish order key s = Some (Ok (reader_of data), set_peers m' (set_disk fs' s)) ∧
    written root (srv_ID s) key data (srv_disk s) fs' ∧
    (∀ a, a ∈ order → ∃ p p', srv_peers s !! a = Some p ∧ m' !! a = Some p' ∧ drained p p') ∧
    (∀ a, a ∉ order → m' !! a = srv_peers s !! a).
Proof.
  intros Hs Hid Hk Hlen Hnd Hne Han.
  destruct (Get_each_ok root key data order s) as (fs1 & m & R & (Hr1 & Hf1 & Ho1) & Hin & Hout); [done..|].
  destruct (StoreRead_ready root (srv_ID s) key data fs1 Hr1 Hf1) as (fs2 & R2 & Hr2).
  pose proof R2 as (T2 & _)%StoreRead_inv. destruct Hs as [Hst _].
  exists fs2, m. split; [|split; [|done]].
  - unfold Get_finish. rewrite (waitm_ok _ _ _ _ _ R). set (s1 := set_peers m (set_disk fs1 s)).
    rewrite (waitm_ok _ _ s1 s1 s1 eq_refl).
    rewrite (waitm_ok _ _ s1 (zlen data, reader_of data) (set_disk fs2 s1)); [done|].
    unfold now. f_equal. apply on_disk_run. change (srv_store s1) with (srv_store s). by rewrite Hst.
  - split; [done|]. unfold file_at in *. by rewrite T2.
Qed.

(** ** The order of steps that is meant

    One schedule of the steps of a server among those of [P2PInv], the one that the
    sleeps in [Store] and [Get] make likely; nothing in the program enforces it. *)

(** A file comes from a peer: its announcement arrives and is queued, its stream
    arrives, the read loop takes the marker of the stream and waits, the event loop
    handles the announcement, and the read loop goes on. *)
Definition receive_file (from : string) (control stream : list bytes) : WaitM FileServer unit :=
  now (arrive from control);;
  read_loop from;;
  now (arrive from stream);;
  read_loop from;;
  loop_step;;
  read_loop from.

(** A request comes from a peer. *)
Definition serve_file (from : string) (control : list bytes) : WaitM FileServer unit :=
  now (arrive from control);;
  read_loop from;;
  loop_step.

(** The whole answer to a request arrives, the read loop takes the marker of the
    stream and waits, [Get] reads the answer, and the read loop goes on. *)
Definition collect (addr key : string) (reply : list bytes) : WaitM FileServer Reader :=
  now (arrive addr reply);;
  read_loop addr;;
  r ← Get_finish [addr] key;
  read_loop addr;;
  mret r.

Lemma arrive_quiet addr segs p : quiet addr p → concat (tp_in (set_in (tp_in p ++ segs) p)) = concat segs.
Proof. intros []. cbn. rewrite concat_app, q_in0. done. Qed.

Lemma arrive_alone addr frames segs p :
  quiet addr p → arrives_alone frames segs → arrives_alone frames (tp_in p ++ segs).
Proof.
  intros [] Hal. unfold arrives_alone, clean in *. rewrite filter_app.
  fold (clean (tp_in p)). by rewrite clean_nil.
Qed.

(** A message of a peer that waits for nothing is passed to the event loop. *)
Lemma receive_message addr m control s p :
  srv_peers s !! addr = Some p → quiet addr p → srv_rpcCh s = [] →
  arrives_alone [[IncomingMessage]; m] control → 0 < length m ≤ 1028 →
  ∃ p', (now (arrive addr control);; read_loop addr) s =
      Some (Ok tt, set_rpcCh [{| rpc_From := addr; rpc_Payload := m; rpc_Stream := false |}]
        (put_peer addr p' s)) ∧ quiet addr p' ∧ tp_out p' = tp_out p.
Proof.
  intros Hp Hq Hch Hal Hm. pose proof Hq as [Ha Ho Hl Hwg Hin].
  rewrite (waitm_ok _ _ s tt (put_peer addr (set_in (tp_in p ++ control) p) s));
    [|unfold now; by erewrite put_arrive].
  destruct (read_loop_message addr m (put_peer addr (set_in (tp_in p ++ control) p) s)
    (set_in (tp_in p ++ control) p)) as (p' & R & Hp'); [apply put_peer_get|done..| |done| |].
  { by eapply arrive_alone. }
  { cbn. rewrite Hch. cbn. lia. }
  exists p'. rewrite R. cbn [srv_rpcCh put_peer set_peers]. rewrite Hch. split.
  - cbn [app]. f_equal. f_equal. rewrite put_peer_twice. done.
  - destruct Hp' as [E E2]. rewrite E. by split.
Qed.

Lemma gob_Encode_nonempty m : 0 < length (gob_Encode m).
Proof.
  unfold gob_Encode. rewrite length_app.
  assert (2 ≤ length (gob_descriptor "Message" MessageType [("Payload"%string, interfaceType)]))
    by (vm_compute; lia). lia.
Qed.

Lemma gob_Decode_frame m : message_ok m → length (gob_Encode m) ≤ 1028 → gob_Decode (gob_Encode m) = Some m.
Proof.
  intros Hm Hl. rewrite <-(app_nil_r (gob_Encode m)). apply gob_Decode_Encode; [done|]. unfold zlen. lia.
Qed.

Lemma receive_file_ok root from f control stream payload s p :
  let msg := {| msg_Payload := Some (StoreFile f) |} in
  serving root s → srv_looping s = true → srv_rpcCh s = [] → srv_peers s !! from = Some p → quiet from p →
  plain (msf_ID f) → message_ok msg → length (gob_Encode msg) ≤ 1028 → msf_Size f = zlen payload →
  arrives_alone [[IncomingMessage]; gob_Encode msg] control → concat stream = IncomingStream :: payload →
  ∃ fs' p', receive_file from control stream s = Some (Ok tt, put_peer from p' (set_disk fs' s)) ∧
    written root (msf_ID f) (msf_Key f) payload (srv_disk s) fs' ∧
    quiet from p' ∧ tp_out p' = tp_out p.
Proof.
  intros msg Hs Hl Hch Hp Hq Hid Hm Hlen Hsz Hal Est.
  destruct (receive_message from (gob_Encode msg) control s p) as (p1 & R1 & Hq1 & Hout1);
    [done..|split; [apply gob_Encode_nonempty|done]|].
  unfold mbind, waitm_bind in R1. unfold receive_file, mbind, waitm_bind.
  destruct (now (arrive from control) s) as [[[[]| |] s0]|]; try done. rewrite R1. clear R1 s0.
  set (rpc := {| rpc_From := from; rpc_Payload := gob_Encode msg; rpc_Stream := false |}).
  set (s1 := set_rpcCh [rpc] (put_peer from p1 s)).
  assert (srv_peers s1 !! from = Some p1) as Hp1 by apply put_peer_get.
  unfold now. rewrite (put_arrive _ _ _ _ Hp1). pose proof Hq1 as [Ha1 Ho1 Hl1 Hw1 Hi1].
  set (p2 := set_in (tp_in p1 ++ stream) p1).
  destruct (read_loop_marker from payload (put_peer from p2 s1) p2) as (p3 & R3 & Hp3);
    [apply put_peer_get|done..| |]. { unfold p2. by erewrite arrive_quiet. }
  rewrite R3, put_peer_twice. clear R3. set (p4 := set_loop StreamWait (set_wg 1 p3)).
  assert (srv_peers (set_rpcCh [] (put_peer from p4 s1)) !! from = Some p4) as Hp4 by apply put_peer_get.
  destruct (handle_StoreFile_ok root from f payload [] (set_rpcCh [] (put_peer from p4 s1)) p4)
    as (fs' & p5 & R5 & Hw & Hp5); [by destruct Hs|done|done|done| |].
  { destruct Hp3 as [E3 E3']. split; [unfold p4; rewrite E3; done|]. split; [|by left].
    rewrite app_nil_r. exact E3'. }
  erewrite loop_step_run; [|done|done|cbn; by apply gob_Decode_frame|exact R5].
  set (s5 := put_peer from _ _).
  rewrite (read_loop_resume from s5 (set_wg (tp_wg p4 - 1) p5)); [|apply put_peer_get| |].
  - exists fs', (set_loop Reading (set_wg (tp_wg p4 - 1) p5)). split.
    + unfold s5, s1. rewrite put_peer_twice. do 2 f_equal. destruct s. unfold put_peer, set_peers. cbn in *.
      subst. by rewrite !insert_insert_eq.
    + split; [done|]. destruct Hp5 as [E5 E5'], Hp3 as [E3 E3']. rewrite E5. unfold p4. rewrite E3.
      cbn. split; [|done]. by split.
  - destruct Hp5 as [E5 _]. by rewrite E5.
  - done.
Qed.

Lemma serve_file_ok root from f control d s p :
  let msg := {| msg_Payload := Some (GetFile f) |} in
  serving root s → srv_looping s = true → srv_rpcCh s = [] → srv_peers s !! from = Some p → quiet from p →
  plain (mgf_ID f) → length (gob_Encode msg) ≤ 1028 →
  arrives_alone [[IncomingMessage]; gob_Encode msg] control →
  file_at (srv_disk s) (object_path (cas_opts root) (mgf_ID f) (mgf_Key f)) = Some d →
  ∃ fs' p', serve_file from control s = Some (Ok tt, put_peer from p' (set_disk fs' s)) ∧
    ready root fs' ∧ fs_tree fs' = fs_tree (srv_disk s) ∧
    quiet from p' ∧ tp_out p' = tp_out p ++ reply_frames d.
Proof.
  intros msg Hs Hl Hch Hp Hq Hid Hlen Hal Hf.
  destruct (receive_message from (gob_Encode msg) control s p) as (p1 & R1 & Hq1 & Hout1);
    [done..|split; [apply gob_Encode_nonempty|done]|].
  unfold mbind, waitm_bind in R1. unfold serve_file, mbind, waitm_bind.
  destruct (now (arrive from control) s) as [[[[]| |] s0]|]; try done. rewrite R1. clear R1 s0.
  set (rpc := {| rpc_From := from; rpc_Payload := gob_Encode msg; rpc_Stream := false |}).
  set (s1 := set_rpcCh [rpc] (put_peer from p1 s)).
  assert (srv_peers (set_rpcCh [] s1) !! from = Some p1) as Hp1 by apply put_peer_get.
  destruct (handle_GetFile_ok root from f d (set_rpcCh [] s1) p1) as (fs' & R2 & Hr2 & T2);
    [by destruct Hs|done|done|by destruct Hq1|done|].
  exists fs', (push (reply_frames d) p1).
  erewrite loop_step_run; [|done|done|cbn; by apply gob_Decode_frame|].
  2: { unfold handleMessage, msg. cbn [msg_Payload]. unfold now. f_equal. exact R2. }
  split; [|split; [done|split; [done|]]].
  - do 2 f_equal. destruct s. unfold s1, put_peer, set_peers. cbn in *. subst. by rewrite insert_insert_eq.
  - destruct Hq1. split; [by split|]. cbn. by rewrite Hout1.
Qed.

(** A request for a file that is not there gets no answer. *)
Lemma serve_missing root from f control s p :
  let msg := {| msg_Payload := Some (GetFile f) |} in
  serving root s → srv_looping s = true → srv_rpcCh s = [] → srv_peers s !! from = Some p → quiet from p →
  plain (mgf_ID f) → length (gob_Encode msg) ≤ 1028 →
  arrives_alone [[IncomingMessage]; gob_Encode msg] control →
  file_at (srv_disk s) (object_path (cas_opts root) (mgf_ID f) (mgf_Key f)) = None →
  ∃ s' p', serve_file from control s = Some (Ok tt, s') ∧ srv_peers s' !! from = Some p' ∧
    tp_out p' = tp_out p.
Proof.
  intros msg Hs Hl Hch Hp Hq Hid Hlen Hal Hf.
  destruct (receive_message from (gob_Encode msg) control s p) as (p1 & R1 & Hq1 & Hout1);
    [done..|split; [apply gob_Encode_nonempty|done]|].
  unfold mbind, waitm_bind in R1. unfold serve_file, mbind, waitm_bind.
  destruct (now (arrive from control) s) as [[[[]| |] s0]|]; try done. rewrite R1. clear R1 s0.
  set (rpc := {| rpc_From := from; rpc_Payload := gob_Encode msg; rpc_Stream := false |}).
  set (s1 := set_rpcCh [rpc] (put_peer from p1 s)).
  destruct (handle_GetFile_missing root from f (set_rpcCh [] s1)) as (fs' & e & R2 & _); [by destruct Hs|done..|].
  exists (set_disk fs' (set_rpcCh [] s1)), p1.
  erewrite loop_step_run; [|done|done|cbn; by apply gob_Decode_frame|].
  2: { unfold handleMessage, msg. cbn [msg_Payload]. unfold now. f_equal. exact R2. }
  split; [done|]. split; [apply put_peer_get|done].
Qed.

Lemma collect_ok root addr key iv data reply s p :
  serving root s → plain (srv_ID s) → key_ok (srv_EncKey s) → length iv = 16 →
  (zlen data + 16 < 2 ^ 63)%Z → srv_peers s !! addr = Some p → quiet addr p →
  concat reply = IncomingStream :: le_bytes 8 (zlen data + 16) ++ sealed (srv_EncKey s) iv data →
  ∃ fs' p', collect addr key reply s = Some (Ok (reader_of data), put_peer addr p' (set_disk fs' s)) ∧
    written root (srv_ID s) key data (srv_disk s) fs' ∧ quiet addr p' ∧ tp_out p' = tp_out p.
Proof.
  intros Hs Hid Hk Hiv Hlen Hp Hq Er. pose proof Hq as [Ha Ho Hl Hw Hi].
  unfold collect. rewrite (waitm_ok _ _ s tt (put_peer addr (set_in (tp_in p ++ reply) p) s));
    [|unfold now; by erewrite put_arrive].
  set (p1 := set_in (tp_in p ++ reply) p).
  destruct (read_loop_marker addr (le_bytes 8 (zlen data + 16) ++ sealed (srv_EncKey s) iv data)
    (put_peer addr p1 s) p1) as (p2 & R2 & Hp2); [apply put_peer_get|done..| |].
  { unfold p1. by erewrite arrive_quiet. }
  rewrite (waitm_ok _ _ _ _ _ R2), put_peer_twice. set (p3 := set_loop StreamWait (set_wg 1 p2)).
  assert (answered (srv_EncKey s) data p3) as Han.
  { destruct Hp2 as [E E']. split; [unfold p3; by rewrite E|done|]. exists iv. by split. }
  destruct (Get_finish_ok root key data [addr] (put_peer addr p3 s))
    as (fs' & m & R3 & Hwr & Hin & Hout); [by destruct Hs|done|done|done|apply NoDup_singleton|done| |].
  { intros a ->%list_elem_of_singleton. exists p3. split; [apply put_peer_get|done]. }
  destruct (Hin addr ltac:(apply list_elem_of_here)) as (q & q' & Hq1 & Hq' & (q1 & Hl1 & ->)).
  rewrite put_peer_get in Hq1. injection Hq1 as <-.
  assert (set_peers m (set_disk fs' (put_peer addr p3 s)) = put_peer addr (set_wg 0 q1) (set_disk fs' s)) as Em.
  { unfold put_peer, set_peers. destruct s. cbn in *. f_equal. apply map_eq. intros a.
    destruct (decide (a = addr)) as [->|Hne]; [by rewrite lookup_insert_eq|].
    rewrite Hout by (by intros ?%list_elem_of_singleton). by rewrite !lookup_insert_ne. }
  rewrite (waitm_ok _ _ _ _ _ R3), Em.
  assert (q1 = set_in (tp_in q1) p3) as E1 by apply Hl1. assert (p2 = set_in (tp_in p2) p1) as E2 by apply Hp2.
  rewrite (waitm_ok _ _ _ _ _ (read_loop_resume addr (put_peer addr (set_wg 0 q1) (set_disk fs' s)) _
    (put_peer_get _ _ _) ltac:(by rewrite E1) eq_refl)).
  exists fs', (set_loop Reading (set_wg 0 q1)). rewrite put_peer_twice. split; [done|]. split; [done|].
  destruct Hl1 as [_ Hc]. rewrite E1. unfold p3. rewrite E2. cbn. split; [by split|done].
Qed.

(** ** The messages of a server *)

Definition store_message (id key : string) (data : bytes) : Message :=
  {| msg_Payload := Some (StoreFile {| msf_ID := id; msf_Key := hashKey key; msf_Size := zlen data + 16 |}) |}.
Definition get_message (id key : string) : Message :=
  {| msg_Payload := Some (GetFile {| mgf_ID := id; mgf_Key := hashKey key |}) |}.

Lemma length_hashKey key : String.length (hashKey key) = 32.
Proof. unfold hashKey. rewrite length_hex_encode, length_md5. done. Qed.

Lemma store_message_length id key data :
  (zlen data < 2 ^ 62)%Z → String.length id ≤ 830 → length (gob_Encode (store_message id key data)) ≤ 1028.
Proof.
  intros Hd Hid. pose proof (length_hashKey key) as Hk.
  assert (0 ≤ zlen data)%Z by (unfold zlen; lia).
  pose proof (gob_Encode_length (StoreFile {| msf_ID := id; msf_Key := hashKey key; msf_Size := zlen data + 16 |})) as Hg.
  cbn [payload_fields struct_space foldr value_space msf_ID msf_Key msf_Size] in Hg. rewrite Hk in Hg.
  fold (store_message id key data) in Hg.
  enough (zlen (gob_Encode (store_message id key data)) ≤ 1028)%Z by (unfold zlen in *; lia).
  etransitivity; [apply Hg; [|lia]|lia].
  rewrite !Forall_cons, Forall_nil. cbn [value_ok]. rewrite Hk. unfold in_s64. lia.
Qed.

Lemma get_message_length id key :
  String.length id ≤ 830 → length (gob_Encode (get_message id key)) ≤ 1028.
Proof.
  intros Hid. pose proof (length_hashKey key) as Hk.
  pose proof (gob_Encode_length (GetFile {| mgf_ID := id; mgf_Key := hashKey key |})) as Hg.
  cbn [payload_fields struct_space foldr value_space mgf_ID mgf_Key] in Hg. rewrite Hk in Hg.
  fold (get_message id key) in Hg.
  enough (zlen (gob_Encode (get_message id key)) ≤ 1028)%Z by (unfold zlen in *; lia).
  etransitivity; [apply Hg; [|lia]|lia].
  rewrite !Forall_cons, Forall_nil. cbn [value_ok]. rewrite Hk. lia.
Qed.

Lemma store_message_ok id key data : (zlen data < 2 ^ 62)%Z → message_ok (store_message id key data).
Proof. intros Hd. unfold message_ok, in_s64. cbn. unfold zlen in *. lia. Qed.

(** ** [Store] and [Get] up to their sleep *)

Lemma Store_start_ok root order key r data s :
  serving root s → plain (srv_ID s) → live order s → drain (r_reads r) = (data, None) →
  ∃ fs', Store_start order key r s =
      (Ok data, sent order [[IncomingMessage]; gob_Encode (store_message (srv_ID s) key data)] (set_disk fs' s)) ∧
    written root (srv_ID s) key data (srv_disk s) fs'.
Proof.
  intros [Hst Hr] Hid Hl Hd.
  destruct (StoreWrite_written root (srv_ID s) key r data (srv_disk s) Hid Hr Hd) as (fs' & R & Hw).
  exists fs'. split; [|done]. unfold Store_start.
  rewrite (gom_bind_ok get_state _ s s s eq_refl), Hst.
  rewrite (gom_bind_ok _ _ _ _ _ (on_disk_run _ _ _ _ R)).
  erewrite gom_bind_ok by (by apply broadcast_ok). by rewrite Hd.
Qed.

Lemma Get_start_local root order key d s :
  serving root s → plain (srv_ID s) →
  file_at (srv_disk s) (object_path (cas_opts root) (srv_ID s) key) = Some d →
  ∃ fs', Get_start order key s = (Ok (Some (reader_of d)), set_disk fs' s) ∧ ready root fs' ∧
    fs_tree fs' = fs_tree (srv_disk s).
Proof.
  intros [Hst Hr] Hid Hf.
  destruct (Has_ready root (srv_ID s) key (srv_disk s) Hid Hr) as (fs1 & R1 & Hr1 & T1).
  rewrite Hf, bool_decide_eq_true_2 in R1 by by eexists.
  destruct (StoreRead_ready root (srv_ID s) key d fs1 Hr1) as (fs2 & R2 & Hr2).
  { unfold file_at in *. by rewrite T1. }
  pose proof R2 as (T2 & _)%StoreRead_inv. exists fs2. split; [|split; [done|by rewrite T2, T1]].
  unfold Get_start. rewrite (gom_bind_ok get_state _ s s s eq_refl), Hst.
  rewrite (gom_bind_ok _ _ _ _ _ (on_disk_run _ _ _ _ R1)).
  rewrite (gom_bind_ok _ _ _ (zlen d, reader_of d) (set_disk fs2 s)); [done|].
  exact (on_disk_run _ (set_disk fs1 s) _ _ R2).
Qed.

Lemma Get_start_ask root order key s :
  serving root s → plain (srv_ID s) → live order s →
  file_at (srv_disk s) (object_path (cas_opts root) (srv_ID s) key) = None →
  ∃ fs', Get_start order key s =
      (Ok None, sent order [[IncomingMessage]; gob_Encode (get_message (srv_ID s) key)] (set_disk fs' s)) ∧
    ready root fs' ∧ fs_tree fs' = fs_tree (srv_disk s).
Proof.
  intros [Hst Hr] Hid Hl Hf.
  destruct (Has_ready root (srv_ID s) key (srv_disk s) Hid Hr) as (fs1 & R1 & Hr1 & T1).
  rewrite Hf, bool_decide_eq_false_2 in R1 by by intros [? ?].
  exists fs1. split; [|by split]. unfold Get_start.
  rewrite (gom_bind_ok get_state _ s s s eq_refl), Hst.
  rewrite (gom_bind_ok _ _ _ _ _ (on_disk_run _ _ _ _ R1)).
  by erewrite gom_bind_ok by (by apply broadcast_ok).
Qed.

(** ** Runs that fail *)

Lemma for_each_app {S A} (xs ys : list A) (body : A → GoM S unit) s s1 :
  for_each xs body s = (Ok tt, s1) → for_each (xs ++ ys) body s = for_each ys body s1.
Proof.
  revert s. induction xs as [|x xs IH]; intros s; cbn [for_each app]; [by intros [= ->]|].
  intros [(a & s2 & H1 & H2)|Hbad]%gom_bind_inv; [|by destruct Hbad as [(? & _ & ?)|[_ ?]]].
  rewrite (gom_bind_ok _ _ _ _ _ H1). by apply IH.
Qed.

Lemma Send_closed data p : tp_open p = false → Send data p = (Err ErrClosed, p).
Proof. intros Ho. unfold Send, conn_Write, mbind, gom_bind. by rewrite Ho. Qed.

(** A peer that is gone ends the broadcast. *)
Lemma broadcast_dead before a after msg s p :
  live before s → a ∉ before → srv_peers s !! a = Some p → tp_open p = false →
  broadcast (before ++ a :: after) msg s =
    (Err ErrClosed, sent before [[IncomingMessage]; gob_Encode msg] s).
Proof.
  intros Hl Ha Hp Ho. pose proof (broadcast_ok before msg s Hl) as R. unfold broadcast in *.
  rewrite (for_each_app _ _ _ _ _ R). set (s1 := sent before _ s).
  assert (srv_peers s1 !! a = Some p) as Hp1.
  { cbn. rewrite map_lookup_imap, Hp. cbn. by rewrite decide_False. }
  cbn [for_each].
  assert (∀ d, peer_do a (Send d) s1 = (Err ErrClosed, s1)) as Hs.
  { intros d. erewrite peer_do_run by (done || by apply Send_closed). by rewrite put_peer_id. }
  apply gom_bind_err. rewrite (gom_bind_ok _ _ _ tt s1); [apply Hs|]. unfold ignore. by rewrite Hs.
Qed.

(** Reading from a peer that has closed, and from one that has sent nothing. *)
Lemma read_full_eof fuel n limit p :
  tp_open p = true → tp_eof p = true → concat (tp_in p) = [] → 0 < n → (0 < limit)%Z →
  read_full_conn (S fuel) n limit [] p = Some (Err (ErrOther "EOF"), p).
Proof.
  intros Ho He Hi Hn Hl. cbn [read_full_conn]. rewrite decide_False by lia. rewrite decide_False by lia.
  rewrite (waitm_ok _ _ p (Err (ErrOther "EOF")) p); [done|]. unfold wtry. by rewrite conn_Read_eof.
Qed.

Lemma read_full_waits fuel n limit p :
  tp_open p = true → tp_eof p = false → concat (tp_in p) = [] → 0 < n → (0 < limit)%Z →
  read_full_conn (S fuel) n limit [] p = None.
Proof.
  intros Ho He Hi Hn Hl. cbn [read_full_conn]. rewrite decide_False by lia. rewrite decide_False by lia.
  apply waitm_none. unfold wtry, conn_Read. by rewrite Ho, read_segment_none, He.
Qed.

(** [Get] opens the file before it has anything to write. *)
Lemma Get_finish_eof root key a s p :
  serving root s → plain (srv_ID s) → key_ok (srv_EncKey s) → srv_peers s !! a = Some p →
  tp_open p = true → tp_eof p = true → concat (tp_in p) = [] →
  ∃ fs', Get_finish [a] key s = Some (Err (ErrOther "EOF"), set_disk fs' s) ∧
    written root (srv_ID s) key [] (srv_disk s) fs'.
Proof.
  intros [Hst Hr] Hid Hk Hp Ho He Hi.
  destruct (StoreWrite_written root (srv_ID s) key {| r_reads := []; r_close := None |} [] (srv_disk s) Hid Hr)
    as (fs1 & R1 & Hw); [done|].
  unfold StoreWrite, writeStream in R1. apply gom_bind_inv in R1 as [(f & fs2 & R1 & R2)|Hbad];
    [|by destruct Hbad as [(? & _ & ?)|[_ ?]]]. injection R2 as ->.
  exists fs1. split; [|done]. unfold Get_finish, wfor_each. apply waitm_err, waitm_err.
  unfold Get_from. rewrite (waitm_ok _ _ s s s eq_refl).
  rewrite (waitm_ok _ _ s 0%Z s).
  2: { unfold read_size. rewrite (waitm_ok _ _ s (Err (ErrOther "EOF")) s); [done|]. unfold wtry.
       erewrite on_peer_run by (done || by apply read_full_eof; [..|lia|lia]). by rewrite put_peer_id. }
  apply waitm_err. unfold store_WriteDecrypt. rewrite (waitm_ok _ _ s s s eq_refl), Hst.
  rewrite (waitm_ok _ _ _ f (set_disk fs1 s)) by (unfold now; by erewrite on_disk_run by exact R1).
  rewrite (waitm_ok _ _ _ (aes_encrypt (srv_EncKey s)) (set_disk fs1 s)) by (unfold now; by rewrite NewCipher_ok).
  apply waitm_err. rewrite (on_peer_run a _ (set_disk fs1 s) p (Err (ErrOther "EOF")) p Hp eq_refl).
  by rewrite put_peer_id.
Qed.

Lemma Get_finish_waits key a s p :
  srv_peers s !! a = Some p → tp_open p = true → tp_eof p = false → concat (tp_in p) = [] →
  Get_finish [a] key s = None.
Proof.
  intros Hp Ho He Hi. unfold Get_finish, wfor_each. apply waitm_none, waitm_none. unfold Get_from.
  rewrite (waitm_ok _ _ s s s eq_refl). apply waitm_none, waitm_none. unfold wtry, on_peer.
  by rewrite Hp, read_full_waits by (done || lia).
Qed.
