(* ===== verification/P2PInv.v ===== *)
(** * What every reachable state of a file server satisfies.

    The steps of a server in any order: its goroutines, the callers of [Store]
    and [Get], and what the network does to its connections. *)

From Stdlib Require Import ZArith Strings.Byte.
From S2P Require Import Prelude Metadata Replication Names Hash Objects Paths Store Aes Crypto Md5 Gob Transport FileServer FileServerSpec P2PRuns.
From stdpp Require Import options.

(** ** Steps *)

(** What the network does to an end of a connection: bytes arrive or leave, the
    other end closes, the connection breaks. *)
Inductive net_step : TCPeer → TCPeer → Prop :=
  | net_arrive segs p : net_step p (set_in (tp_in p ++ segs) p)
  | net_leave k p : net_step p (set_out (drop k (tp_out p)) p)
  | net_eof p : net_step p {|
      tp_addr := tp_addr p; tp_outbound := tp_outbound p; tp_in := tp_in p; tp_eof := true;
      tp_out := tp_out p; tp_open := tp_open p; tp_wg := tp_wg p; tp_loop := tp_loop p |}
  | net_break p : net_step p {|
      tp_addr := tp_addr p; tp_outbound := tp_outbound p; tp_in := tp_in p; tp_eof := tp_eof p;
      tp_out := tp_out p; tp_open := false; tp_wg := tp_wg p; tp_loop := tp_loop p |}.

Inductive srv_step : FileServer → FileServer → Prop :=
  | step_start listen s : srv_step s (Start listen s).2
  | step_stop s : srv_step s (Stop s).2
  | step_dial dialled addr s : srv_step s (Dial dialled addr s).2
  | step_accept accepted r s s' : accept_round accepted s = Some (r, s') → srv_step s s'
  | step_net addr p p' s :
      srv_peers s !! addr = Some p → net_step p p' → srv_step s (put_peer addr p' s)
  | step_read addr r s s' : read_loop addr s = Some (r, s') → srv_step s s'
  | step_loop r s s' : loop_step s = Some (r, s') → srv_step s s'
  | step_quit r s s' : loop_quit s = Some (r, s') → srv_step s s'
  | step_store order key r s : srv_step s (Store_start order key r s).2
  | step_stream order random buf s : srv_step s (Store_stream order random buf s).2
  | step_get order key s : srv_step s (Get_start order key s).2
  | step_finish order key r s s' : Get_finish order key s = Some (r, s') → srv_step s s'.

(** ** The invariant *)

(** The counter of a connection is 0 or 1, and 1 only while its read loop waits;
    a loop that has ended has closed the connection. *)
Record peer_wf (addr : string) (p : TCPeer) : Prop := {
  pw_addr : tp_addr p = addr;
  pw_wg : tp_wg p = 0%Z ∨ tp_wg p = 1%Z ∧ tp_loop p = StreamWait;
  pw_dropped : tp_loop p = Dropped → tp_open p = false
}.

(** A message in the channel is from a peer of the map and is a frame the
    decoder can have read. *)
Record rpc_wf (peers : gmap string TCPeer) (rpc : RPC) : Prop := {
  rw_From : is_Some (peers !! rpc_From rpc);
  rw_Payload : length (rpc_Payload rpc) ≤ 1028;
  rw_Stream : rpc_Stream rpc = false
}.

Record srv_wf (s : FileServer) : Prop := {
  wf_peers : map_Forall peer_wf (srv_peers s);
  wf_rpcs : Forall (rpc_wf (srv_peers s)) (srv_rpcCh s);
  wf_room : length (srv_rpcCh s) ≤ 1024
}.

Definition keeps_wf (s s' : FileServer) : Prop := srv_wf s → srv_wf s'.
#[export] Instance keeps_wf_preorder : PreOrder keeps_wf.
Proof. split; [intros s Hs; exact Hs|]. intros s1 s2 s3 H1 H2 H. by apply H2, H1. Qed.

(** ** Peers *)

(** A call on a peer that keeps it well formed and at its address. *)
Definition peer_ok {A} (addr : string) (c : WaitM TCPeer A) : Prop :=
  ∀ p r p', peer_wf addr p → c p = Some (r, p') → peer_wf addr p'.

Lemma wf_put_peer addr p s :
  is_Some (srv_peers s !! addr) → peer_wf addr p → keeps_wf s (put_peer addr p s).
Proof.
  intros Ha Hp [Hps Hrs Hroom]. split; [by apply map_Forall_insert_2| |done].
  eapply Forall_impl; [exact Hrs|]. intros rpc [[q Hq] Hl Hst]. split; [|done..].
  cbn. destruct (decide (addr = rpc_From rpc)) as [<-|Hne].
  - rewrite lookup_insert_eq. by eexists.
  - rewrite lookup_insert_ne by done. by eexists.
Qed.

Lemma keeps_on_peer {A} addr (c : WaitM TCPeer A) : peer_ok addr c → keeps keeps_wf (on_peer addr c).
Proof.
  intros Hc s r s'. unfold on_peer. destruct (srv_peers s !! addr) as [p|] eqn:Hp.
  - destruct (c p) as [[r1 p1]|] eqn:R; [|done]. intros [= <- <-] Hw.
    apply wf_put_peer; [by rewrite Hp| |done]. eapply Hc; [|done]. by apply (wf_peers _ Hw).
  - by intros [= <- <-].
Qed.

Lemma keeps_peer_do {A} addr (c : GoM TCPeer A) : peer_ok addr (now c) → respects keeps_wf (peer_do addr c).
Proof.
  intros Hc s r s'. unfold peer_do. destruct (srv_peers s !! addr) as [p|] eqn:Hp.
  - destruct (c p) as [r1 p1] eqn:R. intros [= <- <-] Hw.
    apply wf_put_peer; [by rewrite Hp| |done]. eapply Hc; [by apply (wf_peers _ Hw)|]. unfold now. by rewrite R.
  - by intros [= <- <-].
Qed.

Lemma peer_ok_bind {A B} addr (c : WaitM TCPeer A) (k : A → WaitM TCPeer B) :
  peer_ok addr c → (∀ a, peer_ok addr (k a)) → peer_ok addr (c ≫= k).
Proof.
  intros Hc Hk p r p' Hp. unfold mbind, waitm_bind. destruct (c p) as [[[a|e|] p1]|] eqn:R; [|..|done].
  - apply Hk. by eapply Hc.
  - intros [= <- <-]. by eapply Hc.
  - intros [= <- <-]. by eapply Hc.
Qed.

Lemma peer_ok_wtry {A} addr (c : WaitM TCPeer A) : peer_ok addr c → peer_ok addr (wtry c).
Proof.
  intros Hc p r p' Hp. unfold wtry. destruct (c p) as [[[a|e|] p1]|] eqn:R; [..|done]; intros [= <- <-];
    by eapply Hc.
Qed.

Lemma peer_ok_ret {A} addr (a : A) : peer_ok addr (mret a).
Proof. by intros p r p' Hp [= <- <-]. Qed.
Lemma peer_ok_fail {A} addr e : peer_ok addr (now (fail e) : WaitM TCPeer A).
Proof. by intros p r p' Hp [= <- <-]. Qed.
Lemma peer_ok_panic {A} addr : peer_ok addr (now panic : WaitM TCPeer A).
Proof. by intros p r p' Hp [= <- <-]. Qed.

Lemma peer_wf_eq addr p p' :
  tp_addr p' = tp_addr p → tp_wg p' = tp_wg p → tp_loop p' = tp_loop p → tp_open p' = tp_open p →
  peer_wf addr p → peer_wf addr p'.
Proof. intros E1 E2 E3 E4 []. split; by rewrite ?E1, ?E2, ?E3, ?E4. Qed.

Lemma peer_ok_Read addr n : peer_ok addr (conn_Read n).
Proof.
  intros p r p' Hp. unfold conn_Read. destruct (tp_open p); [|by intros [= <- <-]].
  destruct (read_segment n (tp_in p)) as [[data rest]|]; [intros [= <- <-]; by apply (peer_wf_eq _ p)|].
  by destruct (tp_eof p); [intros [= <- <-]|].
Qed.

Lemma peer_ok_Write addr data : peer_ok addr (now (conn_Write data)).
Proof.
  intros p r p' Hp. unfold now, conn_Write.
  destruct (tp_open p) eqn:Ho; intros [= <- <-]; [by apply (peer_wf_eq _ p)|done].
Qed.

Lemma peer_ok_Send addr data : peer_ok addr (now (Send data)).
Proof.
  intros p r p' Hp. unfold now, Send, conn_Write, mbind, gom_bind.
  destruct (tp_open p) eqn:Ho; intros [= <- <-]; [by apply (peer_wf_eq _ p)|done].
Qed.

Lemma peer_ok_CloseStream addr : peer_ok addr (now CloseStream).
Proof.
  intros p r p' Hp. unfold now, CloseStream. destruct (Z.leb_spec (tp_wg p) 0); intros [= <- <-]; [done|].
  destruct Hp. split; [done| |done]. left. cbn. lia.
Qed.

Lemma peer_ok_read_full addr fuel n limit got : peer_ok addr (read_full_conn fuel n limit got).
Proof.
  revert n limit got. induction fuel as [|fuel IH]; intros n limit got; cbn [read_full_conn].
  - case_decide; [apply peer_ok_ret|]. by intros p r p'.
  - case_decide; [apply peer_ok_ret|]. case_decide; [apply peer_ok_fail|].
    apply peer_ok_bind; [apply peer_ok_wtry, peer_ok_Read|].
    intros [data|e|]; [apply IH|case_match; apply peer_ok_fail|apply peer_ok_panic].
Qed.

Ltac case_if := match goal with |- context [if ?b then _ else _] => destruct b eqn:? end.

Lemma read_segment_length n segs data rest : read_segment n segs = Some (data, rest) → length data ≤ n.
Proof.
  induction segs as [|[|x seg] segs IH]; [done|apply IH|]. cbn [read_segment]. intros [= <- _].
  rewrite length_take. lia.
Qed.

(** Reading changes the input only. *)
Lemma conn_Read_in n p r p' : conn_Read n p = Some (r, p') → p' = set_in (tp_in p') p.
Proof.
  unfold conn_Read. destruct (tp_open p); [|intros [= <- <-]; by destruct p].
  destruct (read_segment n (tp_in p)) as [[data rest]|]; [by intros [= <- <-]|].
  destruct (tp_eof p); [|done]. intros [= <- <-]. by destruct p.
Qed.

Lemma DefaultDecode_in p r p' : wtry DefaultDecode p = Some (r, p') → p' = set_in (tp_in p') p.
Proof.
  unfold wtry, DefaultDecode, mbind, waitm_bind.
  destruct (conn_Read 1 p) as [[[b|e|] p1]|] eqn:E1; [|intros [= <- <-]; by eapply conn_Read_in..|done].
  apply conn_Read_in in E1. case_if; [by intros [= <- <-]|].
  destruct (conn_Read 1028 p1) as [[[buf|e|] p2]|] eqn:E2; [..|done];
    apply conn_Read_in in E2; intros [= <- <-]; rewrite E2, E1 at 1; done.
Qed.

(** A round of the read loop keeps the connection in order, and what it passes
    on is a frame. *)
Lemma peer_ok_handleConn addr : peer_ok addr handleConn_step.
Proof.
  intros p r p' Hp. pose proof Hp as [Ha Hw Hd]. unfold handleConn_step. destruct (tp_loop p) eqn:Hl; [| |done].
  - assert (peer_ok addr (wtry DefaultDecode)) as Hdec.
    { apply peer_ok_wtry, peer_ok_bind; [apply peer_ok_Read|]. intros b.
      case_if; [|apply peer_ok_bind; [apply peer_ok_Read|intros buf]]; apply peer_ok_ret. }
    assert (∀ p1 r1, wtry DefaultDecode p = Some (r1, p1) → tp_wg p1 = 0%Z) as Hw1.
    { intros p1 r1 ->%DefaultDecode_in. cbn. destruct Hw as [?|[_ ?]]; congruence. }
    unfold mbind, waitm_bind. destruct (wtry DefaultDecode p) as [[[[rpc|e|]|e|] p1]|] eqn:R; [..|done];
      pose proof (Hdec _ _ _ Hp R) as Hp1; pose proof (Hw1 _ _ eq_refl) as Hw0.
    + case_match; intros [= <- <-]; [|done]. destruct Hp1. split; [done| |done]. right. cbn. split; [lia|done].
    + intros [= <- <-]. destruct Hp1. split; [done|by left|done].
    + intros [= <- <-]. destruct Hp1. split; [done|by left|done].
    + by intros [= <- <-].
    + by intros [= <- <-].
  - case_decide as Hz; intros [= <- <-]. split; [done|by left|done].
Qed.

Lemma handleConn_rpc p rpc p' :
  handleConn_step p = Some (Ok (Some rpc), p') →
  rpc_From rpc = tp_addr p ∧ length (rpc_Payload rpc) ≤ 1028 ∧ rpc_Stream rpc = false.
Proof.
  unfold handleConn_step. destruct (tp_loop p); [|by case_decide|done].
  unfold mbind, waitm_bind. destruct (wtry DefaultDecode p) as [[[[d|e|]|e|] p1]|] eqn:R; try done.
  case_match eqn:Hs; [done|]. intros [= <- <-]. split; [done|]. split; [|done]. cbn.
  revert R. unfold wtry, DefaultDecode, mbind, waitm_bind.
  destruct (conn_Read 1 p) as [[[b|e|] p2]|]; [|done..]. case_if; [intros [= <- <-]; done|].
  destruct (conn_Read 1028 p2) as [[[buf|e|] p3]|] eqn:R; [|done..]. intros [= <- <-]. cbn.
  revert R. unfold conn_Read. destruct (tp_open p2); [|done].
  destruct (read_segment 1028 (tp_in p2)) as [[data rest]|] eqn:R; [|by case_if].
  intros [= <- <-]. by eapply read_segment_length.
Qed.

Lemma keeps_on_disk {A} (c : GoM FS A) : respects keeps_wf (on_disk c).
Proof. intros s r s' (fs & _ & ->)%zoom_inv []. by split. Qed.

Lemma keeps_get_state : respects keeps_wf (get_state : GoM FileServer _).
Proof. intros s r s' [= <- <-]. reflexivity. Qed.
Lemma keeps_lift {A} (x : Res A) : respects keeps_wf (lift_res x).
Proof. intros s r s' [= <- <-]. reflexivity. Qed.

Create HintDb p2p.
#[export] Hint Resolve keeps_on_disk keeps_get_state keeps_lift keeps_peer_do keeps_on_peer
  peer_ok_Send peer_ok_Write peer_ok_CloseStream peer_ok_Read peer_ok_read_full : p2p.

(** Open a program that may wait, leaving its calls. *)
Ltac keeps_step := repeat first
  [ solve [eauto 3 with p2p] | progress intros | apply keeps_bind; [apply _| |]
  | apply keeps_wtry | apply keeps_ret; apply _ | apply keeps_wait | apply keeps_now | case_match ].

Lemma keeps_broadcast order msg : respects keeps_wf (broadcast order msg).
Proof. unfold broadcast. respects_step ltac:(solve [eauto 3 with p2p]). Qed.

Lemma keeps_mw_Write order data : respects keeps_wf (mw_Write order data).
Proof. unfold mw_Write. respects_step ltac:(solve [eauto 3 with p2p]). Qed.

Lemma keeps_copy_stream_step acc order data : respects keeps_wf (copy_stream_step (mw_Write order) acc data).
Proof. unfold copy_stream_step. respects_step ltac:(apply keeps_mw_Write). Qed.

Lemma keeps_copy_stream stream order src nw : respects keeps_wf (copy_stream_loop (mw_Write order) stream src nw).
Proof.
  revert stream nw. induction src as [|[d e] src IH]; intros stream nw; cbn [copy_stream_loop].
  - apply respects_ret; apply _.
  - apply respects_bind; [apply _|apply keeps_copy_stream_step|]. intros [st n].
    destruct e as [[|e]|]; [apply respects_ret; apply _|apply respects_fail; apply _|apply IH].
Qed.

Lemma keeps_copyEncrypt order key random src : respects keeps_wf (copyEncrypt (mw_Write order) key random src).
Proof.
  unfold copyEncrypt, copyStream. apply respects_bind; [apply _|apply keeps_lift|]. intros block.
  apply respects_bind; [apply _|apply keeps_lift|]. intros iv.
  apply respects_bind; [apply _|apply keeps_mw_Write|]. intros _. apply keeps_copy_stream.
Qed.

#[export] Hint Resolve keeps_broadcast keeps_mw_Write keeps_copyEncrypt : p2p.

Lemma keeps_Store_start order key r : respects keeps_wf (Store_start order key r).
Proof. unfold Store_start. respects_step ltac:(solve [eauto 3 with p2p]). Qed.
Lemma keeps_Store_stream order random buf : respects keeps_wf (Store_stream order random buf).
Proof. unfold Store_stream. respects_step ltac:(solve [eauto 3 with p2p]). Qed.
Lemma keeps_Get_start order key : respects keeps_wf (Get_start order key).
Proof. unfold Get_start. respects_step ltac:(solve [eauto 3 with p2p]). Qed.

Lemma keeps_copy_to_peer addr reads : respects keeps_wf (copy_to_peer addr reads).
Proof.
  induction reads as [|[d e] reads IH]; cbn [copy_to_peer]; respects_step ltac:(solve [eauto 3 with p2p]).
Qed.
#[export] Hint Resolve keeps_copy_to_peer : p2p.
Lemma keeps_handle_GetFile from m : respects keeps_wf (handleMessageGetFile from m).
Proof. unfold handleMessageGetFile. respects_step ltac:(solve [eauto 3 with p2p]). Qed.

Lemma keeps_copy_conn {A} fuel addr limit (body : A → bytes → GoM FS A) acc :
  keeps keeps_wf (copy_conn fuel addr limit body acc).
Proof.
  revert limit acc. induction fuel as [|fuel IH]; intros limit acc; cbn [copy_conn]; [apply keeps_wait|].
  case_decide; [apply keeps_ret; apply _|].
  apply keeps_bind; [apply _|apply keeps_wtry; eauto 3 with p2p|]. intros [d|e|].
  - apply keeps_bind; [apply _|apply keeps_now; eauto 3 with p2p|]. intros a. apply IH.
  - case_match; [apply keeps_ret; apply _|]. apply keeps_now, respects_fail; apply _.
  - apply keeps_now, respects_panic; apply _.
Qed.

Lemma keeps_read_limited {A} addr limit (body : A → bytes → GoM FS A) acc :
  keeps keeps_wf (read_limited addr limit body acc).
Proof. intros s. apply keeps_copy_conn. Qed.
#[export] Hint Resolve keeps_read_limited : p2p.

Lemma keeps_store_Write addr nid key limit : keeps keeps_wf (store_Write addr nid key limit).
Proof. unfold store_Write. keeps_step. Qed.
Lemma keeps_store_WriteDecrypt addr encKey nid key limit :
  keeps keeps_wf (store_WriteDecrypt addr encKey nid key limit).
Proof. unfold store_WriteDecrypt. keeps_step. Qed.
#[export] Hint Resolve keeps_store_Write keeps_store_WriteDecrypt keeps_handle_GetFile : p2p.

Lemma keeps_handleMessage from msg : keeps keeps_wf (handleMessage from msg).
Proof.
  unfold handleMessage. destruct (msg_Payload msg) as [[m|m]|]; [|keeps_step..].
  unfold handleMessageStoreFile. apply keeps_bind; [apply _|keeps_step|]. intros s.
  destruct (srv_peers s !! from); [keeps_step|]. apply keeps_now, respects_fail; apply _.
Qed.

Lemma keeps_Get_from key addr : keeps keeps_wf (Get_from key addr).
Proof. unfold Get_from, read_size. keeps_step. Qed.

Lemma keeps_Get_finish order key : keeps keeps_wf (Get_finish order key).
Proof.
  unfold Get_finish. apply keeps_bind; [apply _| |].
  - induction order as [|a order IH]; cbn [wfor_each]; [keeps_step|].
    apply keeps_bind; [apply _|apply keeps_Get_from|]. intros _. apply IH.
  - intros _. keeps_step.
Qed.

(** ** Steps keep the invariant *)

Lemma wf_tail s rpc rest : srv_wf s → srv_rpcCh s = rpc :: rest → srv_wf (set_rpcCh rest s).
Proof.
  intros [Hp Hr Hl] E. rewrite E in *. cbn in Hl. apply Forall_cons in Hr as [_ Hr].
  split; [done|done|]. cbn. lia.
Qed.

Lemma read_loop_wf addr r s s' : srv_wf s → read_loop addr s = Some (r, s') → srv_wf s'.
Proof.
  intros Hw. unfold read_loop, mbind, waitm_bind.
  destruct (on_peer addr handleConn_step s) as [[r1 s1]|] eqn:R; [|done].
  pose proof (keeps_on_peer addr _ (peer_ok_handleConn addr) _ _ _ R Hw) as Hw1.
  destruct r1 as [[rpc|]|e|]; [|by intros [= <- <-]..].
  unfold push_rpc. case_decide as Hl; [|done]. intros [= <- <-].
  destruct Hw1 as [Hp Hr _]. split; [done| |cbn; rewrite length_app; cbn; lia].
  apply Forall_app. split; [done|]. apply Forall_singleton.
  revert R. unfold on_peer. destruct (srv_peers s !! addr) as [p|] eqn:Ep; [|done].
  destruct (handleConn_step p) as [[r2 p2]|] eqn:R2; [|done]. intros [= -> <-].
  apply handleConn_rpc in R2 as (Hf & Hlen & Hst). split; [|done..]. cbn.
  rewrite Hf, (pw_addr _ _ (wf_peers _ Hw _ _ Ep)), lookup_insert_eq. by eexists.
Qed.

Lemma loop_step_wf r s s' : srv_wf s → loop_step s = Some (r, s') → srv_wf s'.
Proof.
  intros Hw. unfold loop_step. destruct (srv_looping s); [|done].
  destruct (srv_rpcCh s) as [|rpc rest] eqn:Ec; [done|]. pose proof (wf_tail _ _ _ Hw Ec) as Hw1.
  rewrite (waitm_ok _ _ s tt (set_rpcCh rest s) eq_refl). intros R.
  eapply (keeps_bind keeps_wf _ (λ _, mret tt)); [apply keeps_wtry, keeps_handleMessage|intros; apply keeps_ret; apply _|exact R|done].
Qed.

Lemma net_step_wf addr p p' : net_step p p' → peer_wf addr p → peer_wf addr p'.
Proof.
  intros H Hp. destruct H; [by apply (peer_wf_eq _ p)..|]. destruct Hp. by split.
Qed.

Lemma respects_wf {A} (c : GoM FileServer A) s : respects keeps_wf c → srv_wf s → srv_wf (c s).2.
Proof. intros Hc Hw. destruct (c s) as [r s'] eqn:E. by apply (Hc _ _ _ E). Qed.

Lemma connect_wf addr outbound s : srv_wf s → srv_wf (connect addr outbound s).2.
Proof.
  intros [Hp Hr Hl]. split; [|eapply Forall_impl; [exact Hr|]|done]; cbn.
  - apply map_Forall_insert_2; [|done]. split; [done|by left|done].
  - intros rpc [[q Hq] Hlen Hst]. split; [|done..]. cbn.
    destruct (decide (addr = rpc_From rpc)) as [<-|Hne];
      [rewrite lookup_insert_eq|rewrite lookup_insert_ne by done]; by eexists.
Qed.

Lemma srv_step_wf s s' : srv_step s s' → srv_wf s → srv_wf s'.
Proof.
  intros Hstep Hw. pose proof Hw as [Hp Hr Hl]. destruct Hstep as
    [listen s|s|dialled addr s|accepted r s s' R|addr p p' s Ha Hn|addr r s s' R|r s s' R|r s s' R|order key r s
    |order random buf s|order key s|order key r s s' R].
  - destruct listen as [[]|e|]; by split.
  - unfold Stop. destruct (srv_quit s); by split.
  - destruct dialled as [u|e|]; [|by split..]. by apply connect_wf.
  - revert R. unfold accept_round. destruct (srv_listener s) as [open|]; [|done]. unfold now.
    unfold startAcceptLoop_step. destruct (if open then accepted else Err ErrClosed) as [a|e|].
    + intros [= <- <-]. by apply connect_wf.
    + case_bool_decide; by intros [= <- <-].
    + by intros [= <- <-].
  - apply wf_put_peer; [by rewrite Ha| |done]. eapply net_step_wf; [done|]. by apply Hp.
  - by eapply read_loop_wf.
  - by eapply loop_step_wf.
  - revert R. unfold loop_quit. destruct (srv_looping s && srv_quit s); [|done].
    unfold now, mbind, waitm_bind, ignore, Close. cbn. by destruct (srv_listener s) as [[]|]; intros [= <- <-]; split.
  - by apply respects_wf; [apply keeps_Store_start|].
  - by apply respects_wf; [apply keeps_Store_stream|].
  - by apply respects_wf; [apply keeps_Get_start|].
  - by eapply keeps_Get_finish.
Qed.

Lemma NewFileServer_wf opts random disk : srv_wf (NewFileServer opts random disk).
Proof. split; cbn; [apply map_Forall_empty|constructor|lia]. Qed.

Lemma reachable_wf s s' : rtc srv_step s s' → srv_wf s → srv_wf s'.
Proof. induction 1 as [|s s1 s2 Hs _ IH]; [done|]. intros Hw. by apply IH, (srv_step_wf s). Qed.

(** ** What a handler that fails leaves *)

(** Reading and the disk leave the counters and the read loops as they are. *)
Definition keeps_loops (s s' : FileServer) : Prop :=
  ∀ a p, srv_peers s !! a = Some p → ∃ p', srv_peers s' !! a = Some p' ∧ tp_wg p' = tp_wg p ∧ tp_loop p' = tp_loop p.
#[export] Instance keeps_loops_preorder : PreOrder keeps_loops.
Proof.
  split; [intros s a p Hp; eauto|]. intros s1 s2 s3 H1 H2 a p Hp.
  destruct (H1 a p Hp) as (p1 & Hp1 & <- & <-). by apply H2.
Qed.

Lemma loops_on_disk {A} (c : GoM FS A) : respects keeps_loops (on_disk c).
Proof. intros s r s' (fs & _ & ->)%zoom_inv a p Hp. eauto. Qed.

Lemma loops_Read addr n : keeps keeps_loops (on_peer addr (conn_Read n)).
Proof.
  intros s r s'. unfold on_peer. destruct (srv_peers s !! addr) as [p|] eqn:Hp; [|intros [= <- <-]; reflexivity].
  destruct (conn_Read n p) as [[r1 p1]|] eqn:R; [|done]. apply conn_Read_in in R. intros [= <- <-] a q Hq.
  cbn. destruct (decide (addr = a)) as [<-|Hne].
  - rewrite lookup_insert_eq. rewrite Hq in Hp. injection Hp as <-. exists p1. by rewrite R.
  - rewrite lookup_insert_ne by done. eauto.
Qed.

Lemma loops_copy_conn {A} fuel addr limit (body : A → bytes → GoM FS A) acc :
  keeps keeps_loops (copy_conn fuel addr limit body acc).
Proof.
  revert limit acc. induction fuel as [|fuel IH]; intros limit acc; cbn [copy_conn]; [apply keeps_wait|].
  case_decide; [apply keeps_ret; apply _|].
  apply keeps_bind; [apply _|apply keeps_wtry, loops_Read|]. intros [d|e|].
  - apply keeps_bind; [apply _|apply keeps_now, loops_on_disk|]. intros a. apply IH.
  - case_match; [apply keeps_ret; apply _|]. apply keeps_now, respects_fail; apply _.
  - apply keeps_now, respects_panic; apply _.
Qed.

Lemma loops_store_Write addr nid key limit : keeps keeps_loops (store_Write addr nid key limit).
Proof.
  unfold store_Write. apply keeps_bind; [apply _|by intros s r s' [= <- <-] a p Hp; eauto|]. intros s.
  apply keeps_bind; [apply _|apply keeps_now, loops_on_disk|]. intros f s0. apply loops_copy_conn.
Qed.

Lemma failed_handler_loops from m e s s' p :
  handleMessageStoreFile from m s = Some (Err e, s') → srv_peers s !! from = Some p →
  ∃ p', srv_peers s' !! from = Some p' ∧ tp_wg p' = tp_wg p ∧ tp_loop p' = tp_loop p.
Proof.
  unfold handleMessageStoreFile. rewrite (waitm_ok _ _ s s s eq_refl). intros R Hp. rewrite Hp in R.
  revert R. unfold mbind, waitm_bind.
  destruct (store_Write from (msf_ID m) (msf_Key m) (msf_Size m) s) as [[[n|e1|] s1]|] eqn:R1; [..|done].
  - unfold now, peer_do. destruct (srv_peers s1 !! from) as [p1|]; [|done].
    unfold CloseStream. destruct (tp_wg p1 <=? 0)%Z; done.
  - intros [= <- <-]. by apply (loops_store_Write _ _ _ _ _ _ _ R1).
  - done.
Qed.
