(* ===== verification/P2PProps.v ===== *)
(** * Properties of the peer-to-peer file server.

    What [Store] and [Get] promise when the read loop takes the marker of a
    stream before the event loop handles its message, what holds in every order
    of steps, and what goes wrong in the others. *)

From Stdlib Require Import ZArith Strings.Byte.
From S2P Require Import Prelude Metadata Replication Names Hash Objects Paths Store StoreSpec StoreReliable Aes Crypto Md5 Gob Transport FileServer FileServerSpec P2PRuns P2PInv.
From stdpp Require Import options.

(** C31: what [Store] sends is what a peer keeps, in the order of steps that the
    sleep in [Store] aims at.  A server stores a file and sends it to its peers; a
    peer whose connection is idle gets the announcement on its own, then the whole
    stream, cut in any way, and its read loop takes the marker of the stream before
    its event loop handles the announcement: it ends with the file encrypted under
    the identifier of the sender and the hash of the key, its other files as they
    were, and its connection idle again; the sender has the file in the clear.
    Nothing in the program enforces that order, and [early_handler_panics] shows what
    the other order does. *)
Theorem Store_replicates rootA rootB order a from key r data iv A B p q :
  serving rootA A → plain (srv_ID A) → String.length (srv_ID A) ≤ 830 → key_ok (srv_EncKey A) →
  live order A → a ∈ order → srv_peers A !! a = Some p → tp_out p = [] →
  drain (r_reads r) = (data, None) → (zlen data < 2 ^ 62)%Z → length iv = 16 →
  serving rootB B → srv_looping B = true → srv_rpcCh B = [] → srv_peers B !! from = Some q → quiet from q →
  ∃ A1 p1 A2 frames,
    Store_start order key r A = (Ok data, A1) ∧ srv_peers A1 !! a = Some p1 ∧
    Store_stream order (Ok iv) data A1 = (Ok tt, A2) ∧ srv_peers A2 !! a = Some (push frames p1) ∧
    file_at (srv_disk A2) (object_path (cas_opts rootA) (srv_ID A) key) = Some data ∧
    ∀ control stream, arrives_alone (tp_out p1) control → concat stream = concat frames →
      ∃ fs' q', receive_file from control stream B = Some (Ok tt, put_peer from q' (set_disk fs' B)) ∧
        written rootB (srv_ID A) (hashKey key) (sealed (srv_EncKey A) iv data) (srv_disk B) fs' ∧
        quiet from q' ∧ tp_out q' = tp_out q.
Proof.
  intros HA Hid Hlen Hk Hl Ha Hp Hout Hd Hsz Hiv HB Hloop Hch Hq Hquiet.
  destruct (Store_start_ok rootA order key r data A HA Hid Hl Hd) as (fs1 & R1 & Hw1).
  set (msg := store_message (srv_ID A) key data) in *. set (A1 := sent order _ _) in R1.
  assert (live order A1) as Hl1 by (by apply live_sent).
  exists A1, (push [[IncomingMessage]; gob_Encode msg] p). eexists _, _.
  split; [exact R1|]. split; [by apply sent_peer|]. split; [by apply Store_stream_ok|].
  split; [apply sent_peer; [done|by apply sent_peer]|]. split; [apply Hw1|].
  intros control stream Hal Est. cbn in Hal. rewrite Hout in Hal.
  rewrite concat_stream_frames in Est.
  apply (receive_file_ok rootB from
    {| msf_ID := srv_ID A; msf_Key := hashKey key; msf_Size := zlen data + 16 |} control stream
    (sealed (srv_EncKey A) iv data) B q HB Hloop Hch Hq Hquiet Hid).
  - by apply store_message_ok.
  - by apply store_message_length.
  - by rewrite zlen_sealed.
  - exact Hal.
  - exact Est.
Qed.


(** C33: in every state a new server can reach, in any order of its goroutines,
    of the callers of [Store] and [Get] and of what the network does: each
    connection is in the map under its own address, its counter is 0, or 1 while
    its read loop waits, and a read loop that has ended has closed its
    connection; the channel holds at most 1024 messages, each of at most 1028
    bytes and from a peer that is in the map. *)
Theorem reachable_server_wf opts random disk s :
  rtc srv_step (NewFileServer opts random disk) s → srv_wf s.
Proof. intros H. eapply reachable_wf; [exact H|]. apply NewFileServer_wf. Qed.

(** The announcements and requests of a server whose identifier has at most
    830 characters fit the single read of 1028 bytes with which the decoder
    takes a message, for any key. *)
Theorem messages_fit nid key data :
  String.length nid ≤ 830 → (zlen data < 2 ^ 62)%Z →
  length (gob_Encode (store_message nid key data)) ≤ 1028 ∧
  length (gob_Encode (get_message nid key)) ≤ 1028.
Proof. intros Hid Hd. split; [by apply store_message_length|by apply get_message_length]. Qed.

(** C34: the order of the two readers of a connection matters.  When the event
    loop handles an announcement before the read loop has taken the marker of
    its stream, the marker is stored as the first byte of the file, and closing
    the stream brings the counter below zero: the server panics. *)
Theorem early_handler_panics root m rpc rest bs s p :
  serving root s → plain (msf_ID m) → srv_looping s = true → srv_rpcCh s = rpc :: rest →
  gob_Decode (rpc_Payload rpc) = Some {| msg_Payload := Some (StoreFile m) |} →
  srv_peers s !! rpc_From rpc = Some p → tp_open p = true → tp_wg p = 0%Z →
  concat (tp_in p) = IncomingStream :: bs → (0 < msf_Size m ≤ 1 + zlen bs)%Z →
  ∃ s', loop_step s = Some (Panic, s') ∧
    file_at (srv_disk s') (object_path (cas_opts root) (msf_ID m) (msf_Key m)) =
      Some (IncomingStream :: take (Z.to_nat (msf_Size m - 1)) bs).
Proof.
  intros [Hst Hr] Hid Hloop Hch Hdec Hp Ho Hwg Hin Hsz. set (from := rpc_From rpc) in *.
  set (n := Z.to_nat (msf_Size m - 1)).
  destruct (store_Write_ok root from (msf_ID m) (msf_Key m) (msf_Size m) (IncomingStream :: take n bs)
    (drop n bs) (set_rpcCh rest s) p) as (fs' & p' & R & Hw & Hl); [by split|done|done| |].
  { split; [done|]. split; [by rewrite Hin; cbn; rewrite take_drop|]. left.
    unfold zlen in *. cbn. rewrite length_take. lia. }
  assert (tp_wg p' = 0%Z) as Hwg' by (destruct Hl as [E _]; by rewrite E).
  set (s1 := put_peer from p' (set_disk fs' (set_rpcCh rest s))) in *.
  exists s1. split; [|apply Hw].
  assert (handleMessage from {| msg_Payload := Some (StoreFile m) |} (set_rpcCh rest s) = Some (Panic, s1)) as RH.
  { cbn [handleMessage msg_Payload]. unfold handleMessageStoreFile.
    rewrite (waitm_ok _ _ (set_rpcCh rest s) (set_rpcCh rest s) _ eq_refl).
    change (srv_peers (set_rpcCh rest s)) with (srv_peers s). rewrite Hp, (waitm_ok _ _ _ _ _ R). unfold now.
    erewrite peer_do_run; [|apply put_peer_get|by apply CloseStream_panics; lia].
    unfold s1. by rewrite put_peer_twice. }
  by rewrite (loop_step_run _ _ _ _ _ _ Hloop Hch Hdec RH).
Qed.

(** A stream that ends early is taken for the file: when the other end
    closes before the announced size has arrived, what has arrived is stored and
    the message is handled without an error. *)
Theorem truncated_stream_stored root from m payload s p :
  serving root s → plain (msf_ID m) → srv_peers s !! from = Some p → tp_wg p = 1%Z → tp_open p = true →
  tp_eof p = true → concat (tp_in p) = payload → (zlen payload < msf_Size m)%Z →
  ∃ fs' p', handleMessageStoreFile from m s = Some (Ok tt, put_peer from p' (set_disk fs' s)) ∧
    written root (msf_ID m) (msf_Key m) payload (srv_disk s) fs'.
Proof.
  intros Hs Hid Hp Hwg Ho He Hin Hlt.
  destruct (handle_StoreFile_ok root from m payload [] s p) as (fs' & p' & R & Hw & _); [done|done|done|lia| |].
  { split; [done|]. split; [by rewrite app_nil_r|]. right. split; [lia|done]. }
  eauto.
Qed.

(** A handler that fails keeps the connection of its peer from being read
    ever again: the stream is not closed, so a read loop that waits for it goes
    on waiting. *)
Theorem failed_store_stops_reading from m e s s' p :
  srv_peers s !! from = Some p → tp_loop p = StreamWait → tp_wg p = 1%Z →
  handleMessageStoreFile from m s = Some (Err e, s') → read_loop from s' = None.
Proof.
  intros Hp Hl Hwg R. destruct (failed_handler_loops _ _ _ _ _ _ R Hp) as (p' & Hp' & Hw' & Hl').
  unfold read_loop. apply waitm_none. unfold on_peer, handleConn_step.
  rewrite Hp', Hl', Hl, decide_False; [done|]. rewrite Hw', Hwg. done.
Qed.

(** A connection that is gone ends every [Store] with an error: peers are
    never removed, the file is written to the local disk and announced to the
    peers before the one that is gone, those after it hear nothing, and no peer
    gets the stream. *)
Theorem dead_peer_fails_Store root before a after key r data s p :
  serving root s → plain (srv_ID s) → drain (r_reads r) = (data, None) →
  live before s → NoDup (before ++ a :: after) → srv_peers s !! a = Some p → tp_open p = false →
  ∃ s', Store_start (before ++ a :: after) key r s = (Err ErrClosed, s') ∧
    written root (srv_ID s) key data (srv_disk s) (srv_disk s') ∧
    ∀ b, b ∈ after → srv_peers s' !! b = srv_peers s !! b.
Proof.
  intros [Hst Hr] Hid Hd Hl Hnd Hp Ho. apply NoDup_app in Hnd as (_ & Hdis & _).
  destruct (StoreWrite_written root (srv_ID s) key r data (srv_disk s) Hid Hr Hd) as (fs' & R & Hw).
  exists (sent before [[IncomingMessage]; gob_Encode (store_message (srv_ID s) key data)] (set_disk fs' s)).
  split; [|split; [exact Hw|]].
  - unfold Store_start. rewrite (gom_bind_ok get_state _ s s s eq_refl), Hst.
    rewrite (gom_bind_ok _ _ _ _ _ (on_disk_run _ _ _ _ R)).
    apply gom_bind_err, broadcast_dead with (p := p); [done| |done|done].
    intros Ha. apply (Hdis a Ha), list_elem_of_here.
  - intros b Hb. cbn. rewrite map_lookup_imap. destruct (srv_peers s !! b); [|done]. cbn.
    rewrite decide_False; [done|]. intros Hb'. by apply (Hdis b Hb'), list_elem_of_further.
Qed.

(** C35: a [Get] that fails makes the next one succeed with nothing: when the
    peer closes without an answer, [Get] returns an error, but it has created
    the file; from then on [Get] finds it on the local disk and returns it,
    empty. *)
Theorem failed_Get_leaves_empty root a key order s p :
  serving root s → plain (srv_ID s) → key_ok (srv_EncKey s) → srv_peers s !! a = Some p →
  tp_open p = true → tp_eof p = true → concat (tp_in p) = [] →
  ∃ s1 s2, Get_finish [a] key s = Some (Err (ErrOther "EOF"), s1) ∧
    Get_start order key s1 = (Ok (Some (reader_of [])), s2).
Proof.
  intros Hs Hid Hk Hp Ho He Hin.
  destruct (Get_finish_eof root key a s p Hs Hid Hk Hp Ho He Hin) as (fs1 & R1 & Hr1 & Hf1 & _).
  destruct (Get_start_local root order key [] (set_disk fs1 s)) as (fs2 & R2 & _); [|done|done|].
  { destruct Hs. by split. }
  by eexists _, _.
Qed.

(** A peer that does not have the file makes [Get] wait: it answers nothing
    at all to the request, and [Get] cannot go on while nothing arrives. *)
Theorem missing_file_blocks_Get rootA rootB a from key A B p q :
  serving rootA A → plain (srv_ID A) → String.length (srv_ID A) ≤ 830 →
  srv_peers A !! a = Some p → quiet a p → tp_out p = [] → tp_eof p = false →
  file_at (srv_disk A) (object_path (cas_opts rootA) (srv_ID A) key) = None →
  serving rootB B → srv_looping B = true → srv_rpcCh B = [] → srv_peers B !! from = Some q → quiet from q →
  file_at (srv_disk B) (object_path (cas_opts rootB) (srv_ID A) (hashKey key)) = None →
  ∃ A1 p1, Get_start [a] key A = (Ok None, A1) ∧ srv_peers A1 !! a = Some p1 ∧
    Get_finish [a] key A1 = None ∧
    ∀ control, arrives_alone (tp_out p1) control →
    ∃ B1 q1, serve_file from control B = Some (Ok tt, B1) ∧ srv_peers B1 !! from = Some q1 ∧
      tp_out q1 = tp_out q.
Proof.
  intros HA Hid Hlen Hp Hqp Hout He Hnone HB Hloop Hch Hq Hquiet Hf.
  assert (live [a] A) as Hl.
  { split; [apply NoDup_singleton|]. intros b ->%list_elem_of_singleton. exists p. by destruct Hqp. }
  destruct (Get_start_ask rootA [a] key A HA Hid Hl Hnone) as (fs1 & R1 & Hr1 & T1).
  set (A1 := sent [a] _ _) in R1. set (msg := get_message (srv_ID A) key) in *.
  exists A1, (push [[IncomingMessage]; gob_Encode msg] p).
  assert (srv_peers A1 !! a = Some (push [[IncomingMessage]; gob_Encode msg] p)) as Hp1
    by (apply sent_peer; [apply list_elem_of_here|done]).
  split; [done|]. split; [done|]. destruct Hqp. split; [by eapply Get_finish_waits|].
  intros control Hal. cbn in Hal. rewrite Hout in Hal.
  apply (serve_missing rootB from {| mgf_ID := srv_ID A; mgf_Key := hashKey key |} control B q); try done.
  by apply get_message_length.
Qed.
