(* ===== verification/P2PScenarios.v ===== *)
(** * Two peer-to-peer file servers at work.

    Concrete runs: the theorems about the file server at a pair of connected
    servers, and executions that show what the transport does when frames are
    joined or too long. *)

From Stdlib Require Import ZArith Strings.Byte.
From S2P Require Import Prelude Metadata Replication Names Hash Objects Paths Store StoreSpec StoreReliable Aes Crypto Md5 Gob Transport FileServer FileServerSpec P2PRuns P2PInv P2PProps.
From stdpp Require Import options.

(** ** Two servers *)

Definition demo_EncKey : bytes := replicate 16 "007"%byte.
Definition demo_iv : bytes := replicate 16 "001"%byte.
Definition demo_file : bytes := bytes_of_string "hello world".

Definition demo_opts (nid root : string) : FileServerOpts :=
  {| fso_ID := nid; fso_EncKey := demo_EncKey; fso_StorageRoot := root;
     fso_PathTransformFunc := Some CASPathTransformFunc; fso_BootstrapNodes := [] |}.
Definition demo_server (nid root : string) : FileServer := NewFileServer (demo_opts nid root) [] empty_fs.

Definition conn_b : TCPeer := NewTCPeer "b:1" true.
Definition conn_a : TCPeer := NewTCPeer "a:9" false.

Definition serverA : FileServer := (connect "b:1" true (demo_server "nodea" "ra")).2.
Definition serverB : FileServer := (Start (Ok tt) (connect "a:9" false (demo_server "nodeb" "rb")).2).2.

Lemma serverA_serving : serving "ra" serverA.
Proof. split; [done|apply empty_fs_ready]. Qed.
Lemma serverB_serving : serving "rb" serverB.
Proof. split; [done|apply empty_fs_ready]. Qed.
Lemma serving_same root s s' :
  serving root s → srv_store s' = srv_store s → srv_disk s' = srv_disk s → serving root s'.
Proof. intros [Hst Hr] E1 E2. split; by rewrite ?E1, ?E2. Qed.
Lemma serverA_live : live ["b:1"] serverA.
Proof.
  split; [apply NoDup_singleton|]. intros b ->%list_elem_of_singleton. exists conn_b. by split.
Qed.
Lemma nodea_plain : plain "nodea".
Proof. by repeat split. Qed.
Lemma demo_EncKey_ok : key_ok demo_EncKey.
Proof. by left. Qed.
Lemma conn_quiet addr outbound : quiet addr (NewTCPeer addr outbound).
Proof. by split. Qed.

(** A server that keeps an object, on a disk with nothing else. *)
Definition holding (s : FileServer) (nid key : string) (d : bytes) : FileServer :=
  set_disk (StoreWrite (srv_store s) nid key (reader_of d) (srv_disk s)).2 s.

Lemma holding_ok root s nid key d :
  serving root s → plain nid →
  serving root (holding s nid key d) ∧
  file_at (srv_disk (holding s nid key d)) (object_path (cas_opts root) nid key) = Some d.
Proof.
  intros [Hst Hr] Hn.
  destruct (StoreWrite_written root nid key (reader_of d) d (srv_disk s) Hn Hr) as (fs' & R & Hr' & Hf & _);
    [cbn; by rewrite app_nil_r|].
  unfold holding. rewrite Hst, R. cbn. split; [|done]. by split.
Qed.

(** ** The theorems at these servers *)

Lemma Store_replicates_witness :
  ∃ A1 p1 A2 frames,
    Store_start ["b:1"] "pic" (reader_of demo_file) serverA = (Ok demo_file, A1) ∧
    srv_peers A1 !! "b:1" = Some p1 ∧
    Store_stream ["b:1"] (Ok demo_iv) demo_file A1 = (Ok tt, A2) ∧
    ∀ stream, concat stream = concat frames →
      ∃ fs' q', receive_file "a:9" (tp_out p1) stream serverB = Some (Ok tt, put_peer "a:9" q' (set_disk fs' serverB)) ∧
        quiet "a:9" q'.
Proof.
  destruct (Store_replicates "ra" "rb" ["b:1"] "b:1" "a:9" "pic" (reader_of demo_file) demo_file demo_iv
    serverA serverB conn_b conn_a serverA_serving nodea_plain ltac:(vm_compute; lia) demo_EncKey_ok
    serverA_live ltac:(apply list_elem_of_here) eq_refl eq_refl eq_refl ltac:(vm_compute; done) eq_refl
    serverB_serving eq_refl eq_refl eq_refl (conn_quiet _ _))
    as (A1 & p1 & A2 & frames & R1 & Hp1 & R2 & _ & _ & Hrecv).
  exists A1, p1, A2, frames. split; [exact R1|]. split; [exact Hp1|]. split; [exact R2|].
  intros stream Hs.
  assert (clean (tp_out p1) = tp_out p1) as Hc.
  { assert (A1 = (Store_start ["b:1"] "pic" (reader_of demo_file) serverA).2) as -> by (by rewrite R1).
    assert (Some p1 = Some (push [[IncomingMessage]; gob_Encode (store_message "nodea" "pic" demo_file)] conn_b)) as E.
    { rewrite <-Hp1. vm_compute. reflexivity. }
    injection E as ->. vm_compute. reflexivity. }
  destruct (Hrecv (tp_out p1) stream (or_introl Hc) Hs) as (fs' & q' & R & _ & Hq & _).
  exists fs', q'. split; [exact R|exact Hq].
Defined.

Definition keeperB : FileServer :=
  holding serverB "nodea" (hashKey "pic") (sealed demo_EncKey demo_iv demo_file).

Lemma keeperB_ok : serving "rb" keeperB ∧
  file_at (srv_disk keeperB) (object_path (cas_opts "rb") "nodea" (hashKey "pic")) =
    Some (sealed demo_EncKey demo_iv demo_file).
Proof. apply holding_ok; [apply serverB_serving|apply nodea_plain]. Qed.


Lemma reachable_server_wf_witness :
  rtc srv_step (demo_server "nodea" "ra") serverA ∧ srv_wf serverA.
Proof.
  assert (rtc srv_step (demo_server "nodea" "ra") serverA) as H
    by (eapply rtc_once, (step_dial (Ok tt) "b:1")).
  split; [exact H|]. exact (reachable_server_wf (demo_opts "nodea" "ra") [] empty_fs serverA H).
Defined.

Lemma messages_fit_witness :
  length (gob_Encode (store_message "nodea" "pic" demo_file)) ≤ 1028 ∧
  length (gob_Encode (get_message "nodea" "pic")) ≤ 1028.
Proof. apply messages_fit; [vm_compute; lia|vm_compute; done]. Defined.

(** The announcement of a file is in the channel and its stream has arrived, but
    the read loop has not run. *)
Definition announcement : RPC :=
  {| rpc_From := "a:9"; rpc_Payload := gob_Encode (store_message "nodea" "pic" demo_file); rpc_Stream := false |}.
Definition with_input (segs : list bytes) (p : TCPeer) : TCPeer := set_in segs p.

Definition hastyB : FileServer :=
  set_rpcCh [announcement] (put_peer "a:9"
    (with_input (stream_frames demo_EncKey demo_iv demo_file) conn_a) serverB).

Lemma early_handler_panics_witness :
  ∃ s', loop_step hastyB = Some (Panic, s') ∧
    file_at (srv_disk s') (object_path (cas_opts "rb") "nodea" (hashKey "pic")) =
      Some (IncomingStream :: take 26 (sealed demo_EncKey demo_iv demo_file)).
Proof.
  exact (early_handler_panics "rb"
    {| msf_ID := "nodea"; msf_Key := hashKey "pic"; msf_Size := zlen demo_file + 16 |} announcement []
    (sealed demo_EncKey demo_iv demo_file) hastyB
    (with_input (stream_frames demo_EncKey demo_iv demo_file) conn_a)
    (serving_same "rb" serverB hastyB serverB_serving eq_refl eq_refl) nodea_plain eq_refl eq_refl
    ltac:(apply gob_Decode_frame; [apply store_message_ok; vm_compute; done|vm_compute; lia])
    eq_refl eq_refl eq_refl (concat_stream_frames _ _ _) ltac:(vm_compute; done)).
Defined.

(** A stream of which half has arrived when the other end closes. *)
Definition cut_conn (payload : bytes) : TCPeer := {|
  tp_addr := "a:9"; tp_outbound := false; tp_in := [payload]; tp_eof := true; tp_out := [];
  tp_open := true; tp_wg := 1; tp_loop := StreamWait |}.

Lemma truncated_stream_stored_witness :
  ∃ fs' p', handleMessageStoreFile "a:9" {| msf_ID := "nodea"; msf_Key := "k"; msf_Size := 27 |}
      (put_peer "a:9" (cut_conn demo_file) serverB) =
    Some (Ok tt, put_peer "a:9" p' (set_disk fs' (put_peer "a:9" (cut_conn demo_file) serverB))) ∧
    written "rb" "nodea" "k" demo_file empty_fs fs'.
Proof.
  exact (truncated_stream_stored "rb" "a:9" {| msf_ID := "nodea"; msf_Key := "k"; msf_Size := 27 |} demo_file
    (put_peer "a:9" (cut_conn demo_file) serverB) (cut_conn demo_file)
    (serving_same "rb" serverB (put_peer "a:9" (cut_conn demo_file) serverB) serverB_serving eq_refl eq_refl) nodea_plain eq_refl eq_refl eq_refl eq_refl eq_refl ltac:(vm_compute; done)).
Defined.

(** A disk on which nothing can be created. *)
Definition full_fs : FS := {| fs_tree := ∅; fs_outcomes := λ _, Some "no space left on device"; fs_used := 0 |}.
Definition fullB : FileServer := set_disk full_fs (put_peer "a:9" (cut_conn demo_file) serverB).

Definition small_file : MessageStoreFile := {| msf_ID := "nodea"; msf_Key := "k"; msf_Size := 11 |}.

Lemma fullB_fails :
  match handleMessageStoreFile "a:9" small_file fullB with Some (Err _, _) => true | _ => false end = true.
Proof. vm_compute. reflexivity. Qed.

Lemma failed_store_stops_reading_witness :
  ∃ e s', handleMessageStoreFile "a:9" small_file fullB = Some (Err e, s') ∧ read_loop "a:9" s' = None.
Proof.
  pose proof fullB_fails as H.
  destruct (handleMessageStoreFile "a:9" small_file fullB) as [[[u|e|] s']|] eqn:R; try discriminate H.
  exists e, s'. split; [reflexivity|].
  exact (failed_store_stops_reading "a:9" small_file e fullB s' (cut_conn demo_file) eq_refl eq_refl eq_refl R).
Defined.

(** A server with a peer that is gone between two that are there. *)
Definition threeA : FileServer :=
  put_peer "c:2" (conn_Close (NewTCPeer "c:2" true)) (put_peer "d:3" (NewTCPeer "d:3" true) serverA).

Lemma dead_peer_fails_Store_witness :
  ∃ s', Store_start ["b:1"; "c:2"; "d:3"] "pic" (reader_of demo_file) threeA = (Err ErrClosed, s') ∧
    written "ra" "nodea" "pic" demo_file empty_fs (srv_disk s') ∧
    ∀ b, b ∈ ["d:3"] → srv_peers s' !! b = srv_peers threeA !! b.
Proof.
  apply (dead_peer_fails_Store "ra" ["b:1"] "c:2" ["d:3"] "pic" (reader_of demo_file) demo_file threeA
    (conn_Close (NewTCPeer "c:2" true))); try done.
  - split; [apply NoDup_singleton|]. intros b ->%list_elem_of_singleton. exists conn_b. by split.
  - by repeat (apply NoDup_cons; split; [set_solver|]); apply NoDup_nil.
Defined.

(** A peer that closes without an answer. *)
Definition goneA : FileServer := put_peer "b:1" (cut_conn []) serverA.

Lemma failed_Get_leaves_empty_witness :
  ∃ s1 s2, Get_finish ["b:1"] "pic" goneA = Some (Err (ErrOther "EOF"), s1) ∧
    Get_start ["b:1"] "pic" s1 = (Ok (Some (reader_of [])), s2).
Proof.
  exact (failed_Get_leaves_empty "ra" "b:1" "pic" ["b:1"] goneA (cut_conn [])
    (serving_same "ra" serverA goneA serverA_serving eq_refl eq_refl) nodea_plain demo_EncKey_ok eq_refl eq_refl eq_refl eq_refl).
Defined.

Lemma missing_file_blocks_Get_witness :
  ∃ A1 p1, Get_start ["b:1"] "pic" serverA = (Ok None, A1) ∧ srv_peers A1 !! "b:1" = Some p1 ∧
    Get_finish ["b:1"] "pic" A1 = None ∧
    ∀ control, arrives_alone (tp_out p1) control →
    ∃ B1 q1, serve_file "a:9" control serverB = Some (Ok tt, B1) ∧ srv_peers B1 !! "a:9" = Some q1 ∧
      tp_out q1 = [].
Proof.
  exact (missing_file_blocks_Get "ra" "rb" "b:1" "a:9" "pic" serverA serverB conn_b conn_a
    serverA_serving nodea_plain ltac:(vm_compute; lia) eq_refl (conn_quiet _ _) eq_refl eq_refl eq_refl
    serverB_serving eq_refl eq_refl eq_refl (conn_quiet _ _) eq_refl).
Defined.

(** ** Executions *)

Definition run {A} (c : WaitM FileServer A) (s : FileServer) : FileServer :=
  match c s with Some (_, s') => s' | None => s end.
Definition outcome {A} (c : WaitM FileServer A) (s : FileServer) : option (Res A) := fst <$> c s.
Definition outbox (addr : string) (s : FileServer) : list bytes :=
  match srv_peers s !! addr with Some p => tp_out p | None => [] end.

(** A file is stored on one server, goes to the other, is lost and comes back. *)
Example lost_file_comes_back :
  let A1 := (Store_start ["b:1"] "pic" (reader_of demo_file) serverA).2 in
  let A2 := (Store_stream ["b:1"] (Ok demo_iv) demo_file A1).2 in
  let B1 := run (receive_file "a:9" (outbox "b:1" A1) (drop 2 (outbox "b:1" A2))) serverB in
  let A3 := put_peer "b:1" conn_b (set_disk empty_fs A2) in
  let A4 := (Get_start ["b:1"] "pic" A3).2 in
  let B2 := run (serve_file "a:9" (outbox "b:1" A4)) B1 in
  outcome (collect "b:1" "pic" (outbox "a:9" B2)) A4 = Some (Ok (reader_of demo_file)).
Proof. vm_compute. reflexivity. Qed.

(** A round of [runP2PDemo]: the third server stores a file, deletes its own copy
    and gets the file back from the two servers it is connected to. *)
Definition demo_s1 : FileServer :=
  (Start (Ok tt) (connect "s3:1" false (makeServer ":3000" [] (replicate 32 "001"%byte) demo_EncKey empty_fs)).2).2.
Definition demo_s2 : FileServer :=
  (Start (Ok tt) (connect "s3:2" false (makeServer ":7000" [] (replicate 32 "002"%byte) demo_EncKey empty_fs)).2).2.
Definition demo_s3 : FileServer :=
  (connect ":7000" true (connect ":3000" true
    (makeServer ":5000" [":3000"; ":7000"] (replicate 32 "003"%byte) demo_EncKey empty_fs)).2).2.

Example demo_round :
  let order := [":3000"; ":7000"] in
  let key := "picture_0.png" in
  let data := bytes_of_string "my big data file here!" in
  let A1 := (Store_start order key (reader_of data) demo_s3).2 in
  let A2 := (Store_stream order (Ok demo_iv) data A1).2 in
  let B1 := run (receive_file "s3:1" (outbox ":3000" A1) (drop 2 (outbox ":3000" A2))) demo_s1 in
  let B2 := run (receive_file "s3:2" (outbox ":7000" A1) (drop 2 (outbox ":7000" A2))) demo_s2 in
  let A3 := set_disk (StoreDelete (srv_store A2) (srv_ID A2) key (srv_disk A2)).2
    (put_peer ":3000" (NewTCPeer ":3000" true) (put_peer ":7000" (NewTCPeer ":7000" true) A2)) in
  let A4 := (Get_start order key A3).2 in
  let C1 := run (serve_file "s3:1" (outbox ":3000" A4)) B1 in
  let C2 := run (serve_file "s3:2" (outbox ":7000" A4)) B2 in
  outcome (now (arrive ":3000" (outbox "s3:1" C1));; now (arrive ":7000" (outbox "s3:2" C2));;
           read_loop ":3000";; read_loop ":7000";; Get_finish order key) A4 = Some (Ok (reader_of data)).
Proof. vm_compute. reflexivity. Qed.

(** When the announcement and the stream arrive as one segment, the decoder
    takes the stream for a part of the message: the file never gets there, and
    the event loop waits for it. *)
Example joined_stream_is_lost :
  let A1 := (Store_start ["b:1"] "pic" (reader_of demo_file) serverA).2 in
  let A2 := (Store_stream ["b:1"] (Ok demo_iv) demo_file A1).2 in
  let B1 := run (now (arrive "a:9" [concat (outbox "b:1" A2)]);; read_loop "a:9") serverB in
  input "a:9" B1 = [] ∧ length (srv_rpcCh B1) = 1 ∧
  outcome loop_step B1 = None ∧ outcome (read_loop "a:9") B1 = None.
Proof. by vm_compute. Qed.

(** The messages of a server with an identifier of 1000 characters do not fit
    the read of the decoder: they are cut, and dropped as undecodable; what is
    left of one is taken for the next frame. *)
Definition long_id : string := String.string_of_list_byte (replicate 1000 "a"%byte).
Example long_identifier_is_cut :
  let m := gob_Encode (store_message long_id "pic" demo_file) in
  let B1 := run (now (arrive "a:9" [[IncomingMessage]; m]);; read_loop "a:9") serverB in
  (gob_Decode <$> (rpc_Payload <$> srv_rpcCh B1)) = [None] ∧
  zlen (input "a:9" B1) = (zlen m - 1028)%Z.
Proof. by vm_compute. Qed.

(** An error of [Accept] other than the end of the listener. *)
Example accept_error_panics :
  outcome (accept_round (Err (ErrOther "too many open files"))) serverB = Some Panic ∧
  outcome (accept_round (Ok "d:4")) (run loop_quit (Stop serverB).2) = Some (Ok false).
Proof. by split. Qed.

(** [Stop] twice. *)
Example stop_twice_panics : (Stop (Stop serverA).2).1 = Panic.
Proof. reflexivity. Qed.
